(** * Tenant-isolated data access engine: a shallow embedding

    The development follows the TypeScript sources of the multi-tenant SDK:
    - [RedisCacheAdapter]     (cache layer, tenant-scoped keys),
    - [PostgreSQLAdapter], [MySQLAdapter], [MongoDBAdapter], [SupabaseAdapter]
      (storage adapters),
    - [MigrationManager]      (migration engine),
    - [DataManagerV3], [DataManagerV2] (data access facade).

    Asynchronous methods are modelled as state-passing functions over one
    [World] (backend tables, Redis keyspace, clock, pending timers, the
    engine's lock flag, id generator, event log); a method either returns
    a value or throws, which is the [Res] type. *)

From Stdlib Require Import ZArith List Ascii String Bool Lia.
From stdpp Require Import base option list gmap strings pretty.

Local Open Scope Z_scope.
Set Warnings "-register-all".

(** ** JavaScript values *)

Inductive Value : Type :=
  | VUndef
  | VNull
  | VBool (b : bool)
  | VNum (n : Z)
  | VStr (s : string)
  | VArr (items : list Value)
  | VObj (fields : list (string * Value))
  | VDate (time : Z).   (* a [Date] object, by its time value *)

(** Objects keep their insertion order, as JavaScript objects do. *)
Abbreviation Obj := (list (string * Value)).

Fixpoint obj_get (o : Obj) (k : string) : option Value :=
  match o with
  | [] => None
  | (k', v) :: o' => if String.eqb k' k then Some v else obj_get o' k
  end.

(** [o[k] = v]: an existing key keeps its position, a new key is appended. *)
Fixpoint obj_set (o : Obj) (k : string) (v : Value) : Obj :=
  match o with
  | [] => [(k, v)]
  | (k', v') :: o' =>
      if String.eqb k' k then (k', v) :: o' else (k', v') :: obj_set o' k v
  end.

Fixpoint obj_delete (o : Obj) (k : string) : Obj :=
  match o with
  | [] => []
  | (k', v') :: o' =>
      if String.eqb k' k then obj_delete o' k else (k', v') :: obj_delete o' k
  end.

(** Object spread [{...a, ...b}]. *)
Definition obj_spread (a b : Obj) : Obj :=
  fold_left (fun acc kv => obj_set acc (fst kv) (snd kv)) b a.

(** Property access [v.k] on a value that is not null or undefined. *)
Definition prop (v : Value) (k : string) : Value :=
  match v with
  | VObj o => default VUndef (obj_get o k)
  | _ => VUndef
  end.

(** JavaScript truthiness, as used by [if (x)] and [a || b]. *)
Definition truthy (v : Value) : bool :=
  match v with
  | VUndef | VNull => false
  | VBool b => b
  | VNum n => negb (n =? 0)
  | VStr s => negb (String.eqb s "")
  | VArr _ | VObj _ | VDate _ => true
  end.

(** [n || d] on an optional number: [undefined] and [0] fall through. *)
Definition num_or (n : option Z) (d : Z) : Z :=
  match n with
  | Some x => if x =? 0 then d else x
  | None => d
  end.

(** [s || d] on an optional string: [undefined] and the empty string fall
    through. *)
Definition str_or (s : option string) (d : string) : string :=
  match s with
  | Some x => if String.eqb x "" then d else x
  | None => d
  end.

(** Structural equality of values (the comparison a store performs on a
    column or field value). *)
Fixpoint value_eqb (a b : Value) : bool :=
  match a, b with
  | VUndef, VUndef => true
  | VNull, VNull => true
  | VBool x, VBool y => Bool.eqb x y
  | VNum x, VNum y => x =? y
  | VStr x, VStr y => String.eqb x y
  | VArr xs, VArr ys =>
      (fix go (xs ys : list Value) : bool :=
         match xs, ys with
         | [], [] => true
         | x :: xs', y :: ys' => value_eqb x y && go xs' ys'
         | _, _ => false
         end) xs ys
  | VObj xs, VObj ys =>
      (fix go (xs ys : list (string * Value)) : bool :=
         match xs, ys with
         | [], [] => true
         | (k, x) :: xs', (l, y) :: ys' =>
             String.eqb k l && value_eqb x y && go xs' ys'
         | _, _ => false
         end) xs ys
  | VDate x, VDate y => x =? y
  | _, _ => false
  end.

(** [date.toISOString()], the text [JSON.stringify] gives for a [Date].
    The calendar is not modelled: the text is written here as the decimal
    numeral of the time value, one text for each time. *)
Definition toISOString (time : Z) : string := pretty time.

(** [JSON.parse(JSON.stringify(v))]: what a payload is once it has been
    through JSON.  A [Date] comes back as its ISO string, a field holding
    [undefined] is gone, and [undefined] inside an array is [null]. *)
Fixpoint json_copy (v : Value) : Value :=
  match v with
  | VUndef | VNull | VBool _ | VNum _ | VStr _ => v
  | VDate t => VStr (toISOString t)
  | VArr items =>
      VArr ((fix go (l : list Value) : list Value :=
               match l with
               | [] => []
               | VUndef :: l' => VNull :: go l'
               | x :: l' => json_copy x :: go l'
               end) items)
  | VObj fields =>
      VObj ((fix go (fs : list (string * Value)) : list (string * Value) :=
               match fs with
               | [] => []
               | (_, VUndef) :: fs' => go fs'
               | (k, x) :: fs' => (k, json_copy x) :: go fs'
               end) fields)
  end.

(** ** Errors ([utils/errors.ts]) *)

Module ErrorCodes.
Definition RESOURCE_NOT_FOUND : string := "RESOURCE_NOT_FOUND".
Definition INVALID_QUERY : string := "INVALID_QUERY".
Definition DATABASE_ERROR : string := "DATABASE_ERROR".
Definition CONFIGURATION_ERROR : string := "CONFIGURATION_ERROR".
End ErrorCodes.

(** Thrown values.  [DataError] extends [SDKError]; [JsError] stands for any
    other [Error] (driver errors, [TypeError]).  The optional [details]
    field of [SDKError] is not modelled. *)
Inductive Exn : Type :=
  | SDKError (message code : string) (statusCode : Z)
  | DataError (message code : string) (statusCode : Z)
  | JsError (message : string).

Definition exn_message (e : Exn) : string :=
  match e with
  | SDKError m _ _ | DataError m _ _ | JsError m => m
  end.

Definition exn_code (e : Exn) : option string :=
  match e with
  | SDKError _ c _ | DataError _ c _ => Some c
  | JsError _ => None
  end.

(** [error instanceof DataError] *)
Definition instanceof_DataError (e : Exn) : bool :=
  match e with DataError _ _ _ => true | _ => false end.

Inductive Res (A : Type) : Type :=
  | Ret (a : A)
  | Throw (e : Exn).
Arguments Ret {A} a.
Arguments Throw {A} e.

(** ** Data types ([types/data]) *)

Record TenantContext : Type := mkContext {
  tenant_id : string;
  user_id : string;
  role : string;
  permissions : list string
}.

Record DataResult : Type := mkResult {
  data : Value;
  count : option Z;
  error : option string
}.

Definition result_data (d : Value) : DataResult := mkResult d None None.
Definition result_error (msg : string) : DataResult :=
  mkResult VNull None (Some msg).

Record Order : Type := mkOrder { column : string; ascending : bool }.

Record QueryOptions : Type := mkOptions {
  select : option string;
  filter : option Obj;
  order : option Order;
  limit : option Z;
  offset : option Z
}.

Definition no_options : QueryOptions := mkOptions None None None None None.

(** ** The world: backend state and the mutable fields of the SDK objects *)

(** [MigrationStatus] enum. *)
Inductive MigrationStatus : Type :=
  | PENDING | RUNNING | COMPLETED | FAILED | ROLLED_BACK.

Global Instance MigrationStatus_eq_dec : EqDecision MigrationStatus.
Proof. solve_decision. Defined.

Definition status_string (s : MigrationStatus) : string :=
  match s with
  | PENDING => "pending"
  | RUNNING => "running"
  | COMPLETED => "completed"
  | FAILED => "failed"
  | ROLLED_BACK => "rolled_back"
  end.

(** A row of the [migrations] table created by [createMigrationsTable]. *)
Record MigRow : Type := mkMigRow {
  row_id : string;
  row_name : string;
  row_version : string;
  row_tenant : option string;
  row_status : string;
  row_executed_at : option Z;
  row_rollback_sql : string;
  row_error_message : option string;
  row_duration_ms : option Z;
  row_created_at : option Z;
  row_updated_at : option Z
}.

(** A relational table has a fixed set of columns; a document collection
    has none ([None]) and accepts any field. *)
Record Table : Type := mkTable {
  columns : option (list string);
  rows : list Obj
}.

(** The database server behind an adapter. *)
Record Backend : Type := mkBackend {
  tables : gmap string Table;
  migrations : option (list MigRow);      (* [None]: the table does not exist *)
  bad_scripts : list (string * string);   (* scripts the server rejects, with the error *)
  script_log : list string;               (* scripts submitted so far, oldest first *)
  latency : Z                             (* milliseconds a statement takes *)
}.

(** The Redis server: key ↦ (payload, TTL in seconds).  The server holds
    the JSON text of a payload; the model holds the value that
    [JSON.parse] reads from that text.  Time-based expiry is not
    modelled. *)
Record RedisServer : Type := mkRedis {
  keyspace : gmap string (Value * Z);
  redis_up : bool
}.

(** [CacheStats]; [hitRate] is the quotient [hits / (hits + misses)] and is
    derived, not stored. *)
Record CacheStats : Type := mkStats {
  hits : Z;
  misses : Z;
  totalKeys : Z
}.

Record World : Type := mkWorld {
  w_db : Backend;
  w_redis : RedisServer;
  w_stats : CacheStats;          (* [RedisCacheAdapter.stats] *)
  w_isLocked : bool;             (* [MigrationManager.isLocked] *)
  w_timers : list Z;             (* due times of the pending [setTimeout] callbacks *)
  w_rng : nat;                   (* supply of [uuidv4()] *)
  w_clock : Z;                   (* [Date.now()] *)
  w_events : list Value          (* events handed to the event provider *)
}.

Definition set_db (f : Backend → Backend) (w : World) : World :=
  mkWorld (f (w_db w)) (w_redis w) (w_stats w) (w_isLocked w) (w_timers w)
          (w_rng w) (w_clock w) (w_events w).
Definition set_redis (f : RedisServer → RedisServer) (w : World) : World :=
  mkWorld (w_db w) (f (w_redis w)) (w_stats w) (w_isLocked w) (w_timers w)
          (w_rng w) (w_clock w) (w_events w).
Definition set_stats (f : CacheStats → CacheStats) (w : World) : World :=
  mkWorld (w_db w) (w_redis w) (f (w_stats w)) (w_isLocked w) (w_timers w)
          (w_rng w) (w_clock w) (w_events w).
Definition set_isLocked (b : bool) (w : World) : World :=
  mkWorld (w_db w) (w_redis w) (w_stats w) b (w_timers w)
          (w_rng w) (w_clock w) (w_events w).
Definition set_timers (f : list Z → list Z) (w : World) : World :=
  mkWorld (w_db w) (w_redis w) (w_stats w) (w_isLocked w) (f (w_timers w))
          (w_rng w) (w_clock w) (w_events w).
Definition set_rng (n : nat) (w : World) : World :=
  mkWorld (w_db w) (w_redis w) (w_stats w) (w_isLocked w) (w_timers w)
          n (w_clock w) (w_events w).
Definition set_clock (t : Z) (w : World) : World :=
  mkWorld (w_db w) (w_redis w) (w_stats w) (w_isLocked w) (w_timers w)
          (w_rng w) t (w_events w).
Definition set_events (f : list Value → list Value) (w : World) : World :=
  mkWorld (w_db w) (w_redis w) (w_stats w) (w_isLocked w) (w_timers w)
          (w_rng w) (w_clock w) (f (w_events w)).

Definition empty_backend : Backend := mkBackend ∅ None [] [] 1.

(** A fresh system: no tables, an empty reachable Redis, nothing locked. *)
Definition empty_world : World :=
  mkWorld empty_backend (mkRedis ∅ true) (mkStats 0 0 0) false [] 0%nat 0 [].

(** ** Asynchronous methods: state passing with exceptions *)

Definition M (A : Type) : Type := World → World * Res A.

Definition ret {A} (a : A) : M A := fun w => (w, Ret a).
Definition throw {A} (e : Exn) : M A := fun w => (w, Throw e).
Definition bind {A B} (m : M A) (k : A → M B) : M B :=
  fun w => match m w with
           | (w', Ret a) => k a w'
           | (w', Throw e) => (w', Throw e)
           end.

Notation "'let*' x ':=' m 'in' k" := (bind m (fun x => k))
  (at level 10, x binder, m at level 100, k at level 200).
Notation "m ';;' k" := (bind m (fun _ => k))
  (at level 100, k at level 200, right associativity).

(** [try { m } catch (error) { h error }] *)
Definition try_catch {A} (m : M A) (h : Exn → M A) : M A :=
  fun w => match m w with
           | (w', Ret a) => (w', Ret a)
           | (w', Throw e) => h e w'
           end.

(** [try { m } finally { f }]: the outcome of [m] is kept unless [f] throws. *)
Definition try_finally {A} (m : M A) (f : M unit) : M A :=
  fun w => match m w with
           | (w', r) =>
               match f w' with
               | (w'', Ret _) => (w'', r)
               | (w'', Throw e) => (w'', Throw e)
               end
           end.

Definition get_world : M World := fun w => (w, Ret w).
Definition modify (f : World → World) : M unit := fun w => (f w, Ret tt).
Definition when (b : bool) (m : M unit) : M unit := if b then m else ret tt.

(** [Date.now()] *)
Definition Date_now : M Z := fun w => (w, Ret (w_clock w)).
(** [new Date()] as a value, and [new Date().toISOString()] *)
Definition new_Date : M Value := fun w => (w, Ret (VDate (w_clock w))).
Definition Date_toISOString : M Value :=
  fun w => (w, Ret (VStr (toISOString (w_clock w)))).
(** [uuidv4()]: the n-th identifier of the supply. *)
Definition uuidv4 : M string :=
  fun w => (set_rng (S (w_rng w)) w, Ret ("uuid-" +:+ pretty (w_rng w))).

(** ** Cache layer: [RedisCacheAdapter] *)

Module RedisCacheAdapter.

Record CacheConfig : Type := mkConfig {
  keyPrefix : option string;
  defaultTTL : option Z
}.

(** *** Glob-style matching of the Redis [KEYS] command

    [*] matches any run of characters, [?] one character, [[...]] a
    character class (with [^] negation, [a-b] ranges and backslash
    escapes), and a backslash quotes the next pattern character. *)

Definition ascii_leb (a b : ascii) : bool := (N_of_ascii a <=? N_of_ascii b)%N.

Definition in_range (lo hi c : ascii) : bool :=
  if ascii_leb lo hi then ascii_leb lo c && ascii_leb c hi
  else ascii_leb hi c && ascii_leb c lo.

Fixpoint stringmatch (p s : string) : bool :=
  match p with
  | EmptyString => match s with EmptyString => true | _ => false end
  | String c p' =>
      if Ascii.eqb c "*" then
        (fix star (s : string) : bool :=
           stringmatch p' s
           || match s with
              | EmptyString => false
              | String _ s' => star s'
              end) s
      else if Ascii.eqb c "?" then
        match s with
        | EmptyString => false
        | String _ s' => stringmatch p' s'
        end
      else if Ascii.eqb c "[" then
        match s with
        | EmptyString => false
        | String x s' =>
            let neg := match p' with
                       | String n _ => Ascii.eqb n "^"
                       | EmptyString => false
                       end in
            (fix class (q : string) (found : bool) : bool :=
               match q with
               | EmptyString =>
                   xorb neg found
                   && match s' with EmptyString => true | _ => false end
               | String a q' =>
                   if Ascii.eqb a "]" then xorb neg found && stringmatch q' s'
                   else if Ascii.eqb a "\" then
                     match q' with
                     | String b q'' => class q'' (found || Ascii.eqb b x)
                     | EmptyString => class q' (found || Ascii.eqb a x)
                     end
                   else
                     match q' with
                     | String d (String b q'') =>
                         if Ascii.eqb d "-"
                         then class q'' (found || in_range a b x)
                         else class q' (found || Ascii.eqb a x)
                     | _ => class q' (found || Ascii.eqb a x)
                     end
               end)
              (match p' with
               | String n r => if Ascii.eqb n "^" then r else p'
               | EmptyString => p'
               end) false
        end
      else if Ascii.eqb c "\" then
        match p' with
        | String d p'' =>
            match s with
            | EmptyString => false
            | String x s' => Ascii.eqb d x && stringmatch p'' s'
            end
        | EmptyString =>
            match s with
            | EmptyString => false
            | String x s' => Ascii.eqb c x && stringmatch p' s'
            end
        end
      else
        match s with
        | EmptyString => false
        | String x s' => Ascii.eqb c x && stringmatch p' s'
        end
  end.

(** Strings without a given kind of character. *)
Fixpoint string_forall (P : ascii → bool) (s : string) : bool :=
  match s with
  | EmptyString => true
  | String c s' => P c && string_forall P s'
  end.

Definition colon_free (s : string) : bool :=
  string_forall (fun c => negb (Ascii.eqb c ":")) s.

Definition glob_special (c : ascii) : bool :=
  Ascii.eqb c "*" || Ascii.eqb c "?" || Ascii.eqb c "[" || Ascii.eqb c "\".

Definition glob_literal (s : string) : bool :=
  string_forall (fun c => negb (glob_special c)) s.

(** *** The Redis client ([ioredis]) *)

Definition redis_cmd {A} (f : gmap string (Value * Z) → gmap string (Value * Z) * Res A)
  : M A :=
  fun w =>
    if redis_up (w_redis w) then
      let '(ks, r) := f (keyspace (w_redis w)) in
      (set_redis (fun rs => mkRedis ks (redis_up rs)) w, r)
    else (w, Throw (JsError "Connection is closed.")).

Definition redis_get (k : string) : M (option Value) :=
  redis_cmd (fun ks => (ks, Ret (fst <$> ks !! k))).

Definition setex (k : string) (ttl : Z) (v : Value) (ks : gmap string (Value * Z))
  : gmap string (Value * Z) * Res unit :=
  if ttl <=? 0 then (ks, Throw (JsError "ERR invalid expire time in 'setex' command"))
  else (<[k := (v, ttl)]> ks, Ret tt).

Definition redis_setex (k : string) (ttl : Z) (v : Value) : M unit :=
  redis_cmd (setex k ttl v).

Definition del_keys (keys : list string) (ks : gmap string (Value * Z))
  : gmap string (Value * Z) :=
  foldr delete ks keys.

Definition redis_del (keys : list string) : M Z :=
  redis_cmd (fun ks =>
    (del_keys keys ks,
     Ret (Z.of_nat (length (List.filter (fun k => bool_decide (is_Some (ks !! k))) keys))))).

Definition redis_exists (k : string) : M Z :=
  redis_cmd (fun ks => (ks, Ret (match ks !! k with Some _ => 1 | None => 0 end))).

Definition redis_incrby (k : string) (amount : Z) : M Z :=
  redis_cmd (fun ks =>
    match ks !! k with
    | None => (<[k := (VNum amount, -1)]> ks, Ret amount)
    | Some (VNum n, ttl) => (<[k := (VNum (n + amount), ttl)]> ks, Ret (n + amount))
    | Some _ => (ks, Throw (JsError "ERR value is not an integer or out of range"))
    end).

Definition redis_mget (keys : list string) : M (list (option Value)) :=
  redis_cmd (fun ks => (ks, Ret (map (fun k => fst <$> ks !! k) keys))).

Definition matching_keys (pattern : string) (ks : gmap string (Value * Z)) : list string :=
  List.filter (stringmatch pattern) (map fst (map_to_list ks)).

Definition redis_keys (pattern : string) : M (list string) :=
  redis_cmd (fun ks => (ks, Ret (matching_keys pattern ks))).

(** A pipeline of [setex] commands: [exec] reports the failure of a
    command in its reply and does not throw. *)
Definition redis_pipeline_setex (cmds : list (string * Z * Value)) : M unit :=
  redis_cmd (fun ks =>
    (fold_left (fun acc c => fst (setex (fst (fst c)) (snd (fst c)) (snd c) acc)) cmds ks,
     Ret tt)).

Definition redis_flushdb : M unit := redis_cmd (fun _ => (∅, Ret tt)).

(** *** The adapter *)

Section Adapter.
Variable config : CacheConfig.

(** Generate tenant-specific cache key *)
Definition getTenantKey (key tenantId : string) : string :=
  let prefix := str_or (keyPrefix config) "mt_sdk" in
  prefix +:+ ":tenant:" +:+ tenantId +:+ ":" +:+ key.

Definition add_hit : M unit :=
  modify (set_stats (fun st => mkStats (hits st + 1) (misses st) (totalKeys st))).
Definition add_miss : M unit :=
  modify (set_stats (fun st => mkStats (hits st) (misses st + 1) (totalKeys st))).
Definition set_totalKeys (f : Z → Z) : M unit :=
  modify (set_stats (fun st => mkStats (hits st) (misses st) (f (totalKeys st)))).

(** Serialize value for storage: the store holds the JSON text, kept here
    as the value that [deserialize] reads from it. *)
Definition serialize (value : Value) : Value := json_copy value.

Definition get (key : string) (context : TenantContext) : M Value :=
  try_catch
    (let tenantKey := getTenantKey key (tenant_id context) in
     let* value := redis_get tenantKey in
     match value with
     | None => add_miss;; ret VNull
     | Some v => add_hit;; ret v
     end)
    (fun _ => throw (SDKError "Failed to get cache value" ErrorCodes.DATABASE_ERROR 500)).

Definition set (key : string) (value : Value) (context : TenantContext)
    (ttlSeconds : option Z) : M unit :=
  try_catch
    (let tenantKey := getTenantKey key (tenant_id context) in
     let ttl := num_or ttlSeconds (num_or (defaultTTL config) 3600) in
     redis_setex tenantKey ttl (serialize value);;
     set_totalKeys (fun n => n + 1))
    (fun _ => throw (SDKError "Failed to set cache value" ErrorCodes.DATABASE_ERROR 500)).

Definition delete (key : string) (context : TenantContext) : M unit :=
  try_catch
    (let tenantKey := getTenantKey key (tenant_id context) in
     let* deleted := redis_del [tenantKey] in
     when (0 <? deleted) (set_totalKeys (fun n => Z.max 0 (n - 1))))
    (fun _ => throw (SDKError "Failed to delete cache value" ErrorCodes.DATABASE_ERROR 500)).

Definition exists_ (key : string) (context : TenantContext) : M bool :=
  try_catch
    (let tenantKey := getTenantKey key (tenant_id context) in
     let* n := redis_exists tenantKey in
     ret (n =? 1))
    (fun _ => throw (SDKError "Failed to check cache key existence"
                              ErrorCodes.DATABASE_ERROR 500)).

Definition increment (key : string) (context : TenantContext) (amount : Z) : M Z :=
  try_catch
    (let tenantKey := getTenantKey key (tenant_id context) in
     redis_incrby tenantKey amount)
    (fun _ => throw (SDKError "Failed to increment cache value"
                              ErrorCodes.DATABASE_ERROR 500)).

Definition mset (keyValues : Obj) (context : TenantContext) (ttlSeconds : option Z)
  : M unit :=
  try_catch
    (let ttl := num_or ttlSeconds (num_or (defaultTTL config) 3600) in
     redis_pipeline_setex
       (map (fun kv => (getTenantKey (fst kv) (tenant_id context), ttl, serialize (snd kv)))
            keyValues);;
     set_totalKeys (fun n => n + Z.of_nat (length keyValues)))
    (fun _ => throw (SDKError "Failed to set multiple cache values"
                              ErrorCodes.DATABASE_ERROR 500)).

Fixpoint count_values (values : list (option Value)) : M (list Value) :=
  match values with
  | [] => ret []
  | None :: rest => add_miss;; let* vs := count_values rest in ret (VNull :: vs)
  | Some v :: rest => add_hit;; let* vs := count_values rest in ret (v :: vs)
  end.

(** [mget] has no [catch]: a client error reaches the caller as it is. *)
Definition mget (keys : list string) (context : TenantContext) : M (list Value) :=
  let tenantKeys := map (fun key => getTenantKey key (tenant_id context)) keys in
  let* values := redis_mget tenantKeys in
  count_values values.

Definition clearTenant (tenantId : string) : M unit :=
  try_catch
    (let pattern := getTenantKey "*" tenantId in
     let* keys := redis_keys pattern in
     when (0 <? Z.of_nat (length keys))
       (redis_del keys;;
        set_totalKeys (fun n => Z.max 0 (n - Z.of_nat (length keys)))))
    (fun _ => throw (SDKError "Failed to clear tenant cache" ErrorCodes.DATABASE_ERROR 500)).

Definition flush : M unit :=
  try_catch
    (redis_flushdb;; modify (set_stats (fun _ => mkStats 0 0 0)))
    (fun _ => throw (SDKError "Failed to flush cache" ErrorCodes.DATABASE_ERROR 500)).
End Adapter.

End RedisCacheAdapter.

(** ** The database server behind the storage adapters

    Tables are lists of rows.  A relational table declares its columns and
    rejects unknown ones; a document collection accepts any field.  Every
    statement takes [latency] milliseconds. *)

Module Db.

Definition tick : M unit :=
  modify (fun w => set_clock (w_clock w + latency (w_db w)) w).

Definition fail {A} (msg : string) : M A := throw (JsError msg).

Definition get_table (t : string) : M Table :=
  fun w => match tables (w_db w) !! t with
           | Some tb => (w, Ret tb)
           | None => (w, Throw (JsError ("relation " +:+ t +:+ " does not exist")))
           end.

Definition put_rows (t : string) (tb : Table) (rs : list Obj) : M unit :=
  modify (set_db (fun b =>
    mkBackend (<[t := mkTable (columns tb) rs]> (tables b)) (migrations b)
              (bad_scripts b) (script_log b) (latency b))).

Definition known_column (tb : Table) (c : string) : bool :=
  match columns tb with
  | Some cols => bool_decide (c ∈ cols)
  | None => true
  end.

Definition check_columns (tb : Table) (cs : list string) : M unit :=
  match List.filter (fun c => negb (known_column tb c)) cs with
  | [] => ret tt
  | c :: _ => fail ("column " +:+ c +:+ " does not exist")
  end.

(** SQL comparison [cell = v]: never true against NULL. *)
Definition sql_eq (cell v : Value) : bool :=
  match v with
  | VNull | VUndef => false
  | _ => value_eqb cell v
  end.

(** [WHERE k1 = v1 AND k2 = v2 ...] *)
Definition row_matches (conds : Obj) (row : Obj) : bool :=
  forallb (fun kv => match obj_get row (fst kv) with
                     | Some cell => sql_eq cell (snd kv)
                     | None => false
                     end) conds.

(** A document query [{k1: v1, k2: v2}]: a [null] value also matches a
    missing field. *)
Definition doc_matches (query : Obj) (doc : Obj) : bool :=
  forallb (fun kv => match obj_get doc (fst kv) with
                     | Some cell => value_eqb cell (snd kv)
                     | None => match snd kv with VNull => true | _ => false end
                     end) query.

(** The row as stored: a relational row has every declared column, the
    missing ones being NULL. *)
Definition stored_row (tb : Table) (row : Obj) : Obj :=
  match columns tb with
  | Some cols => map (fun c => (c, default VNull (obj_get row c))) cols
  | None => row
  end.

(** The key column: [id] for relational tables, [_id] for collections. *)
Definition key_column (tb : Table) : string :=
  match columns tb with Some _ => "id" | None => "_id" end.

Definition key_taken (tb : Table) (rs : list Obj) (row : Obj) : bool :=
  match obj_get row (key_column tb) with
  | Some k => existsb (fun r => match obj_get r (key_column tb) with
                                | Some k' => value_eqb k' k
                                | None => false
                                end) rs
  | None => false
  end.

(** Rows appended in order; the whole statement fails on an unknown
    column or a duplicate key and then leaves the table as it was. *)
Fixpoint add_rows (tb : Table) (acc : list Obj) (new : list Obj) : Res (list Obj) :=
  match new with
  | [] => Ret acc
  | row :: rest =>
      match List.filter (fun c => negb (known_column tb c)) (map fst row) with
      | c :: _ => Throw (JsError ("column " +:+ c +:+ " does not exist"))
      | [] =>
          if key_taken tb acc row
          then Throw (JsError "duplicate key value violates unique constraint")
          else add_rows tb (acc ++ [stored_row tb row]) rest
      end
  end.

(** [INSERT INTO t ... VALUES (...), (...) RETURNING *] *)
Definition insert (t : string) (new : list Obj) : M (list Obj) :=
  tick;;
  let* tb := get_table t in
  match add_rows tb (rows tb) new with
  | Ret rs => put_rows t tb rs;; ret (map (stored_row tb) new)
  | Throw e => throw e
  end.

(** [SELECT * FROM t WHERE ...] *)
Definition select_where (t : string) (conds : Obj) : M (list Obj) :=
  tick;;
  let* tb := get_table t in
  check_columns tb (map fst conds);;
  ret (List.filter (row_matches conds) (rows tb)).

(** [UPDATE t SET ... WHERE ... RETURNING *] *)
Definition update_where (t : string) (conds : Obj) (changes : Obj) : M (list Obj) :=
  tick;;
  let* tb := get_table t in
  check_columns tb (map fst conds ++ map fst changes);;
  let upd := fun row => if row_matches conds row then obj_spread row changes else row in
  put_rows t tb (map upd (rows tb));;
  ret (map (fun row => obj_spread row changes) (List.filter (row_matches conds) (rows tb))).

(** [DELETE FROM t WHERE ...]: the number of deleted rows. *)
Definition delete_where (t : string) (conds : Obj) : M Z :=
  tick;;
  let* tb := get_table t in
  check_columns tb (map fst conds);;
  put_rows t tb (List.filter (fun row => negb (row_matches conds row)) (rows tb));;
  ret (Z.of_nat (length (List.filter (row_matches conds) (rows tb)))).

(** Document store: [find], [insertMany] (ordered: the documents before
    the first failure stay inserted), [findOneAndUpdate], [deleteOne]. *)
Definition find (t : string) (query : Obj) : M (list Obj) :=
  tick;;
  let* tb := get_table t in
  ret (List.filter (doc_matches query) (rows tb)).

Fixpoint insert_ordered (tb : Table) (acc : list Obj) (new : list Obj)
  : list Obj * Res unit :=
  match new with
  | [] => (acc, Ret tt)
  | doc :: rest =>
      if key_taken tb acc doc
      then (acc, Throw (JsError "E11000 duplicate key error"))
      else insert_ordered tb (acc ++ [doc]) rest
  end.

Definition insertMany (t : string) (docs : list Obj) : M unit :=
  tick;;
  let* tb := get_table t in
  let '(rs, r) := insert_ordered tb (rows tb) docs in
  put_rows t tb rs;;
  match r with Ret _ => ret tt | Throw e => throw e end.

Fixpoint update_first (query changes : Obj) (docs : list Obj) : list Obj * option Obj :=
  match docs with
  | [] => ([], None)
  | d :: rest =>
      if doc_matches query d
      then (obj_spread d changes :: rest, Some (obj_spread d changes))
      else let '(rest', r) := update_first query changes rest in (d :: rest', r)
  end.

Definition findOneAndUpdate (t : string) (query changes : Obj) : M (option Obj) :=
  tick;;
  let* tb := get_table t in
  let '(rs, r) := update_first query changes (rows tb) in
  put_rows t tb rs;;
  ret r.

Fixpoint delete_first (query : Obj) (docs : list Obj) : list Obj * Z :=
  match docs with
  | [] => ([], 0)
  | d :: rest =>
      if doc_matches query d then (rest, 1)
      else let '(rest', n) := delete_first query rest in (d :: rest', n)
  end.

Definition deleteOne (t : string) (query : Obj) : M Z :=
  tick;;
  let* tb := get_table t in
  let '(rs, n) := delete_first query (rows tb) in
  put_rows t tb rs;;
  ret n.

(** *** Ordering, pagination and projection of a result *)

Definition type_rank (v : Value) : Z :=
  match v with
  | VBool _ => 0 | VNum _ => 1 | VDate _ => 1 | VStr _ => 2 | VArr _ => 3 | VObj _ => 4
  | VNull => 5 | VUndef => 6
  end.

Definition value_leb (a b : Value) : bool :=
  match a, b with
  | VNum x, VNum y => x <=? y
  | VDate x, VDate y => x <=? y
  | VStr x, VStr y => String.leb x y
  | VBool x, VBool y => implb x y
  | _, _ => type_rank a <=? type_rank b
  end.

Fixpoint insert_by (le : Obj → Obj → bool) (x : Obj) (l : list Obj) : list Obj :=
  match l with
  | [] => [x]
  | y :: l' => if le x y then x :: l else y :: insert_by le x l'
  end.

Definition sort_by (le : Obj → Obj → bool) (l : list Obj) : list Obj :=
  foldr (insert_by le) [] l.

Definition order_rows (o : option Order) (l : list Obj) : list Obj :=
  match o with
  | None => l
  | Some ord =>
      let key := fun r => default VNull (obj_get r (column ord)) in
      if ascending ord
      then sort_by (fun a b => value_leb (key a) (key b)) l
      else sort_by (fun a b => value_leb (key b) (key a)) l
  end.

Definition take_z (n : Z) (l : list Obj) : list Obj := take (Z.to_nat n) l.
Definition drop_z (n : Z) (l : list Obj) : list Obj := drop (Z.to_nat n) l.

(** [options.limit] and [options.offset] are applied when truthy. *)
Definition is_set (n : option Z) : bool :=
  match n with Some x => negb (x =? 0) | None => false end.

Definition paginate (lim off : option Z) (l : list Obj) : list Obj :=
  let l := if is_set off then drop_z (default 0 off) l else l in
  if is_set lim then take_z (default 0 lim) l else l.

(** A select list ["a, b"]: the names between the commas, trimmed. *)
Fixpoint split_commas (cur : string) (s : string) : list string :=
  match s with
  | EmptyString => [String.rev cur]
  | String c s' =>
      if Ascii.eqb c "," then String.rev cur :: split_commas "" s'
      else if Ascii.eqb c " " then split_commas cur s'
      else split_commas (String c cur) s'
  end.

Definition select_all (sel : option string) : bool :=
  match sel with
  | None => true
  | Some s => String.eqb s "" || String.eqb s "*"
  end.

Definition select_fields (sel : option string) : list string :=
  match sel with
  | None => []
  | Some s => split_commas "" s
  end.

Definition project_row (fields : list string) (row : Obj) : Obj :=
  List.filter (fun kv => bool_decide (fst kv ∈ fields)) row.

End Db.

(** One [SELECT]/aggregation statement: filter, order, paginate, project. *)
Module DbQuery.
Import Db.

(** [SELECT sel FROM t WHERE conds ORDER BY ... LIMIT ... OFFSET ...].
    The select list is read as the names of columns of [t]: the SQL
    adapters paste [options.select] into the statement as it is, so this
    is what the server does for a list of plain column names (and for no
    list, or [*]); any other text in that place is not described here. *)
Definition select_query (t : string) (sel : option string) (conds : Obj)
    (ord : option Order) (lim off : option Z) : M (list Obj) :=
  tick;;
  let* tb := get_table t in
  check_columns tb (map fst conds);;
  check_columns tb (match ord with Some o => [column o] | None => [] end);;
  check_columns tb (if select_all sel then [] else select_fields sel);;
  let found := paginate lim off (order_rows ord (List.filter (row_matches conds) (rows tb))) in
  ret (if select_all sel then found else map (project_row (select_fields sel)) found).

(** [SELECT COUNT( * ) FROM t WHERE conds] *)
Definition count_where (t : string) (conds : Obj) : M Z :=
  let* found := select_where t conds in
  ret (Z.of_nat (length found)).

(** [SELECT * FROM t WHERE id IN (ids) AND conds] *)
Definition select_ids (t : string) (ids : list Value) (conds : Obj) : M (list Obj) :=
  let* found := select_where t conds in
  ret (List.filter (fun row => existsb (fun i => match obj_get row "id" with
                                                 | Some cell => sql_eq cell i
                                                 | None => false
                                                 end) ids) found).

(** The aggregation pipeline [$match, $sort, $skip, $limit, $project];
    a projection keeps [_id]. *)
Definition aggregate (t : string) (query : Obj) (ord : option Order)
    (lim off : option Z) (projection : option (list string)) : M (list Obj) :=
  tick;;
  let* tb := get_table t in
  let found := paginate lim off (order_rows ord (List.filter (doc_matches query) (rows tb))) in
  ret (match projection with
       | Some fields => map (project_row ("_id" :: fields)) found
       | None => found
       end).

Definition countDocuments (t : string) (query : Obj) : M Z :=
  let* found := find t query in
  ret (Z.of_nat (length found)).
End DbQuery.

(** ** The adapter interface ([IDatabaseAdapter]) *)

(** The statements the migration engine sends through [query]; their
    parameters travel separately, as in the source. *)
Inductive Sql : Type :=
  | CREATE_MIGRATIONS_TABLE   (* CREATE TABLE IF NOT EXISTS migrations (...) *)
  | SELECT_IDS_BY_STATUS      (* SELECT id FROM migrations WHERE status = ? *)
  | SELECT_STATUSES           (* SELECT status FROM migrations *)
  | SELECT_TO_ROLLBACK        (* SELECT * FROM migrations WHERE version > ? AND status = ?
                                 ORDER BY version DESC *)
  | INSERT_MIGRATION          (* INSERT INTO migrations (id, name, version, tenant_id,
                                 status, rollback_sql) VALUES (?, ?, ?, ?, ?, ?) *)
  | UPDATE_COMPLETED          (* UPDATE migrations SET status = ?, executed_at = ?,
                                 duration_ms = ?, updated_at = ? WHERE id = ? *)
  | UPDATE_FAILED             (* UPDATE migrations SET status = ?, error_message = ?,
                                 duration_ms = ?, updated_at = ? WHERE id = ? *)
  | DELETE_MIGRATION          (* DELETE FROM migrations WHERE id = ? *)
  | SCRIPT (text : string).   (* a migration's own [up] or [rollback_sql] text *)

(** The statements that are written with [?] placeholders. *)
Definition has_placeholders (sql : Sql) : bool :=
  match sql with
  | SELECT_IDS_BY_STATUS | SELECT_TO_ROLLBACK | INSERT_MIGRATION
  | UPDATE_COMPLETED | UPDATE_FAILED | DELETE_MIGRATION => true
  | CREATE_MIGRATIONS_TABLE | SELECT_STATUSES | SCRIPT _ => false
  end.

Module IDatabaseAdapter.
Record t : Type := mk {
  query : Sql → list Value → M DataResult;
  create : string → Obj → TenantContext → M DataResult;
  read : string → QueryOptions → TenantContext → M DataResult;
  update : string → string → Obj → TenantContext → M DataResult;
  delete : string → string → TenantContext → M DataResult;
  bulkCreate : string → list Obj → TenantContext → M DataResult
}.
End IDatabaseAdapter.

Fixpoint mapM {A B} (f : A → M B) (l : list A) : M (list B) :=
  match l with
  | [] => ret []
  | x :: l' => let* y := f x in let* ys := mapM f l' in ret (y :: ys)
  end.

(** [catch (error) { if (error instanceof DataError) throw error;
    return { data: null, error: error.message } }] *)
Definition rethrow_DataError (e : Exn) : M DataResult :=
  if instanceof_DataError e then throw e else ret (result_error (exn_message e)).

(** [catch (error) { return { data: null, error: error.message } }] *)
Definition return_error (e : Exn) : M DataResult := ret (result_error (exn_message e)).

Definition rows_value (rs : list Obj) : Value := VArr (map VObj rs).

(** [options.filter] entries, when a filter is given. *)
Definition filter_entries (options : QueryOptions) : Obj := default [] (filter options).

(** ** The migrations table on the server *)

Module MigrationsTable.
Import Db.

Definition row_value (r : MigRow) : Obj :=
  [("id", VStr (row_id r)); ("name", VStr (row_name r));
   ("version", VStr (row_version r));
   ("tenant_id", match row_tenant r with Some x => VStr x | None => VNull end);
   ("status", VStr (row_status r));
   ("executed_at", match row_executed_at r with Some x => VDate x | None => VNull end);
   ("rollback_sql", VStr (row_rollback_sql r));
   ("error_message", match row_error_message r with Some x => VStr x | None => VNull end);
   ("duration_ms", match row_duration_ms r with Some x => VNum x | None => VNull end);
   ("created_at", match row_created_at r with Some x => VDate x | None => VNull end);
   ("updated_at", match row_updated_at r with Some x => VDate x | None => VNull end)].

Definition get_rows : M (list MigRow) :=
  fun w => match migrations (w_db w) with
           | Some rs => (w, Ret rs)
           | None => (w, Throw (JsError "relation migrations does not exist"))
           end.

Definition put (rs : list MigRow) : M unit :=
  modify (set_db (fun b =>
    mkBackend (tables b) (Some rs) (bad_scripts b) (script_log b) (latency b))).

Definition log_script (text : string) : M unit :=
  modify (set_db (fun b =>
    mkBackend (tables b) (migrations b) (bad_scripts b) (script_log b ++ [text]) (latency b))).

Definition script_error (text : string) : M (option string) :=
  fun w => (w, Ret (snd <$> List.find (fun p => String.eqb (fst p) text)
                                      (bad_scripts (w_db w)))).

Definition str_param (v : Value) : string :=
  match v with VStr s => s | _ => "" end.
Definition opt_str_param (v : Value) : option string :=
  match v with VStr s => Some s | _ => None end.
Definition opt_num_param (v : Value) : option Z :=
  match v with VNum n => Some n | _ => None end.
(** A parameter bound to a [TIMESTAMP] column. *)
Definition opt_time_param (v : Value) : option Z :=
  match v with VDate t => Some t | _ => None end.

Definition set_row (id : string) (f : MigRow → MigRow) (rs : list MigRow) : list MigRow :=
  map (fun r => if String.eqb (row_id r) id then f r else r) rs.

(** Rows by descending [version]. *)
Fixpoint insert_desc (r : MigRow) (l : list MigRow) : list MigRow :=
  match l with
  | [] => [r]
  | y :: l' =>
      if String.leb (row_version y) (row_version r) then r :: l
      else y :: insert_desc r l'
  end.

(** The server executing one statement with its parameters. *)
Definition execute (sql : Sql) (params : list Value) : M (list Obj) :=
  tick;;
  match sql, params with
  | CREATE_MIGRATIONS_TABLE, _ =>
      fun w => match migrations (w_db w) with
               | Some _ => (w, Ret [])
               | None => (fst (put [] w), Ret [])
               end
  | SELECT_IDS_BY_STATUS, [status] =>
      let* rs := get_rows in
      ret (map (fun r => [("id", VStr (row_id r))])
               (List.filter (fun r => String.eqb (row_status r) (str_param status)) rs))
  | SELECT_STATUSES, _ =>
      let* rs := get_rows in
      ret (map (fun r => [("status", VStr (row_status r))]) rs)
  | SELECT_TO_ROLLBACK, [version; status] =>
      let* rs := get_rows in
      ret (map row_value
             (foldr insert_desc []
                (List.filter (fun r => String.ltb (str_param version) (row_version r)
                                       && String.eqb (row_status r) (str_param status)) rs)))
  | INSERT_MIGRATION, [id; name; version; tenant; status; rollback] =>
      let* rs := get_rows in
      let* now := Date_now in
      if existsb (fun r => String.eqb (row_id r) (str_param id)) rs
      then fail "Duplicate entry for key 'PRIMARY'"
      else put (rs ++ [mkMigRow (str_param id) (str_param name) (str_param version)
                                (opt_str_param tenant) (str_param status) (Some now)
                            (str_param rollback) None None (Some now) (Some now)]);;
           ret []
  | UPDATE_COMPLETED, [status; executed_at; duration; updated_at; id] =>
      let* rs := get_rows in
      put (set_row (str_param id)
             (fun r => mkMigRow (row_id r) (row_name r) (row_version r) (row_tenant r)
                                (str_param status) (opt_time_param executed_at)
                            (row_rollback_sql r) (row_error_message r)
                            (opt_num_param duration) (row_created_at r)
                            (opt_time_param updated_at)) rs);;
      ret []
  | UPDATE_FAILED, [status; message; duration; updated_at; id] =>
      let* rs := get_rows in
      put (set_row (str_param id)
             (fun r => mkMigRow (row_id r) (row_name r) (row_version r) (row_tenant r)
                                (str_param status) (row_executed_at r)
                            (row_rollback_sql r) (opt_str_param message)
                            (opt_num_param duration) (row_created_at r)
                            (opt_time_param updated_at)) rs);;
      ret []
  | DELETE_MIGRATION, [id] =>
      let* rs := get_rows in
      put (List.filter (fun r => negb (String.eqb (row_id r) (str_param id))) rs);;
      ret []
  | SCRIPT text, _ =>
      log_script text;;
      let* err := script_error text in
      match err with
      | Some msg => fail msg
      | None => ret []
      end
  | _, _ => fail "wrong number of parameters"
  end.
End MigrationsTable.

(** ** Storage adapters *)

Definition tenant_cond (context : TenantContext) : string * Value :=
  ("tenant_id", VStr (tenant_id context)).

(** [connection.execute(sql, params)] of the migration statements: the
    MySQL server binds the [?] placeholders to the parameters. *)
Definition sql_query (sql : Sql) (params : list Value) : M DataResult :=
  try_catch
    (let* found := MigrationsTable.execute sql params in
     ret (result_data (rows_value found)))
    return_error.

(** Regroup the flattened parameters into rows of [c] values. *)
Fixpoint chunks (k c : nat) (l : list Value) : list (list Value) :=
  match k with
  | O => []
  | S k' => take c l :: chunks k' c (drop c l)
  end.

(** [INSERT INTO t (columns) VALUES (...), (...)] with the values of all
    records flattened into one parameter list: the statement has
    [records × columns] placeholders and is rejected when the parameter
    count differs. *)
Definition positional_rows (records : list Obj) : M (list Obj) :=
  let cols := map fst (default [] (head records)) in
  let params := flat_map (map snd) records in
  if bool_decide (length params = (length records * length cols)%nat)
  then ret (map (combine cols) (chunks (length records) (length cols) params))
  else Db.fail "bind message supplies the wrong number of parameters".

(** [s.replace(/c/g, 'cc')]: every occurrence of the character doubled. *)
Fixpoint double_char (c : ascii) (s : string) : string :=
  match s with
  | EmptyString => EmptyString
  | String x s' =>
      if Ascii.eqb x c then String c (String c (double_char c s'))
      else String x (double_char c s')
  end.

Definition double_quote : ascii := "034"%char.
Definition backtick : ascii := "`"%char.

Module PostgreSQLAdapter.

(** [pool.query(sql, params)]: PostgreSQL numbers its parameters
    [$1, $2, ...], and a statement written with [?] placeholders does not
    pass its parser (where in the text the parser stops is not
    modelled).  A statement without placeholders runs as it is. *)
Definition query (sql : Sql) (params : list Value) : M DataResult :=
  try_catch
    (let* found :=
       if has_placeholders sql
       then Db.tick;; Db.fail "syntax error at end of input"
       else MigrationsTable.execute sql params in
     ret (result_data (rows_value found)))
    return_error.

(** Escape SQL identifiers to prevent injection: the identifier between
    double quotes, its own double quotes doubled. *)
Definition escapeIdentifier (identifier : string) : string :=
  String double_quote (double_char double_quote identifier) +:+ String double_quote "".

Definition create (table : string) (data : Obj) (context : TenantContext) : M DataResult :=
  try_catch
    (let* id := uuidv4 in
     let* created_at := new_Date in
     let* updated_at := new_Date in
     let recordData := obj_spread data
          [("id", VStr id); tenant_cond context;
           ("created_at", created_at); ("updated_at", updated_at)] in
     let* found := Db.insert table [recordData] in
     match found with
     | [] => throw (DataError "Failed to create record" ErrorCodes.DATABASE_ERROR 500)
     | row :: _ => ret (result_data (VObj row))
     end)
    rethrow_DataError.

Definition read (table : string) (options : QueryOptions) (context : TenantContext)
  : M DataResult :=
  try_catch
    (let conds := tenant_cond context :: filter_entries options in
     let* found := DbQuery.select_query table (select options) conds (order options)
                     (limit options) (offset options) in
     let* count :=
       if Db.is_set (limit options) || Db.is_set (offset options) then
         (* [countSql] is declared [const]: appending a filter condition
            to it throws a TypeError *)
         match filter_entries options with
         | _ :: _ => throw (JsError "Assignment to constant variable.")
         | [] => let* n := DbQuery.count_where table [tenant_cond context] in
                 ret (Some n)
         end
       else ret None in
     ret (mkResult (rows_value found) count None))
    return_error.

Definition update (table id : string) (updates : Obj) (context : TenantContext)
  : M DataResult :=
  try_catch
    (let* now := new_Date in
     let updateData := obj_spread updates [("updated_at", now)] in
     let* found := Db.update_where table [("id", VStr id); tenant_cond context] updateData in
     match found with
     | [] => throw (DataError "Record not found or update failed"
                              ErrorCodes.RESOURCE_NOT_FOUND 404)
     | row :: _ => ret (result_data (VObj row))
     end)
    rethrow_DataError.

Definition delete (table id : string) (context : TenantContext) : M DataResult :=
  try_catch
    (let* rowCount := Db.delete_where table [("id", VStr id); tenant_cond context] in
     if rowCount =? 0
     then throw (DataError "Record not found" ErrorCodes.RESOURCE_NOT_FOUND 404)
     else ret (result_data VUndef))
    rethrow_DataError.

Definition stamp (context : TenantContext) (record : Obj) : M Obj :=
  let* id := uuidv4 in
  let* created_at := new_Date in
  let* updated_at := new_Date in
  ret (obj_spread record
         [("id", VStr id); tenant_cond context;
          ("created_at", created_at); ("updated_at", updated_at)]).

Definition bulkCreate (table : string) (records : list Obj) (context : TenantContext)
  : M DataResult :=
  try_catch
    (match records with
     | [] => ret (result_data (VArr []))
     | _ :: _ =>
         let* recordsWithTenant := mapM (stamp context) records in
         let* new := positional_rows recordsWithTenant in
         let* found := Db.insert table new in
         ret (result_data (rows_value found))
     end)
    return_error.

Definition adapter : IDatabaseAdapter.t :=
  IDatabaseAdapter.mk query create read update delete bulkCreate.
End PostgreSQLAdapter.

Module MySQLAdapter.

Definition query := sql_query.

(** Escape SQL identifiers to prevent injection: the backticks of the
    identifier doubled; the callers put the result between backticks. *)
Definition escapeIdentifier (identifier : string) : string :=
  double_char backtick identifier.

Definition create (table : string) (data : Obj) (context : TenantContext) : M DataResult :=
  try_catch
    (let* id := uuidv4 in
     let* created_at := new_Date in
     let* updated_at := new_Date in
     let recordData := obj_spread data
          [("id", VStr id); tenant_cond context;
           ("created_at", created_at); ("updated_at", updated_at)] in
     Db.insert table [recordData];;
     let* found := Db.select_where table [("id", VStr id)] in
     match found with
     | [] => throw (DataError "Failed to create record" ErrorCodes.DATABASE_ERROR 500)
     | row :: _ => ret (result_data (VObj row))
     end)
    rethrow_DataError.

Definition read (table : string) (options : QueryOptions) (context : TenantContext)
  : M DataResult :=
  try_catch
    (let conds := tenant_cond context :: filter_entries options in
     let* found := DbQuery.select_query table (select options) conds (order options)
                     (limit options) (offset options) in
     let* count :=
       if Db.is_set (limit options) || Db.is_set (offset options) then
         let* n := DbQuery.count_where table conds in ret (Some n)
       else ret None in
     ret (mkResult (rows_value found) count None))
    return_error.

Definition update (table id : string) (updates : Obj) (context : TenantContext)
  : M DataResult :=
  try_catch
    (let* now := new_Date in
     let updateData := obj_spread updates [("updated_at", now)] in
     let* changed := Db.update_where table [("id", VStr id); tenant_cond context] updateData in
     if Z.of_nat (length changed) =? 0
     then throw (DataError "Record not found or update failed"
                           ErrorCodes.RESOURCE_NOT_FOUND 404)
     else
       let* found := Db.select_where table [("id", VStr id); tenant_cond context] in
       ret (result_data (match found with row :: _ => VObj row | [] => VUndef end)))
    rethrow_DataError.

Definition delete (table id : string) (context : TenantContext) : M DataResult :=
  try_catch
    (let* affectedRows := Db.delete_where table [("id", VStr id); tenant_cond context] in
     if affectedRows =? 0
     then throw (DataError "Record not found" ErrorCodes.RESOURCE_NOT_FOUND 404)
     else ret (result_data VUndef))
    rethrow_DataError.

Definition bulkCreate (table : string) (records : list Obj) (context : TenantContext)
  : M DataResult :=
  try_catch
    (match records with
     | [] => ret (result_data (VArr []))
     | _ :: _ =>
         let* recordsWithTenant := mapM (PostgreSQLAdapter.stamp context) records in
         let* new := positional_rows recordsWithTenant in
         Db.insert table new;;
         let ids := map (fun record => default VUndef (obj_get record "id"))
                        recordsWithTenant in
         let* found := DbQuery.select_ids table ids [tenant_cond context] in
         ret (result_data (rows_value found))
     end)
    return_error.

Definition adapter : IDatabaseAdapter.t :=
  IDatabaseAdapter.mk query create read update delete bulkCreate.
End MySQLAdapter.

Module MongoDBAdapter.

(** [query(aggregation, collection?)]: the migration engine passes its
    SQL text where the pipeline is expected and its parameter array, when
    it has one, where the collection name is.  Without parameters the
    adapter throws its own [DataError]; with parameters the driver refuses
    the call (the text of its message is not modelled).  The [catch] has
    no [instanceof] test: every error comes back as an error result. *)
Definition query (sql : Sql) (params : list Value) : M DataResult :=
  try_catch
    (match params with
     | [] => throw (DataError "Collection name is required for MongoDB queries"
                              ErrorCodes.INVALID_QUERY 400)
     | _ :: _ => Db.fail "Collection name must be a String"
     end)
    return_error.

(** Convert MongoDB [_id] to [id] for consistency *)
Definition convert_id (doc : Obj) : Obj :=
  obj_delete (obj_set doc "id" (default VUndef (obj_get doc "_id"))) "_id".

Definition new_document (context : TenantContext) (data : Obj) : M Obj :=
  let* id := uuidv4 in
  let* created_at := new_Date in
  let* updated_at := new_Date in
  ret (obj_spread (obj_spread [("_id", VStr id)] data)
         [tenant_cond context; ("created_at", created_at); ("updated_at", updated_at)]).

Definition create (table : string) (data : Obj) (context : TenantContext) : M DataResult :=
  try_catch
    (let* document := new_document context data in
     Db.insertMany table [document];;
     ret (result_data (VObj (convert_id document))))
    rethrow_DataError.

Definition read (table : string) (options : QueryOptions) (context : TenantContext)
  : M DataResult :=
  try_catch
    ((* const query = { tenant_id: context.tenant_id };
        each filter entry is then assigned with query[key] = value *)
     let query := obj_spread [tenant_cond context] (filter_entries options) in
     let projection :=
       match select options with
       | Some s => if negb (String.eqb s "") && negb (String.eqb s "*")
                   then Some (Db.select_fields (select options)) else None
       | None => None
       end in
     let* documents := DbQuery.aggregate table query (order options)
                         (limit options) (offset options) projection in
     let found := map convert_id documents in
     let* count :=
       if Db.is_set (limit options) || Db.is_set (offset options) then
         let* n := DbQuery.countDocuments table query in ret (Some n)
       else ret None in
     ret (mkResult (rows_value found) count None))
    return_error.

Definition update (table id : string) (updates : Obj) (context : TenantContext)
  : M DataResult :=
  try_catch
    (let* now := new_Date in
     let set_doc := obj_spread updates [("updated_at", now)] in
     let* value := Db.findOneAndUpdate table [("_id", VStr id); tenant_cond context] set_doc in
     match value with
     | None => throw (DataError "Document not found or update failed"
                                ErrorCodes.RESOURCE_NOT_FOUND 404)
     | Some doc => ret (result_data (VObj (convert_id doc)))
     end)
    rethrow_DataError.

Definition delete (table id : string) (context : TenantContext) : M DataResult :=
  try_catch
    (let* deletedCount := Db.deleteOne table [("_id", VStr id); tenant_cond context] in
     if deletedCount =? 0
     then throw (DataError "Document not found" ErrorCodes.RESOURCE_NOT_FOUND 404)
     else ret (result_data VUndef))
    rethrow_DataError.

Definition bulkCreate (table : string) (records : list Obj) (context : TenantContext)
  : M DataResult :=
  try_catch
    (match records with
     | [] => ret (result_data (VArr []))
     | _ :: _ =>
         let* documents := mapM (new_document context) records in
         Db.insertMany table documents;;
         ret (result_data (rows_value (map convert_id documents)))
     end)
    return_error.

Definition adapter : IDatabaseAdapter.t :=
  IDatabaseAdapter.mk query create read update delete bulkCreate.
End MongoDBAdapter.

Module SupabaseAdapter.

(** A call of the Supabase client answers [{ data, error }] and does not
    throw on a server-side failure. *)
Definition client {A} (m : M A) : M (A + Exn) :=
  try_catch (let* a := m in ret (inl a)) (fun e => ret (inr e)).

(** [.single()]: exactly one row, an error otherwise. *)
Definition single (m : M (list Obj)) : M Obj :=
  let* found := m in
  match found with
  | [row] => ret row
  | _ => Db.fail "JSON object requested, multiple (or no) rows returned"
  end.

(** The table default fills in a missing [id]. *)
Definition with_default_id (record : Obj) : M Obj :=
  match obj_get record "id" with
  | Some _ => ret record
  | None => let* id := uuidv4 in ret (obj_set record "id" (VStr id))
  end.

Definition query (sql : Sql) (params : list Value) : M DataResult :=
  try_catch
    (let* response := client (MigrationsTable.execute sql params) in
     match response with
     | inr _ => throw (DataError "Query execution failed" ErrorCodes.INVALID_QUERY 400)
     | inl found => ret (result_data (rows_value found))
     end)
    rethrow_DataError.

Definition stamp (context : TenantContext) (record : Obj) : M Obj :=
  let* created_at := Date_toISOString in
  let* updated_at := Date_toISOString in
  ret (obj_spread record
         [tenant_cond context; ("created_at", created_at); ("updated_at", updated_at)]).

Definition create (table : string) (data : Obj) (context : TenantContext) : M DataResult :=
  try_catch
    (let* recordData := stamp context data in
     let* response :=
       client (single (let* row := with_default_id recordData in Db.insert table [row])) in
     match response with
     | inr _ => throw (DataError "Failed to create record" ErrorCodes.DATABASE_ERROR 500)
     | inl result => ret (result_data (VObj result))
     end)
    rethrow_DataError.

(** [.limit(n)] and [.range(offset, offset + (limit || 10) - 1)]: a
    range replaces the limit. *)
Definition page (lim off : option Z) (found : list Obj) : list Obj :=
  if Db.is_set off
  then Db.take_z (num_or lim 10) (Db.drop_z (default 0 off) found)
  else if Db.is_set lim then Db.take_z (default 0 lim) found
  else found.

Definition read (table : string) (options : QueryOptions) (context : TenantContext)
  : M DataResult :=
  try_catch
    (let conds := tenant_cond context :: filter_entries options in
     let* response :=
       client (let* found := DbQuery.select_query table (select options) conds
                               (order options) None None in
               ret (page (limit options) (offset options) found,
                    Z.of_nat (length found))) in
     match response with
     | inr _ => throw (DataError "Failed to read records" ErrorCodes.DATABASE_ERROR 500)
     | inl (found, count) => ret (mkResult (rows_value found) (Some count) None)
     end)
    rethrow_DataError.

Definition update (table id : string) (updates : Obj) (context : TenantContext)
  : M DataResult :=
  try_catch
    (let* now := Date_toISOString in
     let updateData := obj_spread updates [("updated_at", now)] in
     let* response :=
       client (single (Db.update_where table [("id", VStr id); tenant_cond context]
                         updateData)) in
     match response with
     | inr _ => throw (DataError "Failed to update record" ErrorCodes.DATABASE_ERROR 500)
     | inl row => ret (result_data (VObj row))
     end)
    rethrow_DataError.

Definition delete (table id : string) (context : TenantContext) : M DataResult :=
  try_catch
    (let* response :=
       client (Db.delete_where table [("id", VStr id); tenant_cond context]) in
     match response with
     | inr _ => throw (DataError "Failed to delete record" ErrorCodes.DATABASE_ERROR 500)
     | inl _ => ret (result_data VUndef)
     end)
    rethrow_DataError.

Definition bulkCreate (table : string) (records : list Obj) (context : TenantContext)
  : M DataResult :=
  try_catch
    (let* recordsWithTenant := mapM (stamp context) records in
     let* response :=
       client (let* new := mapM with_default_id recordsWithTenant in Db.insert table new) in
     match response with
     | inr _ => throw (DataError "Bulk create failed" ErrorCodes.DATABASE_ERROR 500)
     | inl found => ret (result_data (rows_value found))
     end)
    rethrow_DataError.

Definition adapter : IDatabaseAdapter.t :=
  IDatabaseAdapter.mk query create read update delete bulkCreate.
End SupabaseAdapter.

(** ** Migration engine: [MigrationManager] *)

Module Migration.
Record t : Type := mk {
  id : string;
  name : string;
  version : string;
  up : string;
  down : string;
  tenant_id : option string
}.
End Migration.

Module MigrationResult.
Record t : Type := mk {
  id : string;
  name : string;
  status : MigrationStatus;
  executedAt : option Z;
  duration : option Z;
  error : option string
}.
End MigrationResult.

Module MigrationManager.

Record MigrationConfig : Type := mkConfig {
  createMigrationsTable : bool;
  lockTimeout : Z
}.

(** The defaults of [MigrationConfigSchema]. *)
Definition default_config : MigrationConfig := mkConfig true 30000.

Record StatusCounts : Type := mkCounts {
  total : Z;
  executed : Z;
  pending : Z;
  failed : Z
}.

Section Manager.
Variable adapter : IDatabaseAdapter.t.
Variable config : MigrationConfig.

Definition query := IDatabaseAdapter.query adapter.

Definition initialize : M unit :=
  try_catch
    (when (createMigrationsTable config)
       (query CREATE_MIGRATIONS_TABLE [];; ret tt))
    (fun _ => throw (SDKError "Failed to initialize migration manager"
                              ErrorCodes.DATABASE_ERROR 500)).

(** Validate migration *)
Definition validateMigration (migration : Migration.t) : M unit :=
  if String.eqb (Migration.id migration) "" then
    throw (SDKError "Migration ID is required" ErrorCodes.CONFIGURATION_ERROR 400)
  else if String.eqb (Migration.name migration) "" then
    throw (SDKError "Migration name is required" ErrorCodes.CONFIGURATION_ERROR 400)
  else if String.eqb (Migration.up migration) "" then
    throw (SDKError "Migration up SQL is required" ErrorCodes.CONFIGURATION_ERROR 400)
  else if String.eqb (Migration.down migration) "" then
    throw (SDKError "Migration down SQL is required" ErrorCodes.CONFIGURATION_ERROR 400)
  else ret tt.

(** [executedMigrations?.map(m => m.id) || []] *)
Definition ids_of (d : Value) : list Value :=
  match d with
  | VArr found => map (fun m => prop m "id") found
  | _ => []
  end.

(** [executedIds.has(migration.id)] *)
Definition has_id (executedIds : list Value) (id : string) : bool :=
  existsb (fun v => value_eqb v (VStr id)) executedIds.

Fixpoint filter_pending (executedIds : list Value) (migrations : list Migration.t)
  : M (list Migration.t) :=
  match migrations with
  | [] => ret []
  | migration :: rest =>
      validateMigration migration;;
      let* kept := filter_pending executedIds rest in
      ret (if has_id executedIds (Migration.id migration) then kept
           else migration :: kept)
  end.

(** Get pending migrations *)
Definition getPendingMigrations (migrations : list Migration.t) : M (list Migration.t) :=
  let* result := query SELECT_IDS_BY_STATUS [VStr (status_string COMPLETED)] in
  filter_pending (ids_of (data result)) migrations.

(** Get migrations to rollback *)
Definition getMigrationsToRollback (targetVersion : string) : M (list Value) :=
  let* result := query SELECT_TO_ROLLBACK
                   [VStr targetVersion; VStr (status_string COMPLETED)] in
  ret (match data result with VArr found => found | _ => [] end).

Definition opt_str (o : option string) : Value :=
  match o with Some s => VStr s | None => VUndef end.

(** Record migration start *)
Definition recordMigrationStart (migration : Migration.t) : M unit :=
  query INSERT_MIGRATION
    [VStr (Migration.id migration); VStr (Migration.name migration);
     VStr (Migration.version migration); opt_str (Migration.tenant_id migration);
     VStr (status_string RUNNING); VStr (Migration.down migration)];;
  ret tt.

(** Record migration completion *)
Definition recordMigrationCompletion (migration : Migration.t) (duration : Z) : M unit :=
  let* executed_at := new_Date in
  let* updated_at := new_Date in
  query UPDATE_COMPLETED
    [VStr (status_string COMPLETED); executed_at; VNum duration; updated_at;
     VStr (Migration.id migration)];;
  ret tt.

(** Record migration failure *)
Definition recordMigrationFailure (migration : Migration.t) (error : string)
    (duration : Z) : M unit :=
  let* updated_at := new_Date in
  query UPDATE_FAILED
    [VStr (status_string FAILED); VStr error; VNum duration; updated_at;
     VStr (Migration.id migration)];;
  ret tt.

(** Run a single migration *)
Definition runSingleMigration (migration : Migration.t) : M MigrationResult.t :=
  let* startTime := Date_now in
  try_catch
    (recordMigrationStart migration;;
     query (SCRIPT (Migration.up migration)) [];;
     let* now := Date_now in
     let duration := now - startTime in
     recordMigrationCompletion migration duration;;
     let* executedAt := Date_now in
     ret (MigrationResult.mk (Migration.id migration) (Migration.name migration)
            COMPLETED (Some executedAt) (Some duration) None))
    (fun error =>
       let* now := Date_now in
       let duration := now - startTime in
       recordMigrationFailure migration (exn_message error) duration;;
       ret (MigrationResult.mk (Migration.id migration) (Migration.name migration)
              FAILED None (Some duration) (Some (exn_message error)))).

(** Rollback a single migration (a row of the migrations table) *)
Definition rollbackSingleMigration (migration : Value) : M MigrationResult.t :=
  let id := MigrationsTable.str_param (prop migration "id") in
  let name := MigrationsTable.str_param (prop migration "name") in
  let* startTime := Date_now in
  try_catch
    (query (SCRIPT (MigrationsTable.str_param (prop migration "rollback_sql"))) [];;
     let* now := Date_now in
     let duration := now - startTime in
     query DELETE_MIGRATION [prop migration "id"];;
     let* executedAt := Date_now in
     ret (MigrationResult.mk id name ROLLED_BACK (Some executedAt) (Some duration) None))
    (fun error =>
       let* now := Date_now in
       let duration := now - startTime in
       ret (MigrationResult.mk id name FAILED None (Some duration)
              (Some (exn_message error)))).

(** Acquire migration lock *)
Definition acquireLock : M unit :=
  let* w := get_world in
  if w_isLocked w then
    throw (SDKError "Migration lock already acquired" ErrorCodes.DATABASE_ERROR 409)
  else
    modify (set_isLocked true);;
    (* setTimeout(() => { this.isLocked = false }, lockTimeout) *)
    modify (fun w => set_timers (fun ts => ts ++ [w_clock w + lockTimeout config]) w).

(** Release migration lock *)
Definition releaseLock : M unit := modify (set_isLocked false).

(** The timer callbacks that are due: each one clears the lock. *)
Definition fire_timers : M unit :=
  modify (fun w =>
    if existsb (fun t => t <=? w_clock w) (w_timers w)
    then set_isLocked false
           (set_timers (List.filter (fun t => negb (t <=? w_clock w))) w)
    else w).

(** The loop over a list of work items, stopping after the first
    result whose status is [FAILED]. *)
Fixpoint run_each {A} (run : A → M MigrationResult.t) (items : list A)
    (results : list MigrationResult.t) : M (list MigrationResult.t) :=
  match items with
  | [] => ret results
  | item :: rest =>
      let* result := run item in
      let results := results ++ [result] in
      if decide (MigrationResult.status result = FAILED)
      then ret results   (* Stop on first failure *)
      else run_each run rest results
  end.

Definition already_in_progress : Exn :=
  SDKError "Migration is already in progress" ErrorCodes.DATABASE_ERROR 409.

(** Run pending migrations *)
Definition runMigrations (migrations : list Migration.t) : M (list MigrationResult.t) :=
  let* w := get_world in
  if w_isLocked w then throw already_in_progress
  else
    try_finally
      (acquireLock;;
       let* pendingMigrations := getPendingMigrations migrations in
       run_each runSingleMigration pendingMigrations [])
      releaseLock.

(** Rollback migrations to a specific version *)
Definition rollbackTo (targetVersion : string) : M (list MigrationResult.t) :=
  let* w := get_world in
  if w_isLocked w then throw already_in_progress
  else
    try_finally
      (acquireLock;;
       let* migrationsToRollback := getMigrationsToRollback targetVersion in
       (* Rollback in reverse order *)
       run_each rollbackSingleMigration (rev migrationsToRollback) [])
      releaseLock.

Definition count_status (found : list Value) (s : MigrationStatus) : Z :=
  Z.of_nat (length (List.filter
    (fun m => value_eqb (prop m "status") (VStr (status_string s))) found)).

(** Get migration status *)
Definition getMigrationStatus : M StatusCounts :=
  try_catch
    (let* result := query SELECT_STATUSES [] in
     let found := match data result with VArr found => found | _ => [] end in
     ret (mkCounts (Z.of_nat (length found)) (count_status found COMPLETED)
            (count_status found PENDING) (count_status found FAILED)))
    (fun _ => throw (SDKError "Failed to get migration status"
                              ErrorCodes.DATABASE_ERROR 500)).
End Manager.

End MigrationManager.

(** ** Collaborators of the facade *)

Module ICacheProvider.
Record t : Type := mk {
  get : string → TenantContext → M Value;
  set : string → Value → TenantContext → option Z → M unit;
  delete : string → TenantContext → M unit;
  exists_ : string → TenantContext → M bool;
  increment : string → TenantContext → Z → M Z;
  mset : Obj → TenantContext → option Z → M unit;
  mget : list string → TenantContext → M (list Value);
  clearTenant : string → M unit;
  flush : M unit
}.
End ICacheProvider.

(** [new RedisCacheAdapter(config)] seen through [ICacheProvider]. *)
Definition redis_provider (config : RedisCacheAdapter.CacheConfig) : ICacheProvider.t :=
  ICacheProvider.mk
    (RedisCacheAdapter.get config) (RedisCacheAdapter.set config)
    (RedisCacheAdapter.delete config) (RedisCacheAdapter.exists_ config)
    (RedisCacheAdapter.increment config) (RedisCacheAdapter.mset config)
    (RedisCacheAdapter.mget config) (RedisCacheAdapter.clearTenant config)
    RedisCacheAdapter.flush.

Module IEventProvider.
Record t : Type := mk {
  emit : Value → M unit
}.
End IEventProvider.

(** An event provider that records what it is given. *)
Definition recording_events : IEventProvider.t :=
  IEventProvider.mk (fun event => modify (set_events (fun l => l ++ [event]))).

Module AnalyticsEngine.
Record t : Type := mk {
  trackEvent : string → Obj → TenantContext → M unit;
  incrementCounter : string → TenantContext → Z → Obj → M unit
}.
End AnalyticsEngine.

(** ** Strings of values *)

Definition quote_char : ascii := "034"%char.

Fixpoint escape (s : string) : string :=
  match s with
  | EmptyString => EmptyString
  | String c s' =>
      if Ascii.eqb c quote_char || Ascii.eqb c "\"
      then String "\" (String c (escape s'))
      else String c (escape s')
  end.

Fixpoint join (sep : string) (l : list string) : string :=
  match l with
  | [] => ""
  | [x] => x
  | x :: l' => x +:+ sep +:+ join sep l'
  end.

(** [JSON.stringify]: object fields whose value is [undefined] are left
    out, [undefined] inside an array prints as [null]. *)
Fixpoint JSON_stringify (v : Value) : string :=
  match v with
  | VUndef | VNull => "null"
  | VBool b => if b then "true" else "false"
  | VNum n => pretty n
  | VStr s => String quote_char (escape s) +:+ String quote_char ""
  | VDate t => String quote_char (toISOString t) +:+ String quote_char ""
  | VArr items => "[" +:+ join "," (map JSON_stringify items) +:+ "]"
  | VObj fields =>
      "{" +:+ join ","
        ((fix go (fs : list (string * Value)) : list string :=
            match fs with
            | [] => []
            | (_, VUndef) :: fs' => go fs'
            | (k, x) :: fs' =>
                (String quote_char (escape k) +:+ String quote_char ":"
                 +:+ JSON_stringify x) :: go fs'
            end) fields)
      +:+ "}"
  end.

(** A value inside a template literal. *)
Definition js_string (v : Value) : string :=
  match v with
  | VUndef => "undefined"
  | VNull => "null"
  | VBool b => if b then "true" else "false"
  | VNum n => pretty n
  | VStr s => s
  | VArr items => join "," (map JSON_stringify items)
  | VObj _ => "[object Object]"
  | VDate t => toISOString t   (* [Date.prototype.toString], in the model's rendering *)
  end.

Definition opt_field {A} (k : string) (f : A → Value) (o : option A) : Obj :=
  match o with Some x => [(k, f x)] | None => [] end.

(** A [QueryOptions] object as a value. *)
Definition options_value (options : QueryOptions) : Value :=
  VObj (opt_field "select" VStr (select options)
        ++ opt_field "filter" VObj (filter options)
        ++ opt_field "order"
             (fun o => VObj [("column", VStr (column o)); ("ascending", VBool (ascending o))])
             (order options)
        ++ opt_field "limit" VNum (limit options)
        ++ opt_field "offset" VNum (offset options)).

(** [Promise.all] over operations started in order: every operation runs,
    and the first rejection is the outcome. *)
Fixpoint all_settled_first_error (ops : list (M unit)) : M unit :=
  match ops with
  | [] => ret tt
  | op :: rest =>
      fun w => match op w with
               | (w', Ret _) => all_settled_first_error rest w'
               | (w', Throw e) => (fst (all_settled_first_error rest w'), Throw e)
               end
  end.

(** [for (i = 0; i < records.length; i += batchSize) records.slice(i, i + batchSize)] *)
Fixpoint batches_of (fuel size : nat) (records : list Obj) : list (list Obj) :=
  match fuel with
  | O => []
  | S fuel' =>
      match records with
      | [] => []
      | _ :: _ => take size records :: batches_of fuel' size (drop size records)
      end
  end.

Definition batches (size : nat) (records : list Obj) : list (list Obj) :=
  batches_of (length records) size records.

(** ** Data access facade: [DataManagerV3] *)

Module DataManagerV3.

Record CreateOptions : Type := mkCreateOptions {
  create_skipCache : bool;
  create_skipAnalytics : bool;
  create_cacheTTL : option Z
}.
Record CacheOptions : Type := mkCacheOptions {
  useCache : option bool;
  cacheTTL : option Z;
  cacheKey : option string
}.
Record UpdateOptions : Type := mkUpdateOptions {
  update_skipCache : bool;
  update_skipAnalytics : bool;
  update_invalidateCache : bool
}.
Record DeleteOptions : Type := mkDeleteOptions {
  delete_skipAnalytics : bool;
  delete_invalidateCache : bool
}.
(** [batchSize] is a natural number: with a negative size the loop of
    the source never ends. *)
Record BulkOptions : Type := mkBulkOptions {
  batchSize : option nat;
  bulk_skipCache : bool;
  bulk_skipAnalytics : bool
}.

Definition no_create_options := mkCreateOptions false false None.
Definition no_cache_options := mkCacheOptions None None None.
Definition no_update_options := mkUpdateOptions false false false.
Definition no_delete_options := mkDeleteOptions false false.
Definition no_bulk_options := mkBulkOptions None false false.

(** [cacheOptions?.useCache !== false] *)
Definition cache_wanted (useCache : option bool) : bool :=
  match useCache with Some false => false | _ => true end.

Section Manager.
Variable databaseAdapter : IDatabaseAdapter.t.
Variable eventProvider : option IEventProvider.t.
Variable cacheProvider : option ICacheProvider.t.
Variable analyticsEngine : option AnalyticsEngine.t.

Definition with_analytics (enabled : bool) (f : AnalyticsEngine.t → M unit) : M unit :=
  match analyticsEngine with
  | Some engine => if enabled then f engine else ret tt
  | None => ret tt
  end.

Definition emit_event (type : string) (context : TenantContext) (payload : Obj) : M unit :=
  match eventProvider with
  | Some provider =>
      let* id := uuidv4 in
      let* timestamp := Date_toISOString in
      IEventProvider.emit provider
        (VObj [("id", VStr id); ("type", VStr type);
               ("tenant_id", VStr (tenant_id context));
               ("user_id", VStr (user_id context));
               ("timestamp", timestamp); ("data", VObj payload)])
  | None => ret tt
  end.

Definition response_time (startTime : Z) : M Value :=
  let* now := Date_now in ret (VNum (now - startTime)).

(** Create audit log entry *)
Definition createAuditLog (logData : Obj) : M unit :=
  try_catch
    (let* created_at := Date_toISOString in
     let auditLog := obj_spread logData [("created_at", created_at)] in
     let context := mkContext (js_string (default VUndef (obj_get logData "tenant_id")))
                              (js_string (default VUndef (obj_get logData "user_id")))
                              "system" [] in
     let* id := uuidv4 in
     IDatabaseAdapter.create databaseAdapter "audit_logs"
       (obj_spread [("id", VStr id)] auditLog) context;;
     ret tt)
    (fun _ => (* console.error('Failed to create audit log:', error) *) ret tt).

(** Invalidate related cache entries *)
Definition invalidateRelatedCache (table : string) (context : TenantContext) : M unit :=
  match cacheProvider with
  | None => ret tt
  | Some cache =>
      try_catch (ICacheProvider.clearTenant cache (tenant_id context))
                (fun _ => (* console.warn *) ret tt)
  end.

Definition track_error (enabled : bool) (event table : string) (extra : Obj)
    (startTime : Z) (context : TenantContext) (e : Exn) : M unit :=
  with_analytics enabled (fun engine =>
    let* rt := response_time startTime in
    AnalyticsEngine.trackEvent engine event
      ([("table", VStr table)] ++ extra
       ++ [("error", VStr (exn_message e)); ("response_time", rt)]) context).

(** Create a record with tenant isolation, caching, and analytics *)
Definition create (table : string) (data_ : Obj) (context : TenantContext)
    (options : CreateOptions) : M DataResult :=
  let* startTime := Date_now in
  try_catch
    (let* result := IDatabaseAdapter.create databaseAdapter table data_ context in
     (if truthy (data result) then
        let record_id := prop (data result) "id" in
        match cacheProvider with
        | Some cache =>
            when (negb (create_skipCache options))
              (ICacheProvider.set cache (table +:+ ":" +:+ js_string record_id)
                 (data result) context (Some (num_or (create_cacheTTL options) 3600)))
        | None => ret tt
        end;;
        with_analytics (negb (create_skipAnalytics options)) (fun engine =>
          let* rt := response_time startTime in
          AnalyticsEngine.trackEvent engine "record_created"
            [("table", VStr table); ("record_id", record_id); ("response_time", rt)]
            context;;
          AnalyticsEngine.incrementCounter engine "records_created" context 1
            [("table", VStr table)]);;
        createAuditLog
          [("tenant_id", VStr (tenant_id context)); ("user_id", VStr (user_id context));
           ("action", VStr "CREATE"); ("resource_type", VStr table);
           ("resource_id", record_id); ("new_values", VObj data_)];;
        emit_event "data.created" context
          [("table", VStr table); ("record", data result)]
      else ret tt);;
     ret result)
    (fun error =>
       track_error (negb (create_skipAnalytics options)) "record_create_error" table []
         startTime context error;;
       rethrow_DataError error).

Definition query_cache_key (table : string) (options : QueryOptions)
    (context : TenantContext) (cacheOptions : CacheOptions) : string :=
  str_or (cacheKey cacheOptions)
    (table +:+ ":query:" +:+ JSON_stringify (options_value options) +:+ ":"
     +:+ tenant_id context).

Definition array_length (v : Value) : Z :=
  match v with VArr items => Z.of_nat (length items) | _ => 0 end.

(** Fetch from database, cache the result, track analytics *)
Definition read_from_database (table : string) (options : QueryOptions)
    (context : TenantContext) (cacheOptions : CacheOptions) (startTime : Z)
  : M DataResult :=
  let* result := IDatabaseAdapter.read databaseAdapter table options context in
  match cacheProvider with
  | Some cache =>
      when (truthy (data result) && cache_wanted (useCache cacheOptions))
        (ICacheProvider.set cache (query_cache_key table options context cacheOptions)
           (data result) context (Some (num_or (cacheTTL cacheOptions) 300)))
  | None => ret tt
  end;;
  with_analytics true (fun engine =>
    let* rt := response_time startTime in
    AnalyticsEngine.trackEvent engine "records_read"
      [("table", VStr table); ("count", VNum (array_length (data result)));
       ("response_time", rt); ("cache_miss", VBool true)] context;;
    AnalyticsEngine.incrementCounter engine "records_read" context 1
      [("table", VStr table)]);;
  ret result.

(** Read records with caching and analytics *)
Definition read (table : string) (options : QueryOptions) (context : TenantContext)
    (cacheOptions : CacheOptions) : M DataResult :=
  let* startTime := Date_now in
  try_catch
    (match cacheProvider with
     | Some cache =>
         if cache_wanted (useCache cacheOptions) then
           let key := query_cache_key table options context cacheOptions in
           let* cachedResult := ICacheProvider.get cache key context in
           if truthy cachedResult then
             with_analytics true (fun engine =>
               let* rt := response_time startTime in
               AnalyticsEngine.trackEvent engine "cache_hit"
                 [("table", VStr table); ("cache_key", VStr key); ("response_time", rt)]
                 context);;
             ret (result_data cachedResult)
           else read_from_database table options context cacheOptions startTime
         else read_from_database table options context cacheOptions startTime
     | None => read_from_database table options context cacheOptions startTime
     end)
    (fun error =>
       track_error true "record_read_error" table [] startTime context error;;
       rethrow_DataError error).

(** [existingResult.data?.[0]] *)
Definition first_item (v : Value) : Value :=
  match v with
  | VArr (x :: _) => x
  | _ => VUndef
  end.

Definition id_filter (id : string) (lim : option Z) : QueryOptions :=
  mkOptions None (Some [("id", VStr id)]) None lim None.

(** Update a record with cache invalidation and analytics *)
Definition update (table id : string) (updates : Obj) (context : TenantContext)
    (options : UpdateOptions) : M DataResult :=
  let* startTime := Date_now in
  try_catch
    (let* existingResult :=
       IDatabaseAdapter.read databaseAdapter table (id_filter id None) context in
     let existingRecord := first_item (data existingResult) in
     let* result := IDatabaseAdapter.update databaseAdapter table id updates context in
     (if truthy (data result) then
        match cacheProvider with
        | Some cache =>
            when (negb (update_skipCache options))
              (ICacheProvider.set cache (table +:+ ":" +:+ id) (data result) context
                 (Some 3600);;
               when (update_invalidateCache options)
                 (invalidateRelatedCache table context))
        | None => ret tt
        end;;
        with_analytics (negb (update_skipAnalytics options)) (fun engine =>
          let* rt := response_time startTime in
          AnalyticsEngine.trackEvent engine "record_updated"
            [("table", VStr table); ("record_id", VStr id);
             ("fields_updated", VArr (map (fun kv => VStr (fst kv)) updates));
             ("response_time", rt)] context;;
          AnalyticsEngine.incrementCounter engine "records_updated" context 1
            [("table", VStr table)]);;
        createAuditLog
          [("tenant_id", VStr (tenant_id context)); ("user_id", VStr (user_id context));
           ("action", VStr "UPDATE"); ("resource_type", VStr table);
           ("resource_id", VStr id); ("old_values", existingRecord);
           ("new_values", VObj updates)];;
        emit_event "data.updated" context
          [("table", VStr table); ("record", data result); ("changes", VObj updates)]
      else ret tt);;
     ret result)
    (fun error =>
       track_error (negb (update_skipAnalytics options)) "record_update_error" table
         [("record_id", VStr id)] startTime context error;;
       rethrow_DataError error).

(** Delete a record with cache invalidation and analytics *)
Definition delete (table id : string) (context : TenantContext)
    (options : DeleteOptions) : M DataResult :=
  let* startTime := Date_now in
  try_catch
    (let* existingResult :=
       IDatabaseAdapter.read databaseAdapter table (id_filter id None) context in
     let existingRecord := first_item (data existingResult) in
     let* result := IDatabaseAdapter.delete databaseAdapter table id context in
     (match data result with
      | VUndef => (* Successful deletion *)
          match cacheProvider with
          | Some cache =>
              ICacheProvider.delete cache (table +:+ ":" +:+ id) context;;
              when (delete_invalidateCache options)
                (invalidateRelatedCache table context)
          | None => ret tt
          end;;
          with_analytics (negb (delete_skipAnalytics options)) (fun engine =>
            let* rt := response_time startTime in
            AnalyticsEngine.trackEvent engine "record_deleted"
              [("table", VStr table); ("record_id", VStr id); ("response_time", rt)]
              context;;
            AnalyticsEngine.incrementCounter engine "records_deleted" context 1
              [("table", VStr table)]);;
          createAuditLog
            [("tenant_id", VStr (tenant_id context)); ("user_id", VStr (user_id context));
             ("action", VStr "DELETE"); ("resource_type", VStr table);
             ("resource_id", VStr id); ("old_values", existingRecord)];;
          emit_event "data.deleted" context
            [("table", VStr table); ("record_id", VStr id)]
      | _ => ret tt
      end);;
     ret result)
    (fun error =>
       track_error (negb (delete_skipAnalytics options)) "record_delete_error" table
         [("record_id", VStr id)] startTime context error;;
       rethrow_DataError error).

(** Get record by ID with caching *)
Definition getById_from_database (table id : string) (context : TenantContext)
    (use : option bool) (ttl : option Z) (startTime : Z) : M DataResult :=
  let* result :=
    IDatabaseAdapter.read databaseAdapter table (id_filter id (Some 1)) context in
  let record := if truthy (first_item (data result))
                then first_item (data result) else VNull in
  match cacheProvider with
  | Some cache =>
      when (truthy record && cache_wanted use)
        (ICacheProvider.set cache (table +:+ ":" +:+ id) record context
           (Some (num_or ttl 3600)))
  | None => ret tt
  end;;
  with_analytics true (fun engine =>
    let* rt := response_time startTime in
    AnalyticsEngine.trackEvent engine "record_get_by_id"
      [("table", VStr table); ("record_id", VStr id);
       ("found", VBool (truthy record)); ("response_time", rt);
       ("cache_miss", VBool true)] context);;
  ret (result_data record).

Definition getById (table id : string) (context : TenantContext)
    (use : option bool) (ttl : option Z) : M DataResult :=
  let* startTime := Date_now in
  try_catch
    (match cacheProvider with
     | Some cache =>
         if cache_wanted use then
           let* cachedRecord := ICacheProvider.get cache (table +:+ ":" +:+ id) context in
           if truthy cachedRecord then
             with_analytics true (fun engine =>
               let* rt := response_time startTime in
               AnalyticsEngine.trackEvent engine "cache_hit"
                 [("table", VStr table); ("record_id", VStr id); ("response_time", rt)]
                 context);;
             ret (result_data cachedRecord)
           else getById_from_database table id context use ttl startTime
         else getById_from_database table id context use ttl startTime
     | None => getById_from_database table id context use ttl startTime
     end)
    rethrow_DataError.

(** One pass of the batch loop: [results] grows by the records of every
    batch the adapter answered with data; a batch answered without data
    adds nothing and the loop goes on. *)
Fixpoint create_batches (table : string) (context : TenantContext)
    (options : BulkOptions) (todo : list (list Obj)) (results : list Value)
  : M (list Value) :=
  match todo with
  | [] => ret results
  | batch :: rest =>
      let* batchResult :=
        IDatabaseAdapter.bulkCreate databaseAdapter table batch context in
      if truthy (data batchResult) then
        match data batchResult with
        | VArr created =>
            let results := results ++ created in
            match cacheProvider with
            | Some cache =>
                when (negb (bulk_skipCache options))
                  (all_settled_first_error
                     (map (fun record =>
                             ICacheProvider.set cache
                               (table +:+ ":" +:+ js_string (prop record "id"))
                               record context (Some 3600)) created))
            | None => ret tt
            end;;
            create_batches table context options rest results
        | _ => throw (JsError "batchResult.data is not iterable")
        end
      else create_batches table context options rest results
  end.

Fixpoint audit_each (table : string) (context : TenantContext) (results : list Value)
  : M unit :=
  match results with
  | [] => ret tt
  | record :: rest =>
      createAuditLog
        [("tenant_id", VStr (tenant_id context)); ("user_id", VStr (user_id context));
         ("action", VStr "BULK_CREATE"); ("resource_type", VStr table);
         ("resource_id", prop record "id"); ("new_values", record)];;
      audit_each table context rest
  end.

(** Bulk operations with enhanced performance *)
Definition bulkCreate (table : string) (records : list Obj) (context : TenantContext)
    (options : BulkOptions) : M DataResult :=
  let* startTime := Date_now in
  let size := match batchSize options with
              | Some (S n) => S n
              | _ => 100%nat
              end in
  try_catch
    (let* results := create_batches table context options (batches size records) [] in
     with_analytics (negb (bulk_skipAnalytics options)) (fun engine =>
       let* rt := response_time startTime in
       AnalyticsEngine.trackEvent engine "bulk_create"
         [("table", VStr table); ("count", VNum (Z.of_nat (length results)));
          ("batch_size", VNum (Z.of_nat size)); ("response_time", rt)] context;;
       AnalyticsEngine.incrementCounter engine "records_bulk_created" context
         (Z.of_nat (length results)) [("table", VStr table)]);;
     audit_each table context results;;
     emit_event "data.created" context
       [("table", VStr table); ("records", VArr results); ("bulk", VBool true);
        ("count", VNum (Z.of_nat (length results)))];;
     ret (result_data (VArr results)))
    (fun error =>
       with_analytics (negb (bulk_skipAnalytics options)) (fun engine =>
         let* rt := response_time startTime in
         AnalyticsEngine.trackEvent engine "bulk_create_error"
           [("table", VStr table); ("count", VNum (Z.of_nat (length records)));
            ("error", VStr (exn_message error)); ("response_time", rt)] context);;
       rethrow_DataError error).
End Manager.

End DataManagerV3.

(** ** Data access facade, database agnostic: [DataManagerV2] *)

Module DataManagerV2.
Section Manager.
Variable databaseAdapter : IDatabaseAdapter.t.
Variable eventProvider : option IEventProvider.t.

Definition emit_event := DataManagerV3.emit_event eventProvider.

(** Create audit log entry *)
Definition createAuditLog (logData : Obj) : M unit :=
  try_catch
    (let* created_at := Date_toISOString in
     let auditLog := obj_spread logData [("created_at", created_at)] in
     let context := mkContext (js_string (default VUndef (obj_get logData "tenant_id")))
                              (js_string (default VUndef (obj_get logData "user_id")))
                              "system" [] in
     let* id := uuidv4 in
     IDatabaseAdapter.create databaseAdapter "audit_logs"
       (obj_spread [("id", VStr id)] auditLog) context;;
     ret tt)
    (fun _ => ret tt).

Definition create (table : string) (data_ : Obj) (context : TenantContext)
  : M DataResult :=
  try_catch
    (let* result := IDatabaseAdapter.create databaseAdapter table data_ context in
     (if truthy (data result) then
        createAuditLog
          [("tenant_id", VStr (tenant_id context)); ("user_id", VStr (user_id context));
           ("action", VStr "CREATE"); ("resource_type", VStr table);
           ("resource_id", prop (data result) "id"); ("new_values", VObj data_)];;
        emit_event "data.created" context
          [("table", VStr table); ("record", data result)]
      else ret tt);;
     ret result)
    rethrow_DataError.

Definition read (table : string) (options : QueryOptions) (context : TenantContext)
  : M DataResult :=
  try_catch (IDatabaseAdapter.read databaseAdapter table options context)
            rethrow_DataError.

Definition update (table id : string) (updates : Obj) (context : TenantContext)
  : M DataResult :=
  try_catch
    (let* existingResult :=
       IDatabaseAdapter.read databaseAdapter table
         (DataManagerV3.id_filter id None) context in
     let existingRecord := DataManagerV3.first_item (data existingResult) in
     let* result := IDatabaseAdapter.update databaseAdapter table id updates context in
     (if truthy (data result) then
        createAuditLog
          [("tenant_id", VStr (tenant_id context)); ("user_id", VStr (user_id context));
           ("action", VStr "UPDATE"); ("resource_type", VStr table);
           ("resource_id", VStr id); ("old_values", existingRecord);
           ("new_values", VObj updates)];;
        emit_event "data.updated" context
          [("table", VStr table); ("record", data result); ("changes", VObj updates)]
      else ret tt);;
     ret result)
    rethrow_DataError.

Definition delete (table id : string) (context : TenantContext) : M DataResult :=
  try_catch
    (let* existingResult :=
       IDatabaseAdapter.read databaseAdapter table
         (DataManagerV3.id_filter id None) context in
     let existingRecord := DataManagerV3.first_item (data existingResult) in
     let* result := IDatabaseAdapter.delete databaseAdapter table id context in
     (match data result with
      | VUndef =>
          createAuditLog
            [("tenant_id", VStr (tenant_id context)); ("user_id", VStr (user_id context));
             ("action", VStr "DELETE"); ("resource_type", VStr table);
             ("resource_id", VStr id); ("old_values", existingRecord)];;
          emit_event "data.deleted" context
            [("table", VStr table); ("record_id", VStr id)]
      | _ => ret tt
      end);;
     ret result)
    rethrow_DataError.

Fixpoint audit_each (table : string) (context : TenantContext) (created : list Value)
  : M unit :=
  match created with
  | [] => ret tt
  | record :: rest =>
      createAuditLog
        [("tenant_id", VStr (tenant_id context)); ("user_id", VStr (user_id context));
         ("action", VStr "BULK_CREATE"); ("resource_type", VStr table);
         ("resource_id", prop record "id"); ("new_values", record)];;
      audit_each table context rest
  end.

Definition bulkCreate (table : string) (records : list Obj) (context : TenantContext)
  : M DataResult :=
  try_catch
    (let* result := IDatabaseAdapter.bulkCreate databaseAdapter table records context in
     (if truthy (data result) then
        match data result with
        | VArr created =>
            audit_each table context created;;
            emit_event "data.created" context
              [("table", VStr table); ("records", data result); ("bulk", VBool true);
               ("count", VNum (Z.of_nat (length created)))]
        | _ => throw (JsError "result.data is not iterable")
        end
      else ret tt);;
     ret result)
    rethrow_DataError.
(** Get audit logs for tenant: the newest first, fifty unless a limit is
    given. *)
Definition getAuditLogs (context : TenantContext)
    (resource_type resource_id user_id : option string) (limit offset : option Z)
  : M DataResult :=
  try_catch
    (let entry := fun (k : string) (o : option string) =>
                    match o with
                    | Some s => if String.eqb s "" then [] else [(k, VStr s)]
                    | None => []
                    end in
     let queryOptions :=
       mkOptions None
         (Some (entry "resource_type" resource_type ++ entry "resource_id" resource_id
                ++ entry "user_id" user_id))
         (Some (mkOrder "created_at" false))
         (Some (num_or limit 50)) (Some (num_or offset 0)) in
     IDatabaseAdapter.read databaseAdapter "audit_logs" queryOptions context)
    rethrow_DataError.

(** Check if user has access to resource *)
Definition hasResourceAccess (table resourceId : string) (context : TenantContext)
  : M bool :=
  try_catch
    (let* result :=
       IDatabaseAdapter.read databaseAdapter table
         (mkOptions (Some "id") (Some [("id", VStr resourceId)]) None None None) context in
     (* result.data && result.data.length > 0 *)
     ret (match data result with
          | VArr (_ :: _) => true
          | _ => false
          end))
    (fun _ => ret false).
End Manager.
End DataManagerV2.

(** ** Example worlds *)

Definition with_table (t : string) (tb : Table) (w : World) : World :=
  set_db (fun b => mkBackend (<[t := tb]> (tables b)) (migrations b)
                             (bad_scripts b) (script_log b) (latency b)) w.

(** A relational table [projects]. *)
Definition projects_table : Table :=
  mkTable (Some ["id"; "tenant_id"; "name"; "created_at"; "updated_at"]) [].

(** A document collection [projects]. *)
Definition projects_collection : Table := mkTable None [].

Definition sql_world : World := with_table "projects" projects_table empty_world.
Definition mongo_world : World := with_table "projects" projects_collection empty_world.

Definition ctx_A : TenantContext := mkContext "tenant-a" "user-a" "admin" [].
Definition ctx_B : TenantContext := mkContext "tenant-b" "user-b" "admin" [].

Definition acme : Obj := [("name", VStr "Acme")].

Definition ctx_of (tenant : string) : TenantContext :=
  mkContext tenant "user-1" "admin" [].

(** A world in which tenant [B] has cached one entry. *)
Definition world_with_entry (cfg : RedisCacheAdapter.CacheConfig) (B k : string) : World :=
  fst (RedisCacheAdapter.set cfg k (VStr "payload") (ctx_of B) (Some 60) empty_world).

(** The payload stored under a physical key, [null] when there is none. *)
Definition payload (ks : gmap string (Value * Z)) (k : string) : Value :=
  match ks !! k with Some (v, _) => v | None => VNull end.

(** [tenant-b] has created one project, in a relational and in a document
    store. *)
Definition sql_world_B : World :=
  fst (PostgreSQLAdapter.create "projects" acme ctx_B sql_world).
Definition mongo_world_B : World :=
  fst (MongoDBAdapter.create "projects" acme ctx_B mongo_world).

Definition filter_by_tenant (tenant : string) : QueryOptions :=
  mkOptions None (Some [("tenant_id", VStr tenant)]) None None None.

(** ** Vocabulary for the statements about the migration engine *)

(** The world after one statement's latency has passed. *)
Definition ticked (w : World) : World := set_clock (w_clock w + latency (w_db w)) w.

(** The rows of the migrations table, none when the table is missing. *)
Definition recorded_rows (w : World) : list MigRow := default [] (migrations (w_db w)).

(** The migrations table holds a row for [id] with the given status. *)
Definition recorded_as (w : World) (id status : string) : Prop :=
  ∃ row, row ∈ recorded_rows w ∧ row_id row = id ∧ row_status row = status.

(** The migrations table holds a row for [id] with the given status,
    duration and error message. *)
Definition recorded_with (w : World) (id status : string) (duration : option Z)
    (message : option string) : Prop :=
  ∃ row, row ∈ recorded_rows w ∧ row_id row = id ∧ row_status row = status
         ∧ row_duration_ms row = duration ∧ row_error_message row = message.

(** [id] is among the completed ids. *)
Definition completed_id (rs : list MigRow) (id : string) : bool :=
  existsb (fun r => String.eqb (row_status r) "completed" && String.eqb (row_id r) id) rs.

Definition valid_migration (m : Migration.t) : bool :=
  negb (String.eqb (Migration.id m) "") && negb (String.eqb (Migration.name m) "")
  && negb (String.eqb (Migration.up m) "") && negb (String.eqb (Migration.down m) "").

(** The server rejects the script. *)
Definition script_fails (w : World) (text : string) : bool :=
  match List.find (fun p => String.eqb (fst p) text) (bad_scripts (w_db w)) with
  | Some _ => true
  | None => false
  end.

(** The world with the migrations table replaced, and with one more script
    in the server's log. *)
Definition with_rows (rs : list MigRow) (w : World) : World :=
  set_db (fun b => mkBackend (tables b) (Some rs) (bad_scripts b) (script_log b)
                             (latency b)) w.
Definition logged (text : string) (w : World) : World :=
  set_db (fun b => mkBackend (tables b) (migrations b) (bad_scripts b)
                             (script_log b ++ [text]) (latency b)) w.

Definition has_row (rs : list MigRow) (id : string) : bool :=
  existsb (fun r => String.eqb (row_id r) id) rs.

(** The row [recordMigrationStart] inserts at time [now]. *)
Definition running_row (m : Migration.t) (now : Z) : MigRow :=
  mkMigRow (Migration.id m) (Migration.name m) (Migration.version m)
           (Migration.tenant_id m) "running" (Some now) (Migration.down m) None None
           (Some now) (Some now).

(** The effect of [recordMigrationCompletion] and [recordMigrationFailure]
    on a row. *)
Definition mark_completed (executed_at duration : Z) (updated_at : option Z) (r : MigRow)
  : MigRow :=
  mkMigRow (row_id r) (row_name r) (row_version r) (row_tenant r) "completed"
           (Some executed_at) (row_rollback_sql r) (row_error_message r) (Some duration)
           (row_created_at r) updated_at.

Definition mark_failed (message : string) (duration : Z) (updated_at : option Z) (r : MigRow)
  : MigRow :=
  mkMigRow (row_id r) (row_name r) (row_version r) (row_tenant r) "failed"
           (row_executed_at r) (row_rollback_sql r) (Some message) (Some duration)
           (row_created_at r) updated_at.

(** Adapters whose [query] has the server execute every statement of the
    migration engine: the MySQL adapter, which answers a failure with an
    error result, and the Supabase adapter, which throws. *)
Definition sql_backed (adapter : IDatabaseAdapter.t) : Prop :=
  IDatabaseAdapter.query adapter = sql_query
  ∨ IDatabaseAdapter.query adapter = SupabaseAdapter.query.

(** Adapters whose [query] has the server execute a statement without
    placeholders: the two above and the PostgreSQL adapter. *)
Definition relational (adapter : IDatabaseAdapter.t) : Prop :=
  sql_backed adapter ∨ IDatabaseAdapter.query adapter = PostgreSQLAdapter.query.

(** Adapters whose [query] never throws: a failure comes back as an error
    result. *)
Definition answers_with_results (adapter : IDatabaseAdapter.t) : Prop :=
  IDatabaseAdapter.query adapter = sql_query
  ∨ IDatabaseAdapter.query adapter = PostgreSQLAdapter.query.

Definition all_completed (results : list MigrationResult.t) : Prop :=
  Forall (fun r => MigrationResult.status r = COMPLETED) results.

(** A world with an empty migrations table, as left by [initialize]. *)
Definition migration_world : World :=
  fst (MigrationManager.initialize MySQLAdapter.adapter MigrationManager.default_config
         empty_world).

Definition with_bad_script (text message : string) (w : World) : World :=
  set_db (fun b => mkBackend (tables b) (migrations b) ((text, message) :: bad_scripts b)
                             (script_log b) (latency b)) w.

Definition M1 : Migration.t :=
  Migration.mk "20240101_users" "users" "20240101" "CREATE TABLE users (id INT)"
               "DROP TABLE users" None.
Definition M2 : Migration.t :=
  Migration.mk "20240102_orders" "orders" "20240102" "CREATE TABLE orders (id INT"
               "DROP TABLE orders" None.
Definition M3 : Migration.t :=
  Migration.mk "20240103_items" "items" "20240103" "CREATE TABLE items (id INT)"
               "DROP TABLE items" None.

(** The server rejects the forward script of [M2]. *)
Definition broken_M2_world : World :=
  with_bad_script (Migration.up M2) "syntax error at end of input" migration_world.

(** The rows of the migrations table after [recordMigrationStart]. *)
Definition rows_started (rs : list MigRow) (m : Migration.t) (now : Z) : list MigRow :=
  if has_row rs (Migration.id m) then rs else rs ++ [running_row m now].

(** The world after a migration whose three statements reached the server
    (insert, forward script, completion), started at clock [t0] with
    statement latency [l]. *)
Definition after_completed (rs : list MigRow) (m : Migration.t) (w : World) : World :=
  let t0 := w_clock w in
  let l := latency (w_db w) in
  with_rows (MigrationsTable.set_row (Migration.id m) (mark_completed (t0 + l + l) (t0 + l + l - t0) (Some (t0 + l + l)))
               (rows_started rs m (t0 + l)))
    (ticked (logged (Migration.up m) (ticked (ticked w)))).

Definition completed_result (m : Migration.t) (w : World) : MigrationResult.t :=
  let t0 := w_clock w in
  let l := latency (w_db w) in
  MigrationResult.mk (Migration.id m) (Migration.name m) COMPLETED
    (Some (t0 + l + l + l)) (Some (t0 + l + l - t0)) None.

(** The world after a migration whose forward script made [query] throw. *)
Definition after_failed_script (rs : list MigRow) (m : Migration.t) (message : string)
    (w : World) : World :=
  let t0 := w_clock w in
  let l := latency (w_db w) in
  with_rows (MigrationsTable.set_row (Migration.id m) (mark_failed message (t0 + l + l - t0) (Some (t0 + l + l)))
               (rows_started rs m (t0 + l)))
    (ticked (logged (Migration.up m) (ticked (ticked w)))).

(** The world after a migration whose start record was refused. *)
Definition after_failed_start (rs : list MigRow) (m : Migration.t) (message : string)
    (w : World) : World :=
  let t0 := w_clock w in
  let l := latency (w_db w) in
  with_rows (MigrationsTable.set_row (Migration.id m) (mark_failed message (t0 + l - t0) (Some (t0 + l))) rs)
    (ticked (ticked w)).

Definition failed_result (m : Migration.t) (message : string) (duration : Z)
  : MigrationResult.t :=
  MigrationResult.mk (Migration.id m) (Migration.name m) FAILED None (Some duration)
    (Some message).

(** What the table and the results say about the migrations of a batch
    that ran before the failing one. *)
Definition completed_entry (m : Migration.t) (row : MigRow) (res : MigrationResult.t)
  : Prop :=
  row_id row = Migration.id m ∧ row_status row = "completed"
  ∧ row_error_message row = None
  ∧ MigrationResult.id res = Migration.id m
  ∧ MigrationResult.status res = COMPLETED
  ∧ is_Some (MigrationResult.duration res)
  ∧ row_duration_ms row = MigrationResult.duration res.

Definition failed_entry (m : Migration.t) (row : MigRow) (res : MigrationResult.t)
  : Prop :=
  row_id row = Migration.id m ∧ row_status row = "failed"
  ∧ MigrationResult.id res = Migration.id m
  ∧ MigrationResult.status res = FAILED
  ∧ is_Some (MigrationResult.error res)
  ∧ row_error_message row = MigrationResult.error res
  ∧ row_duration_ms row = MigrationResult.duration res.

Inductive entries : list Migration.t → list MigRow → list MigrationResult.t → Prop :=
  | entries_nil : entries [] [] []
  | entries_cons m row res ms rows ress :
      completed_entry m row res → entries ms rows ress →
      entries (m :: ms) (row :: rows) (res :: ress).


(** ** Vocabulary for the statements about the facade *)

(** The operation returns normally from every world. *)
Definition never_throws {A} (m : M A) : Prop := ∀ w, ∃ w' a, m w = (w', Ret a).

(** The write to the cache, or the removal from it, that an operation
    makes in the world [w] returns; without a cache there is none. *)
Definition cache_set_returns (cache : option ICacheProvider.t) (key : string) (v : Value)
    (context : TenantContext) (ttl : option Z) (w : World) : Prop :=
  match cache with
  | None => True
  | Some c => ∃ w', ICacheProvider.set c key v context ttl w = (w', Ret tt)
  end.

Definition cache_delete_returns (cache : option ICacheProvider.t) (key : string)
    (context : TenantContext) (w : World) : Prop :=
  match cache with
  | None => True
  | Some c => ∃ w', ICacheProvider.delete c key context w = (w', Ret tt)
  end.

Definition analytics_never_throws (engine : option AnalyticsEngine.t) : Prop :=
  match engine with
  | None => True
  | Some e =>
      (∀ event props context, never_throws (AnalyticsEngine.trackEvent e event props context))
      ∧ (∀ name context n props,
           never_throws (AnalyticsEngine.incrementCounter e name context n props))
  end.

Definition events_never_throw (provider : option IEventProvider.t) : Prop :=
  match provider with
  | None => True
  | Some p => ∀ event, never_throws (IEventProvider.emit p event)
  end.

(** A world with a relational [projects] table but no [audit_logs] table:
    every audit write is refused by the server. *)
Definition no_audit_world : World := sql_world.

(** Two projects of tenant-a in the relational store. *)
Definition two_projects_world : World :=
  fst (PostgreSQLAdapter.create "projects" [("name", VStr "Globex")] ctx_A
         (fst (PostgreSQLAdapter.create "projects" acme ctx_A sql_world))).

Definition default_redis : ICacheProvider.t :=
  redis_provider (RedisCacheAdapter.mkConfig None None).

Definition first_page : QueryOptions := mkOptions None None None (Some 10) None.

(** The facade over the PostgreSQL adapter, with and without the Redis
    cache. *)
Definition cached_read (options : QueryOptions) (cacheOptions : DataManagerV3.CacheOptions)
  : M DataResult :=
  DataManagerV3.read PostgreSQLAdapter.adapter (Some default_redis) None
    "projects" options ctx_A cacheOptions.

Definition uncached_read (options : QueryOptions) : M DataResult :=
  DataManagerV3.read PostgreSQLAdapter.adapter None None
    "projects" options ctx_A DataManagerV3.no_cache_options.

Definition cache_off : DataManagerV3.CacheOptions :=
  DataManagerV3.mkCacheOptions (Some false) None None.

(** The world after a first read of the first page through the cache. *)
Definition primed_world : World :=
  fst (cached_read first_page DataManagerV3.no_cache_options two_projects_world).

(** The two projects as the relational store returns them, and as they
    come back from the cache. *)
Definition two_projects : Value :=
  VArr [VObj [("id", VStr "uuid-0"); ("tenant_id", VStr "tenant-a");
              ("name", VStr "Acme"); ("created_at", VDate 0); ("updated_at", VDate 0)];
        VObj [("id", VStr "uuid-1"); ("tenant_id", VStr "tenant-a");
              ("name", VStr "Globex"); ("created_at", VDate 1); ("updated_at", VDate 1)]].

Definition two_projects_cached : Value :=
  VArr [VObj [("id", VStr "uuid-0"); ("tenant_id", VStr "tenant-a");
              ("name", VStr "Acme"); ("created_at", VStr "0"); ("updated_at", VStr "0")];
        VObj [("id", VStr "uuid-1"); ("tenant_id", VStr "tenant-a");
              ("name", VStr "Globex"); ("created_at", VStr "1"); ("updated_at", VStr "1")]].

(** ** Vocabulary for further statements about the cache layer *)

(** The TTL that [set] and [mset] hand to [SETEX]:
    [ttlSeconds || this.config.defaultTTL || 3600]. *)
Definition effective_ttl (cfg : RedisCacheAdapter.CacheConfig) (ttlSeconds : option Z) : Z :=
  num_or ttlSeconds (num_or (RedisCacheAdapter.defaultTTL cfg) 3600).

(** Values free of [undefined] and of [Date] objects: the payloads that
    [JSON.stringify] followed by [JSON.parse] gives back as they were. *)
Fixpoint json_value (v : Value) : bool :=
  match v with
  | VUndef | VDate _ => false
  | VNull | VBool _ | VNum _ | VStr _ => true
  | VArr items =>
      (fix go (l : list Value) : bool :=
         match l with
         | [] => true
         | x :: l' => json_value x && go l'
         end) items
  | VObj fields =>
      (fix go (l : list (string * Value)) : bool :=
         match l with
         | [] => true
         | (_, x) :: l' => json_value x && go l'
         end) fields
  end.

(** The counters of [CacheStats] are counts. *)
Definition stats_nonnegative (st : CacheStats) : Prop :=
  0 ≤ hits st ∧ 0 ≤ misses st ∧ 0 ≤ totalKeys st.

(** The entry stored under a logical key of a tenant. *)
Definition cache_entry (cfg : RedisCacheAdapter.CacheConfig) (w : World)
    (key : string) (context : TenantContext) : option (Value * Z) :=
  keyspace (w_redis w) !! RedisCacheAdapter.getTenantKey cfg key (tenant_id context).

(** ** Vocabulary for further statements about the storage adapters *)

(** The rows of a table, none when the table does not exist. *)
Definition table_rows (w : World) (t : string) : list Obj :=
  match tables (w_db w) !! t with
  | Some tb => rows tb
  | None => []
  end.

(** The row carries the tenant id of the context. *)
Definition owned_by (context : TenantContext) (row : Obj) : Prop :=
  obj_get row "tenant_id" = Some (VStr (tenant_id context)).

Definition owned_by_b (context : TenantContext) (row : Obj) : bool :=
  match obj_get row "tenant_id" with
  | Some cell => value_eqb cell (VStr (tenant_id context))
  | None => false
  end.

(** The rows of a table that belong to other tenants than the context's. *)
Definition foreign_rows (context : TenantContext) (w : World) (t : string) : list Obj :=
  List.filter (fun row => negb (owned_by_b context row)) (table_rows w t).

(** The items of a result, none when [data] is not an array. *)
Definition result_items (r : DataResult) : list Value :=
  match data r with
  | VArr items => items
  | _ => []
  end.

(** What a [SELECT] with the given select list shows of a stored row. *)
Definition shown (sel : option string) (row : Obj) : Obj :=
  if Db.select_all sel then row else Db.project_row (Db.select_fields sel) row.

(** What an aggregation with the given select list shows of a stored
    document, before [_id] is renamed. *)
Definition shown_document (sel : option string) (doc : Obj) : Obj :=
  match sel with
  | Some s =>
      if negb (String.eqb s "") && negb (String.eqb s "*")
      then Db.project_row ("_id" :: Db.select_fields sel) doc
      else doc
  | None => doc
  end.

(** A write under [context] on [table] that takes [w] to [w'] has left
    alone what is not the context's: every row of another tenant is where
    it was, as it was, and the other tables are untouched. *)
Definition keeps_foreign_rows (context : TenantContext) (table : string) (w w' : World)
  : Prop :=
  (∀ i row, table_rows w table !! i = Some row → ¬ owned_by context row →
            table_rows w' table !! i = Some row)
  ∧ (∀ t, t ≠ table → table_rows w' t = table_rows w t).

(** The same for a write that removes rows: the rows of other tenants are
    the same rows in the same order. *)
Definition keeps_foreign_list (context : TenantContext) (table : string) (w w' : World)
  : Prop :=
  foreign_rows context w' table = foreign_rows context w table
  ∧ (∀ t, t ≠ table → table_rows w' t = table_rows w t).

(** How the SQL lexer reads a delimited identifier after its opening
    delimiter: a doubled delimiter stands for one, a single one ends the
    identifier.  The result is the identifier and the rest of the
    statement; an identifier that never ends is refused. *)
Fixpoint read_delimited (q : ascii) (s : string) : option (string * string) :=
  match s with
  | EmptyString => None
  | String c s' =>
      if Ascii.eqb c q then
        match s' with
        | String d s'' =>
            if Ascii.eqb d q
            then match read_delimited q s'' with
                 | Some (name, rest) => Some (String q name, rest)
                 | None => None
                 end
            else Some (EmptyString, s')
        | EmptyString => Some (EmptyString, EmptyString)
        end
      else match read_delimited q s' with
           | Some (name, rest) => Some (String c name, rest)
           | None => None
           end
  end.

(** A delimited identifier at the head of a statement; an empty one is
    refused. *)
Definition lex_identifier (q : ascii) (s : string) : option (string * string) :=
  match s with
  | String c s' =>
      if Ascii.eqb c q then
        match read_delimited q s' with
        | Some (EmptyString, _) => None
        | r => r
        end
      else None
  | EmptyString => None
  end.

(** The statement text does not go on with the delimiter. *)
Definition not_starting_with (q : ascii) (s : string) : Prop :=
  match s with
  | String c _ => c ≠ q
  | EmptyString => True
  end.

(** [`\`${this.escapeIdentifier(name)}\``], as the MySQL adapter writes an
    identifier into a statement. *)
Definition mysql_quoted (name : string) : string :=
  String backtick (MySQLAdapter.escapeIdentifier name) +:+ String backtick "".

(** ** Vocabulary for further statements about the facade *)

(** A row of the context's tenant with the given id. *)
Definition own_row (context : TenantContext) (id : string) (row : Obj) : Prop :=
  owned_by context row ∧ obj_get row "id" = Some (VStr id).

(** An access check answers, and answers yes exactly for a row of the
    context's tenant: yes implies that the table holds such a row; and
    when the table has the columns [id] and [tenant_id] and holds such a
    row, the answer is yes. *)
Definition grants_own_rows_only (check : M bool) (table id : string)
    (context : TenantContext) (w : World) : Prop :=
  (∃ b, snd (check w) = Ret b)
  ∧ (snd (check w) = Ret true → ∃ row, row ∈ table_rows w table ∧ own_row context id row)
  ∧ (∀ tb row,
       tables (w_db w) !! table = Some tb →
       Db.known_column tb "id" = true → Db.known_column tb "tenant_id" = true →
       row ∈ rows tb → own_row context id row →
       snd (check w) = Ret true).

(** No document of the collection has a field [id]. *)
Definition no_id_field (w : World) (table : string) : Prop :=
  Forall (fun doc => obj_get doc "id" = None) (table_rows w table).

(** ** Vocabulary for further statements about the migration engine *)

(** The number of rows of the migrations table with a given status. *)
Definition rows_with_status (s : string) (rs : list MigRow) : Z :=
  Z.of_nat (length (List.filter (fun r => String.eqb (row_status r) s) rs)).

(** Every element stands in [R] to its successor. *)
Fixpoint adjacent {A} (R : A → A → bool) (l : list A) : bool :=
  match l with
  | a :: (b :: _) as rest => R a b && adjacent R rest
  | _ => true
  end.

(** Rows in ascending and in descending order of their [version]. *)
Definition versions_ascend (rs : list MigRow) : bool :=
  adjacent (fun a b => String.leb (row_version a) (row_version b)) rs.
Definition versions_descend (rs : list MigRow) : bool :=
  adjacent (fun a b => String.leb (row_version b) (row_version a)) rs.

(** The rows [rollbackTo] asks for: completed, with a version above the
    target. *)
Definition above_target (targetVersion : string) (r : MigRow) : bool :=
  String.ltb targetVersion (row_version r) && String.eqb (row_status r) "completed".

(** None of the rows has a reverse script that the server rejects. *)
Definition rollbacks_accepted (w : World) (rs : list MigRow) : Prop :=
  Forall (fun r => script_fails w (row_rollback_sql r) = false) rs.

(** ** Vocabulary for further statements about the cache in the facade *)

(** The world with the connection to Redis lost. *)
Definition redis_down (w : World) : World :=
  set_redis (fun rs => mkRedis (keyspace rs) false) w.

(** An [audit_logs] table with one entry of tenant-a. *)
Definition audit_world : World :=
  with_table "audit_logs"
    (mkTable (Some ["id"; "tenant_id"; "user_id"; "action"; "resource_type"; "resource_id";
                    "old_values"; "new_values"; "metadata"; "created_at"])
             [[("id", VStr "log-1"); ("tenant_id", VStr "tenant-a");
               ("user_id", VStr "user-a"); ("action", VStr "CREATE");
               ("resource_type", VStr "projects"); ("resource_id", VStr "uuid-0");
               ("created_at", VStr "0")]])
    sql_world.

(** The database adapters of the repository. *)
Definition repository_adapters : list IDatabaseAdapter.t :=
  [PostgreSQLAdapter.adapter; MySQLAdapter.adapter; SupabaseAdapter.adapter;
   MongoDBAdapter.adapter].

(** The operation leaves the Redis server as it is. *)
Definition keeps_redis {A} (m : M A) : Prop := ∀ w, w_redis (fst (m w)) = w_redis w.

(** ** The run lock among concurrent callers *)

(** The engine is asynchronous: each statement it sends is awaited, and
    while it waits the event loop runs the timer callbacks that are due
    and the calls of other callers.  The event log notes what they did. *)
Definition rejected_call : Value := VStr (exn_message MigrationManager.already_in_progress).
Definition admitted_call : Value := VStr "admitted".
Definition lock_timer_fired : Value := VStr "lock timer fired".

Definition record_event (v : Value) : M unit := modify (set_events (fun l => l ++ [v])).

(** The timers that are due run their callbacks. *)
Definition due_timers : M unit :=
  let* w := get_world in
  when (existsb (fun t => t <=? w_clock w) (w_timers w))
       (MigrationManager.fire_timers;; record_event lock_timer_fired).

(** A call made by another caller, with its outcome noted: the message
    of what it threw, or that it ran. *)
Definition concurrent_call {A} (call : M A) : M unit :=
  try_catch (call;; record_event admitted_call)
            (fun e => record_event (VStr (exn_message e))).

(** The adapter as a run sees it on the event loop: when the statement
    has settled, the timers that are due have fired and another caller
    has made its call. *)
Definition awaiting (adapter : IDatabaseAdapter.t) (others : M unit) : IDatabaseAdapter.t :=
  IDatabaseAdapter.mk
    (fun sql params =>
       try_finally (IDatabaseAdapter.query adapter sql params) (due_timers;; others))
    (IDatabaseAdapter.create adapter) (IDatabaseAdapter.read adapter)
    (IDatabaseAdapter.update adapter) (IDatabaseAdapter.delete adapter)
    (IDatabaseAdapter.bulkCreate adapter).

(** The calls that the run lock guards. *)
Inductive engine_call (adapter : IDatabaseAdapter.t)
    (config : MigrationManager.MigrationConfig) : M (list MigrationResult.t) → Prop :=
  | call_runMigrations migrations :
      engine_call adapter config (MigrationManager.runMigrations adapter config migrations)
  | call_rollbackTo targetVersion :
      engine_call adapter config (MigrationManager.rollbackTo adapter config targetVersion).

(** The events of a run among concurrent callers: at least one call was
    made, and every call made before the first lock timer fired (before
    the end of the run, when none fired) was rejected. *)
Definition exclusive_until_timer (before after : list Value) : Prop :=
  ∃ k rest,
    after = before ++ repeat rejected_call k ++ rest
    ∧ ((rest = [] ∧ (0 < k)%nat) ∨ ∃ rest', rest = lock_timer_fired :: rest').

(** The operation keeps a property of the world, however it ends. *)
Definition preserves {A} (I : World → Prop) (m : M A) : Prop := ∀ w, I w → I (fst (m w)).

(** What the lock shows of the world: the flag and the event log. *)
Definition lock_view (w : World) : bool * list Value := (w_isLocked w, w_events w).

(** The adapter's [query] touches neither the lock nor the event log. *)
Definition quiet (adapter : IDatabaseAdapter.t) : Prop :=
  ∀ x sql params,
    preserves (fun w => lock_view w = x) (IDatabaseAdapter.query adapter sql params).

Definition events_from (prefix : list Value) (w : World) : Prop :=
  ∃ rest, w_events w = prefix ++ rest.

(** The states of a run: it holds the lock and at least [n] calls, all
    rejected, have been noted; or a lock timer has fired. *)
Definition lock_held (n : nat) (before : list Value) (w : World) : Prop :=
  w_isLocked w = true
  ∧ ∃ k, (n ≤ k)%nat ∧ w_events w = before ++ repeat rejected_call k.
Definition lock_lost (before : list Value) (w : World) : Prop :=
  ∃ k, events_from (before ++ repeat rejected_call k ++ [lock_timer_fired]) w.
Definition run_invariant (n : nat) (before : list Value) (w : World) : Prop :=
  lock_held n before w ∨ lock_lost before w.

(** A server that takes [l] milliseconds for each statement. *)
Definition with_latency (l : Z) (w : World) : World :=
  set_db (fun b => mkBackend (tables b) (migrations b) (bad_scripts b) (script_log b) l) w.

(** Twenty seconds for each statement. *)
Definition slow_world : World := with_latency 20000 migration_world.

(** * Properties of the cache layer *)

Module CacheProofs.
Import RedisCacheAdapter.

Lemma app_cons (a : ascii) (s t : string) : String a s +:+ t = String a (s +:+ t).
Proof. reflexivity. Qed.

Lemma app_assoc_str (s t u : string) : (s +:+ t) +:+ u = s +:+ (t +:+ u).
Proof.
  induction s as [|a s IH]; [reflexivity|].
  rewrite !app_cons. by rewrite IH.
Qed.

Lemma string_forall_app P s t :
  string_forall P (s +:+ t) = string_forall P s && string_forall P t.
Proof.
  induction s as [|a s IH]; [reflexivity|].
  rewrite app_cons. simpl. rewrite IH. by rewrite andb_assoc.
Qed.

(** Two colon-free heads followed by a colon determine each other. *)
Lemma colon_sep_inj (a b k1 k2 : string) :
  colon_free a = true → colon_free b = true →
  a +:+ ":" +:+ k1 = b +:+ ":" +:+ k2 → a = b ∧ k1 = k2.
Proof.
  revert b. induction a as [|c a IH]; intros [|d b] Ha Hb Heq.
  - change (String ":" k1 = String ":" k2) in Heq. by injection Heq as ->.
  - change (String ":" k1 = String d (b +:+ ":" +:+ k2)) in Heq.
    injection Heq as <- _. unfold colon_free in Hb. simpl in Hb. done.
  - change (String c (a +:+ ":" +:+ k1) = String ":" k2) in Heq.
    injection Heq as -> _. unfold colon_free in Ha. simpl in Ha. done.
  - change (String c (a +:+ ":" +:+ k1) = String d (b +:+ ":" +:+ k2)) in Heq.
    injection Heq as -> Heq.
    unfold colon_free in Ha, Hb. simpl in Ha, Hb.
    apply andb_prop in Ha as [_ Ha]. apply andb_prop in Hb as [_ Hb].
    destruct (IH b Ha Hb Heq) as [-> ->]. done.
Qed.

Lemma getTenantKey_inj cfg (k1 k2 A B : string) :
  colon_free A = true → colon_free B = true →
  getTenantKey cfg k1 A = getTenantKey cfg k2 B → A = B ∧ k1 = k2.
Proof.
  intros HA HB Heq. unfold getTenantKey in Heq.
  apply String.app_inj in Heq. apply String.app_inj in Heq.
  by apply colon_sep_inj.
Qed.

Lemma get_result cfg k ctx w :
  snd (get cfg k ctx w) =
  if redis_up (w_redis w)
  then Ret (payload (keyspace (w_redis w)) (getTenantKey cfg k (tenant_id ctx)))
  else Throw (SDKError "Failed to get cache value" ErrorCodes.DATABASE_ERROR 500).
Proof.
  unfold get, try_catch, bind, redis_get, redis_cmd, payload.
  destruct (redis_up (w_redis w)); [|reflexivity].
  destruct (keyspace (w_redis w) !! _) as [[v t]|]; reflexivity.
Qed.

Lemma exists_result cfg k ctx w :
  snd (exists_ cfg k ctx w) =
  if redis_up (w_redis w)
  then Ret (bool_decide (is_Some (keyspace (w_redis w) !! getTenantKey cfg k (tenant_id ctx))))
  else Throw (SDKError "Failed to check cache key existence" ErrorCodes.DATABASE_ERROR 500).
Proof.
  unfold exists_, try_catch, bind, redis_exists, redis_cmd.
  destruct (redis_up (w_redis w)); [|reflexivity].
  destruct (keyspace (w_redis w) !! _) as [[v t]|]; reflexivity.
Qed.

Lemma count_values_result values w :
  snd (count_values values w) = Ret (map (default VNull) values)
  ∧ w_redis (fst (count_values values w)) = w_redis w.
Proof.
  revert w. induction values as [|[v|] values IH]; intros w; [done|..];
    cbn [count_values]; unfold bind, add_hit, add_miss, modify, ret;
    match goal with |- context [count_values values ?w'] =>
      destruct (IH w') as [Hr Hs]; destruct (count_values values w') as [w2 [vs|e]] end;
    simplify_eq/=; done.
Qed.

Lemma mget_result cfg keys ctx w :
  snd (mget cfg keys ctx w) =
  if redis_up (w_redis w)
  then Ret (map (fun k => payload (keyspace (w_redis w)) (getTenantKey cfg k (tenant_id ctx))) keys)
  else Throw (JsError "Connection is closed.").
Proof.
  unfold mget, bind, redis_mget, redis_cmd.
  destruct (redis_up (w_redis w)); [|reflexivity].
  match goal with |- context [count_values ?vs ?w'] =>
    destruct (count_values_result vs w') as [Hr _];
    destruct (count_values vs w') as [w2 r] end.
  simpl in *. subst r. f_equal. rewrite !map_map. apply map_ext. intros k.
  unfold payload. by destruct (keyspace (w_redis w) !! _) as [[??]|].
Qed.

(** The effect of [set] on the Redis server. *)
Lemma set_server cfg k v ctx ttl w :
  let w' := fst (set cfg k v ctx ttl w) in
  redis_up (w_redis w') = redis_up (w_redis w)
  ∧ (keyspace (w_redis w') = keyspace (w_redis w)
     ∨ ∃ t, keyspace (w_redis w') =
            <[getTenantKey cfg k (tenant_id ctx) := (serialize v, t)]>
              (keyspace (w_redis w))).
Proof.
  unfold set, try_catch, bind, redis_setex, redis_cmd, setex.
  destruct (redis_up (w_redis w)) eqn:Hup; simpl.
  - destruct (_ <=? 0); simpl; rewrite ?Hup; eauto.
  - rewrite Hup. eauto.
Qed.

Lemma pipeline_frame (cmds : list (string * Z * Value)) (ks : gmap string (Value * Z)) pk :
  (∀ c, c ∈ cmds → fst (fst c) ≠ pk) →
  fold_left (fun acc c => fst (setex (fst (fst c)) (snd (fst c)) (snd c) acc)) cmds ks !! pk
  = ks !! pk.
Proof.
  revert ks. induction cmds as [|c cmds IH]; intros ks Hne; [done|].
  simpl. rewrite IH.
  - unfold setex. destruct (_ <=? 0); [done|]. simpl.
    apply lookup_insert_ne. apply Hne. left.
  - intros c' Hc'. apply Hne. by right.
Qed.

(** [set] and [mset] under a context only touch keys derived from that
    context's tenant id. *)
Lemma set_frame cfg k v ctx ttl w pk :
  pk ≠ getTenantKey cfg k (tenant_id ctx) →
  redis_up (w_redis (fst (set cfg k v ctx ttl w))) = redis_up (w_redis w)
  ∧ keyspace (w_redis (fst (set cfg k v ctx ttl w))) !! pk = keyspace (w_redis w) !! pk.
Proof.
  intros Hne. destruct (set_server cfg k v ctx ttl w) as [Hup [Hks|[t Hks]]];
    split; try done; rewrite Hks; [done|]. by apply lookup_insert_ne.
Qed.

Lemma mset_frame cfg kvs ctx ttl w pk :
  (∀ k, pk ≠ getTenantKey cfg k (tenant_id ctx)) →
  redis_up (w_redis (fst (mset cfg kvs ctx ttl w))) = redis_up (w_redis w)
  ∧ keyspace (w_redis (fst (mset cfg kvs ctx ttl w))) !! pk = keyspace (w_redis w) !! pk.
Proof.
  intros Hne. unfold mset, try_catch, bind, redis_pipeline_setex, redis_cmd.
  destruct (redis_up (w_redis w)) eqn:Hup; simpl; rewrite ?Hup; [|done].
  split; [done|]. apply pipeline_frame.
  intros c [kv [-> _]]%list_elem_of_fmap. simpl. intros Heq. by eapply Hne.
Qed.

(** The three read operations only depend on the server through the
    looked-up keys. *)
Lemma reads_agree cfg ctx (w w' : World) :
  redis_up (w_redis w') = redis_up (w_redis w) →
  (∀ k, keyspace (w_redis w') !! getTenantKey cfg k (tenant_id ctx)
        = keyspace (w_redis w) !! getTenantKey cfg k (tenant_id ctx)) →
  ∀ k keys,
    snd (get cfg k ctx w') = snd (get cfg k ctx w)
    ∧ snd (exists_ cfg k ctx w') = snd (exists_ cfg k ctx w)
    ∧ snd (mget cfg keys ctx w') = snd (mget cfg keys ctx w).
Proof.
  intros Hup Hks k keys.
  rewrite !get_result, !exists_result, !mget_result, Hup.
  destruct (redis_up (w_redis w)); [|done].
  unfold payload. rewrite Hks. split_and!; [done..|].
  f_equal. apply map_ext. intros k'. by rewrite Hks.
Qed.

(** C3 (amended): for tenant ids without a colon the physical key
    derivation is injective across tenants: two distinct tenants never
    share a physical key, whatever the logical keys, and therefore a value
    stored (by [set] or [mset]) under tenant A's context does not change
    what [get], [exists] and [mget] return under tenant B's context. *)
Theorem tenant_keys_disjoint cfg (ctxA ctxB : TenantContext) (k1 k2 : string)
    (keys : list string) (v : Value) (kvs : Obj) (ttl : option Z) (w : World) :
  colon_free (tenant_id ctxA) = true →
  colon_free (tenant_id ctxB) = true →
  tenant_id ctxA ≠ tenant_id ctxB →
  getTenantKey cfg k1 (tenant_id ctxA) ≠ getTenantKey cfg k2 (tenant_id ctxB)
  ∧ (let w' := fst (set cfg k1 v ctxA ttl w) in
     snd (get cfg k2 ctxB w') = snd (get cfg k2 ctxB w)
     ∧ snd (exists_ cfg k2 ctxB w') = snd (exists_ cfg k2 ctxB w)
     ∧ snd (mget cfg keys ctxB w') = snd (mget cfg keys ctxB w))
  ∧ (let w' := fst (mset cfg kvs ctxA ttl w) in
     snd (get cfg k2 ctxB w') = snd (get cfg k2 ctxB w)
     ∧ snd (exists_ cfg k2 ctxB w') = snd (exists_ cfg k2 ctxB w)
     ∧ snd (mget cfg keys ctxB w') = snd (mget cfg keys ctxB w)).
Proof.
  intros HA HB Hne.
  assert (Hkeys : ∀ k k', getTenantKey cfg k (tenant_id ctxB)
                          ≠ getTenantKey cfg k' (tenant_id ctxA)).
  { intros k k' Heq. apply getTenantKey_inj in Heq as [Heq _]; [|done..].
    by apply Hne. }
  split_and!.
  - intros Heq. by eapply Hkeys.
  - cbv zeta. apply reads_agree.
    + by destruct (set_server cfg k1 v ctxA ttl w) as [? _].
    + intros k. by apply set_frame, Hkeys.
  - cbv zeta. apply reads_agree.
    + by apply (mset_frame cfg kvs ctxA ttl w (getTenantKey cfg "" (tenant_id ctxB))), Hkeys.
    + intros k. apply mset_frame. intros k'. apply Hkeys.
Qed.

Lemma tenant_keys_disjoint_witness :
  let cfg := mkConfig None None in
  let ctxA := ctx_of "7f1c" in
  let ctxB := ctx_of "9e2d" in
  (colon_free (tenant_id ctxA) = true ∧ colon_free (tenant_id ctxB) = true
   ∧ tenant_id ctxA ≠ tenant_id ctxB)
  ∧ getTenantKey cfg "projects:1" (tenant_id ctxA)
    ≠ getTenantKey cfg "projects:1" (tenant_id ctxB).
Proof.
  split; [split_and!; [reflexivity | reflexivity | discriminate]|].
  apply (tenant_keys_disjoint (mkConfig None None) (ctx_of "7f1c") (ctx_of "9e2d")
           "projects:1" "projects:1" [] VNull [] None empty_world);
    [reflexivity | reflexivity | discriminate].
Defined.

(** C3 as stated fails: the tenant ids "a" and "a:b" are distinct, yet the
    logical keys "b:c" and "c" give both the same physical key, and a value
    stored under "a" is returned by [get] under "a:b". *)
Lemma tenant_key_collision :
  let cfg := mkConfig None None in
  "a" ≠ "a:b"
  ∧ getTenantKey cfg "b:c" "a" = getTenantKey cfg "c" "a:b"
  ∧ snd (get cfg "c" (ctx_of "a:b")
           (fst (set cfg "b:c" (VStr "secret of a") (ctx_of "a") None empty_world)))
    = Ret (VStr "secret of a")
  ∧ ¬ (∀ cfg (A B k1 k2 : string), A ≠ B → getTenantKey cfg k1 A ≠ getTenantKey cfg k2 B).
Proof.
  split_and!; [discriminate | reflexivity | by vm_compute |].
  intros H. by apply (H (mkConfig None None) "a" "a:b" "b:c" "c").
Qed.

(** *** [clearTenant] *)

Lemma stringmatch_star s : stringmatch "*" s = true.
Proof. induction s as [|a s IH]; [reflexivity|]. simpl in *. exact IH. Qed.

Lemma stringmatch_literal_star lit s :
  glob_literal lit = true → stringmatch (lit +:+ "*") s = String.prefix lit s.
Proof.
  revert s. induction lit as [|c lit IH]; intros s Hlit.
  - change ("" +:+ "*") with "*". rewrite stringmatch_star. by destruct s.
  - unfold glob_literal in Hlit. simpl in Hlit.
    apply andb_prop in Hlit as [Hc Hlit].
    apply negb_true_iff in Hc. unfold glob_special in Hc.
    apply orb_false_elim in Hc as [Hc H4]. apply orb_false_elim in Hc as [Hc H3].
    apply orb_false_elim in Hc as [H1 H2].
    rewrite app_cons. cbn [stringmatch]. rewrite H1, H2, H3, H4.
    destruct s as [|x s]; [reflexivity|]. cbn [String.prefix].
    rewrite (IH s Hlit).
    destruct (ascii_dec c x) as [->|Hne].
    + by rewrite Ascii.eqb_refl.
    + apply Ascii.eqb_neq in Hne. by rewrite Hne.
Qed.

Lemma prefix_app p s : String.prefix p (p +:+ s) = true.
Proof.
  induction p as [|c p IH]; [by destruct s|].
  rewrite app_cons. cbn [String.prefix]. by destruct (ascii_dec c c).
Qed.

Lemma prefix_app_inv p s : String.prefix p s = true → ∃ r, s = p +:+ r.
Proof.
  revert s. induction p as [|c p IH]; intros s H; [by exists s|].
  destruct s as [|x s]; [done|]. cbn [String.prefix] in H.
  destruct (ascii_dec c x) as [->|]; [|done].
  destruct (IH s H) as [r ->]. by exists r.
Qed.

(** The pattern handed to [KEYS] is the tenant's literal key prefix
    followed by a star. *)
Lemma clear_pattern cfg A :
  getTenantKey cfg "*" A = getTenantKey cfg "" A +:+ "*".
Proof.
  unfold getTenantKey. rewrite !app_assoc_str. reflexivity.
Qed.

Lemma tenant_prefix_literal cfg A :
  glob_literal (str_or (keyPrefix cfg) "mt_sdk") = true → glob_literal A = true →
  glob_literal (getTenantKey cfg "" A) = true.
Proof.
  intros HP HA. unfold getTenantKey, glob_literal in *.
  rewrite !string_forall_app, HP, HA. reflexivity.
Qed.

Lemma del_keys_frame keys (ks : gmap string (Value * Z)) pk :
  pk ∉ keys → del_keys keys ks !! pk = ks !! pk.
Proof.
  induction keys as [|k keys IH]; intros Hnot; [done|].
  simpl. rewrite lookup_delete_ne.
  - apply IH. intros Hin. apply Hnot. by right.
  - intros ->. apply Hnot. left.
Qed.

Lemma matching_keys_match pattern (ks : gmap string (Value * Z)) pk :
  pk ∈ matching_keys pattern ks → stringmatch pattern pk = true.
Proof.
  unfold matching_keys. rewrite list_elem_of_In, filter_In. by intros [_ ?].
Qed.

Lemma clearTenant_server cfg A w :
  let w' := fst (clearTenant cfg A w) in
  redis_up (w_redis w') = redis_up (w_redis w)
  ∧ keyspace (w_redis w') =
    if redis_up (w_redis w)
    then del_keys (matching_keys (getTenantKey cfg "*" A) (keyspace (w_redis w)))
                  (keyspace (w_redis w))
    else keyspace (w_redis w).
Proof.
  unfold clearTenant, try_catch, bind, redis_keys, redis_del, redis_cmd, when.
  destruct (redis_up (w_redis w)) eqn:Hup; simpl; [|by rewrite Hup].
  destruct (matching_keys _ _) as [|k keys] eqn:Hkeys; simpl; rewrite ?Hup; [done|].
  done.
Qed.

(** An entry whose physical key is not under the tenant's key prefix
    survives [clearTenant], provided the prefix has no glob character. *)
Lemma clearTenant_frame cfg A w pk :
  glob_literal (getTenantKey cfg "" A) = true →
  String.prefix (getTenantKey cfg "" A) pk = false →
  keyspace (w_redis (fst (clearTenant cfg A w))) !! pk = keyspace (w_redis w) !! pk.
Proof.
  intros Hlit Hpre. destruct (clearTenant_server cfg A w) as [_ ->].
  destruct (redis_up (w_redis w)); [|done].
  apply del_keys_frame. intros Hin%matching_keys_match.
  rewrite clear_pattern, stringmatch_literal_star in Hin by done. congruence.
Qed.

Lemma other_tenant_not_under_prefix cfg A B k :
  colon_free A = true → colon_free B = true → A ≠ B →
  String.prefix (getTenantKey cfg "" A) (getTenantKey cfg k B) = false.
Proof.
  intros HA HB Hne. apply not_true_is_false. intros [r Hr]%prefix_app_inv.
  unfold getTenantKey in Hr. rewrite !app_assoc_str in Hr.
  apply String.app_inj in Hr. apply String.app_inj in Hr.
  change ("" +:+ r) with r in Hr. symmetry in Hr.
  apply colon_sep_inj in Hr as [? _]; done.
Qed.

(** C10 (amended): when the key prefix and [tenantId] contain no glob
    character, [clearTenant tenantId] only deletes entries whose physical
    key lies under that tenant's key prefix; and when moreover [tenantId]
    and another tenant id [B] contain no colon, every entry stored under
    [B]'s context keeps its value and TTL. *)
Theorem clearTenant_only_own_prefix cfg (tenantId B k pk : string) (w : World) :
  glob_literal (str_or (keyPrefix cfg) "mt_sdk") = true →
  glob_literal tenantId = true →
  let w' := fst (clearTenant cfg tenantId w) in
  (String.prefix (getTenantKey cfg "" tenantId) pk = false →
   keyspace (w_redis w') !! pk = keyspace (w_redis w) !! pk)
  ∧ (colon_free tenantId = true → colon_free B = true → B ≠ tenantId →
     keyspace (w_redis w') !! getTenantKey cfg k B
     = keyspace (w_redis w) !! getTenantKey cfg k B).
Proof.
  intros HP HA w'. pose proof (tenant_prefix_literal cfg tenantId HP HA) as Hlit.
  split.
  - intros Hpre. by apply clearTenant_frame.
  - intros HcA HcB Hne. apply clearTenant_frame; [done|].
    apply other_tenant_not_under_prefix; done.
Qed.

Lemma clearTenant_only_own_prefix_witness :
  let cfg := mkConfig None None in
  let w := world_with_entry cfg "9e2d" "projects:1" in
  (glob_literal (str_or (keyPrefix cfg) "mt_sdk") = true
   ∧ glob_literal "7f1c" = true ∧ colon_free "7f1c" = true
   ∧ colon_free "9e2d" = true ∧ "9e2d" ≠ "7f1c")
  ∧ keyspace (w_redis (fst (clearTenant cfg "7f1c" w))) !! getTenantKey cfg "projects:1" "9e2d"
    = keyspace (w_redis w) !! getTenantKey cfg "projects:1" "9e2d".
Proof.
  split; [split_and!; (reflexivity || discriminate)|].
  apply (clearTenant_only_own_prefix (mkConfig None None) "7f1c" "9e2d" "projects:1" ""
           (world_with_entry (mkConfig None None) "9e2d" "projects:1"));
    (reflexivity || discriminate).
Defined.

(** C10 as stated fails in three ways: a tenant id that extends
    [tenantId] by a colon lies under its prefix; a glob character in
    [tenantId] widens the pattern; so does one in the configured prefix.
    In each case an entry of another tenant is deleted. *)
Lemma clearTenant_deletes_other_tenant :
  let cfg := mkConfig None None in
  ("a:b" ≠ "a"
   ∧ let w := world_with_entry cfg "a:b" "k" in
     keyspace (w_redis w) !! getTenantKey cfg "k" "a:b" = Some (VStr "payload", 60)
     ∧ keyspace (w_redis (fst (clearTenant cfg "a" w))) !! getTenantKey cfg "k" "a:b" = None)
  ∧ ("b" ≠ "*"
     ∧ let w := world_with_entry cfg "b" "k" in
       keyspace (w_redis w) !! getTenantKey cfg "k" "b" = Some (VStr "payload", 60)
       ∧ keyspace (w_redis (fst (clearTenant cfg "*" w))) !! getTenantKey cfg "k" "b" = None)
  ∧ (let cfg' := mkConfig (Some "x*") None in
     "b" ≠ "a"
     ∧ let w := world_with_entry cfg' "b" ":tenant:a:z" in
       keyspace (w_redis w) !! getTenantKey cfg' ":tenant:a:z" "b" = Some (VStr "payload", 60)
       ∧ keyspace (w_redis (fst (clearTenant cfg' "a" w))) !! getTenantKey cfg' ":tenant:a:z" "b"
         = None).
Proof.
  split_and!; try discriminate; by vm_compute.
Qed.

End CacheProofs.

(** * Properties of the storage adapters *)

Module AdapterProofs.

Lemma value_eqb_str cell s : value_eqb cell (VStr s) = true → cell = VStr s.
Proof.
  destruct cell; simpl; try discriminate.
  intros H%String.eqb_eq. by subst.
Qed.

(** The relational adapters put the tenant condition in front of the
    caller's filter, and the conditions are a conjunction: a matching
    row belongs to the context's tenant whatever the filter says. *)
Lemma row_matches_tenant context conds row :
  Db.row_matches (tenant_cond context :: conds) row = true →
  obj_get row "tenant_id" = Some (VStr (tenant_id context)).
Proof.
  unfold Db.row_matches. simpl. intros [H _]%andb_prop.
  destruct (obj_get row "tenant_id") as [cell|]; [|done].
  by apply value_eqb_str in H as ->.
Qed.

(** In the document adapter a filter entry for [tenant_id] replaces the
    injected one: the query no longer mentions the context's tenant. *)
Lemma mongo_filter_replaces_tenant table options ctx1 ctx2 v rest w :
  filter options = Some (("tenant_id", v) :: rest) →
  MongoDBAdapter.read table options ctx1 w = MongoDBAdapter.read table options ctx2 w.
Proof.
  intros Hf. unfold MongoDBAdapter.read, filter_entries. rewrite Hf. reflexivity.
Qed.

(** C1 at the failing input: tenant-b created a project; a read under
    tenant-a's context whose filter names tenant-b returns that project
    from the document adapter, while the relational adapters return
    nothing for the same call. *)
Theorem mongo_read_returns_other_tenants_record :
  tenant_id ctx_A ≠ tenant_id ctx_B
  ∧ snd (MongoDBAdapter.read "projects" (filter_by_tenant "tenant-b") ctx_A mongo_world_B)
    = Ret (result_data (VArr [VObj [("name", VStr "Acme"); ("tenant_id", VStr "tenant-b");
                                    ("created_at", VDate 0); ("updated_at", VDate 0);
                                    ("id", VStr "uuid-0")]]))
  ∧ snd (MongoDBAdapter.read "projects" no_options ctx_A mongo_world_B)
    = Ret (result_data (VArr []))
  ∧ snd (PostgreSQLAdapter.read "projects" (filter_by_tenant "tenant-b") ctx_A sql_world_B)
    = Ret (result_data (VArr []))
  ∧ snd (MySQLAdapter.read "projects" (filter_by_tenant "tenant-b") ctx_A sql_world_B)
    = Ret (result_data (VArr []))
  ∧ data <$> (match snd (SupabaseAdapter.read "projects" (filter_by_tenant "tenant-b")
                           ctx_A sql_world_B) with
              | Ret r => Some r | Throw _ => None end)
    = Some (VArr []).
Proof.
  split_and!; [discriminate | by vm_compute..].
Qed.

(** The Supabase adapter never reports [RESOURCE_NOT_FOUND]. *)
Lemma supabase_delete_never_not_found table id context w e :
  snd (SupabaseAdapter.delete table id context w) = Throw e →
  e = DataError "Failed to delete record" ErrorCodes.DATABASE_ERROR 500.
Proof.
  unfold SupabaseAdapter.delete, SupabaseAdapter.client, try_catch, bind.
  destruct (Db.delete_where _ _ w) as [w' [n|e']]; simpl; [done|].
  by intros [= <-].
Qed.

Lemma supabase_update_never_not_found table id updates context w e :
  snd (SupabaseAdapter.update table id updates context w) = Throw e →
  e = DataError "Failed to update record" ErrorCodes.DATABASE_ERROR 500.
Proof.
  unfold SupabaseAdapter.update, SupabaseAdapter.client, try_catch, bind.
  cbn [Date_toISOString].
  match goal with |- context [SupabaseAdapter.single ?m ?w'] =>
    destruct (SupabaseAdapter.single m w') as [w'' [r|e']] end; simpl; [done|].
  by intros [= <-].
Qed.

(** C2 at the failing input: in a table holding one project of tenant-b,
    the Supabase adapter answers a [delete] of a missing id, and of
    tenant-b's id under tenant-a's context, with success, and an [update]
    with a [DATABASE_ERROR]; the PostgreSQL, MySQL and MongoDB adapters
    answer all of these with the same [RESOURCE_NOT_FOUND] error. *)
Theorem supabase_zero_rows_is_not_NotFound :
  snd (SupabaseAdapter.delete "projects" "missing" ctx_A sql_world_B)
    = Ret (result_data VUndef)
  ∧ snd (SupabaseAdapter.delete "projects" "uuid-0" ctx_A sql_world_B)
    = Ret (result_data VUndef)
  ∧ snd (SupabaseAdapter.update "projects" "missing" acme ctx_A sql_world_B)
    = Throw (DataError "Failed to update record" ErrorCodes.DATABASE_ERROR 500)
  ∧ snd (SupabaseAdapter.update "projects" "uuid-0" acme ctx_A sql_world_B)
    = Throw (DataError "Failed to update record" ErrorCodes.DATABASE_ERROR 500)
  ∧ Forall (fun id =>
       snd (PostgreSQLAdapter.delete "projects" id ctx_A sql_world_B)
         = Throw (DataError "Record not found" ErrorCodes.RESOURCE_NOT_FOUND 404)
       ∧ snd (MySQLAdapter.delete "projects" id ctx_A sql_world_B)
         = Throw (DataError "Record not found" ErrorCodes.RESOURCE_NOT_FOUND 404)
       ∧ snd (MongoDBAdapter.delete "projects" id ctx_A mongo_world_B)
         = Throw (DataError "Document not found" ErrorCodes.RESOURCE_NOT_FOUND 404)
       ∧ snd (PostgreSQLAdapter.update "projects" id acme ctx_A sql_world_B)
         = Throw (DataError "Record not found or update failed"
                            ErrorCodes.RESOURCE_NOT_FOUND 404)
       ∧ snd (MySQLAdapter.update "projects" id acme ctx_A sql_world_B)
         = Throw (DataError "Record not found or update failed"
                            ErrorCodes.RESOURCE_NOT_FOUND 404)
       ∧ snd (MongoDBAdapter.update "projects" id acme ctx_A mongo_world_B)
         = Throw (DataError "Document not found or update failed"
                            ErrorCodes.RESOURCE_NOT_FOUND 404))
      ["missing"; "uuid-0"].
Proof.
  split_and!; try by vm_compute.
  repeat constructor; by vm_compute.
Qed.

End AdapterProofs.

(** * Properties of the migration engine *)

Module MigrationProofs.
Import MigrationManager.

(** *** The run lock *)

Lemma try_finally_release {A} (m : M A) w :
  w_isLocked (fst (try_finally m releaseLock w)) = false.
Proof.
  unfold try_finally, releaseLock, modify. by destruct (m w) as [w' r].
Qed.

(** *** The server's statements *)

Lemma query_sql_backed adapter sql params w :
  sql_backed adapter →
  fst (query adapter sql params w) = fst (MigrationsTable.execute sql params w)
  ∧ match snd (MigrationsTable.execute sql params w) with
    | Ret found => snd (query adapter sql params w) = Ret (result_data (rows_value found))
    | Throw e =>
        (IDatabaseAdapter.query adapter = sql_query
         ∧ snd (query adapter sql params w) = Ret (result_error (exn_message e)))
        ∨ (IDatabaseAdapter.query adapter = SupabaseAdapter.query
           ∧ snd (query adapter sql params w)
             = Throw (DataError "Query execution failed" ErrorCodes.INVALID_QUERY 400))
    end.
Proof.
  intros [Hq|Hq]; unfold query; rewrite Hq;
    unfold sql_query, SupabaseAdapter.query, SupabaseAdapter.client, try_catch, bind,
      return_error, ret, throw;
    destruct (MigrationsTable.execute sql params w) as [w' [found|e]]; simpl; auto.
Qed.

Ltac open_world w :=
  destruct w as [[tbs migs bad log lat] redis stats locked timers rng clock events];
  cbn [w_db migrations bad_scripts script_log latency w_clock w_isLocked] in *.

Lemma exec_select_completed w rs :
  migrations (w_db w) = Some rs →
  MigrationsTable.execute SELECT_IDS_BY_STATUS [VStr "completed"] w
  = (ticked w, Ret (map (fun r => [("id", VStr (row_id r))])
                        (List.filter (fun r => String.eqb (row_status r) "completed") rs))).
Proof. open_world w. intros ->. reflexivity. Qed.

Lemma exec_insert w rs (m : Migration.t) :
  migrations (w_db w) = Some rs →
  MigrationsTable.execute INSERT_MIGRATION
    [VStr (Migration.id m); VStr (Migration.name m); VStr (Migration.version m);
     opt_str (Migration.tenant_id m); VStr "running"; VStr (Migration.down m)] w
  = if has_row rs (Migration.id m)
    then (ticked w, Throw (JsError "Duplicate entry for key 'PRIMARY'"))
    else (with_rows (rs ++ [running_row m (w_clock w + latency (w_db w))]) (ticked w),
          Ret []).
Proof.
  open_world w. intros ->. unfold MigrationsTable.execute, bind, Db.tick, modify.
  cbn. unfold has_row. destruct (existsb _ rs); [reflexivity|].
  cbn. unfold running_row. by destruct (Migration.tenant_id m).
Qed.

Lemma exec_script w text :
  MigrationsTable.execute (SCRIPT text) [] w
  = (logged text (ticked w),
     match List.find (fun p => String.eqb (fst p) text) (bad_scripts (w_db w)) with
     | Some p => Throw (JsError (snd p))
     | None => Ret []
     end).
Proof.
  open_world w. unfold MigrationsTable.execute, bind, Db.tick, modify. cbn.
  by destruct (List.find _ bad).
Qed.

Lemma exec_update_completed w rs executed_at duration updated_at id :
  migrations (w_db w) = Some rs →
  MigrationsTable.execute UPDATE_COMPLETED
    [VStr "completed"; VDate executed_at; VNum duration; updated_at; VStr id] w
  = (with_rows (MigrationsTable.set_row id
                (mark_completed executed_at duration
                   (MigrationsTable.opt_time_param updated_at)) rs)
               (ticked w), Ret []).
Proof. open_world w. intros ->. reflexivity. Qed.

Lemma exec_update_failed w rs message duration updated_at id :
  migrations (w_db w) = Some rs →
  MigrationsTable.execute UPDATE_FAILED
    [VStr "failed"; VStr message; VNum duration; updated_at; VStr id] w
  = (with_rows (MigrationsTable.set_row id
                (mark_failed message duration
                   (MigrationsTable.opt_time_param updated_at)) rs)
               (ticked w), Ret []).
Proof. open_world w. intros ->. reflexivity. Qed.

(** *** One migration *)

Lemma runSingle_returning adapter (m : Migration.t) w rs :
  IDatabaseAdapter.query adapter = sql_query →
  migrations (w_db w) = Some rs →
  runSingleMigration adapter m w = (after_completed rs m w, Ret (completed_result m w)).
Proof.
  intros Hq Hrs.
  unfold runSingleMigration, recordMigrationStart, recordMigrationCompletion,
    recordMigrationFailure, query. rewrite Hq.
  unfold sql_query, try_catch, bind, return_error, ret, Date_now, new_Date.
  cbn [status_string].
  rewrite (exec_insert w rs m Hrs).
  unfold after_completed, completed_result, rows_started.
  open_world w. subst migs.
  destruct (has_row rs (Migration.id m)); cbn;
    destruct (List.find _ bad); cbn; reflexivity.
Qed.

Lemma runSingle_throwing adapter (m : Migration.t) w rs :
  IDatabaseAdapter.query adapter = SupabaseAdapter.query →
  migrations (w_db w) = Some rs →
  runSingleMigration adapter m w =
  let l := latency (w_db w) in
  if has_row rs (Migration.id m) then
    (after_failed_start rs m "Query execution failed" w,
     Ret (failed_result m "Query execution failed" (w_clock w + l - w_clock w)))
  else if script_fails w (Migration.up m) then
    (after_failed_script rs m "Query execution failed" w,
     Ret (failed_result m "Query execution failed" (w_clock w + l + l - w_clock w)))
  else (after_completed rs m w, Ret (completed_result m w)).
Proof.
  intros Hq Hrs.
  unfold runSingleMigration, recordMigrationStart, recordMigrationCompletion,
    recordMigrationFailure, query. rewrite Hq.
  unfold SupabaseAdapter.query, SupabaseAdapter.client, rethrow_DataError,
    try_catch, bind, return_error, ret, throw, Date_now, new_Date.
  cbn [status_string].
  rewrite (exec_insert w rs m Hrs).
  unfold after_completed, after_failed_script, after_failed_start, completed_result,
    failed_result, rows_started, script_fails.
  open_world w. subst migs.
  destruct (has_row rs (Migration.id m)) eqn:Hrow; cbn; [reflexivity|].
  rewrite ?Hrow. destruct (List.find _ bad); cbn; rewrite ?Hrow; reflexivity.
Qed.

Lemma runSingle_completed_world adapter (m : Migration.t) w rs w' r :
  sql_backed adapter →
  migrations (w_db w) = Some rs →
  runSingleMigration adapter m w = (w', Ret r) →
  MigrationResult.status r = COMPLETED →
  w' = after_completed rs m w.
Proof.
  intros [Hq|Hq] Hrs Hrun Hst.
  - rewrite (runSingle_returning adapter m w rs Hq Hrs) in Hrun. congruence.
  - rewrite (runSingle_throwing adapter m w rs Hq Hrs) in Hrun. cbv zeta in Hrun.
    destruct (has_row rs (Migration.id m)); [by simplify_eq|].
    destruct (script_fails w (Migration.up m)); [by simplify_eq|]. congruence.
Qed.

(** Facts about the rows. *)
Lemma has_row_app rs extra id :
  has_row (rs ++ extra) id = has_row rs id || has_row extra id.
Proof. apply existsb_app. Qed.

Lemma has_row_started rs (m : Migration.t) now :
  has_row (rows_started rs m now) (Migration.id m) = true.
Proof.
  unfold rows_started. destruct (has_row rs (Migration.id m)) eqn:H; [done|].
  rewrite has_row_app. simpl. rewrite String.eqb_refl. by rewrite orb_true_r.
Qed.

Lemma completed_after_mark rs id executed_at duration updated_at :
  has_row rs id = true →
  completed_id (MigrationsTable.set_row id
                  (mark_completed executed_at duration updated_at) rs) id
  = true.
Proof.
  induction rs as [|r rs IH]; [done|]. simpl.
  destruct (String.eqb (row_id r) id) eqn:Hid; simpl.
  - intros _. by rewrite Hid.
  - intros H. rewrite IH by done. by rewrite orb_true_r.
Qed.

Lemma completed_kept_by_mark rs id id' executed_at duration updated_at :
  completed_id rs id' = true →
  completed_id (MigrationsTable.set_row id
                  (mark_completed executed_at duration updated_at) rs) id'
  = true.
Proof.
  induction rs as [|r rs IH]; [done|]. simpl.
  intros [H|H]%orb_prop.
  - destruct (String.eqb (row_id r) id); simpl.
    + apply andb_prop in H as [_ H]. by rewrite H.
    + by rewrite H.
  - rewrite IH by done. by rewrite orb_true_r.
Qed.

Lemma completed_kept_by_start rs (m : Migration.t) now id' :
  completed_id rs id' = true → completed_id (rows_started rs m now) id' = true.
Proof.
  unfold rows_started. destruct (has_row rs (Migration.id m)); [done|].
  intros H. unfold completed_id in *. rewrite existsb_app. by rewrite H.
Qed.

Lemma after_completed_rows rs m w :
  migrations (w_db (after_completed rs m w))
  = Some (MigrationsTable.set_row (Migration.id m)
            (mark_completed (w_clock w + latency (w_db w) + latency (w_db w))
             (w_clock w + latency (w_db w) + latency (w_db w) - w_clock w)
             (Some (w_clock w + latency (w_db w) + latency (w_db w))))
            (rows_started rs m (w_clock w + latency (w_db w)))).
Proof. reflexivity. Qed.

(** *** The batch loop *)

Lemma run_each_prefix {A} (run : A → M MigrationResult.t) items acc w w' results :
  run_each run items acc w = (w', Ret results) → ∃ new, results = acc ++ new.
Proof.
  revert acc w. induction items as [|item rest IH]; intros acc w Hrun.
  - injection Hrun as _ <-. exists []. by rewrite app_nil_r.
  - cbn [run_each] in Hrun. unfold bind in Hrun.
    destruct (run item w) as [w1 [r|e]]; [|done].
    destruct (decide (MigrationResult.status r = FAILED)).
    + injection Hrun as _ <-. by exists [r].
    + apply IH in Hrun as [new ->]. exists (r :: new). by rewrite <- app_assoc.
Qed.

Lemma run_each_all_completed adapter items :
  sql_backed adapter →
  ∀ acc w rs w' results,
    migrations (w_db w) = Some rs →
    run_each (runSingleMigration adapter) items acc w = (w', Ret results) →
    all_completed results →
    ∃ rs', migrations (w_db w') = Some rs'
           ∧ (∀ m, m ∈ items → completed_id rs' (Migration.id m) = true)
           ∧ (∀ id, completed_id rs id = true → completed_id rs' id = true).
Proof.
  intros Hq. induction items as [|m rest IH]; intros acc w rs w' results Hrs Hrun Hall.
  - injection Hrun as <- _. exists rs. split_and!; [done| |done].
    intros m Hm. by apply elem_of_nil in Hm.
  - cbn [run_each] in Hrun. unfold bind in Hrun.
    destruct (runSingleMigration adapter m w) as [w1 [r|e]] eqn:Hone; [|done].
    destruct (decide (MigrationResult.status r = FAILED)) as [Hf|Hf].
    + injection Hrun as _ <-. unfold all_completed in Hall.
      apply Forall_app in Hall as [_ Hall]. apply Forall_inv in Hall. congruence.
    + assert (Hr : MigrationResult.status r = COMPLETED).
      { destruct (run_each_prefix _ _ _ _ _ _ Hrun) as [new ->].
        unfold all_completed in Hall. rewrite Forall_app in Hall.
        destruct Hall as [Hall _]. apply Forall_app in Hall as [_ Hall].
        by apply Forall_inv in Hall. }
      pose proof (runSingle_completed_world adapter m w rs w1 r Hq Hrs Hone Hr) as ->.
      destruct (IH _ _ _ _ _ (after_completed_rows rs m w) Hrun Hall)
        as (rs' & Hrs' & Hitems & Hkeep).
      exists rs'. split_and!; [done| |].
      * intros m' [->|Hin]%elem_of_cons; [|by apply Hitems].
        apply Hkeep, completed_after_mark, has_row_started.
      * intros id Hid. by apply Hkeep, completed_kept_by_mark, completed_kept_by_start.
Qed.

(** *** The pending subset *)

Lemma validate_valid m w :
  valid_migration m = true → validateMigration m w = (w, Ret tt).
Proof.
  unfold valid_migration, validateMigration.
  destruct (String.eqb (Migration.id m) ""); [done|].
  destruct (String.eqb (Migration.name m) ""); [done|].
  destruct (String.eqb (Migration.up m) ""); [done|].
  destruct (String.eqb (Migration.down m) ""); done.
Qed.

Lemma validate_ret m w w' :
  validateMigration m w = (w', Ret tt) → valid_migration m = true.
Proof.
  unfold valid_migration, validateMigration.
  destruct (String.eqb (Migration.id m) ""); [done|].
  destruct (String.eqb (Migration.name m) ""); [done|].
  destruct (String.eqb (Migration.up m) ""); [done|].
  destruct (String.eqb (Migration.down m) ""); done.
Qed.

Lemma filter_pending_valid ids migs w :
  Forall (fun m => valid_migration m = true) migs →
  filter_pending ids migs w
  = (w, Ret (List.filter (fun m => negb (has_id ids (Migration.id m))) migs)).
Proof.
  induction 1 as [|m migs Hm _ IH]; [done|].
  cbn [filter_pending List.filter]. unfold bind.
  rewrite (validate_valid m w Hm), IH. unfold ret.
  by destruct (has_id ids (Migration.id m)).
Qed.

Lemma filter_pending_ret ids migs w w' kept :
  filter_pending ids migs w = (w', Ret kept) →
  Forall (fun m => valid_migration m = true) migs.
Proof.
  revert w w' kept. induction migs as [|m migs IH]; intros w w' kept H; [done|].
  cbn [filter_pending] in H. unfold bind in H.
  destruct (validateMigration m w) as [w1 [[]|e]] eqn:Hv; [|done].
  destruct (filter_pending ids migs w1) as [w2 [kept'|e]] eqn:Hrest; [|done].
  constructor; [by eapply validate_ret | by eapply IH].
Qed.

Lemma has_completed_id rs id :
  has_id (ids_of (rows_value
            (map (fun r => [("id", VStr (row_id r))])
                 (List.filter (fun r => String.eqb (row_status r) "completed") rs)))) id
  = completed_id rs id.
Proof.
  unfold has_id, ids_of, rows_value, completed_id.
  induction rs as [|r rs IH]; [done|]. simpl.
  destruct (String.eqb (row_status r) "completed"); simpl; by rewrite IH.
Qed.

Lemma pending_spec adapter migs w rs :
  sql_backed adapter →
  migrations (w_db w) = Some rs →
  Forall (fun m => valid_migration m = true) migs →
  getPendingMigrations adapter migs w
  = (ticked w, Ret (List.filter (fun m => negb (completed_id rs (Migration.id m))) migs)).
Proof.
  intros Hq Hrs Hvalid. unfold getPendingMigrations, bind. cbn [status_string].
  destruct (query_sql_backed adapter SELECT_IDS_BY_STATUS [VStr "completed"] w Hq)
    as [Hw Hr].
  rewrite (exec_select_completed w rs Hrs) in Hw, Hr. cbn [fst snd] in Hw, Hr.
  destruct (query adapter SELECT_IDS_BY_STATUS [VStr "completed"] w) as [w1 r].
  cbn [fst snd] in Hw, Hr. subst w1 r. cbn [data result_data].
  rewrite (filter_pending_valid _ migs (ticked w) Hvalid). f_equal. f_equal.
  apply filter_ext. intros m. by rewrite has_completed_id.
Qed.

Lemma pending_ret adapter migs w rs w' kept :
  sql_backed adapter →
  migrations (w_db w) = Some rs →
  getPendingMigrations adapter migs w = (w', Ret kept) →
  Forall (fun m => valid_migration m = true) migs.
Proof.
  intros Hq Hrs. unfold getPendingMigrations, bind.
  destruct (query adapter SELECT_IDS_BY_STATUS _ w) as [w1 [r|e]]; [|done].
  apply filter_pending_ret.
Qed.

(** The body of [runMigrations] between taking and releasing the lock. *)
Lemma run_unlocked adapter config migs w :
  w_isLocked w = false →
  runMigrations adapter config migs w
  = try_finally
      (acquireLock config;;
       let* pendingMigrations := getPendingMigrations adapter migs in
       run_each (runSingleMigration adapter) pendingMigrations [])
      releaseLock w.
Proof. intros H. unfold runMigrations, bind, get_world. by rewrite H. Qed.

Lemma acquire_unlocked config w :
  w_isLocked w = false →
  acquireLock config w
  = (set_timers (fun ts => ts ++ [w_clock w + lockTimeout config]) (set_isLocked true w),
     Ret tt).
Proof. intros H. unfold acquireLock, bind, get_world. by rewrite H. Qed.

Lemma exec_select_missing w params :
  migrations (w_db w) = None →
  MigrationsTable.execute SELECT_IDS_BY_STATUS [params] w
  = (ticked w, Throw (JsError "relation migrations does not exist")).
Proof. open_world w. intros ->. reflexivity. Qed.

(** Whenever the pending subset is computed, it is the provided migrations
    without the completed ones. *)
Lemma pending_is_not_completed adapter migs w w' pend :
  sql_backed adapter →
  getPendingMigrations adapter migs w = (w', Ret pend) →
  pend = List.filter (fun m => negb (completed_id (recorded_rows w) (Migration.id m))) migs.
Proof.
  intros Hq Hpend. unfold recorded_rows.
  destruct (migrations (w_db w)) as [rs|] eqn:Hrs; cbn [default from_option id].
  - pose proof (pending_ret adapter migs w rs w' pend Hq Hrs Hpend) as Hvalid.
    rewrite (pending_spec adapter migs w rs Hq Hrs Hvalid) in Hpend. congruence.
  - destruct Hq as [Hq|Hq]; unfold getPendingMigrations, bind, query in Hpend;
      rewrite Hq in Hpend.
    + unfold sql_query, try_catch, bind in Hpend. cbn [status_string] in Hpend.
      rewrite (exec_select_missing w _ Hrs) in Hpend.
      cbn [return_error ret result_error data ids_of] in Hpend.
      pose proof (filter_pending_ret _ _ _ _ _ Hpend) as Hvalid.
      rewrite (filter_pending_valid [] migs (ticked w) Hvalid) in Hpend.
      injection Hpend as _ <-. apply filter_ext. intros m.
      unfold completed_id, has_id. reflexivity.
    + exfalso. unfold SupabaseAdapter.query, SupabaseAdapter.client, try_catch, bind in Hpend.
      cbn [status_string] in Hpend. rewrite (exec_select_missing w _ Hrs) in Hpend.
      discriminate Hpend.
Qed.




(** *** The first failure stops the batch *)

Lemma set_row_fresh rs id f :
  has_row rs id = false → MigrationsTable.set_row id f rs = rs.
Proof.
  induction rs as [|r rs IH]; [done|]. simpl.
  intros [Hr Hrs]%orb_false_elim. by rewrite Hr, IH.
Qed.

Lemma set_row_started rs (m : Migration.t) now f :
  has_row rs (Migration.id m) = false →
  MigrationsTable.set_row (Migration.id m) f (rows_started rs m now)
  = rs ++ [f (running_row m now)].
Proof.
  intros H. unfold rows_started. rewrite H.
  unfold MigrationsTable.set_row. rewrite map_app.
  fold (MigrationsTable.set_row (Migration.id m) f rs). rewrite set_row_fresh by done.
  simpl. by rewrite String.eqb_refl.
Qed.

Lemma not_completed_without_row rs id : has_row rs id = false → completed_id rs id = false.
Proof.
  induction rs as [|r rs IH]; [done|]. simpl.
  intros [Hr Hrs]%orb_false_elim. by rewrite Hr, IH, andb_false_r.
Qed.

Lemma run_each_until_failure adapter Mi post :
  IDatabaseAdapter.query adapter = SupabaseAdapter.query →
  ∀ pre acc w rs,
    migrations (w_db w) = Some rs →
    NoDup (map Migration.id (pre ++ [Mi])) →
    (∀ m, m ∈ pre ++ [Mi] → has_row rs (Migration.id m) = false) →
    Forall (fun m => script_fails w (Migration.up m) = false) pre →
    script_fails w (Migration.up Mi) = true →
    ∃ w' rows ress row res,
      run_each (runSingleMigration adapter) (pre ++ Mi :: post) acc w
      = (w', Ret (acc ++ ress ++ [res]))
      ∧ migrations (w_db w') = Some (rs ++ rows ++ [row])
      ∧ entries pre rows ress
      ∧ failed_entry Mi row res
      ∧ script_log (w_db w') = script_log (w_db w) ++ map Migration.up pre ++ [Migration.up Mi]
      ∧ w_isLocked w' = w_isLocked w.
Proof.
  intros Hq. induction pre as [|m pre IH]; intros acc w rs Hrs Hnd Hfresh Hok Hbad.
  - cbn [app run_each]. unfold bind.
    rewrite (runSingle_throwing adapter Mi w rs Hq Hrs). cbv zeta.
    rewrite (Hfresh Mi) by left. rewrite Hbad.
    unfold failed_result at 1. cbn [MigrationResult.status].
    destruct (decide (FAILED = FAILED)); [|done].
    eexists _, [], [], _, _. split_and!; [reflexivity | | constructor | | |].
    + unfold after_failed_script. cbn. rewrite set_row_started by (apply Hfresh; left).
      reflexivity.
    + unfold failed_entry, failed_result; cbn. split_and!; eauto.
    + by destruct w as [[] ? ? ? ? ? ? ?].
    + by destruct w as [[] ? ? ? ? ? ? ?].
  - cbn [app run_each]. unfold bind.
    rewrite (runSingle_throwing adapter m w rs Hq Hrs). cbv zeta.
    rewrite (Hfresh m) by left.
    apply Forall_cons in Hok as [Hm Hok]. rewrite Hm.
    unfold completed_result at 1. cbn [MigrationResult.status].
    destruct (decide (COMPLETED = FAILED)); [done|].
    cbn [map app] in Hnd. apply NoDup_cons in Hnd as [Hnotin Hnd].
    set (row := mark_completed (w_clock w + latency (w_db w) + latency (w_db w))
                (w_clock w + latency (w_db w) + latency (w_db w) - w_clock w)
                (Some (w_clock w + latency (w_db w) + latency (w_db w)))
                (running_row m (w_clock w + latency (w_db w)))).
    assert (Hrs1 : migrations (w_db (after_completed rs m w)) = Some (rs ++ [row])).
    { rewrite after_completed_rows. f_equal. apply set_row_started. apply Hfresh. left. }
    destruct (IH (acc ++ [completed_result m w]) (after_completed rs m w) (rs ++ [row])
                Hrs1 Hnd) as (w' & rows & ress & rowi & resi & Hrun & Hrows & Hent & Hfail
                              & Hlog & Hlck).
    + intros m' Hm'. rewrite has_row_app. rewrite (Hfresh m') by (by right). simpl.
      rewrite orb_false_r. apply String.eqb_neq. intros Heq. apply Hnotin.
      cbn in Heq. rewrite Heq. apply list_elem_of_fmap. by exists m'.
    + exact Hok.
    + exact Hbad.
    + exists w', (row :: rows), (completed_result m w :: ress), rowi, resi.
      split_and!.
      * rewrite Hrun. by rewrite <- !app_assoc.
      * rewrite Hrows. by rewrite <- !app_assoc.
      * constructor; [|done]. unfold completed_entry, completed_result; cbn.
        split_and!; eauto.
      * done.
      * rewrite Hlog. destruct w as [[] ? ? ? ? ? ? ?]; cbn. by rewrite <- !app_assoc.
      * rewrite Hlck. by destruct w as [[] ? ? ? ? ? ? ?].
Qed.

Lemma filter_all_true {A} (f : A → bool) l :
  Forall (fun x => f x = true) l → List.filter f l = l.
Proof. induction 1 as [|x l Hx _ IH]; [done|]. simpl. by rewrite Hx, IH. Qed.

(** X30: over the Supabase adapter, whose [query] throws when the server
    rejects a statement, a batch whose migrations are not yet recorded
    runs one migration at a time, and the first forward script that the
    server rejects stops it: the failing migration is recorded as failed
    with the error message, every migration before it is recorded as
    completed with its duration, and nothing later is attempted (no
    further result, table row or script reaches the server).  The lock is
    released. *)
Theorem first_failure_stops_batch adapter config pre Mi post w rs :
  IDatabaseAdapter.query adapter = SupabaseAdapter.query →
  w_isLocked w = false →
  migrations (w_db w) = Some rs →
  Forall (fun m => valid_migration m = true) (pre ++ Mi :: post) →
  NoDup (map Migration.id (pre ++ [Mi])) →
  (∀ m, m ∈ pre ++ [Mi] → has_row rs (Migration.id m) = false) →
  Forall (fun m => script_fails w (Migration.up m) = false) pre →
  script_fails w (Migration.up Mi) = true →
  ∃ w' rows ress row res,
    runMigrations adapter config (pre ++ Mi :: post) w = (w', Ret (ress ++ [res]))
    ∧ migrations (w_db w') = Some (rs ++ rows ++ [row])
    ∧ entries pre rows ress
    ∧ failed_entry Mi row res
    ∧ script_log (w_db w')
      = script_log (w_db w) ++ map Migration.up pre ++ [Migration.up Mi]
    ∧ w_isLocked w' = false.
Proof.
  intros Hq Hlock Hrs Hvalid Hnd Hfresh Hok Hbad.
  rewrite (run_unlocked adapter config _ w Hlock).
  unfold try_finally, bind. rewrite (acquire_unlocked config w Hlock).
  set (wa := set_timers _ (set_isLocked true w)).
  rewrite (pending_spec adapter _ wa rs (or_intror Hq) Hrs Hvalid).
  assert (Hpend : List.filter (fun m => negb (completed_id rs (Migration.id m)))
                    (pre ++ Mi :: post)
                  = pre ++ Mi :: List.filter
                      (fun m => negb (completed_id rs (Migration.id m))) post).
  { rewrite List.filter_app. cbn [List.filter].
    rewrite not_completed_without_row by (apply Hfresh; set_solver). cbn [negb].
    f_equal. apply filter_all_true, Forall_forall. intros m Hm.
    rewrite not_completed_without_row; [done|]. apply Hfresh. set_solver. }
  rewrite Hpend.
  destruct (run_each_until_failure adapter Mi
              (List.filter (fun m => negb (completed_id rs (Migration.id m))) post)
              Hq pre [] (ticked wa) rs Hrs Hnd Hfresh Hok Hbad)
    as (w' & rows & ress & row & res & Hrun & Hrows & Hent & Hfail & Hlog & _).
  rewrite Hrun. unfold releaseLock, modify.
  exists (set_isLocked false w'), rows, ress, row, res.
  split_and!; done.
Qed.

Lemma first_failure_stops_batch_witness :
  (IDatabaseAdapter.query SupabaseAdapter.adapter = SupabaseAdapter.query
   ∧ w_isLocked broken_M2_world = false
   ∧ migrations (w_db broken_M2_world) = Some []
   ∧ Forall (fun m => valid_migration m = true) ([M1] ++ M2 :: [M3])
   ∧ NoDup (map Migration.id ([M1] ++ [M2]))
   ∧ (∀ m, m ∈ [M1] ++ [M2] → has_row [] (Migration.id m) = false)
   ∧ Forall (fun m => script_fails broken_M2_world (Migration.up m) = false) [M1]
   ∧ script_fails broken_M2_world (Migration.up M2) = true)
  ∧ ∃ w' rows ress row res,
      runMigrations SupabaseAdapter.adapter default_config ([M1] ++ M2 :: [M3])
        broken_M2_world = (w', Ret (ress ++ [res]))
      ∧ migrations (w_db w') = Some ([] ++ rows ++ [row])
      ∧ entries [M1] rows ress
      ∧ failed_entry M2 row res
      ∧ script_log (w_db w')
        = script_log (w_db broken_M2_world) ++ map Migration.up [M1] ++ [Migration.up M2]
      ∧ w_isLocked w' = false.
Proof.
  assert (Hvalid : Forall (fun m => valid_migration m = true) ([M1] ++ M2 :: [M3]))
    by (repeat constructor).
  assert (Hnd : NoDup (map Migration.id ([M1] ++ [M2])))
    by (cbn; apply NoDup_cons; split;
        [intros [H|H%elem_of_nil]%elem_of_cons; [discriminate H | exact H]
        | apply NoDup_singleton]).
  assert (Hfresh : ∀ m, m ∈ [M1] ++ [M2] → has_row [] (Migration.id m) = false)
    by (intros; reflexivity).
  assert (Hok : Forall (fun m => script_fails broken_M2_world (Migration.up m) = false) [M1])
    by (repeat constructor).
  split; [split_and!; try reflexivity; assumption|].
  exact (first_failure_stops_batch SupabaseAdapter.adapter default_config [M1] M2 [M3]
           broken_M2_world [] eq_refl eq_refl eq_refl Hvalid Hnd Hfresh Hok eq_refl).
Defined.

(** C5: over the MySQL and the PostgreSQL adapter the first failure does
    not stop the batch.  With the forward script of [M2] rejected by the
    server, [runMigrations] over [M1; M2; M3] reports all three as
    [COMPLETED] and submits the script of [M3]; over the MySQL adapter
    the row of [M2] is recorded as completed, over the PostgreSQL adapter
    no row is recorded at all.  Their [query] answers the rejected script
    with an error result that the engine never looks at; over the Supabase
    adapter, whose [query] throws, the same batch stops at [M2], recorded
    as failed. *)
Theorem rejected_script_is_reported_completed :
  let batch := [M1; M2; M3] in
  let mysql := runMigrations MySQLAdapter.adapter default_config batch broken_M2_world in
  let pg := runMigrations PostgreSQLAdapter.adapter default_config batch broken_M2_world in
  let supabase := runMigrations SupabaseAdapter.adapter default_config batch
                    broken_M2_world in
  let statuses run :=
    match snd run with
    | Ret results => Some (MigrationResult.status <$> results)
    | Throw _ => None
    end in
  script_fails broken_M2_world (Migration.up M2) = true
  ∧ snd (MySQLAdapter.query (SCRIPT (Migration.up M2)) [] broken_M2_world)
    = Ret (result_error "syntax error at end of input")
  ∧ statuses mysql = Some [COMPLETED; COMPLETED; COMPLETED]
  ∧ script_log (w_db (fst mysql)) = Migration.up <$> batch
  ∧ row_status <$> recorded_rows (fst mysql) = ["completed"; "completed"; "completed"]
  ∧ statuses pg = Some [COMPLETED; COMPLETED; COMPLETED]
  ∧ script_log (w_db (fst pg)) = Migration.up <$> batch
  ∧ recorded_rows (fst pg) = []
  ∧ statuses supabase = Some [COMPLETED; FAILED]
  ∧ script_log (w_db (fst supabase)) = Migration.up <$> [M1; M2]
  ∧ row_status <$> recorded_rows (fst supabase) = ["completed"; "failed"].
Proof. cbv zeta. split_and!; by vm_compute. Qed.

(** *** The run lock among concurrent callers *)

Section Preserved.
Context (I : World → Prop).

Lemma pres_ret {A} (a : A) : preserves I (ret a).
Proof. by intros w. Qed.

Lemma pres_throw {A} e : preserves I (@throw A e).
Proof. by intros w. Qed.

Lemma pres_bind {A B} (m : M A) (k : A → M B) :
  preserves I m → (∀ a, preserves I (k a)) → preserves I (bind m k).
Proof.
  intros Hm Hk w Hw. unfold bind. specialize (Hm w Hw).
  destruct (m w) as [w1 [a|e]]; cbn in *; [by apply Hk|done].
Qed.

Lemma pres_catch {A} (m : M A) (h : Exn → M A) :
  preserves I m → (∀ e, preserves I (h e)) → preserves I (try_catch m h).
Proof.
  intros Hm Hh w Hw. unfold try_catch. specialize (Hm w Hw).
  destruct (m w) as [w1 [a|e]]; cbn in *; [done|by apply Hh].
Qed.

Lemma pres_finally {A} (m : M A) (f : M unit) :
  preserves I m → preserves I f → preserves I (try_finally m f).
Proof.
  intros Hm Hf w Hw. unfold try_finally. specialize (Hm w Hw).
  destruct (m w) as [w1 r]. specialize (Hf w1 Hm). cbn in *.
  by destruct (f w1) as [w2 [[]|e]].
Qed.

Lemma pres_modify (f : World → World) : (∀ w, I w → I (f w)) → preserves I (modify f).
Proof. intros Hf w Hw. by apply Hf. Qed.

Lemma pres_Date_now : preserves I Date_now.
Proof. by intros w. Qed.

Lemma pres_new_Date : preserves I new_Date.
Proof. by intros w. Qed.

Lemma pres_get_world : preserves I get_world.
Proof. by intros w. Qed.

Lemma pres_validate m : preserves I (validateMigration m).
Proof. unfold validateMigration. repeat case_match; by intros w. Qed.

Lemma pres_filter_pending ids migs : preserves I (filter_pending ids migs).
Proof.
  induction migs as [|m migs IH]; cbn [filter_pending]; [apply pres_ret|].
  apply pres_bind; [apply pres_validate|intros _].
  apply pres_bind; [exact IH|intros kept; apply pres_ret].
Qed.

Lemma pres_run_each {A} (run : A → M MigrationResult.t) items :
  (∀ item, preserves I (run item)) → ∀ acc, preserves I (run_each run items acc).
Proof.
  intros Hrun. induction items as [|item rest IH]; intros acc; cbn [run_each];
    [apply pres_ret|].
  apply pres_bind; [apply Hrun|intros r].
  destruct (decide (MigrationResult.status r = FAILED)); [apply pres_ret|apply IH].
Qed.

Section Engine.
Variable adapter : IDatabaseAdapter.t.
Hypothesis Hquery : ∀ sql params, preserves I (IDatabaseAdapter.query adapter sql params).

Ltac pres :=
  repeat first
    [ apply pres_ret | apply pres_throw | apply pres_Date_now | apply pres_new_Date
    | apply Hquery | apply pres_filter_pending
    | apply pres_bind; [|intros ?] | apply pres_catch; [|intros ?] ].

Lemma pres_runSingle m : preserves I (runSingleMigration adapter m).
Proof.
  unfold runSingleMigration, recordMigrationStart, recordMigrationCompletion,
    recordMigrationFailure, query. pres.
Qed.

Lemma pres_rollbackSingle row : preserves I (rollbackSingleMigration adapter row).
Proof. unfold rollbackSingleMigration, query. pres. Qed.

Lemma pres_pending migs : preserves I (getPendingMigrations adapter migs).
Proof. unfold getPendingMigrations, query. pres. Qed.

Lemma pres_toRollback targetVersion :
  preserves I (getMigrationsToRollback adapter targetVersion).
Proof. unfold getMigrationsToRollback, query. pres. Qed.

Lemma pres_engine_call config call :
  (∀ b w, I w → I (set_isLocked b w)) →
  (∀ f w, I w → I (set_timers f w)) →
  engine_call adapter config call → preserves I call.
Proof.
  intros Hlock Htimers.
  assert (Hacquire : preserves I (acquireLock config)).
  { unfold acquireLock. apply pres_bind; [apply pres_get_world|intros w0].
    destruct (w_isLocked w0); [apply pres_throw|].
    apply pres_bind; [apply pres_modify, Hlock|intros _].
    apply pres_modify. intros w. apply Htimers. }
  assert (Hrelease : preserves I releaseLock) by apply pres_modify, Hlock.
  intros [migs|targetVersion]; unfold runMigrations, rollbackTo;
    (apply pres_bind; [apply pres_get_world|intros w0]);
    (destruct (w_isLocked w0); [apply pres_throw|]);
    (apply pres_finally; [|exact Hrelease]);
    (apply pres_bind; [exact Hacquire|intros _]).
  - apply pres_bind; [apply pres_pending|intros pending].
    apply pres_run_each. apply pres_runSingle.
  - apply pres_bind; [apply pres_toRollback|intros found].
    apply pres_run_each. apply pres_rollbackSingle.
Qed.

End Engine.

Lemma pres_execute sql params :
  (∀ f w, I w → I (set_db f w)) →
  (∀ t w, I w → I (set_clock t w)) →
  preserves I (MigrationsTable.execute sql params).
Proof.
  intros Hdb Hclock.
  assert (Htick : preserves I Db.tick).
  { apply pres_modify. intros w. apply Hclock. }
  assert (Hrows : preserves I MigrationsTable.get_rows).
  { intros w Hw. unfold MigrationsTable.get_rows. by destruct (migrations (w_db w)). }
  assert (Hput : ∀ rs, preserves I (MigrationsTable.put rs)).
  { intros rs. apply pres_modify, Hdb. }
  assert (Hlog : ∀ text, preserves I (MigrationsTable.log_script text)).
  { intros text. apply pres_modify, Hdb. }
  assert (Herr : ∀ text, preserves I (MigrationsTable.script_error text)) by (by intros text w).
  assert (Hcreate : preserves I (fun w => match migrations (w_db w) with
                                          | Some _ => (w, Ret ([] : list Obj))
                                          | None => (fst (MigrationsTable.put [] w), Ret [])
                                          end)).
  { intros w Hw. destruct (migrations (w_db w)); [done|]. by apply Hdb. }
  unfold MigrationsTable.execute. apply pres_bind; [exact Htick|intros _].
  destruct sql, params as [|p1 [|p2 [|p3 [|p4 [|p5 [|p6 [|p7 ps]]]]]]];
    repeat first
      [ exact Hcreate | exact Hrows | apply Hput | apply Hlog | apply Herr
      | apply pres_ret | apply pres_throw | apply pres_Date_now
      | apply pres_bind; [|intros ?] | case_match ].
Qed.

End Preserved.

Lemma quiet_repository adapter : adapter ∈ repository_adapters → quiet adapter.
Proof.
  unfold repository_adapters. rewrite !elem_of_cons, elem_of_nil.
  intros Hin x sql params.
  assert (Hdb : ∀ f w, lock_view w = x → lock_view (set_db f w) = x) by done.
  assert (Hclock : ∀ t w, lock_view w = x → lock_view (set_clock t w) = x) by done.
  pose proof (pres_execute (fun w => lock_view w = x) sql params Hdb Hclock) as Hexec.
  destruct Hin as [->|[->|[->|[->|[]]]]];
    cbn [IDatabaseAdapter.query PostgreSQLAdapter.adapter MySQLAdapter.adapter
         SupabaseAdapter.adapter MongoDBAdapter.adapter].
  - unfold PostgreSQLAdapter.query.
    apply pres_catch; [|intros e; apply pres_ret].
    apply pres_bind; [|intros found; apply pres_ret].
    destruct (has_placeholders sql); [|exact Hexec].
    apply pres_bind; [|intros _; apply pres_throw].
    apply pres_modify. intros w. apply Hclock.
  - unfold MySQLAdapter.query, sql_query.
    apply pres_catch; [|intros e; apply pres_ret].
    apply pres_bind; [exact Hexec|intros found; apply pres_ret].
  - unfold SupabaseAdapter.query, SupabaseAdapter.client.
    apply pres_catch.
    + apply pres_bind.
      * apply pres_catch; [|intros e; apply pres_ret].
        apply pres_bind; [exact Hexec|intros found; apply pres_ret].
      * intros [found|e]; [apply pres_ret|apply pres_throw].
    + intros e. unfold rethrow_DataError.
      destruct (instanceof_DataError e); [apply pres_throw|apply pres_ret].
  - unfold MongoDBAdapter.query.
    apply pres_catch; [|intros e; apply pres_ret].
    destruct params; apply pres_throw.
Qed.

Lemma quiet_keeps_events adapter prefix sql params :
  quiet adapter →
  preserves (events_from prefix) (IDatabaseAdapter.query adapter sql params).
Proof.
  intros Hquiet w [rest Hw].
  pose proof (Hquiet (lock_view w) sql params w eq_refl) as Hview.
  unfold lock_view in Hview. injection Hview as _ Hev.
  exists rest. by rewrite Hev.
Qed.

Lemma record_event_from prefix v : preserves (events_from prefix) (record_event v).
Proof.
  intros w [rest Hw]. exists (rest ++ [v]). cbn. rewrite Hw. by rewrite <- app_assoc.
Qed.

(** Once noted, an event stays in the log: what happens during an
    [await] only adds to it. *)
Lemma timers_keep_events prefix : preserves (events_from prefix) due_timers.
Proof.
  unfold due_timers. apply pres_bind; [apply pres_get_world|intros w0].
  unfold when. destruct (existsb _ _); [|apply pres_ret].
  apply pres_bind; [|intros _; apply record_event_from].
  unfold fire_timers. apply pres_modify. intros w Hw. by destruct (existsb _ _).
Qed.

Lemma call_keeps_events adapter config call prefix :
  quiet adapter → engine_call adapter config call →
  preserves (events_from prefix) (concurrent_call call).
Proof.
  intros Hquiet Hcall.
  unfold concurrent_call. apply pres_catch; [|intros e; apply record_event_from].
  apply pres_bind; [|intros _; apply record_event_from].
  apply (pres_engine_call (events_from prefix) adapter) with (config := config);
    [|done|done|exact Hcall].
  intros sql params. by apply quiet_keeps_events.
Qed.

(** A call that finds the lock held is turned away and changes nothing. *)
Lemma guarded_call_rejected adapter config call w :
  engine_call adapter config call → w_isLocked w = true →
  call w = (w, Throw already_in_progress).
Proof.
  intros [migs|targetVersion] Hlock; unfold runMigrations, rollbackTo, bind, get_world;
    by rewrite Hlock.
Qed.

(** One awaited statement of a run among concurrent callers. *)
Lemma awaiting_step adapter config call before sql params w :
  quiet adapter → engine_call adapter config call →
  run_invariant 0 before w →
  run_invariant 1 before
    (fst (IDatabaseAdapter.query (awaiting adapter (concurrent_call call)) sql params w)).
Proof.
  intros Hquiet Hcall Hinv. cbn [awaiting IDatabaseAdapter.query]. unfold try_finally.
  pose proof (Hquiet (lock_view w) sql params w eq_refl) as Hview.
  destruct (IDatabaseAdapter.query adapter sql params w) as [w1 r]. cbn [fst] in Hview.
  unfold lock_view in Hview. injection Hview as Hlock1 Hev1.
  assert (Hothers : run_invariant 1 before (fst ((due_timers;; concurrent_call call) w1))).
  { destruct Hinv as [[Hlock (k & _ & Hev)]|[k Hlost]].
    - rewrite Hlock in Hlock1. rewrite Hev in Hev1.
      unfold bind at 1. unfold due_timers, bind at 1, get_world, when.
      destruct (existsb (fun t => t <=? w_clock w1) (w_timers w1)) eqn:Hdue.
      + right. exists k.
        unfold bind at 1, fire_timers, modify. rewrite Hdue. unfold record_event, modify.
        apply (call_keeps_events adapter config call _ Hquiet Hcall).
        exists []. cbn. rewrite Hev1. by rewrite app_nil_r, <- app_assoc.
      + left. unfold ret, concurrent_call, try_catch, bind.
        rewrite (guarded_call_rejected adapter config call w1 Hcall Hlock1).
        unfold record_event, modify. cbn. split; [exact Hlock1|].
        exists (S k). split; [lia|].
        change (VStr "Migration is already in progress") with rejected_call.
        cbn [w_events set_events]. rewrite Hev1, <- app_assoc. f_equal.
        by rewrite <- repeat_cons.
    - right. exists k.
      apply pres_bind;
        [apply timers_keep_events
        |intros _; apply (call_keeps_events adapter config call _ Hquiet Hcall)|].
      destruct Hlost as [rest Hrest]. exists rest. by rewrite Hev1. }
  by destruct ((due_timers;; concurrent_call call) w1) as [w2 [[]|e]].
Qed.

Lemma run_invariant_exclusive before w :
  run_invariant 1 before w → exclusive_until_timer before (w_events w).
Proof.
  intros [[_ (k & Hk & Hev)]|[k [rest Hev]]].
  - exists k, []. split; [by rewrite app_nil_r|]. left. split; [done|lia].
  - exists k, (lock_timer_fired :: rest). split; [|right; by eexists].
    rewrite Hev. by rewrite <- !app_assoc.
Qed.

Lemma awaiting_preserves adapter config call before sql params :
  quiet adapter → engine_call adapter config call →
  preserves (run_invariant 1 before)
    (IDatabaseAdapter.query (awaiting adapter (concurrent_call call)) sql params).
Proof.
  intros Hquiet Hcall w Hinv. apply (awaiting_step adapter config call); [done..|].
  destruct Hinv as [[Hlock (k & Hk & Hev)]|Hlost]; [left|by right].
  split; [done|]. exists k. split; [lia|done].
Qed.

(** A run from the unlocked state: it takes the lock, awaits a first
    statement, then loops. *)
Lemma guarded_run_exclusive {A} config (fetch : M A) (loop : A → M (list MigrationResult.t)) w :
  w_isLocked w = false →
  (∀ w0, run_invariant 0 (w_events w) w0 → run_invariant 1 (w_events w) (fst (fetch w0))) →
  (∀ a, preserves (run_invariant 1 (w_events w)) (loop a)) →
  exclusive_until_timer (w_events w)
    (w_events (fst (try_finally (acquireLock config;; let* a := fetch in loop a)
                      releaseLock w))).
Proof.
  intros Hlock Hfetch Hloop.
  unfold try_finally, bind at 1. rewrite (acquire_unlocked config w Hlock).
  set (wa := set_timers _ (set_isLocked true w)).
  assert (Hinv : run_invariant 0 (w_events w) wa).
  { left. split; [done|]. exists 0%nat. split; [lia|]. cbn. by rewrite app_nil_r. }
  apply Hfetch in Hinv. unfold bind.
  destruct (fetch wa) as [w1 [a|e]]; cbn [fst] in Hinv.
  - apply (Hloop a) in Hinv. destruct (loop a w1) as [w2 r]. cbn [fst] in Hinv.
    unfold releaseLock, modify. cbn [fst]. by apply run_invariant_exclusive in Hinv.
  - unfold releaseLock, modify. cbn [fst]. by apply run_invariant_exclusive in Hinv.
Qed.




End MigrationProofs.

(** * Properties of the data access facade *)

Module FacadeProofs.
Import DataManagerV3.

(** *** Operations that return normally *)

Lemma nt_ret {A} (a : A) : never_throws (ret a).
Proof. intros w. by exists w, a. Qed.

Lemma nt_bind {A B} (m : M A) (k : A → M B) :
  never_throws m → (∀ a, never_throws (k a)) → never_throws (bind m k).
Proof.
  intros Hm Hk w. unfold bind. destruct (Hm w) as (w1 & a & ->). apply Hk.
Qed.

Lemma nt_when b (m : M unit) : never_throws m → never_throws (when b m).
Proof. intros Hm. destruct b; [done|apply nt_ret]. Qed.

Lemma nt_catch {A} (m : M A) (h : Exn → M A) :
  (∀ e, never_throws (h e)) → never_throws (try_catch m h).
Proof.
  intros Hh w. unfold try_catch. destruct (m w) as [w1 [a|e]]; [by exists w1, a|].
  apply Hh.
Qed.

Lemma nt_Date_now : never_throws Date_now.
Proof. intros w. by eexists _, _. Qed.
Lemma nt_toISOString : never_throws Date_toISOString.
Proof. intros w. by eexists _, _. Qed.
Lemma nt_uuidv4 : never_throws uuidv4.
Proof. intros w. by eexists _, _. Qed.

Lemma nt_response_time t : never_throws (response_time t).
Proof. apply nt_bind; [apply nt_Date_now | intros; apply nt_ret]. Qed.

(** An audit log write never throws, whatever the adapter does. *)
Lemma createAuditLog_never_throws adapter logData :
  never_throws (createAuditLog adapter logData).
Proof. apply nt_catch. intros e. apply nt_ret. Qed.

Lemma invalidate_never_throws cache table context :
  never_throws (invalidateRelatedCache cache table context).
Proof.
  unfold invalidateRelatedCache. destruct cache; [|apply nt_ret].
  apply nt_catch. intros e. apply nt_ret.
Qed.

Lemma emit_never_throws events type context payload_ :
  events_never_throw events → never_throws (emit_event events type context payload_).
Proof.
  intros He. unfold emit_event. destruct events as [p|]; [|apply nt_ret].
  apply nt_bind; [apply nt_uuidv4|intros id].
  apply nt_bind; [apply nt_toISOString|intros ts]. apply He.
Qed.

Lemma analytics_never_throw engine enabled (f : AnalyticsEngine.t → M unit) :
  (∀ e, engine = Some e → never_throws (f e)) →
  never_throws (with_analytics engine enabled f).
Proof.
  intros Hf. unfold with_analytics. destruct engine as [e|]; [|apply nt_ret].
  destruct enabled; [by apply Hf | apply nt_ret].
Qed.

Lemma audit_each_never_throws adapter table context results :
  never_throws (audit_each adapter table context results).
Proof.
  induction results as [|r rest IH]; [apply nt_ret|].
  cbn [audit_each]. apply nt_bind; [apply createAuditLog_never_throws | by intros].
Qed.

(** [m] returns [a]; what follows returns normally: the whole returns [a]. *)
Lemma returns_after {A} (m : M A) (k : A → M unit) (h : Exn → M A) w w1 a :
  m w = (w1, Ret a) → (∀ x, never_throws (k x)) →
  ∃ w', try_catch (let* x := m in k x;; ret x) h w = (w', Ret a).
Proof.
  intros Hm Hk. unfold try_catch, bind. rewrite Hm.
  destruct (Hk a w1) as (w2 & [] & ->). by exists w2.
Qed.

Lemma step_ret {A B} (m : M A) (k : A → M B) w w1 a :
  m w = (w1, Ret a) → bind m k w = k a w1.
Proof. intros H. unfold bind. by rewrite H. Qed.

Lemma step_nt {B} (m : M unit) (k : unit → M B) w :
  never_throws m → ∃ w', bind m k w = k tt w'.
Proof. intros H. unfold bind. destruct (H w) as (w' & [] & ->). by exists w'. Qed.

Ltac nt :=
  repeat first
    [ apply nt_ret | apply nt_response_time | apply createAuditLog_never_throws
    | apply invalidate_never_throws | apply audit_each_never_throws
    | apply nt_when | apply nt_bind; [|intros ?] | assumption ].

Section Collaborators.
Variable adapter : IDatabaseAdapter.t.
Variable events : option IEventProvider.t.
Variable cache : option ICacheProvider.t.
Variable analytics : option AnalyticsEngine.t.
Hypothesis Hevents : events_never_throw events.
Hypothesis Hanalytics : analytics_never_throws analytics.

Lemma track_never_throws enabled (f : AnalyticsEngine.t → M unit) :
  (∀ e, (∀ event props context,
           never_throws (AnalyticsEngine.trackEvent e event props context)) →
        (∀ name context n props,
           never_throws (AnalyticsEngine.incrementCounter e name context n props)) →
        never_throws (f e)) →
  never_throws (with_analytics analytics enabled f).
Proof.
  intros Hf. apply analytics_never_throw. intros e ->.
  destruct Hanalytics as [Ht Hi]. by apply Hf.
Qed.

(** What follows the cache call of a mutating operation returns. *)
Lemma after_cache_returns (track : M unit) (audit : M unit) type context payload_ w :
  never_throws track → never_throws audit →
  ∃ w', (track;; audit;; emit_event events type context payload_) w = (w', Ret tt).
Proof.
  intros Ht Ha.
  assert (H : never_throws (track;; audit;; emit_event events type context payload_)).
  { apply nt_bind; [done|intros ?]. apply nt_bind; [done|intros ?].
    by apply emit_never_throws. }
  destruct (H w) as (w' & [] & ->). by exists w'.
Qed.

Lemma create_returns table d context options w w1 result :
  IDatabaseAdapter.create adapter table d context w = (w1, Ret result) →
  (truthy (data result) = true → create_skipCache options = false →
   cache_set_returns cache (table +:+ ":" +:+ js_string (prop (data result) "id"))
     (data result) context (Some (num_or (create_cacheTTL options) 3600)) w1) →
  ∃ w', create adapter events cache analytics table d context options w
        = (w', Ret result).
Proof.
  intros Hcreate Hset. unfold create, bind at 1. cbn [Date_now].
  unfold try_catch. rewrite (step_ret _ _ _ _ _ Hcreate).
  destruct (truthy (data result)) eqn:Hdata; [|by exists w1].
  assert (Hcache : ∃ w2,
            match cache with
            | Some c =>
                when (negb (create_skipCache options))
                  (ICacheProvider.set c
                     (table +:+ ":" +:+ js_string (prop (data result) "id"))
                     (data result) context
                     (Some (num_or (create_cacheTTL options) 3600)))
            | None => ret tt
            end w1 = (w2, Ret tt)).
  { destruct cache as [c|]; [|by exists w1].
    destruct (create_skipCache options); [by exists w1|]. by apply Hset. }
  destruct Hcache as [w2 Hcache]. unfold bind at 1 2. rewrite Hcache.
  match goal with |- context [bind ?t (fun _ => bind ?a (fun _ => emit_event events ?ty ?c ?p))] =>
    destruct (after_cache_returns t a ty c p w2) as [w3 H3] end.
  - apply track_never_throws. intros e Ht Hi. nt; [apply Ht | apply Hi].
  - apply createAuditLog_never_throws.
  - rewrite H3. by exists w3.
Qed.

Lemma update_returns table id updates context options w w1 existing w2 result :
  IDatabaseAdapter.read adapter table (id_filter id None) context w = (w1, Ret existing) →
  IDatabaseAdapter.update adapter table id updates context w1 = (w2, Ret result) →
  (truthy (data result) = true → update_skipCache options = false →
   cache_set_returns cache (table +:+ ":" +:+ id) (data result) context (Some 3600) w2) →
  ∃ w', update adapter events cache analytics table id updates context options w
        = (w', Ret result).
Proof.
  intros Hread Hupdate Hset. unfold update, bind at 1. cbn [Date_now].
  unfold try_catch. rewrite (step_ret _ _ _ _ _ Hread), (step_ret _ _ _ _ _ Hupdate).
  destruct (truthy (data result)) eqn:Hdata; [|by exists w2].
  assert (Hcache : ∃ w3,
            match cache with
            | Some c =>
                when (negb (update_skipCache options))
                  (ICacheProvider.set c (table +:+ ":" +:+ id) (data result) context
                     (Some 3600);;
                   when (update_invalidateCache options)
                     (invalidateRelatedCache cache table context))
            | None => ret tt
            end w2 = (w3, Ret tt)).
  { destruct cache as [c|] eqn:Hc; [|by exists w2].
    destruct (update_skipCache options); [by exists w2|].
    destruct (Hset eq_refl eq_refl) as [w3 Hw3]. cbn [negb when].
    rewrite (step_ret _ _ _ _ _ Hw3).
    assert (Hinv : never_throws (when (update_invalidateCache options)
                                   (invalidateRelatedCache (Some c) table context)))
      by (apply nt_when, invalidate_never_throws).
    destruct (Hinv w3) as (w4 & [] & ->). by exists w4. }
  destruct Hcache as [w3 Hcache]. unfold bind at 1 2. rewrite Hcache.
  match goal with |- context [bind ?t (fun _ => bind ?a (fun _ => emit_event events ?ty ?c ?p))] =>
    destruct (after_cache_returns t a ty c p w3) as [w4 H4] end.
  - apply track_never_throws. intros e Ht Hi. nt; [apply Ht | apply Hi].
  - apply createAuditLog_never_throws.
  - rewrite H4. by exists w4.
Qed.

Lemma delete_returns table id context options w w1 existing w2 result :
  IDatabaseAdapter.read adapter table (id_filter id None) context w = (w1, Ret existing) →
  IDatabaseAdapter.delete adapter table id context w1 = (w2, Ret result) →
  (data result = VUndef → cache_delete_returns cache (table +:+ ":" +:+ id) context w2) →
  ∃ w', delete adapter events cache analytics table id context options w
        = (w', Ret result).
Proof.
  intros Hread Hdelete Hdel. unfold delete, bind at 1. cbn [Date_now].
  unfold try_catch. rewrite (step_ret _ _ _ _ _ Hread), (step_ret _ _ _ _ _ Hdelete).
  destruct (data result) eqn:Hdata; try by exists w2.
  assert (Hcache : ∃ w3,
            match cache with
            | Some c =>
                ICacheProvider.delete c (table +:+ ":" +:+ id) context;;
                when (delete_invalidateCache options)
                  (invalidateRelatedCache cache table context)
            | None => ret tt
            end w2 = (w3, Ret tt)).
  { destruct cache as [c|] eqn:Hc; [|by exists w2].
    destruct (Hdel eq_refl) as [w3 Hw3]. rewrite (step_ret _ _ _ _ _ Hw3).
    assert (Hinv : never_throws (when (delete_invalidateCache options)
                                   (invalidateRelatedCache (Some c) table context)))
      by (apply nt_when, invalidate_never_throws).
    destruct (Hinv w3) as (w4 & [] & ->). by exists w4. }
  destruct Hcache as [w3 Hcache]. unfold bind at 1 2. rewrite Hcache.
  match goal with |- context [bind ?t (fun _ => bind ?a (fun _ => emit_event events ?ty ?c ?p))] =>
    destruct (after_cache_returns t a ty c p w3) as [w4 H4] end.
  - apply track_never_throws. intros e Ht Hi. nt; [apply Ht | apply Hi].
  - apply createAuditLog_never_throws.
  - rewrite H4. by exists w4.
Qed.

Lemma bulkCreate_returns table records context options w w1 results :
  create_batches adapter cache table context options
    (batches (match batchSize options with Some (S n) => S n | _ => 100%nat end) records)
    [] w = (w1, Ret results) →
  ∃ w', bulkCreate adapter events cache analytics table records context options w
        = (w', Ret (result_data (VArr results))).
Proof.
  intros Hbatches. unfold bulkCreate, bind at 1. cbn [Date_now].
  unfold try_catch. rewrite (step_ret _ _ _ _ _ Hbatches).
  match goal with |- context [bind ?m ?k w1] =>
    destruct (step_nt m k w1) as [w2 ->] end.
  { apply track_never_throws. intros e Ht Hi. nt; [apply Ht | apply Hi]. }
  match goal with |- context [bind ?m ?k w2] =>
    destruct (step_nt m k w2) as [w3 ->] end; [apply audit_each_never_throws|].
  match goal with |- context [bind ?m ?k w3] =>
    destruct (step_nt m k w3) as [w4 ->] end; [by apply emit_never_throws|].
  by exists w4.
Qed.
End Collaborators.

(** The same for [DataManagerV2]. *)
Lemma v2_audit_never_throws adapter logData :
  never_throws (DataManagerV2.createAuditLog adapter logData).
Proof. apply nt_catch. intros e. apply nt_ret. Qed.

Lemma v2_audit_each_never_throws adapter table context created :
  never_throws (DataManagerV2.audit_each adapter table context created).
Proof.
  induction created as [|r rest IH]; [apply nt_ret|].
  cbn [DataManagerV2.audit_each].
  apply nt_bind; [apply v2_audit_never_throws | by intros].
Qed.

Lemma v2_create_returns adapter events table d context w w1 result :
  events_never_throw events →
  IDatabaseAdapter.create adapter table d context w = (w1, Ret result) →
  ∃ w', DataManagerV2.create adapter events table d context w = (w', Ret result).
Proof.
  intros He Hcreate. unfold DataManagerV2.create.
  eapply returns_after; [exact Hcreate|]. intros x.
  destruct (truthy (data x)); [|apply nt_ret].
  apply nt_bind; [apply v2_audit_never_throws | intros ?; by apply emit_never_throws].
Qed.

Lemma v2_update_returns adapter events table id updates context w w1 existing w2 result :
  events_never_throw events →
  IDatabaseAdapter.read adapter table (id_filter id None) context w = (w1, Ret existing) →
  IDatabaseAdapter.update adapter table id updates context w1 = (w2, Ret result) →
  ∃ w', DataManagerV2.update adapter events table id updates context w = (w', Ret result).
Proof.
  intros He Hread Hupdate. unfold DataManagerV2.update, try_catch.
  rewrite (step_ret _ _ _ _ _ Hread), (step_ret _ _ _ _ _ Hupdate).
  match goal with |- context [bind ?m ?k w2] =>
    destruct (step_nt m k w2) as [w3 ->] end; [|by exists w3].
  destruct (truthy (data result)); [|apply nt_ret].
  apply nt_bind; [apply v2_audit_never_throws | intros ?; by apply emit_never_throws].
Qed.

Lemma v2_delete_returns adapter events table id context w w1 existing w2 result :
  events_never_throw events →
  IDatabaseAdapter.read adapter table (id_filter id None) context w = (w1, Ret existing) →
  IDatabaseAdapter.delete adapter table id context w1 = (w2, Ret result) →
  ∃ w', DataManagerV2.delete adapter events table id context w = (w', Ret result).
Proof.
  intros He Hread Hdelete. unfold DataManagerV2.delete, try_catch.
  rewrite (step_ret _ _ _ _ _ Hread), (step_ret _ _ _ _ _ Hdelete).
  match goal with |- context [bind ?m ?k w2] =>
    destruct (step_nt m k w2) as [w3 ->] end; [|by exists w3].
  destruct (data result); try apply nt_ret.
  apply nt_bind; [apply v2_audit_never_throws | intros ?; by apply emit_never_throws].
Qed.

Lemma v2_bulkCreate_returns adapter events table records context w w1 created :
  events_never_throw events →
  IDatabaseAdapter.bulkCreate adapter table records context w
  = (w1, Ret (result_data (VArr created))) →
  ∃ w', DataManagerV2.bulkCreate adapter events table records context w
        = (w', Ret (result_data (VArr created))).
Proof.
  intros He Hbulk. unfold DataManagerV2.bulkCreate, try_catch.
  rewrite (step_ret _ _ _ _ _ Hbulk). cbn [data result_data truthy].
  match goal with |- context [bind ?m ?k w1] =>
    destruct (step_nt m k w1) as [w2 ->] end; [|by exists w2].
  apply nt_bind; [apply v2_audit_each_never_throws | intros ?; by apply emit_never_throws].
Qed.


(** The audit write of the witness below does throw: the server has no
    [audit_logs] table. *)
Lemma audit_write_throws :
  snd (SupabaseAdapter.create "audit_logs" [("action", VStr "CREATE")]
         (mkContext "tenant-a" "user-a" "system" []) no_audit_world)
  = Throw (DataError "Failed to create record" ErrorCodes.DATABASE_ERROR 500).
Proof. by vm_compute. Qed.


(** *** Reads through the cache *)

Section Reads.
Variable adapter : IDatabaseAdapter.t.
Variable cache : option ICacheProvider.t.
Variable analytics : option AnalyticsEngine.t.
Hypothesis Hanalytics : analytics_never_throws analytics.

Lemma read_tracking_returns (f : AnalyticsEngine.t → M unit) w :
  (∀ e, (∀ event props context,
           never_throws (AnalyticsEngine.trackEvent e event props context)) →
        (∀ name context n props,
           never_throws (AnalyticsEngine.incrementCounter e name context n props)) →
        never_throws (f e)) →
  ∃ w', with_analytics analytics true f w = (w', Ret tt).
Proof.
  intros Hf.
  assert (H : never_throws (with_analytics analytics true f)).
  { apply analytics_never_throw. intros e ->. destruct Hanalytics as [Ht Hi]. by apply Hf. }
  destruct (H w) as (w' & [] & ->). by exists w'.
Qed.

(** The fetch from the database, by what becomes of the write to the
    cache. *)
Lemma read_from_database_returns table options context cacheOptions startTime w w1 result :
  IDatabaseAdapter.read adapter table options context w = (w1, Ret result) →
  ∀ w2,
    match cache with
    | Some c =>
        when (truthy (data result) && cache_wanted (useCache cacheOptions))
          (ICacheProvider.set c (query_cache_key table options context cacheOptions)
             (data result) context (Some (num_or (cacheTTL cacheOptions) 300)))
    | None => ret tt
    end w1 = (w2, Ret tt) →
    ∃ w', read_from_database adapter cache analytics table options context cacheOptions
            startTime w = (w', Ret result).
Proof.
  intros Hread w2 Hset. unfold read_from_database.
  rewrite (step_ret _ _ _ _ _ Hread). unfold bind at 1. rewrite Hset.
  match goal with |- context [with_analytics analytics true ?f] =>
    destruct (read_tracking_returns f w2) as [w3 H3] end.
  { intros e Ht Hi. nt; [apply Ht | apply Hi]. }
  unfold bind at 1. rewrite H3. by exists w3.
Qed.

Lemma read_from_database_throws table options context cacheOptions startTime w w1 result
    c w2 e :
  cache = Some c →
  IDatabaseAdapter.read adapter table options context w = (w1, Ret result) →
  truthy (data result) && cache_wanted (useCache cacheOptions) = true →
  ICacheProvider.set c (query_cache_key table options context cacheOptions)
    (data result) context (Some (num_or (cacheTTL cacheOptions) 300)) w1 = (w2, Throw e) →
  read_from_database adapter cache analytics table options context cacheOptions
    startTime w = (w2, Throw e).
Proof.
  intros Hc Hread Hwrite Hset. unfold read_from_database.
  rewrite (step_ret _ _ _ _ _ Hread). unfold bind at 1. rewrite Hc, Hwrite.
  cbn [when]. by rewrite Hset.
Qed.

Lemma read_error_returns table startTime context w e :
  instanceof_DataError e = false →
  ∃ w', (track_error analytics true "record_read_error" table [] startTime context e;;
         rethrow_DataError e) w = (w', Ret (result_error (exn_message e))).
Proof.
  intros He. unfold track_error.
  match goal with |- context [with_analytics analytics true ?f] =>
    destruct (read_tracking_returns f w) as [w1 H1] end.
  { intros x Ht Hi. nt. apply Ht. }
  unfold bind at 1. rewrite H1. unfold rethrow_DataError. rewrite He. by exists w1.
Qed.
End Reads.




(** *** Bulk creation *)

(** C8 at the failing input: two records in batches of one, the second
    with a field the table does not have.  The adapter answers the second
    batch with an error result; the facade drops it and returns success
    with the first record only. *)
Theorem bulkCreate_returns_partial_success :
  let records := [acme; [("nam", VStr "Globex")]] in
  let options := mkBulkOptions (Some 1%nat) false false in
  snd (bulkCreate PostgreSQLAdapter.adapter None None None "projects" records ctx_A
         options sql_world)
  = Ret (result_data
           (VArr [VObj [("id", VStr "uuid-0"); ("tenant_id", VStr "tenant-a");
                        ("name", VStr "Acme"); ("created_at", VDate 0);
                        ("updated_at", VDate 0)]]))
  ∧ snd (PostgreSQLAdapter.bulkCreate "projects" [[("nam", VStr "Globex")]] ctx_A sql_world)
    = Ret (result_error "column nam does not exist")
  ∧ (length records = 2)%nat.
Proof.
  split_and!; by vm_compute.
Qed.

End FacadeProofs.

(** * Further properties of the cache layer *)

Module CacheLaws.
Import RedisCacheAdapter.

Ltac open_cache w :=
  destruct w as [db [ks up] [h m t] locked timers rng clock events];
  cbn [w_redis w_stats keyspace redis_up hits misses totalKeys] in *.

Lemma effective_ttl_nonzero cfg ttlSeconds : effective_ttl cfg ttlSeconds ≠ 0.
Proof.
  unfold effective_ttl, num_or.
  destruct ttlSeconds as [x|]; [destruct (x =? 0) eqn:Hx; [|by apply Z.eqb_neq]|];
    (destruct (defaultTTL cfg) as [d|]; [destruct (d =? 0) eqn:Hd; [|by apply Z.eqb_neq]|]);
    done.
Qed.

(** A payload free of [undefined] and of dates is its own JSON copy. *)
Lemma json_copy_id : ∀ v, json_value v = true → json_copy v = v.
Proof.
  fix IH 1. intros [| |b|n|s|items|fields|t]; try done.
  - intros H. change (json_copy (VArr items)) with
      (VArr ((fix go (l : list Value) : list Value :=
               match l with
               | [] => []
               | VUndef :: l' => VNull :: go l'
               | x :: l' => json_copy x :: go l'
               end) items)).
    f_equal. revert items H. fix IHl 1. intros [|x l]; [done|].
    intros H. 
    assert (Hx : json_value x = true ∧ json_value (VArr l) = true).
    { cbn in H. apply andb_prop in H. exact H. }
    destruct Hx as [Hx Hl]. specialize (IHl l Hl). specialize (IH x Hx).
    destruct x; try discriminate Hx; rewrite IHl; f_equal; exact IH.
  - intros H. change (json_copy (VObj fields)) with
      (VObj ((fix go (fs : list (string * Value)) : list (string * Value) :=
               match fs with
               | [] => []
               | (_, VUndef) :: fs' => go fs'
               | (k, x) :: fs' => (k, json_copy x) :: go fs'
               end) fields)).
    f_equal. revert fields H. fix IHl 1. intros [|[k x] l]; [done|].
    intros H.
    assert (Hx : json_value x = true ∧ json_value (VObj l) = true).
    { cbn in H. apply andb_prop in H. exact H. }
    destruct Hx as [Hx Hl]. specialize (IHl l Hl). specialize (IH x Hx).
    destruct x; try discriminate Hx; rewrite IHl; f_equal; f_equal; exact IH.
Qed.

(** X1: a value stored with a positive effective TTL is what [get] under
    the same context and logical key returns next: the entry sits under the
    tenant's physical key with that TTL, the read counts as a hit, [exists]
    answers true, and [totalKeys] has grown by one. *)
Theorem set_then_get cfg key v context ttlSeconds w :
  redis_up (w_redis w) = true →
  0 < effective_ttl cfg ttlSeconds →
  json_value v = true →
  let w1 := fst (set cfg key v context ttlSeconds w) in
  snd (set cfg key v context ttlSeconds w) = Ret tt
  ∧ cache_entry cfg w1 key context = Some (v, effective_ttl cfg ttlSeconds)
  ∧ totalKeys (w_stats w1) = totalKeys (w_stats w) + 1
  ∧ snd (get cfg key context w1) = Ret v
  ∧ hits (w_stats (fst (get cfg key context w1))) = hits (w_stats w) + 1
  ∧ misses (w_stats (fst (get cfg key context w1))) = misses (w_stats w)
  ∧ snd (exists_ cfg key context w1) = Ret true.
Proof.
  intros Hup Httl Hjson. open_cache w. subst up.
  unfold cache_entry, set, get, exists_, try_catch, bind, redis_setex, redis_get,
    redis_exists, redis_cmd, setex, set_totalKeys, add_hit, modify, serialize.
  rewrite (json_copy_id v Hjson).
  fold (effective_ttl cfg ttlSeconds).
  destruct (effective_ttl cfg ttlSeconds <=? 0) eqn:Hle; [apply Z.leb_le in Hle; lia|].
  cbn. rewrite !lookup_insert_eq. cbn. done.
Qed.

Lemma set_then_get_witness :
  let cfg := mkConfig None None in
  (redis_up (w_redis empty_world) = true ∧ 0 < effective_ttl cfg (Some 60)
   ∧ json_value (VObj [("name", VStr "Acme")]) = true)
  ∧ snd (get cfg "projects:1" ctx_A
           (fst (set cfg "projects:1" (VObj [("name", VStr "Acme")]) ctx_A (Some 60)
                   empty_world)))
    = Ret (VObj [("name", VStr "Acme")]).
Proof.
  split; [split_and!; [reflexivity | reflexivity | reflexivity]|].
  apply (set_then_get (mkConfig None None) "projects:1" (VObj [("name", VStr "Acme")])
           ctx_A (Some 60) empty_world); reflexivity.
Defined.

(** X2: the effective TTL is never zero ([0] falls through to the
    default); with a negative one Redis refuses [SETEX]: [set] throws its
    [SDKError] and changes nothing, while [mset], whose pipeline reports
    command failures in its reply, returns normally, stores nothing and
    still adds the number of keys to [totalKeys]. *)
Theorem negative_ttl_stores_nothing cfg key v keyValues context ttlSeconds w :
  redis_up (w_redis w) = true →
  effective_ttl cfg ttlSeconds < 0 →
  effective_ttl cfg ttlSeconds ≠ 0
  ∧ set cfg key v context ttlSeconds w
    = (w, Throw (SDKError "Failed to set cache value" ErrorCodes.DATABASE_ERROR 500))
  ∧ snd (mset cfg keyValues context ttlSeconds w) = Ret tt
  ∧ keyspace (w_redis (fst (mset cfg keyValues context ttlSeconds w))) = keyspace (w_redis w)
  ∧ totalKeys (w_stats (fst (mset cfg keyValues context ttlSeconds w)))
    = totalKeys (w_stats w) + Z.of_nat (length keyValues).
Proof.
  intros Hup Httl. split; [apply effective_ttl_nonzero|].
  open_cache w. subst up.
  unfold set, mset, try_catch, bind, redis_setex, redis_pipeline_setex, redis_cmd, setex,
    set_totalKeys, modify, throw.
  fold (effective_ttl cfg ttlSeconds).
  assert (Hle : (effective_ttl cfg ttlSeconds <=? 0) = true) by (apply Z.leb_le; lia).
  rewrite Hle. cbn. split_and!; try done.
  induction keyValues as [|kv kvs IH]; [done|]. cbn. by rewrite Hle.
Qed.

Lemma negative_ttl_stores_nothing_witness :
  let cfg := mkConfig None None in
  (redis_up (w_redis empty_world) = true ∧ effective_ttl cfg (Some (-1)) < 0)
  ∧ set cfg "k" (VNum 1) ctx_A (Some (-1)) empty_world
    = (empty_world,
       Throw (SDKError "Failed to set cache value" ErrorCodes.DATABASE_ERROR 500)).
Proof.
  split; [split; reflexivity|].
  apply (negative_ttl_stores_nothing (mkConfig None None) "k" (VNum 1) [] ctx_A (Some (-1))
           empty_world); reflexivity.
Defined.

(** X3: after [delete], the key is gone for its tenant: the next [get]
    returns [null] and counts as a miss, [exists] answers false; every
    other physical key keeps its entry; [totalKeys] drops by one, not below
    zero, only when an entry was there. *)
Theorem delete_then_miss cfg key context w :
  redis_up (w_redis w) = true →
  let w1 := fst (delete cfg key context w) in
  snd (delete cfg key context w) = Ret tt
  ∧ cache_entry cfg w1 key context = None
  ∧ snd (get cfg key context w1) = Ret VNull
  ∧ misses (w_stats (fst (get cfg key context w1))) = misses (w_stats w) + 1
  ∧ snd (exists_ cfg key context w1) = Ret false
  ∧ (∀ pk, pk ≠ getTenantKey cfg key (tenant_id context) →
           keyspace (w_redis w1) !! pk = keyspace (w_redis w) !! pk)
  ∧ totalKeys (w_stats w1)
    = match cache_entry cfg w key context with
      | Some _ => Z.max 0 (totalKeys (w_stats w) - 1)
      | None => totalKeys (w_stats w)
      end.
Proof.
  intros Hup. open_cache w. subst up.
  unfold cache_entry, delete, get, exists_, try_catch, bind, redis_del, redis_get,
    redis_exists, redis_cmd, del_keys, set_totalKeys, add_miss, when, modify.
  cbn.
  destruct (ks !! getTenantKey cfg key (tenant_id context)) as [entry|] eqn:Hk.
  - rewrite bool_decide_eq_true_2 by eauto.
    change (0 <? Z.of_nat (length [getTenantKey cfg key (tenant_id context)])) with true.
    cbn. rewrite !lookup_delete_eq. cbn.
    split_and!; try done. intros pk Hne. by apply lookup_delete_ne.
  - rewrite bool_decide_eq_false_2 by (by intros [? ?]).
    change (0 <? Z.of_nat (length (@nil string))) with false.
    cbn. rewrite !lookup_delete_eq. cbn.
    split_and!; try done. intros pk Hne. by apply lookup_delete_ne.
Qed.

Lemma delete_then_miss_witness :
  let cfg := mkConfig None None in
  let w := world_with_entry cfg "tenant-a" "projects:1" in
  redis_up (w_redis w) = true
  ∧ cache_entry cfg w "projects:1" (ctx_of "tenant-a") = Some (VStr "payload", 60)
  ∧ snd (get cfg "projects:1" (ctx_of "tenant-a")
           (fst (delete cfg "projects:1" (ctx_of "tenant-a") w))) = Ret VNull.
Proof.
  split; [reflexivity|]. split; [by vm_compute|].
  apply (delete_then_miss (mkConfig None None) "projects:1" (ctx_of "tenant-a")
           (world_with_entry (mkConfig None None) "tenant-a" "projects:1")).
  reflexivity.
Defined.

(** X4: when the Redis client fails, every operation with a [catch]
    throws an [SDKError] of its own with code [DATABASE_ERROR] and status
    500 and leaves the adapter's state as it was; [mget], which has only a
    [finally], lets the client's error through as it is. *)
Theorem client_failures_become_SDKErrors cfg key keys v keyValues context ttlSeconds
    amount tenantId w :
  redis_up (w_redis w) = false →
  get cfg key context w
    = (w, Throw (SDKError "Failed to get cache value" ErrorCodes.DATABASE_ERROR 500))
  ∧ set cfg key v context ttlSeconds w
    = (w, Throw (SDKError "Failed to set cache value" ErrorCodes.DATABASE_ERROR 500))
  ∧ delete cfg key context w
    = (w, Throw (SDKError "Failed to delete cache value" ErrorCodes.DATABASE_ERROR 500))
  ∧ exists_ cfg key context w
    = (w, Throw (SDKError "Failed to check cache key existence"
                          ErrorCodes.DATABASE_ERROR 500))
  ∧ increment cfg key context amount w
    = (w, Throw (SDKError "Failed to increment cache value" ErrorCodes.DATABASE_ERROR 500))
  ∧ mset cfg keyValues context ttlSeconds w
    = (w, Throw (SDKError "Failed to set multiple cache values"
                          ErrorCodes.DATABASE_ERROR 500))
  ∧ clearTenant cfg tenantId w
    = (w, Throw (SDKError "Failed to clear tenant cache" ErrorCodes.DATABASE_ERROR 500))
  ∧ flush w = (w, Throw (SDKError "Failed to flush cache" ErrorCodes.DATABASE_ERROR 500))
  ∧ ∃ e, mget cfg keys context w = (w, Throw e) ∧ exn_code e = None.
Proof.
  intros Hup.
  unfold get, set, delete, exists_, increment, mset, clearTenant, flush, mget, try_catch,
    bind, redis_get, redis_setex, redis_del, redis_exists, redis_incrby,
    redis_pipeline_setex, redis_keys, redis_flushdb, redis_mget, redis_cmd.
  rewrite Hup. split_and!; try reflexivity. by eexists.
Qed.

Lemma client_failures_become_SDKErrors_witness :
  let w := set_redis (fun rs => mkRedis (keyspace rs) false) empty_world in
  redis_up (w_redis w) = false
  ∧ get (mkConfig None None) "k" ctx_A w
    = (w, Throw (SDKError "Failed to get cache value" ErrorCodes.DATABASE_ERROR 500)).
Proof.
  split; [reflexivity|].
  apply (client_failures_become_SDKErrors (mkConfig None None) "k" [] VNull [] ctx_A None 1
           "tenant-a" (set_redis (fun rs => mkRedis (keyspace rs) false) empty_world)).
  reflexivity.
Defined.

(** X5: [increment] is a counter: a missing key starts at the amount and
    gets no expiry, a stored number grows by the amount and keeps its TTL,
    and a stored value that is not a number makes it throw its [SDKError]
    and stay as it is. *)
Theorem increment_is_a_counter cfg key context a b w :
  redis_up (w_redis w) = true →
  let w1 := fst (increment cfg key context a w) in
  match cache_entry cfg w key context with
  | None =>
      snd (increment cfg key context a w) = Ret a
      ∧ cache_entry cfg w1 key context = Some (VNum a, -1)
      ∧ snd (increment cfg key context b w1) = Ret (a + b)
  | Some (VNum n, ttl) =>
      snd (increment cfg key context a w) = Ret (n + a)
      ∧ cache_entry cfg w1 key context = Some (VNum (n + a), ttl)
      ∧ snd (get cfg key context w1) = Ret (VNum (n + a))
  | Some _ =>
      increment cfg key context a w
      = (w, Throw (SDKError "Failed to increment cache value" ErrorCodes.DATABASE_ERROR 500))
  end.
Proof.
  intros Hup. open_cache w. subst up.
  unfold cache_entry, increment, get, try_catch, bind, redis_incrby, redis_get, redis_cmd,
    add_hit, modify.
  cbn. destruct (ks !! getTenantKey cfg key (tenant_id context)) as [[v ttl]|] eqn:Hk.
  - destruct v; cbn; try reflexivity. rewrite !lookup_insert_eq. done.
  - cbn. rewrite !lookup_insert_eq. cbn. done.
Qed.

Lemma increment_is_a_counter_witness :
  let cfg := mkConfig None None in
  redis_up (w_redis empty_world) = true
  ∧ snd (increment cfg "visits" ctx_A 2
           (fst (increment cfg "visits" ctx_A 3 empty_world))) = Ret 5.
Proof.
  split; [reflexivity|].
  apply (increment_is_a_counter (mkConfig None None) "visits" ctx_A 3 2 empty_world).
  reflexivity.
Defined.

Lemma count_values_stats values w :
  let st := w_stats (fst (count_values values w)) in
  hits (w_stats w) ≤ hits st
  ∧ misses (w_stats w) ≤ misses st
  ∧ hits st + misses st
    = hits (w_stats w) + misses (w_stats w) + Z.of_nat (length values)
  ∧ totalKeys st = totalKeys (w_stats w).
Proof.
  revert w. induction values as [|[v|] values IH]; intros w.
  - cbn. lia.
  - cbn [count_values]. unfold bind, add_hit, modify.
    match goal with |- context [count_values values ?w'] =>
      specialize (IH w'); destruct (count_values values w') as [w2 [vs|e]] end;
      cbn in *; lia.
  - cbn [count_values]. unfold bind, add_miss, modify.
    match goal with |- context [count_values values ?w'] =>
      specialize (IH w'); destruct (count_values values w') as [w2 [vs|e]] end;
      cbn in *; lia.
Qed.

(** X6: the counters of the statistics never become negative: every
    operation of the adapter keeps [hits], [misses] and [totalKeys] at or
    above zero, whatever the server holds and whether or not it answers. *)
Theorem stats_stay_nonnegative cfg w :
  stats_nonnegative (w_stats w) →
  (∀ key context, stats_nonnegative (w_stats (fst (get cfg key context w))))
  ∧ (∀ key v context ttl, stats_nonnegative (w_stats (fst (set cfg key v context ttl w))))
  ∧ (∀ key context, stats_nonnegative (w_stats (fst (delete cfg key context w))))
  ∧ (∀ key context, stats_nonnegative (w_stats (fst (exists_ cfg key context w))))
  ∧ (∀ key context n, stats_nonnegative (w_stats (fst (increment cfg key context n w))))
  ∧ (∀ kvs context ttl, stats_nonnegative (w_stats (fst (mset cfg kvs context ttl w))))
  ∧ (∀ keys context, stats_nonnegative (w_stats (fst (mget cfg keys context w))))
  ∧ (∀ tenantId, stats_nonnegative (w_stats (fst (clearTenant cfg tenantId w))))
  ∧ stats_nonnegative (w_stats (fst (flush w))).
Proof.
  intros (Hh & Hm & Ht).
  split_and!; unfold stats_nonnegative.
  - intros key context. open_cache w.
    unfold get, try_catch, bind, redis_get, redis_cmd, add_hit, add_miss, modify.
    destruct up; cbn; [|lia]. destruct (ks !! _) as [[??]|]; cbn; lia.
  - intros key v context ttl. open_cache w.
    unfold set, try_catch, bind, redis_setex, redis_cmd, setex, set_totalKeys, modify.
    destruct up; cbn; [|lia]. destruct (_ <=? 0); cbn; lia.
  - intros key context. open_cache w.
    unfold delete, try_catch, bind, redis_del, redis_cmd, set_totalKeys, when, modify.
    destruct up; cbn; [|lia]. destruct (0 <? _); cbn; lia.
  - intros key context. open_cache w.
    unfold exists_, try_catch, bind, redis_exists, redis_cmd.
    destruct up; cbn; lia.
  - intros key context n. open_cache w.
    unfold increment, try_catch, bind, redis_incrby, redis_cmd.
    destruct up; cbn; [|lia]. destruct (ks !! _) as [[[] ?]|]; cbn; lia.
  - intros kvs context ttl. open_cache w.
    unfold mset, try_catch, bind, redis_pipeline_setex, redis_cmd, set_totalKeys, modify.
    destruct up; cbn; lia.
  - intros keys context. unfold mget, bind, redis_mget, redis_cmd.
    destruct (redis_up (w_redis w)); [|done].
    match goal with |- context [count_values ?vs ?w'] =>
      pose proof (count_values_stats vs w') as (H1 & H2 & _ & H4);
      destruct (count_values vs w') as [w2 r] end.
    cbn in *. destruct r; cbn; lia.
  - intros tenantId. open_cache w.
    unfold clearTenant, try_catch, bind, redis_keys, redis_del, redis_cmd, set_totalKeys,
      when, modify.
    destruct up; cbn; [|lia]. destruct (0 <? _); cbn; lia.
  - open_cache w. unfold flush, try_catch, bind, redis_flushdb, redis_cmd, modify.
    destruct up; cbn; lia.
Qed.

Lemma stats_stay_nonnegative_witness :
  stats_nonnegative (w_stats empty_world)
  ∧ stats_nonnegative
      (w_stats (fst (delete (mkConfig None None) "k" ctx_A empty_world))).
Proof.
  assert (H : stats_nonnegative (w_stats empty_world)) by (unfold stats_nonnegative; cbn; lia).
  split; [exact H|].
  apply (stats_stay_nonnegative (mkConfig None None) empty_world H).
Defined.

(** X7: [mget] answers, key by key and in order, what [get] answers for
    that key; it counts one hit or one miss per key and changes neither the
    server nor [totalKeys]. *)
Theorem mget_reads_each_key cfg keys context w :
  redis_up (w_redis w) = true →
  ∃ values,
    snd (mget cfg keys context w) = Ret values
    ∧ Forall2 (fun key v => snd (get cfg key context w) = Ret v) keys values
    ∧ hits (w_stats (fst (mget cfg keys context w)))
      + misses (w_stats (fst (mget cfg keys context w)))
      = hits (w_stats w) + misses (w_stats w) + Z.of_nat (length keys)
    ∧ totalKeys (w_stats (fst (mget cfg keys context w))) = totalKeys (w_stats w)
    ∧ w_redis (fst (mget cfg keys context w)) = w_redis w.
Proof.
  intros Hup. open_cache w. subst up.
  unfold mget, bind, redis_mget, redis_cmd. cbn.
  match goal with |- context [count_values ?vs ?w'] =>
    pose proof (count_values_stats vs w') as (_ & _ & H3 & H4);
    pose proof (CacheProofs.count_values_result vs w') as [Hr Hs];
    destruct (count_values vs w') as [w2 r] end.
  cbn in *. subst r. rewrite !length_map in H3.
  eexists. split; [reflexivity|]. split_and!; try done.
  rewrite !map_map. apply Forall2_fmap_r, Forall_Forall2_diag, Forall_forall.
  intros key _. cbn. rewrite CacheProofs.get_result. cbn. unfold payload.
  by destruct (ks !! _) as [[??]|].
Qed.

Lemma mget_reads_each_key_witness :
  let cfg := mkConfig None None in
  let w := world_with_entry cfg "tenant-a" "projects:1" in
  redis_up (w_redis w) = true
  ∧ ∃ values,
      snd (mget cfg ["projects:1"; "projects:2"] (ctx_of "tenant-a") w) = Ret values
      ∧ values = [VStr "payload"; VNull].
Proof.
  split; [reflexivity|].
  destruct (mget_reads_each_key (mkConfig None None) ["projects:1"; "projects:2"]
              (ctx_of "tenant-a")
              (world_with_entry (mkConfig None None) "tenant-a" "projects:1") eq_refl)
    as (values & Hret & _).
  exists values. split; [exact Hret|].
  apply (f_equal (fun r => match r with Ret l => l | Throw _ => [] end)) in Hret.
  rewrite <- Hret. by vm_compute.
Defined.

(** X28: [totalKeys] counts calls, not keys: a [set] on a key that is
    already stored replaces the entry, so the server holds as many keys as
    before, and still adds one to [totalKeys]; an [increment] on a missing
    key stores a new key and leaves [totalKeys] as it was. *)
Theorem totalKeys_counts_calls_not_keys cfg key v context ttlSeconds amount w :
  redis_up (w_redis w) = true →
  0 < effective_ttl cfg ttlSeconds →
  (is_Some (cache_entry cfg w key context) →
   let w1 := fst (set cfg key v context ttlSeconds w) in
   size (keyspace (w_redis w1)) = size (keyspace (w_redis w))
   ∧ totalKeys (w_stats w1) = totalKeys (w_stats w) + 1)
  ∧ (cache_entry cfg w key context = None →
     let w1 := fst (increment cfg key context amount w) in
     size (keyspace (w_redis w1)) = S (size (keyspace (w_redis w)))
     ∧ totalKeys (w_stats w1) = totalKeys (w_stats w)).
Proof.
  intros Hup Httl. open_cache w. subst up.
  unfold cache_entry, set, increment, try_catch, bind, redis_setex, redis_incrby, redis_cmd,
    setex, set_totalKeys, modify.
  fold (effective_ttl cfg ttlSeconds).
  destruct (effective_ttl cfg ttlSeconds <=? 0) eqn:Hle; [apply Z.leb_le in Hle; lia|].
  cbn. split.
  - intros Hsome. split; [|done]. by apply map_size_insert_Some.
  - intros Hnone. rewrite Hnone. cbn. split; [|done]. by apply map_size_insert_None.
Qed.

Lemma totalKeys_counts_calls_not_keys_witness :
  let cfg := mkConfig None None in
  let w := world_with_entry cfg "tenant-a" "projects:1" in
  (redis_up (w_redis w) = true ∧ 0 < effective_ttl cfg (Some 60)
   ∧ is_Some (cache_entry cfg w "projects:1" (ctx_of "tenant-a")))
  ∧ size (keyspace (w_redis (fst (set cfg "projects:1" VNull (ctx_of "tenant-a") (Some 60)
                                    w)))) = 1%nat
  ∧ totalKeys (w_stats (fst (set cfg "projects:1" VNull (ctx_of "tenant-a") (Some 60) w)))
    = 2.
Proof.
  assert (Hentry : is_Some (cache_entry (mkConfig None None)
                              (world_with_entry (mkConfig None None) "tenant-a" "projects:1")
                              "projects:1" (ctx_of "tenant-a")))
    by (eexists; by vm_compute).
  split; [split_and!; [reflexivity|by vm_compute|exact Hentry]|].
  destruct (totalKeys_counts_calls_not_keys (mkConfig None None) "projects:1" VNull
              (ctx_of "tenant-a") (Some 60) 1
              (world_with_entry (mkConfig None None) "tenant-a" "projects:1"))
    as [Hset _]; [reflexivity|by vm_compute|].
  destruct (Hset Hentry) as [Hsize Htotal]. split.
  - rewrite Hsize. by vm_compute.
  - rewrite Htotal. by vm_compute.
Defined.

End CacheLaws.

(** * Further properties of the storage adapters *)

Module AdapterLaws.

Ltac open_db w :=
  destruct w as [[tbs migs bad log lat] redis stats locked timers rng clock events];
  cbn [w_db tables migrations bad_scripts script_log latency w_clock w_rng] in *.

(** *** Objects *)

Lemma obj_get_set_eq o k v : obj_get (obj_set o k v) k = Some v.
Proof.
  induction o as [|[k' v'] o IH]; simpl; [by rewrite String.eqb_refl|].
  destruct (String.eqb k' k) eqn:Hk; simpl; by rewrite Hk.
Qed.

Lemma obj_get_set_ne o k k' v : k ≠ k' → obj_get (obj_set o k' v) k = obj_get o k.
Proof.
  intros Hne. induction o as [|[k0 v0] o IH]; simpl.
  - destruct (String.eqb k' k) eqn:Hk; [|done].
    apply String.eqb_eq in Hk. congruence.
  - destruct (String.eqb k0 k') eqn:Hk0; simpl.
    + apply String.eqb_eq in Hk0 as ->.
      destruct (String.eqb k' k) eqn:Hk; [|done].
      apply String.eqb_eq in Hk. congruence.
    + by rewrite IH.
Qed.

Lemma obj_get_spread a b k :
  obj_get (obj_spread a b) k
  = match obj_get (rev b) k with
    | Some v => Some v
    | None => obj_get a k
    end.
Proof.
  unfold obj_spread. revert a. induction b as [|[k' v'] b IH]; intros a; [done|].
  simpl. rewrite IH.
  assert (Hrev : ∀ l, obj_get (l ++ [(k', v')]) k
                      = match obj_get l k with
                        | Some v => Some v
                        | None => if String.eqb k' k then Some v' else None
                        end).
  { induction l as [|[k0 v0] l IHl]; simpl; [done|].
    by destruct (String.eqb k0 k). }
  rewrite Hrev. destruct (obj_get (rev b) k); [done|].
  destruct (String.eqb k' k) eqn:Hk.
  - apply String.eqb_eq in Hk as ->. apply obj_get_set_eq.
  - apply obj_get_set_ne. intros ->. by rewrite String.eqb_refl in Hk.
Qed.

Lemma obj_get_Some_key o k v : obj_get o k = Some v → k ∈ map fst o.
Proof.
  induction o as [|[k' v'] o IH]; simpl; [done|].
  destruct (String.eqb k' k) eqn:Hk.
  - apply String.eqb_eq in Hk as ->. intros _. left.
  - intros H. right. by apply IH.
Qed.

(** *** The server's statements *)

Lemma insert_spec t new w :
  Db.insert t new w =
  match tables (w_db w) !! t with
  | None => (ticked w, Throw (JsError ("relation " +:+ t +:+ " does not exist")))
  | Some tb =>
      match Db.add_rows tb (rows tb) new with
      | Ret rs => (with_table t (mkTable (columns tb) rs) (ticked w),
                   Ret (map (Db.stored_row tb) new))
      | Throw e => (ticked w, Throw e)
      end
  end.
Proof.
  open_db w. unfold Db.insert, bind, Db.tick, Db.get_table, Db.put_rows, modify. cbn.
  destruct (tbs !! t) as [tb|]; [|done]. by destruct (Db.add_rows _ _ _).
Qed.

Lemma check_columns_spec tb cs w :
  Db.check_columns tb cs w =
  match List.filter (fun c => negb (Db.known_column tb c)) cs with
  | [] => (w, Ret tt)
  | c :: _ => (w, Throw (JsError ("column " +:+ c +:+ " does not exist")))
  end.
Proof. unfold Db.check_columns. by destruct (List.filter _ cs). Qed.

Lemma select_where_spec t conds w :
  Db.select_where t conds w =
  match tables (w_db w) !! t with
  | None => (ticked w, Throw (JsError ("relation " +:+ t +:+ " does not exist")))
  | Some tb =>
      match List.filter (fun c => negb (Db.known_column tb c)) (map fst conds) with
      | [] => (ticked w, Ret (List.filter (Db.row_matches conds) (rows tb)))
      | c :: _ => (ticked w, Throw (JsError ("column " +:+ c +:+ " does not exist")))
      end
  end.
Proof.
  open_db w. unfold Db.select_where, bind, Db.tick, Db.get_table, modify. cbn.
  destruct (tbs !! t) as [tb|]; [|done]. rewrite check_columns_spec.
  by destruct (List.filter _ (map fst conds)).
Qed.

Lemma update_where_spec t conds changes w :
  Db.update_where t conds changes w =
  match tables (w_db w) !! t with
  | None => (ticked w, Throw (JsError ("relation " +:+ t +:+ " does not exist")))
  | Some tb =>
      match List.filter (fun c => negb (Db.known_column tb c))
                        (map fst conds ++ map fst changes) with
      | [] =>
          (with_table t
             (mkTable (columns tb)
                (map (fun row => if Db.row_matches conds row
                                 then obj_spread row changes else row) (rows tb)))
             (ticked w),
           Ret (map (fun row => obj_spread row changes)
                    (List.filter (Db.row_matches conds) (rows tb))))
      | c :: _ => (ticked w, Throw (JsError ("column " +:+ c +:+ " does not exist")))
      end
  end.
Proof.
  open_db w. unfold Db.update_where, bind, Db.tick, Db.get_table, Db.put_rows, modify. cbn.
  destruct (tbs !! t) as [tb|]; [|done]. rewrite check_columns_spec.
  by destruct (List.filter _ (map fst conds ++ map fst changes)).
Qed.

Lemma delete_where_spec t conds w :
  Db.delete_where t conds w =
  match tables (w_db w) !! t with
  | None => (ticked w, Throw (JsError ("relation " +:+ t +:+ " does not exist")))
  | Some tb =>
      match List.filter (fun c => negb (Db.known_column tb c)) (map fst conds) with
      | [] =>
          (with_table t
             (mkTable (columns tb)
                (List.filter (fun row => negb (Db.row_matches conds row)) (rows tb)))
             (ticked w),
           Ret (Z.of_nat (length (List.filter (Db.row_matches conds) (rows tb)))))
      | c :: _ => (ticked w, Throw (JsError ("column " +:+ c +:+ " does not exist")))
      end
  end.
Proof.
  open_db w. unfold Db.delete_where, bind, Db.tick, Db.get_table, Db.put_rows, modify. cbn.
  destruct (tbs !! t) as [tb|]; [|done]. rewrite check_columns_spec.
  by destruct (List.filter _ (map fst conds)).
Qed.

Lemma table_rows_with_table t tb w : table_rows (with_table t tb w) t = rows tb.
Proof. unfold table_rows, with_table. cbn. by rewrite lookup_insert_eq. Qed.

Lemma table_rows_ticked t w : table_rows (ticked w) t = table_rows w t.
Proof. reflexivity. Qed.

(** *** Stored rows *)

Lemma filter_nil_Forall {A} (f : A → bool) l :
  List.filter f l = [] → ∀ x, x ∈ l → f x = false.
Proof.
  induction l as [|y l IH]; simpl; [by intros _ x Hx%elem_of_nil|].
  destruct (f y) eqn:Hy; [done|].
  intros Hnil x [->|Hx]%elem_of_cons; [done|]. by apply IH.
Qed.

Lemma stored_row_get tb row k v :
  List.filter (fun c => negb (Db.known_column tb c)) (map fst row) = [] →
  obj_get row k = Some v →
  obj_get (Db.stored_row tb row) k = Some v.
Proof.
  intros Hknown Hget. unfold Db.stored_row.
  destruct (columns tb) as [cols|] eqn:Hcols; [|done].
  assert (Hk : k ∈ cols).
  { pose proof (filter_nil_Forall _ _ Hknown k (obj_get_Some_key _ _ _ Hget)) as H.
    apply negb_false_iff in H. unfold Db.known_column in H. rewrite Hcols in H.
    by apply bool_decide_eq_true in H. }
  clear Hknown Hcols. induction cols as [|c cols IH]; [by apply elem_of_nil in Hk|].
  simpl. destruct (String.eqb c k) eqn:Hc.
  - apply String.eqb_eq in Hc as ->. by rewrite Hget.
  - apply elem_of_cons in Hk as [->|Hk]; [by rewrite String.eqb_refl in Hc|]. by apply IH.
Qed.

Lemma add_row_spec tb acc row :
  Db.add_rows tb acc [row] =
  match List.filter (fun c => negb (Db.known_column tb c)) (map fst row) with
  | c :: _ => Throw (JsError ("column " +:+ c +:+ " does not exist"))
  | [] =>
      if Db.key_taken tb acc row
      then Throw (JsError "duplicate key value violates unique constraint")
      else Ret (acc ++ [Db.stored_row tb row])
  end.
Proof. simpl. destruct (List.filter _ _); [|done]. by destruct (Db.key_taken _ _ _). Qed.

Lemma stamped_owned (record : Obj) id context created_at updated_at :
  obj_get (obj_spread record [("id", id); tenant_cond context;
                              ("created_at", created_at); ("updated_at", updated_at)])
          "tenant_id"
  = Some (VStr (tenant_id context)).
Proof. by rewrite obj_get_spread. Qed.

Lemma stamped_id (record : Obj) id context created_at updated_at :
  obj_get (obj_spread record [("id", id); tenant_cond context;
                              ("created_at", created_at); ("updated_at", updated_at)])
          "id"
  = Some id.
Proof. by rewrite obj_get_spread. Qed.

Lemma pg_create_spec table record context w r row :
  snd (PostgreSQLAdapter.create table record context w) = Ret r →
  data r = VObj row →
  owned_by context row
  ∧ table_rows (fst (PostgreSQLAdapter.create table record context w)) table
    = table_rows w table ++ [row].
Proof.
  unfold PostgreSQLAdapter.create, try_catch, bind, uuidv4, new_Date.
  rewrite insert_spec. unfold table_rows at 2.
  change (tables (w_db (set_rng (S (w_rng w)) w))) with (tables (w_db w)).
  destruct (tables (w_db w) !! table) as [tb|]; [|by intros [= <-]].
  rewrite add_row_spec.
  destruct (List.filter _ _) eqn:Hknown; [|by intros [= <-]].
  destruct (Db.key_taken _ _ _); [by intros [= <-]|].
  cbn. intros [= <-] [= <-]. split.
  - unfold owned_by. apply stored_row_get; [done|]. apply stamped_owned.
  - by rewrite table_rows_with_table.
Qed.

Lemma known_key tb (row : Obj) k v :
  List.filter (fun c => negb (Db.known_column tb c)) (map fst row) = [] →
  obj_get row k = Some v →
  Db.known_column tb k = true.
Proof.
  intros Hknown Hget.
  pose proof (filter_nil_Forall _ _ Hknown k (obj_get_Some_key _ _ _ Hget)) as H.
  by apply negb_false_iff in H.
Qed.

Lemma key_not_taken tb rs (row : Obj) id :
  is_Some (columns tb) →
  obj_get row "id" = Some (VStr id) →
  Db.key_taken tb rs row = false →
  List.filter (Db.row_matches [("id", VStr id)]) rs = [].
Proof.
  intros [cols Hcols] Hid. unfold Db.key_taken, Db.key_column. rewrite Hcols, Hid.
  induction rs as [|r rs IH]; [done|]. simpl.
  intros [H1 H2]%orb_false_elim. rewrite (IH H2).
  destruct (obj_get r "id") as [cell|]; [|done]. simpl. by rewrite H1.
Qed.

Lemma mysql_create_spec table record context w tb r row :
  tables (w_db w) !! table = Some tb →
  is_Some (columns tb) →
  snd (MySQLAdapter.create table record context w) = Ret r →
  data r = VObj row →
  owned_by context row
  ∧ table_rows (fst (MySQLAdapter.create table record context w)) table
    = table_rows w table ++ [row].
Proof.
  intros Htb Hcols.
  unfold MySQLAdapter.create, try_catch, bind, uuidv4, new_Date.
  set (rd := obj_spread record _).
  assert (Hid : obj_get rd "id" = Some (VStr ("uuid-" +:+ pretty (w_rng w))))
    by apply stamped_id.
  assert (Hten : obj_get rd "tenant_id" = Some (VStr (tenant_id context)))
    by apply stamped_owned.
  clearbody rd.
  rewrite insert_spec. unfold table_rows at 2.
  change (tables (w_db (set_rng (S (w_rng w)) w))) with (tables (w_db w)).
  rewrite Htb, add_row_spec.
  destruct (List.filter _ _) eqn:Hknown; [|by intros [= <-]].
  destruct (Db.key_taken _ _ _) eqn:Hkey; [by intros [= <-]|].
  pose proof (stored_row_get tb rd "id" _ Hknown Hid) as Hsid.
  pose proof (stored_row_get tb rd "tenant_id" _ Hknown Hten) as Hown.
  pose proof (known_key tb rd "id" _ Hknown Hid) as Hkid.
  pose proof (key_not_taken tb (rows tb) rd _ Hcols Hid Hkey) as Hfresh.
  set (stored := Db.stored_row tb rd) in *. clearbody stored.
  assert (Hm : Db.row_matches [("id", VStr ("uuid-" +:+ pretty (w_rng w)))] stored = true).
  { unfold Db.row_matches. cbn [forallb fst snd]. rewrite Hsid. cbn.
    by rewrite String.eqb_refl. }
  rewrite select_where_spec.
  match goal with |- context [with_table table ?tb' (ticked ?w')] =>
    change (tables (w_db (with_table table tb' (ticked w'))))
      with (<[table := tb']> (tables (w_db w)))
  end.
  rewrite lookup_insert_eq.
  cbn [map fst List.filter columns rows].
  change (Db.known_column (mkTable (columns tb) (rows tb ++ [stored])) "id")
    with (Db.known_column tb "id").
  rewrite Hkid. cbn [negb]. rewrite List.filter_app, Hfresh.
  cbn [List.filter app]. rewrite Hm. cbn.
  intros [= <-] [= <-]. split; [exact Hown|].
  unfold table_rows. cbn. by rewrite lookup_insert_eq.
Qed.

Lemma insertMany_spec t docs w :
  Db.insertMany t docs w =
  match tables (w_db w) !! t with
  | None => (ticked w, Throw (JsError ("relation " +:+ t +:+ " does not exist")))
  | Some tb =>
      (with_table t (mkTable (columns tb) (fst (Db.insert_ordered tb (rows tb) docs)))
         (ticked w),
       match snd (Db.insert_ordered tb (rows tb) docs) with
       | Ret _ => Ret tt
       | Throw e => Throw e
       end)
  end.
Proof.
  open_db w. unfold Db.insertMany, bind, Db.tick, Db.get_table, Db.put_rows, modify. cbn.
  destruct (tbs !! t) as [tb|]; [|done].
  by destruct (Db.insert_ordered _ _ _) as [rs [[]|e]].
Qed.

Lemma obj_get_delete_ne o k k' : k ≠ k' → obj_get (obj_delete o k') k = obj_get o k.
Proof.
  intros Hne. induction o as [|[k0 v0] o IH]; simpl; [done|].
  destruct (String.eqb k0 k') eqn:Hk0; simpl.
  - apply String.eqb_eq in Hk0 as ->.
    destruct (String.eqb k' k) eqn:Hk; [|done].
    apply String.eqb_eq in Hk. congruence.
  - by rewrite IH.
Qed.

Lemma convert_id_owned context doc :
  owned_by context doc → owned_by context (MongoDBAdapter.convert_id doc).
Proof.
  unfold owned_by, MongoDBAdapter.convert_id. intros H.
  rewrite obj_get_delete_ne by done. by rewrite obj_get_set_ne.
Qed.

Lemma mongo_create_spec table record context w r row :
  snd (MongoDBAdapter.create table record context w) = Ret r →
  data r = VObj row →
  owned_by context row
  ∧ ∃ doc, table_rows (fst (MongoDBAdapter.create table record context w)) table
           = table_rows w table ++ [doc]
           ∧ owned_by context doc ∧ row = MongoDBAdapter.convert_id doc.
Proof.
  unfold MongoDBAdapter.create, MongoDBAdapter.new_document, try_catch, bind, uuidv4,
    new_Date, ret.
  set (doc := obj_spread (obj_spread _ record) _).
  assert (Hown : owned_by context doc)
    by (unfold owned_by, doc; by rewrite obj_get_spread).
  clearbody doc.
  rewrite insertMany_spec. unfold table_rows at 2.
  change (tables (w_db (set_rng (S (w_rng w)) w))) with (tables (w_db w)).
  destruct (tables (w_db w) !! table) as [tb|]; [|by intros [= <-]].
  cbn [Db.insert_ordered].
  destruct (Db.key_taken _ _ _); cbn [fst snd]; [by intros [= <-]|].
  intros [= <-] [= <-].
  split; [by apply convert_id_owned|].
  exists doc. split_and!; [|exact Hown|reflexivity].
  cbn [fst]. by rewrite table_rows_with_table.
Qed.

Lemma supabase_create_spec table record context w r row :
  snd (SupabaseAdapter.create table record context w) = Ret r →
  data r = VObj row →
  owned_by context row
  ∧ table_rows (fst (SupabaseAdapter.create table record context w)) table
    = table_rows w table ++ [row].
Proof.
  unfold SupabaseAdapter.create, SupabaseAdapter.stamp, SupabaseAdapter.client,
    SupabaseAdapter.single, SupabaseAdapter.with_default_id, try_catch, bind,
    Date_toISOString, uuidv4, ret, throw.
  set (rd := obj_spread record _).
  assert (Hown : obj_get rd "tenant_id" = Some (VStr (tenant_id context)))
    by (unfold rd; by rewrite obj_get_spread).
  clearbody rd.
  destruct (obj_get rd "id") as [i|] eqn:Hi.
  - rewrite insert_spec. unfold table_rows at 2.
    destruct (tables (w_db w) !! table) as [tb|]; [|by intros [= <-]].
    rewrite add_row_spec.
    destruct (List.filter _ _) eqn:Hknown; [|by intros [= <-]].
    destruct (Db.key_taken _ _ _); [by intros [= <-]|].
    cbn [map fst snd]. intros [= <-] [= <-]. split.
    + unfold owned_by. by apply stored_row_get.
    + cbn [fst]. by rewrite table_rows_with_table.
  - rewrite insert_spec. unfold table_rows at 2.
    change (tables (w_db (set_rng (S (w_rng w)) w))) with (tables (w_db w)).
    destruct (tables (w_db w) !! table) as [tb|]; [|by intros [= <-]].
    rewrite add_row_spec.
    destruct (List.filter _ _) eqn:Hknown; [|by intros [= <-]].
    destruct (Db.key_taken _ _ _); [by intros [= <-]|].
    cbn [map fst snd]. intros [= <-] [= <-]. split.
    + unfold owned_by. apply stored_row_get; [done|]. by rewrite obj_get_set_ne.
    + cbn [fst]. by rewrite table_rows_with_table.
Qed.

(** X8: whatever the payload says, a record returned by [create] carries
    the tenant id of the context, and it is the one row the call has added
    to the table: each adapter writes [tenant_id: context.tenant_id] after
    spreading the payload.  (The MongoDB adapter returns the stored
    document with [_id] renamed to [id].) *)
Theorem created_records_belong_to_the_context table record context w :
  (∀ r row,
     snd (PostgreSQLAdapter.create table record context w) = Ret r → data r = VObj row →
     owned_by context row
     ∧ table_rows (fst (PostgreSQLAdapter.create table record context w)) table
       = table_rows w table ++ [row])
  ∧ (∀ tb r row,
       tables (w_db w) !! table = Some tb → is_Some (columns tb) →
       snd (MySQLAdapter.create table record context w) = Ret r → data r = VObj row →
       owned_by context row
       ∧ table_rows (fst (MySQLAdapter.create table record context w)) table
         = table_rows w table ++ [row])
  ∧ (∀ r row,
       snd (SupabaseAdapter.create table record context w) = Ret r → data r = VObj row →
       owned_by context row
       ∧ table_rows (fst (SupabaseAdapter.create table record context w)) table
         = table_rows w table ++ [row])
  ∧ (∀ r row,
       snd (MongoDBAdapter.create table record context w) = Ret r → data r = VObj row →
       owned_by context row
       ∧ ∃ doc, table_rows (fst (MongoDBAdapter.create table record context w)) table
                = table_rows w table ++ [doc]
                ∧ owned_by context doc ∧ row = MongoDBAdapter.convert_id doc).
Proof.
  split_and!.
  - apply pg_create_spec.
  - intros tb r row. apply mysql_create_spec.
  - apply supabase_create_spec.
  - apply mongo_create_spec.
Qed.

Lemma created_records_belong_to_the_context_witness :
  let record := [("name", VStr "Acme"); ("tenant_id", VStr "tenant-b")] in
  ∃ r row,
    snd (PostgreSQLAdapter.create "projects" record ctx_A sql_world) = Ret r
    ∧ data r = VObj row
    ∧ owned_by ctx_A row.
Proof.
  eexists _, _. split; [by vm_compute|]. split; [reflexivity|].
  pose proof (created_records_belong_to_the_context "projects"
                [("name", VStr "Acme"); ("tenant_id", VStr "tenant-b")] ctx_A sql_world)
    as (Hpg & _).
  eapply Hpg; [by vm_compute | reflexivity].
Defined.

(** *** Reads *)

Lemma In_insert_by le (x y : Obj) l : In x (Db.insert_by le y l) → x = y ∨ In x l.
Proof.
  induction l as [|z l IH]; simpl; [by intros [->|[]]; left|].
  destruct (le y z); simpl; [by intros [->|H]; [left|right]|].
  intros [->|H]; [right; by left|]. destruct (IH H) as [->|H']; [by left|right; by right].
Qed.

Lemma In_order_rows ord (x : Obj) l : In x (Db.order_rows ord l) → In x l.
Proof.
  assert (Hsort : ∀ le, In x (Db.sort_by le l) → In x l).
  { intros le. unfold Db.sort_by. induction l as [|y l IH]; simpl; [done|].
    intros [->|H]%In_insert_by; [by left|right; by apply IH]. }
  unfold Db.order_rows. destruct ord as [o|]; [|done].
  destruct (ascending o); apply Hsort.
Qed.

Lemma In_take_z n (x : Obj) l : In x (Db.take_z n l) → In x l.
Proof.
  unfold Db.take_z. intros H%list_elem_of_In. apply list_elem_of_In.
  by apply (subseteq_take (Z.to_nat n) l).
Qed.

Lemma In_drop_z n (x : Obj) l : In x (Db.drop_z n l) → In x l.
Proof.
  unfold Db.drop_z. intros H%list_elem_of_In. apply list_elem_of_In.
  by apply (subseteq_drop (Z.to_nat n) l).
Qed.

Lemma In_paginate lim off (x : Obj) l : In x (Db.paginate lim off l) → In x l.
Proof.
  unfold Db.paginate. destruct (Db.is_set off), (Db.is_set lim); intros H;
    repeat (first [apply In_take_z in H | apply In_drop_z in H]); done.
Qed.

Lemma In_page lim off (x : Obj) l : In x (SupabaseAdapter.page lim off l) → In x l.
Proof.
  unfold SupabaseAdapter.page. destruct (Db.is_set off), (Db.is_set lim); intros H;
    repeat (first [apply In_take_z in H | apply In_drop_z in H]); done.
Qed.

Lemma select_query_spec t sel conds ord lim off w w' found :
  DbQuery.select_query t sel conds ord lim off w = (w', Ret found) →
  w' = ticked w
  ∧ ∃ tb, tables (w_db w) !! t = Some tb
          ∧ found = map (shown sel)
                        (Db.paginate lim off
                           (Db.order_rows ord (List.filter (Db.row_matches conds) (rows tb)))).
Proof.
  open_db w. unfold DbQuery.select_query, bind, Db.tick, Db.get_table, modify. cbn.
  destruct (tbs !! t) as [tb|]; [|done].
  do 3 (rewrite check_columns_spec;
        match goal with
        | |- context [match List.filter ?f ?l with _ => _ end] =>
            destruct (List.filter f l); [|done]
        end; cbn [fst snd]).
  unfold ret. intros [= <- <-]. split; [done|]. exists tb. split; [done|].
  unfold shown. destruct (Db.select_all sel); [by rewrite map_id|done].
Qed.

Lemma matches_owned context conds row :
  tenant_cond context ∈ conds →
  Db.row_matches conds row = true →
  owned_by context row.
Proof.
  intros Hin Hm. unfold Db.row_matches in Hm. rewrite forallb_forall in Hm.
  specialize (Hm _ (proj1 (list_elem_of_In _ _) Hin)). cbn in Hm. unfold owned_by.
  destruct (obj_get row "tenant_id") as [cell|]; [|done].
  by apply AdapterProofs.value_eqb_str in Hm as ->.
Qed.

Lemma selected_rows_owned context t sel conds ord lim off w w' found item :
  tenant_cond context ∈ conds →
  DbQuery.select_query t sel conds ord lim off w = (w', Ret found) →
  In item found →
  ∃ row, row ∈ table_rows w t ∧ owned_by context row ∧ item = shown sel row.
Proof.
  intros Hin Hq Hitem. apply select_query_spec in Hq as (_ & tb & Htb & ->).
  apply in_map_iff in Hitem as (row & <- & Hrow).
  apply In_paginate, In_order_rows, filter_In in Hrow as [Hrow Hm].
  exists row. split_and!; [|by eapply matches_owned|done].
  unfold table_rows. rewrite Htb. by apply list_elem_of_In.
Qed.

Lemma rows_value_items found c item :
  item ∈ result_items (mkResult (rows_value found) c None) →
  ∃ row, In row found ∧ item = VObj row.
Proof.
  unfold result_items, rows_value. cbn.
  intros (row & <- & Hrow)%list_elem_of_In%in_map_iff. by exists row.
Qed.

(** A read that answers with items has got them from its query. *)
Lemma read_shape (q : M (list Obj)) (cnt : M (option Z)) w r item :
  snd (try_catch (let* found := q in
                  let* c := cnt in
                  ret (mkResult (rows_value found) c None)) return_error w) = Ret r →
  item ∈ result_items r →
  ∃ w' found row, q w = (w', Ret found) ∧ In row found ∧ item = VObj row.
Proof.
  unfold try_catch, bind, return_error, ret.
  destruct (q w) as [w1 [found|e]].
  - destruct (cnt w1) as [w2 [c|e]]; cbn.
    + intros [= <-] (row & Hrow & ->)%rows_value_items. by exists w1, found, row.
    + intros [= <-] H. by apply elem_of_nil in H.
  - cbn. intros [= <-] H. by apply elem_of_nil in H.
Qed.

Lemma read_shape_map (f : Obj → Obj) (q : M (list Obj)) (cnt : M (option Z)) w r item :
  snd (try_catch (let* found := q in
                  let* c := cnt in
                  ret (mkResult (rows_value (map f found)) c None)) return_error w) = Ret r →
  item ∈ result_items r →
  ∃ w' found row, q w = (w', Ret found) ∧ In row found ∧ item = VObj (f row).
Proof.
  unfold try_catch, bind, return_error, ret.
  destruct (q w) as [w1 [found|e]].
  - destruct (cnt w1) as [w2 [c|e]]; cbn.
    + intros [= <-] (row & (doc & <- & Hdoc)%in_map_iff & ->)%rows_value_items.
      by exists w1, found, doc.
    + intros [= <-] H. by apply elem_of_nil in H.
  - cbn. intros [= <-] H. by apply elem_of_nil in H.
Qed.

Lemma obj_get_None (o : Obj) k : k ∉ map fst o → obj_get o k = None.
Proof.
  induction o as [|[k' v'] o IH]; simpl; [done|].
  intros Hnot. destruct (String.eqb k' k) eqn:Hk.
  - apply String.eqb_eq in Hk as ->. exfalso. apply Hnot. left.
  - apply IH. intros Hin. apply Hnot. by right.
Qed.

Lemma obj_get_In (o : Obj) k v : obj_get o k = Some v → In (k, v) o.
Proof.
  induction o as [|[k' v'] o IH]; simpl; [done|].
  destruct (String.eqb k' k) eqn:Hk.
  - apply String.eqb_eq in Hk as ->. intros [= ->]. by left.
  - intros H. right. by apply IH.
Qed.

Lemma doc_matches_owned context query doc :
  obj_get query "tenant_id" = Some (VStr (tenant_id context)) →
  Db.doc_matches query doc = true →
  owned_by context doc.
Proof.
  intros Hq Hm. unfold Db.doc_matches in Hm. rewrite forallb_forall in Hm.
  specialize (Hm _ (obj_get_In _ _ _ Hq)). cbn in Hm. unfold owned_by.
  destruct (obj_get doc "tenant_id") as [cell|]; [|done].
  by apply AdapterProofs.value_eqb_str in Hm as ->.
Qed.

Lemma aggregate_spec t query ord lim off projection w w' found :
  DbQuery.aggregate t query ord lim off projection w = (w', Ret found) →
  w' = ticked w
  ∧ ∃ tb, tables (w_db w) !! t = Some tb
          ∧ found = map (fun doc => match projection with
                                    | Some fields => Db.project_row ("_id" :: fields) doc
                                    | None => doc
                                    end)
                        (Db.paginate lim off
                           (Db.order_rows ord (List.filter (Db.doc_matches query) (rows tb)))).
Proof.
  open_db w. unfold DbQuery.aggregate, bind, Db.tick, Db.get_table, modify, ret. cbn.
  destruct (tbs !! t) as [tb|]; [|done].
  intros [= <- <-]. split; [done|]. exists tb. split; [done|].
  destruct projection; [done|]. by rewrite map_id.
Qed.

Lemma pg_read_owned table options context w r item :
  snd (PostgreSQLAdapter.read table options context w) = Ret r →
  item ∈ result_items r →
  ∃ row, row ∈ table_rows w table ∧ owned_by context row
         ∧ item = VObj (shown (select options) row).
Proof.
  intros Hr Hitem. unfold PostgreSQLAdapter.read in Hr.
  destruct (read_shape _ _ _ _ _ Hr Hitem) as (w' & found & row & Hq & Hrow & ->).
  destruct (selected_rows_owned context _ _ _ _ _ _ _ _ _ row ltac:(left) Hq Hrow)
    as (stored & ? & ? & ->). by exists stored.
Qed.

Lemma mysql_read_owned table options context w r item :
  snd (MySQLAdapter.read table options context w) = Ret r →
  item ∈ result_items r →
  ∃ row, row ∈ table_rows w table ∧ owned_by context row
         ∧ item = VObj (shown (select options) row).
Proof.
  intros Hr Hitem. unfold MySQLAdapter.read in Hr.
  destruct (read_shape _ _ _ _ _ Hr Hitem) as (w' & found & row & Hq & Hrow & ->).
  destruct (selected_rows_owned context _ _ _ _ _ _ _ _ _ row ltac:(left) Hq Hrow)
    as (stored & ? & ? & ->). by exists stored.
Qed.

Lemma supabase_read_owned table options context w r item :
  snd (SupabaseAdapter.read table options context w) = Ret r →
  item ∈ result_items r →
  ∃ row, row ∈ table_rows w table ∧ owned_by context row
         ∧ item = VObj (shown (select options) row).
Proof.
  unfold SupabaseAdapter.read, SupabaseAdapter.client, try_catch, bind, ret, throw.
  destruct (DbQuery.select_query _ _ _ _ _ _ w) as [w1 [found|e]] eqn:Hq; cbn; [|done].
  intros [= <-] (row & Hrow%In_page & ->)%rows_value_items.
  destruct (selected_rows_owned context _ _ _ _ _ _ _ _ _ row ltac:(left) Hq Hrow)
    as (stored & ? & ? & ->). by exists stored.
Qed.

Lemma mongo_read_owned table options context w r item :
  "tenant_id" ∉ map fst (filter_entries options) →
  snd (MongoDBAdapter.read table options context w) = Ret r →
  item ∈ result_items r →
  ∃ doc, doc ∈ table_rows w table ∧ owned_by context doc
         ∧ item = VObj (MongoDBAdapter.convert_id (shown_document (select options) doc)).
Proof.
  intros Hfilter. unfold MongoDBAdapter.read.
  set (query := obj_spread [tenant_cond context] (filter_entries options)).
  assert (Hquery : obj_get query "tenant_id" = Some (VStr (tenant_id context))).
  { unfold query. rewrite obj_get_spread, obj_get_None; [done|].
    rewrite map_rev. intros Hin%list_elem_of_In%in_rev. by apply Hfilter, list_elem_of_In. }
  clearbody query. intros Hr Hitem.
  destruct (read_shape_map MongoDBAdapter.convert_id _ _ _ _ _ Hr Hitem)
    as (w' & documents & shown_doc & Hq & Hdoc & ->).
  apply aggregate_spec in Hq as (_ & tb & Htb & ->).
  apply in_map_iff in Hdoc as (doc & <- & Hdoc).
  apply In_paginate, In_order_rows, filter_In in Hdoc as [Hdoc Hm].
  exists doc. split_and!.
  - unfold table_rows. rewrite Htb. by apply list_elem_of_In.
  - by eapply doc_matches_owned.
  - unfold shown_document. destruct (select options) as [s|]; [|done].
    by destruct (negb (String.eqb s "") && negb (String.eqb s "*")).
Qed.

(** X9: a read of whole rows only answers with rows of the context's
    tenant: over the PostgreSQL, MySQL and Supabase adapters, when the
    options name no select list (or the list [*]), every item of the
    result is a stored row carrying the context's tenant id, whatever the
    filter, order and page; over the MongoDB adapter every item is what
    the projection shows of a stored document of that tenant when the
    filter has no [tenant_id] entry. *)
Theorem reads_answer_with_own_rows table options context w :
  (Db.select_all (select options) = true →
   ∀ r item,
     snd (PostgreSQLAdapter.read table options context w) = Ret r →
     item ∈ result_items r →
     ∃ row, row ∈ table_rows w table ∧ owned_by context row ∧ item = VObj row)
  ∧ (Db.select_all (select options) = true →
     ∀ r item,
       snd (MySQLAdapter.read table options context w) = Ret r →
       item ∈ result_items r →
       ∃ row, row ∈ table_rows w table ∧ owned_by context row ∧ item = VObj row)
  ∧ (Db.select_all (select options) = true →
     ∀ r item,
       snd (SupabaseAdapter.read table options context w) = Ret r →
       item ∈ result_items r →
       ∃ row, row ∈ table_rows w table ∧ owned_by context row ∧ item = VObj row)
  ∧ ("tenant_id" ∉ map fst (filter_entries options) →
     ∀ r item,
       snd (MongoDBAdapter.read table options context w) = Ret r →
       item ∈ result_items r →
       ∃ doc, doc ∈ table_rows w table ∧ owned_by context doc
              ∧ item = VObj (MongoDBAdapter.convert_id
                               (shown_document (select options) doc))).
Proof.
  assert (Hshown : ∀ row, Db.select_all (select options) = true →
                          shown (select options) row = row).
  { intros row Hall. unfold shown. by rewrite Hall. }
  split_and!.
  - intros Hall r item Hr Hitem.
    destruct (pg_read_owned _ _ _ _ _ _ Hr Hitem) as (row & Hrow & Hown & ->).
    exists row. by rewrite Hshown.
  - intros Hall r item Hr Hitem.
    destruct (mysql_read_owned _ _ _ _ _ _ Hr Hitem) as (row & Hrow & Hown & ->).
    exists row. by rewrite Hshown.
  - intros Hall r item Hr Hitem.
    destruct (supabase_read_owned _ _ _ _ _ _ Hr Hitem) as (row & Hrow & Hown & ->).
    exists row. by rewrite Hshown.
  - intros Hfilter r item. by apply mongo_read_owned.
Qed.

Lemma reads_answer_with_own_rows_witness :
  Db.select_all (select (filter_by_tenant "tenant-a")) = true
  ∧ ∃ r item,
      snd (MySQLAdapter.read "projects" (filter_by_tenant "tenant-a") ctx_A
             two_projects_world)
      = Ret r
      ∧ item ∈ result_items r
      ∧ ∃ row, row ∈ table_rows two_projects_world "projects" ∧ owned_by ctx_A row
               ∧ item = VObj row.
Proof.
  split; [reflexivity|].
  pose proof (reads_answer_with_own_rows "projects" (filter_by_tenant "tenant-a") ctx_A
                two_projects_world) as (_ & Hmysql & _).
  eexists _, _. split; [by vm_compute|]. split; [left|].
  eapply (Hmysql eq_refl); [by vm_compute|left].
Defined.


(** *** Writes *)

Lemma owned_by_b_true context row : owned_by_b context row = true ↔ owned_by context row.
Proof.
  unfold owned_by_b, owned_by. destruct (obj_get row "tenant_id") as [cell|]; [|done].
  split.
  - by intros ->%AdapterProofs.value_eqb_str.
  - intros [= ->]. cbn. apply String.eqb_refl.
Qed.

Lemma table_rows_other t t' tb w : t' ≠ t → table_rows (with_table t tb w) t' = table_rows w t'.
Proof. intros Hne. unfold table_rows, with_table. cbn. by rewrite lookup_insert_ne. Qed.

Lemma table_rows_same w w' t :
  tables (w_db w') = tables (w_db w) → table_rows w' t = table_rows w t.
Proof. unfold table_rows. by intros ->. Qed.

Lemma keeps_rows_refl context table w w' :
  tables (w_db w') = tables (w_db w) → keeps_foreign_rows context table w w'.
Proof.
  intros H. split.
  - intros i row Hrow _. by rewrite (table_rows_same w w' table H).
  - intros t _. by apply table_rows_same.
Qed.

Lemma keeps_list_refl context table w w' :
  tables (w_db w') = tables (w_db w) → keeps_foreign_list context table w w'.
Proof.
  intros H. split.
  - unfold foreign_rows. by rewrite (table_rows_same w w' table H).
  - intros t _. by apply table_rows_same.
Qed.

Lemma keeps_rows_tables context table w w' w'' :
  tables (w_db w'') = tables (w_db w') →
  keeps_foreign_rows context table w w' → keeps_foreign_rows context table w w''.
Proof.
  intros H [H1 H2]. split.
  - intros i row Hrow Hown. rewrite (table_rows_same w' w'' table H). by apply H1.
  - intros t Ht. rewrite (table_rows_same w' w'' t H). by apply H2.
Qed.

Lemma keeps_list_tables context table w w' w'' :
  tables (w_db w'') = tables (w_db w') →
  keeps_foreign_list context table w w' → keeps_foreign_list context table w w''.
Proof.
  intros H [H1 H2]. split.
  - unfold foreign_rows in *. by rewrite (table_rows_same w' w'' table H).
  - intros t Ht. rewrite (table_rows_same w' w'' t H). by apply H2.
Qed.

Lemma update_where_keeps context t conds changes w :
  tenant_cond context ∈ conds →
  keeps_foreign_rows context t w (fst (Db.update_where t conds changes w)).
Proof.
  intros Hin. rewrite update_where_spec.
  destruct (tables (w_db w) !! t) as [tb|] eqn:Htb; [|by apply keeps_rows_refl].
  destruct (List.filter _ _); [|by apply keeps_rows_refl].
  cbn [fst]. split.
  - intros i row Hrow Hforeign. rewrite table_rows_with_table. cbn [rows].
    unfold table_rows in Hrow. rewrite Htb in Hrow.
    rewrite list_lookup_fmap, Hrow. cbn.
    destruct (Db.row_matches conds row) eqn:Hm; [|done].
    exfalso. apply Hforeign. by eapply matches_owned.
  - intros t' Hne. by rewrite table_rows_other.
Qed.

Lemma filter_absorb {A} (f g : A → bool) l :
  (∀ x, f x = true → g x = true) →
  List.filter f (List.filter g l) = List.filter f l.
Proof.
  intros Hfg. induction l as [|x l IH]; [done|]. simpl.
  destruct (g x) eqn:Hg; simpl; [by rewrite IH|].
  destruct (f x) eqn:Hf; [|done]. apply Hfg in Hf. congruence.
Qed.

Lemma delete_where_keeps context t conds w :
  tenant_cond context ∈ conds →
  keeps_foreign_list context t w (fst (Db.delete_where t conds w)).
Proof.
  intros Hin. rewrite delete_where_spec.
  destruct (tables (w_db w) !! t) as [tb|] eqn:Htb; [|by apply keeps_list_refl].
  destruct (List.filter _ _); [|by apply keeps_list_refl].
  cbn [fst]. split.
  - unfold foreign_rows. rewrite table_rows_with_table. cbn [rows].
    unfold table_rows. change (tables (w_db (ticked w))) with (tables (w_db w)).
    rewrite Htb. apply filter_absorb. intros row Hforeign.
    destruct (Db.row_matches conds row) eqn:Hm; [|done].
    apply (matches_owned context) in Hm; [|done].
    apply owned_by_b_true in Hm. by rewrite Hm in Hforeign.
  - intros t' Hne. by rewrite table_rows_other.
Qed.

Lemma findOneAndUpdate_spec t query changes w :
  Db.findOneAndUpdate t query changes w =
  match tables (w_db w) !! t with
  | None => (ticked w, Throw (JsError ("relation " +:+ t +:+ " does not exist")))
  | Some tb =>
      (with_table t (mkTable (columns tb) (fst (Db.update_first query changes (rows tb))))
         (ticked w),
       Ret (snd (Db.update_first query changes (rows tb))))
  end.
Proof.
  open_db w. unfold Db.findOneAndUpdate, bind, Db.tick, Db.get_table, Db.put_rows, modify.
  cbn. destruct (tbs !! t) as [tb|]; [|done].
  by destruct (Db.update_first _ _ _).
Qed.

Lemma deleteOne_spec t query w :
  Db.deleteOne t query w =
  match tables (w_db w) !! t with
  | None => (ticked w, Throw (JsError ("relation " +:+ t +:+ " does not exist")))
  | Some tb =>
      (with_table t (mkTable (columns tb) (fst (Db.delete_first query (rows tb))))
         (ticked w),
       Ret (snd (Db.delete_first query (rows tb))))
  end.
Proof.
  open_db w. unfold Db.deleteOne, bind, Db.tick, Db.get_table, Db.put_rows, modify.
  cbn. destruct (tbs !! t) as [tb|]; [|done].
  by destruct (Db.delete_first _ _).
Qed.

Lemma update_first_keeps query changes docs i doc :
  docs !! i = Some doc → Db.doc_matches query doc = false →
  fst (Db.update_first query changes docs) !! i = Some doc.
Proof.
  revert i. induction docs as [|d docs IH]; intros i Hi Hm; [done|].
  simpl. destruct (Db.doc_matches query d) eqn:Hd; simpl.
  - destruct i as [|i]; [|done]. simpl in Hi. congruence.
  - destruct (Db.update_first query changes docs) as [rest r] eqn:Hrest. simpl.
    destruct i as [|i]; [done|]. simpl in *. by apply IH.
Qed.

Lemma delete_first_keeps (f : Obj → bool) query docs :
  (∀ d, f d = true → Db.doc_matches query d = false) →
  List.filter f (fst (Db.delete_first query docs)) = List.filter f docs.
Proof.
  intros Hf. induction docs as [|d docs IH]; [done|]. simpl.
  destruct (Db.doc_matches query d) eqn:Hd; simpl.
  - destruct (f d) eqn:Hfd; [|done]. apply Hf in Hfd. congruence.
  - destruct (Db.delete_first query docs) as [rest n]. simpl in *. by rewrite IH.
Qed.

Lemma findOneAndUpdate_keeps context t query changes w :
  obj_get query "tenant_id" = Some (VStr (tenant_id context)) →
  keeps_foreign_rows context t w (fst (Db.findOneAndUpdate t query changes w)).
Proof.
  intros Hq. rewrite findOneAndUpdate_spec.
  destruct (tables (w_db w) !! t) as [tb|] eqn:Htb; [|by apply keeps_rows_refl].
  cbn [fst]. split.
  - intros i row Hrow Hforeign. rewrite table_rows_with_table. cbn [rows].
    unfold table_rows in Hrow. rewrite Htb in Hrow.
    apply update_first_keeps; [done|].
    destruct (Db.doc_matches query row) eqn:Hm; [|done].
    exfalso. apply Hforeign. by eapply doc_matches_owned.
  - intros t' Hne. by rewrite table_rows_other.
Qed.

Lemma deleteOne_keeps context t query w :
  obj_get query "tenant_id" = Some (VStr (tenant_id context)) →
  keeps_foreign_list context t w (fst (Db.deleteOne t query w)).
Proof.
  intros Hq. rewrite deleteOne_spec.
  destruct (tables (w_db w) !! t) as [tb|] eqn:Htb; [|by apply keeps_list_refl].
  cbn [fst]. split.
  - unfold foreign_rows. rewrite table_rows_with_table. cbn [rows].
    unfold table_rows. change (tables (w_db (ticked w))) with (tables (w_db w)).
    rewrite Htb. apply delete_first_keeps. intros row Hforeign.
    destruct (Db.doc_matches query row) eqn:Hm; [|done].
    apply (doc_matches_owned context) in Hm; [|done].
    apply owned_by_b_true in Hm. by rewrite Hm in Hforeign.
  - intros t' Hne. by rewrite table_rows_other.
Qed.

Lemma select_where_tables t conds w :
  tables (w_db (fst (Db.select_where t conds w))) = tables (w_db w).
Proof.
  rewrite select_where_spec. destruct (tables (w_db w) !! t) as [tb|]; [|done].
  by destruct (List.filter _ _).
Qed.

Lemma tenant_cond_second context (c : string * Value) :
  tenant_cond context ∈ [c; tenant_cond context].
Proof. right. left. Qed.

(** X10: a write under a context never touches what belongs to other
    tenants: after [update], over each of the four adapters and whatever
    the outcome, every row of the table that does not carry the context's
    tenant id is still at its place, unchanged; after [delete] the rows of
    other tenants are the same rows in the same order; the other tables
    are as they were. *)
Theorem writes_leave_foreign_rows_alone table id updates context w :
  keeps_foreign_rows context table w
    (fst (PostgreSQLAdapter.update table id updates context w))
  ∧ keeps_foreign_rows context table w
      (fst (MySQLAdapter.update table id updates context w))
  ∧ keeps_foreign_rows context table w
      (fst (SupabaseAdapter.update table id updates context w))
  ∧ keeps_foreign_rows context table w
      (fst (MongoDBAdapter.update table id updates context w))
  ∧ keeps_foreign_list context table w (fst (PostgreSQLAdapter.delete table id context w))
  ∧ keeps_foreign_list context table w (fst (MySQLAdapter.delete table id context w))
  ∧ keeps_foreign_list context table w (fst (SupabaseAdapter.delete table id context w))
  ∧ keeps_foreign_list context table w (fst (MongoDBAdapter.delete table id context w)).
Proof.
  split_and!.
  - unfold PostgreSQLAdapter.update, try_catch, bind, new_Date.
    match goal with |- context [Db.update_where table ?c ?u w] =>
      pose proof (update_where_keeps context table c u w (tenant_cond_second _ _)) as Hk;
      destruct (Db.update_where table c u w) as [w1 [[|row found]|e]] end;
      cbn in *; try exact Hk.
    unfold rethrow_DataError. by destruct (instanceof_DataError e).
  - unfold MySQLAdapter.update, try_catch, bind, new_Date.
    match goal with |- context [Db.update_where table ?c ?u w] =>
      pose proof (update_where_keeps context table c u w (tenant_cond_second _ _)) as Hk;
      destruct (Db.update_where table c u w) as [w1 [changed|e]] end; cbn [fst] in *.
    + destruct (Z.of_nat (length changed) =? 0); [exact Hk|].
      match goal with |- context [Db.select_where table ?c w1] =>
        pose proof (select_where_tables table c w1) as Hs;
        destruct (Db.select_where table c w1) as [w2 [found|e]] end; cbn in *.
      * by eapply keeps_rows_tables.
      * unfold rethrow_DataError. destruct (instanceof_DataError e); cbn;
          by eapply keeps_rows_tables.
    + unfold rethrow_DataError. by destruct (instanceof_DataError e).
  - unfold SupabaseAdapter.update, SupabaseAdapter.client, SupabaseAdapter.single,
      try_catch, bind, Date_toISOString.
    match goal with |- context [Db.update_where table ?c ?u w] =>
      pose proof (update_where_keeps context table c u w (tenant_cond_second _ _)) as Hk;
      destruct (Db.update_where table c u w) as [w1 [[|row [|row' found]]|e]] end;
      cbn in *; exact Hk.
  - unfold MongoDBAdapter.update, try_catch, bind, new_Date.
    match goal with |- context [Db.findOneAndUpdate table ?q ?u w] =>
      pose proof (findOneAndUpdate_keeps context table q u w eq_refl) as Hk;
      destruct (Db.findOneAndUpdate table q u w) as [w1 [[doc|]|e]] end;
      cbn in *; try exact Hk.
    unfold rethrow_DataError. by destruct (instanceof_DataError e).
  - unfold PostgreSQLAdapter.delete, try_catch, bind.
    match goal with |- context [Db.delete_where table ?c w] =>
      pose proof (delete_where_keeps context table c w (tenant_cond_second _ _)) as Hk;
      destruct (Db.delete_where table c w) as [w1 [n|e]] end; cbn [fst] in *.
    + by destruct (n =? 0).
    + unfold rethrow_DataError. by destruct (instanceof_DataError e).
  - unfold MySQLAdapter.delete, try_catch, bind.
    match goal with |- context [Db.delete_where table ?c w] =>
      pose proof (delete_where_keeps context table c w (tenant_cond_second _ _)) as Hk;
      destruct (Db.delete_where table c w) as [w1 [n|e]] end; cbn [fst] in *.
    + by destruct (n =? 0).
    + unfold rethrow_DataError. by destruct (instanceof_DataError e).
  - unfold SupabaseAdapter.delete, SupabaseAdapter.client, try_catch, bind.
    match goal with |- context [Db.delete_where table ?c w] =>
      pose proof (delete_where_keeps context table c w (tenant_cond_second _ _)) as Hk;
      by destruct (Db.delete_where table c w) as [w1 [n|e]] end.
  - unfold MongoDBAdapter.delete, try_catch, bind.
    match goal with |- context [Db.deleteOne table ?q w] =>
      pose proof (deleteOne_keeps context table q w eq_refl) as Hk;
      destruct (Db.deleteOne table q w) as [w1 [n|e]] end; cbn [fst] in *.
    + by destruct (n =? 0).
    + unfold rethrow_DataError. by destruct (instanceof_DataError e).
Qed.

(** *** Create, then read *)

Lemma pg_create_world table record context w r row :
  snd (PostgreSQLAdapter.create table record context w) = Ret r →
  data r = VObj row →
  ∃ tb, tables (w_db w) !! table = Some tb
        ∧ tables (w_db (fst (PostgreSQLAdapter.create table record context w)))
          = <[table := mkTable (columns tb) (rows tb ++ [row])]> (tables (w_db w))
        ∧ Db.known_column tb "tenant_id" = true
        ∧ owned_by context row.
Proof.
  unfold PostgreSQLAdapter.create, try_catch, bind, uuidv4, new_Date.
  set (rd := obj_spread record _).
  assert (Hten : obj_get rd "tenant_id" = Some (VStr (tenant_id context)))
    by apply stamped_owned.
  clearbody rd. rewrite insert_spec.
  change (tables (w_db (set_rng (S (w_rng w)) w))) with (tables (w_db w)).
  destruct (tables (w_db w) !! table) as [tb|] eqn:Htb; [|by intros [= <-]].
  rewrite add_row_spec.
  destruct (List.filter _ _) eqn:Hknown; [|by intros [= <-]].
  destruct (Db.key_taken _ _ _); [by intros [= <-]|].
  cbn [map fst snd]. intros [= <-] [= <-]. exists tb. split_and!; [done|done| |].
  - by eapply known_key.
  - by apply stored_row_get.
Qed.

Lemma mysql_create_world table record context w tb r row :
  tables (w_db w) !! table = Some tb →
  is_Some (columns tb) →
  snd (MySQLAdapter.create table record context w) = Ret r →
  data r = VObj row →
  tables (w_db (fst (MySQLAdapter.create table record context w)))
  = <[table := mkTable (columns tb) (rows tb ++ [row])]> (tables (w_db w))
  ∧ Db.known_column tb "tenant_id" = true
  ∧ owned_by context row.
Proof.
  intros Htb Hcols.
  unfold MySQLAdapter.create, try_catch, bind, uuidv4, new_Date.
  set (rd := obj_spread record _).
  assert (Hid : obj_get rd "id" = Some (VStr ("uuid-" +:+ pretty (w_rng w))))
    by apply stamped_id.
  assert (Hten : obj_get rd "tenant_id" = Some (VStr (tenant_id context)))
    by apply stamped_owned.
  clearbody rd.
  rewrite insert_spec.
  change (tables (w_db (set_rng (S (w_rng w)) w))) with (tables (w_db w)).
  rewrite Htb, add_row_spec.
  destruct (List.filter _ _) eqn:Hknown; [|by intros [= <-]].
  destruct (Db.key_taken _ _ _) eqn:Hkey; [by intros [= <-]|].
  pose proof (stored_row_get tb rd "id" _ Hknown Hid) as Hsid.
  pose proof (stored_row_get tb rd "tenant_id" _ Hknown Hten) as Hown.
  pose proof (known_key tb rd "id" _ Hknown Hid) as Hkid.
  pose proof (known_key tb rd "tenant_id" _ Hknown Hten) as Hkten.
  pose proof (key_not_taken tb (rows tb) rd _ Hcols Hid Hkey) as Hfresh.
  set (stored := Db.stored_row tb rd) in *. clearbody stored.
  assert (Hm : Db.row_matches [("id", VStr ("uuid-" +:+ pretty (w_rng w)))] stored = true).
  { unfold Db.row_matches. cbn [forallb fst snd]. rewrite Hsid. cbn.
    by rewrite String.eqb_refl. }
  rewrite select_where_spec.
  match goal with |- context [with_table table ?tb' (ticked ?w')] =>
    change (tables (w_db (with_table table tb' (ticked w'))))
      with (<[table := tb']> (tables (w_db w)))
  end.
  rewrite lookup_insert_eq.
  cbn [map fst List.filter columns rows].
  change (Db.known_column (mkTable (columns tb) (rows tb ++ [stored])) "id")
    with (Db.known_column tb "id").
  rewrite Hkid. cbn [negb]. rewrite List.filter_app, Hfresh.
  cbn [List.filter app]. rewrite Hm. cbn.
  intros [= <-] [= <-]. done.
Qed.

Lemma supabase_create_world table record context w r row :
  snd (SupabaseAdapter.create table record context w) = Ret r →
  data r = VObj row →
  ∃ tb, tables (w_db w) !! table = Some tb
        ∧ tables (w_db (fst (SupabaseAdapter.create table record context w)))
          = <[table := mkTable (columns tb) (rows tb ++ [row])]> (tables (w_db w))
        ∧ Db.known_column tb "tenant_id" = true
        ∧ owned_by context row.
Proof.
  unfold SupabaseAdapter.create, SupabaseAdapter.stamp, SupabaseAdapter.client,
    SupabaseAdapter.single, SupabaseAdapter.with_default_id, try_catch, bind,
    Date_toISOString, uuidv4, ret, throw.
  set (rd := obj_spread record _).
  assert (Hown : obj_get rd "tenant_id" = Some (VStr (tenant_id context)))
    by (unfold rd; by rewrite obj_get_spread).
  clearbody rd.
  destruct (obj_get rd "id") as [i|] eqn:Hi.
  - rewrite insert_spec.
    destruct (tables (w_db w) !! table) as [tb|] eqn:Htb; [|by intros [= <-]].
    rewrite add_row_spec.
    destruct (List.filter _ _) eqn:Hknown; [|by intros [= <-]].
    destruct (Db.key_taken _ _ _); [by intros [= <-]|].
    cbn [map fst snd]. intros [= <-] [= <-]. exists tb. split_and!; [done|done| |].
    + by eapply known_key.
    + by apply stored_row_get.
  - rewrite insert_spec.
    change (tables (w_db (set_rng (S (w_rng w)) w))) with (tables (w_db w)).
    destruct (tables (w_db w) !! table) as [tb|] eqn:Htb; [|by intros [= <-]].
    rewrite add_row_spec.
    destruct (List.filter _ _) eqn:Hknown; [|by intros [= <-]].
    destruct (Db.key_taken _ _ _); [by intros [= <-]|].
    assert (Hown' : obj_get (obj_set rd "id" (VStr ("uuid-" +:+ pretty (w_rng w))))
                            "tenant_id" = Some (VStr (tenant_id context)))
      by (by rewrite obj_get_set_ne).
    cbn [map fst snd]. intros [= <-] [= <-]. exists tb. split_and!; [done|done| |].
    + by eapply known_key.
    + by apply stored_row_get.
Qed.

Lemma mongo_create_world table record context w r row :
  snd (MongoDBAdapter.create table record context w) = Ret r →
  data r = VObj row →
  ∃ tb doc, tables (w_db w) !! table = Some tb
            ∧ tables (w_db (fst (MongoDBAdapter.create table record context w)))
              = <[table := mkTable (columns tb) (rows tb ++ [doc])]> (tables (w_db w))
            ∧ owned_by context doc ∧ row = MongoDBAdapter.convert_id doc.
Proof.
  unfold MongoDBAdapter.create, MongoDBAdapter.new_document, try_catch, bind, uuidv4,
    new_Date, ret.
  set (doc := obj_spread (obj_spread _ record) _).
  assert (Hown : owned_by context doc)
    by (unfold owned_by, doc; by rewrite obj_get_spread).
  clearbody doc.
  rewrite insertMany_spec.
  change (tables (w_db (set_rng (S (w_rng w)) w))) with (tables (w_db w)).
  destruct (tables (w_db w) !! table) as [tb|] eqn:Htb; [|by intros [= <-]].
  cbn [Db.insert_ordered].
  destruct (Db.key_taken _ _ _); cbn [fst snd]; [by intros [= <-]|].
  intros [= <-] [= <-]. by exists tb, doc.
Qed.

Lemma owned_matches context row :
  owned_by context row → Db.row_matches [tenant_cond context] row = true.
Proof.
  unfold owned_by, Db.row_matches. cbn. intros ->. cbn. by rewrite String.eqb_refl.
Qed.

Lemma owned_doc_matches context doc :
  owned_by context doc → Db.doc_matches [tenant_cond context] doc = true.
Proof.
  unfold owned_by, Db.doc_matches. cbn. intros ->. cbn. by rewrite String.eqb_refl.
Qed.

Lemma select_plain t context w tb :
  tables (w_db w) !! t = Some tb →
  Db.known_column tb "tenant_id" = true →
  DbQuery.select_query t None [tenant_cond context] None None None w
  = (ticked w, Ret (List.filter (Db.row_matches [tenant_cond context]) (rows tb))).
Proof.
  intros Htb Hk. open_db w.
  unfold DbQuery.select_query, bind, Db.tick, Db.get_table, modify. cbn.
  rewrite Htb. rewrite !check_columns_spec. cbn. rewrite Hk. reflexivity.
Qed.

Lemma pg_read_plain t context w tb :
  tables (w_db w) !! t = Some tb →
  Db.known_column tb "tenant_id" = true →
  snd (PostgreSQLAdapter.read t no_options context w)
  = Ret (mkResult (rows_value (List.filter (Db.row_matches [tenant_cond context]) (rows tb)))
                  None None).
Proof.
  intros Htb Hk. unfold PostgreSQLAdapter.read, try_catch, bind. cbn [filter_entries].
  change (filter_entries no_options) with (@nil (string * Value)).
  cbn [select order limit offset no_options].
  by rewrite (select_plain t context w tb Htb Hk).
Qed.

Lemma mysql_read_plain t context w tb :
  tables (w_db w) !! t = Some tb →
  Db.known_column tb "tenant_id" = true →
  snd (MySQLAdapter.read t no_options context w)
  = Ret (mkResult (rows_value (List.filter (Db.row_matches [tenant_cond context]) (rows tb)))
                  None None).
Proof.
  intros Htb Hk. unfold MySQLAdapter.read, try_catch, bind.
  change (filter_entries no_options) with (@nil (string * Value)).
  cbn [select order limit offset no_options].
  by rewrite (select_plain t context w tb Htb Hk).
Qed.

Lemma supabase_read_plain t context w tb :
  tables (w_db w) !! t = Some tb →
  Db.known_column tb "tenant_id" = true →
  ∃ c, snd (SupabaseAdapter.read t no_options context w)
       = Ret (mkResult (rows_value (List.filter (Db.row_matches [tenant_cond context])
                                                (rows tb)))
                       c None).
Proof.
  intros Htb Hk. unfold SupabaseAdapter.read, SupabaseAdapter.client, try_catch, bind.
  change (filter_entries no_options) with (@nil (string * Value)).
  cbn [select order limit offset no_options].
  rewrite (select_plain t context w tb Htb Hk). by eexists.
Qed.

Lemma mongo_read_plain t context w tb :
  tables (w_db w) !! t = Some tb →
  snd (MongoDBAdapter.read t no_options context w)
  = Ret (mkResult (rows_value (map MongoDBAdapter.convert_id
                                 (List.filter (Db.doc_matches [tenant_cond context])
                                              (rows tb))))
                  None None).
Proof.
  intros Htb. open_db w.
  unfold MongoDBAdapter.read, DbQuery.aggregate, try_catch, bind, Db.tick, Db.get_table,
    modify. cbn. by rewrite Htb.
Qed.

Lemma project_row_get fields (row : Obj) k v :
  obj_get (Db.project_row fields row) k = Some v → obj_get row k = Some v.
Proof.
  unfold Db.project_row. induction row as [|[k0 v0] row IH]; [done|]. simpl.
  destruct (bool_decide (k0 ∈ fields)) eqn:Hk0; simpl.
  - by destruct (String.eqb k0 k).
  - intros H. destruct (String.eqb k0 k) eqn:Hk; [|by apply IH].
    apply String.eqb_eq in Hk as ->.
    apply obj_get_Some_key, list_elem_of_In, in_map_iff in H as ([k' v'] & Hk' & Hin).
    apply filter_In in Hin as [_ Hin]. simpl in *. subst k'. congruence.
Qed.

Lemma shown_owned context sel row : owned_by context (shown sel row) → owned_by context row.
Proof.
  unfold shown, owned_by. destruct (Db.select_all sel); [done|]. apply project_row_get.
Qed.

Lemma shown_document_owned context sel doc :
  owned_by context (MongoDBAdapter.convert_id (shown_document sel doc)) →
  owned_by context doc.
Proof.
  unfold owned_by, MongoDBAdapter.convert_id.
  rewrite obj_get_delete_ne by done. rewrite obj_get_set_ne by done.
  unfold shown_document. destruct sel as [s|]; [|done].
  destruct (negb (String.eqb s "") && negb (String.eqb s "*")); [|done].
  apply project_row_get.
Qed.

Lemma not_both_owners context other row :
  tenant_id other ≠ tenant_id context →
  owned_by context row → owned_by other row → False.
Proof. unfold owned_by. intros Hne H1 H2. rewrite H1 in H2. congruence. Qed.

Lemma In_rows_value row found : In row found → VObj row ∈ result_items
                                  (mkResult (rows_value found) None None).
Proof. intros H. apply list_elem_of_In, in_map_iff. by exists row. Qed.

(** X11: a record is read back by the tenant that created it and by no
    other: after a [create] that returned the record, a [read] of the
    table without options under the same context holds it among its
    items, and no [read] of whole rows (no select list, or the list [*])
    under the context of another tenant does, whatever its filter, order
    and page (over the MongoDB adapter: whatever its options without a
    [tenant_id] filter entry). *)
Theorem created_record_is_read_back table record context other options w :
  tenant_id other ≠ tenant_id context →
  (∀ r row,
     snd (PostgreSQLAdapter.create table record context w) = Ret r → data r = VObj row →
     let w1 := fst (PostgreSQLAdapter.create table record context w) in
     (∃ r1, snd (PostgreSQLAdapter.read table no_options context w1) = Ret r1
            ∧ VObj row ∈ result_items r1)
     ∧ (Db.select_all (select options) = true →
        ∀ r2, snd (PostgreSQLAdapter.read table options other w1) = Ret r2 →
              VObj row ∉ result_items r2))
  ∧ (∀ tb r row,
       tables (w_db w) !! table = Some tb → is_Some (columns tb) →
       snd (MySQLAdapter.create table record context w) = Ret r → data r = VObj row →
       let w1 := fst (MySQLAdapter.create table record context w) in
       (∃ r1, snd (MySQLAdapter.read table no_options context w1) = Ret r1
              ∧ VObj row ∈ result_items r1)
       ∧ (Db.select_all (select options) = true →
          ∀ r2, snd (MySQLAdapter.read table options other w1) = Ret r2 →
                VObj row ∉ result_items r2))
  ∧ (∀ r row,
       snd (SupabaseAdapter.create table record context w) = Ret r → data r = VObj row →
       let w1 := fst (SupabaseAdapter.create table record context w) in
       (∃ r1, snd (SupabaseAdapter.read table no_options context w1) = Ret r1
              ∧ VObj row ∈ result_items r1)
       ∧ (Db.select_all (select options) = true →
          ∀ r2, snd (SupabaseAdapter.read table options other w1) = Ret r2 →
                VObj row ∉ result_items r2))
  ∧ (∀ r row,
       snd (MongoDBAdapter.create table record context w) = Ret r → data r = VObj row →
       let w1 := fst (MongoDBAdapter.create table record context w) in
       (∃ r1, snd (MongoDBAdapter.read table no_options context w1) = Ret r1
              ∧ VObj row ∈ result_items r1)
       ∧ ("tenant_id" ∉ map fst (filter_entries options) →
          ∀ r2, snd (MongoDBAdapter.read table options other w1) = Ret r2 →
                VObj row ∉ result_items r2)).
Proof.
  intros Hne. split_and!.
  - intros r row Hr Hrow w1.
    destruct (pg_create_world _ _ _ _ _ _ Hr Hrow) as (tb & Htb & Hw1 & Hk & Hown).
    split.
    + eexists. split.
      * apply (pg_read_plain table context w1 (mkTable (columns tb) (rows tb ++ [row]))); [|done].
        subst w1. rewrite Hw1. apply lookup_insert_eq.
      * apply In_rows_value, filter_In. split; [apply in_app_iff; right; by left|].
        by apply owned_matches.
    + intros _ r2 Hr2 Hin.
      destruct (pg_read_owned _ _ _ _ _ _ Hr2 Hin) as (row' & _ & Hown' & [= ->]).
      apply shown_owned in Hown. by apply (not_both_owners context other row').
  - intros tb r row Htb Hcols Hr Hrow w1.
    destruct (mysql_create_world _ _ _ _ _ _ _ Htb Hcols Hr Hrow) as (Hw1 & Hk & Hown).
    split.
    + eexists. split.
      * apply (mysql_read_plain table context w1 (mkTable (columns tb) (rows tb ++ [row])));
          [|done].
        subst w1. rewrite Hw1. apply lookup_insert_eq.
      * apply In_rows_value, filter_In. split; [apply in_app_iff; right; by left|].
        by apply owned_matches.
    + intros _ r2 Hr2 Hin.
      destruct (mysql_read_owned _ _ _ _ _ _ Hr2 Hin) as (row' & _ & Hown' & [= ->]).
      apply shown_owned in Hown. by apply (not_both_owners context other row').
  - intros r row Hr Hrow w1.
    destruct (supabase_create_world _ _ _ _ _ _ Hr Hrow) as (tb & Htb & Hw1 & Hk & Hown).
    split.
    + destruct (supabase_read_plain table context w1
                  (mkTable (columns tb) (rows tb ++ [row]))) as [c Hread]; [|done|].
      { subst w1. rewrite Hw1. apply lookup_insert_eq. }
      eexists. split; [exact Hread|].
      unfold result_items, rows_value. cbn. apply list_elem_of_In, in_map_iff.
      exists row. split; [done|]. apply filter_In.
      split; [apply in_app_iff; right; by left|]. by apply owned_matches.
    + intros _ r2 Hr2 Hin.
      destruct (supabase_read_owned _ _ _ _ _ _ Hr2 Hin) as (row' & _ & Hown' & [= ->]).
      apply shown_owned in Hown. by apply (not_both_owners context other row').
  - intros r row Hr Hrow w1.
    destruct (mongo_create_world _ _ _ _ _ _ Hr Hrow) as (tb & doc & Htb & Hw1 & Hown & ->).
    split.
    + eexists. split.
      * apply (mongo_read_plain table context w1 (mkTable (columns tb) (rows tb ++ [doc]))).
        subst w1. rewrite Hw1. apply lookup_insert_eq.
      * apply In_rows_value, in_map_iff. exists doc. split; [done|]. apply filter_In.
        split; [apply in_app_iff; right; by left|]. by apply owned_doc_matches.
    + intros Hfilter r2 Hr2 Hin.
      destruct (mongo_read_owned _ _ _ _ _ _ Hfilter Hr2 Hin) as (doc' & _ & Hown' & Heq).
      injection Heq as Heq.
      eapply (not_both_owners context other doc'); [done| |done].
      apply (shown_document_owned context (select options)). rewrite <- Heq.
      by apply convert_id_owned.
Qed.

Lemma created_record_is_read_back_witness :
  let w1 := fst (PostgreSQLAdapter.create "projects" acme ctx_A sql_world) in
  (tenant_id ctx_B ≠ tenant_id ctx_A ∧ Db.select_all (select no_options) = true)
  ∧ ∃ r row,
      snd (PostgreSQLAdapter.create "projects" acme ctx_A sql_world) = Ret r
      ∧ data r = VObj row
      ∧ (∃ r1, snd (PostgreSQLAdapter.read "projects" no_options ctx_A w1) = Ret r1
               ∧ VObj row ∈ result_items r1)
      ∧ ∃ r2, snd (PostgreSQLAdapter.read "projects" no_options ctx_B w1) = Ret r2
              ∧ VObj row ∉ result_items r2.
Proof.
  intros w1.
  assert (Hne : tenant_id ctx_B ≠ tenant_id ctx_A) by discriminate.
  split; [by split|].
  pose proof (created_record_is_read_back "projects" acme ctx_A ctx_B no_options sql_world Hne)
    as (Hpg & _).
  eexists _, _. split; [by vm_compute|]. split; [reflexivity|].
  edestruct Hpg as [Hback Hother]; [by vm_compute | reflexivity |].
  split; [exact Hback|].
  eexists. split; [by vm_compute|]. apply (Hother eq_refl). by vm_compute.
Defined.

(** *** Delete, then read *)

Lemma row_matches_swap (c1 c2 : string * Value) row :
  Db.row_matches [c1; c2] row = Db.row_matches [c2; c1] row.
Proof. unfold Db.row_matches. cbn. rewrite !andb_true_r. apply andb_comm. Qed.

Lemma filter_none {A} (f g : A → bool) l :
  (∀ x, f x = true → g x = true) →
  List.filter f (List.filter (fun x => negb (g x)) l) = [].
Proof.
  intros Hfg. induction l as [|x l IH]; [done|]. simpl.
  destruct (g x) eqn:Hg; simpl; [done|].
  destruct (f x) eqn:Hf; [|done]. apply Hfg in Hf. congruence.
Qed.

Lemma known_columns_nil tb cs :
  List.filter (fun c => negb (Db.known_column tb c)) cs = [] →
  ∀ rs, List.filter (fun c => negb (Db.known_column (mkTable (columns tb) rs) c)) cs = [].
Proof. done. Qed.

Lemma select_by_id t id context w tb :
  tables (w_db w) !! t = Some tb →
  List.filter (fun c => negb (Db.known_column tb c)) ["id"; "tenant_id"] = [] →
  DbQuery.select_query t None [tenant_cond context; ("id", VStr id)] None None None w
  = (ticked w,
     Ret (List.filter (Db.row_matches [tenant_cond context; ("id", VStr id)]) (rows tb))).
Proof.
  intros Htb Hk. open_db w.
  unfold DbQuery.select_query, bind, Db.tick, Db.get_table, modify. cbn.
  rewrite Htb. rewrite !check_columns_spec. cbn in *.
  destruct (Db.known_column tb "id"); [|done].
  destruct (Db.known_column tb "tenant_id"); [|done]. reflexivity.
Qed.

Lemma deleted_rows_gone t id context w r (delete_ : M DataResult) :
  (∀ w1 n, Db.delete_where t [("id", VStr id); tenant_cond context] w = (w1, Ret n) →
           snd (delete_ w) = Ret r → data r = VUndef → fst (delete_ w) = w1) →
  (∀ w1 e, Db.delete_where t [("id", VStr id); tenant_cond context] w = (w1, Throw e) →
           snd (delete_ w) = Ret r → data r = VUndef → False) →
  snd (delete_ w) = Ret r → data r = VUndef →
  DbQuery.select_query t None [tenant_cond context; ("id", VStr id)] None None None
    (fst (delete_ w))
  = (ticked (fst (delete_ w)), Ret []).
Proof.
  intros Hok Hfail Hr Hdata.
  pose proof (delete_where_spec t [("id", VStr id); tenant_cond context] w) as Hspec.
  destruct (tables (w_db w) !! t) as [tb|] eqn:Htb;
    [|exfalso; by eapply Hfail].
  destruct (List.filter _ (map fst _)) eqn:Hknown; [|exfalso; by eapply Hfail].
  rewrite (Hok _ _ Hspec Hr Hdata).
  rewrite (select_by_id t id context _
             (mkTable (columns tb)
                (List.filter (fun row => negb (Db.row_matches
                                                 [("id", VStr id); tenant_cond context] row))
                             (rows tb)))).
  - cbn [rows]. f_equal. f_equal. apply filter_none. intros row.
    by rewrite row_matches_swap.
  - unfold with_table. cbn. apply lookup_insert_eq.
  - exact Hknown.
Qed.

(** X12: a deleted record is gone for its tenant: after a [delete] that
    reported success, a [read] of the table filtered by that id under the
    same context returns no item and no error, over the PostgreSQL, MySQL
    and Supabase adapters. *)
Theorem deleted_record_is_not_read_back table id context w :
  (∀ r, snd (PostgreSQLAdapter.delete table id context w) = Ret r → data r = VUndef →
        snd (PostgreSQLAdapter.read table (DataManagerV3.id_filter id None) context
               (fst (PostgreSQLAdapter.delete table id context w)))
        = Ret (mkResult (VArr []) None None))
  ∧ (∀ r, snd (MySQLAdapter.delete table id context w) = Ret r → data r = VUndef →
          snd (MySQLAdapter.read table (DataManagerV3.id_filter id None) context
                 (fst (MySQLAdapter.delete table id context w)))
          = Ret (mkResult (VArr []) None None))
  ∧ (∀ r, snd (SupabaseAdapter.delete table id context w) = Ret r → data r = VUndef →
          snd (SupabaseAdapter.read table (DataManagerV3.id_filter id None) context
                 (fst (SupabaseAdapter.delete table id context w)))
          = Ret (mkResult (VArr []) (Some 0) None)).
Proof.
  split_and!.
  - intros r Hr Hdata.
    unfold PostgreSQLAdapter.read, try_catch, bind.
    change (filter_entries (DataManagerV3.id_filter id None)) with [("id", VStr id)].
    cbn [select order limit offset DataManagerV3.id_filter].
    rewrite (deleted_rows_gone table id context w r); [done| | |done|done].
    + intros w1 n Hdel. unfold PostgreSQLAdapter.delete, try_catch, bind. rewrite Hdel.
      by destruct (n =? 0).
    + intros w1 e Hdel. unfold PostgreSQLAdapter.delete, try_catch, bind, rethrow_DataError.
      rewrite Hdel. destruct (instanceof_DataError e); cbn; [done|].
      by intros [= <-].
  - intros r Hr Hdata.
    unfold MySQLAdapter.read, try_catch, bind.
    change (filter_entries (DataManagerV3.id_filter id None)) with [("id", VStr id)].
    cbn [select order limit offset DataManagerV3.id_filter].
    rewrite (deleted_rows_gone table id context w r); [done| | |done|done].
    + intros w1 n Hdel. unfold MySQLAdapter.delete, try_catch, bind. rewrite Hdel.
      by destruct (n =? 0).
    + intros w1 e Hdel. unfold MySQLAdapter.delete, try_catch, bind, rethrow_DataError.
      rewrite Hdel. destruct (instanceof_DataError e); cbn; [done|].
      by intros [= <-].
  - intros r Hr Hdata.
    unfold SupabaseAdapter.read, SupabaseAdapter.client, try_catch, bind.
    change (filter_entries (DataManagerV3.id_filter id None)) with [("id", VStr id)].
    cbn [select order limit offset DataManagerV3.id_filter].
    rewrite (deleted_rows_gone table id context w r); [done| | |done|done].
    + intros w1 n Hdel. unfold SupabaseAdapter.delete, SupabaseAdapter.client, try_catch,
        bind. by rewrite Hdel.
    + intros w1 e Hdel. unfold SupabaseAdapter.delete, SupabaseAdapter.client, try_catch,
        bind. rewrite Hdel. done.
Qed.

Lemma deleted_record_is_not_read_back_witness :
  ∃ r, snd (MySQLAdapter.delete "projects" "uuid-0" ctx_A two_projects_world) = Ret r
       ∧ data r = VUndef
       ∧ snd (MySQLAdapter.read "projects" (DataManagerV3.id_filter "uuid-0" None) ctx_A
                (fst (MySQLAdapter.delete "projects" "uuid-0" ctx_A two_projects_world)))
         = Ret (mkResult (VArr []) None None).
Proof.
  pose proof (deleted_record_is_not_read_back "projects" "uuid-0" ctx_A two_projects_world)
    as (_ & Hmysql & _).
  eexists. split; [by vm_compute|]. split; [reflexivity|].
  apply (Hmysql (result_data VUndef)); [by vm_compute|reflexivity].
Defined.

(** *** Update *)

Lemma matches_id id (c : string * Value) row :
  Db.row_matches [("id", VStr id); c] row = true → obj_get row "id" = Some (VStr id).
Proof.
  unfold Db.row_matches. cbn. intros [H _]%andb_prop.
  destruct (obj_get row "id") as [cell|]; [|done].
  by apply AdapterProofs.value_eqb_str in H as ->.
Qed.

Lemma updated_row t id context changes w w1 found row :
  Db.update_where t [("id", VStr id); tenant_cond context] changes w = (w1, Ret found) →
  In row found →
  ∃ old, old ∈ table_rows w t ∧ owned_by context old ∧ obj_get old "id" = Some (VStr id)
         ∧ row = obj_spread old changes
         ∧ row ∈ table_rows w1 t.
Proof.
  rewrite update_where_spec. unfold table_rows at 1.
  destruct (tables (w_db w) !! t) as [tb|] eqn:Htb; [|done].
  destruct (List.filter _ (_ ++ _)); [|done].
  intros [= <- <-] (old & <- & [Hold Hm]%filter_In)%in_map_iff.
  exists old. split_and!.
  - by apply list_elem_of_In.
  - eapply matches_owned; [|done]. apply tenant_cond_second.
  - by eapply matches_id.
  - done.
  - rewrite table_rows_with_table. cbn [rows]. apply list_elem_of_In, in_map_iff.
    exists old. split; [|done]. unfold Db.row_matches in Hm. cbn in Hm. by rewrite Hm.
Qed.

(** X13: what [update] returns, over the PostgreSQL and the Supabase
    adapter, is a row of the context's tenant with that id, overwritten
    field by field by the updates and by a fresh [updated_at], and this
    row is in the table afterwards; no field of the updates is left out,
    [id] and [tenant_id] included. *)
Theorem update_overwrites_the_stored_row table id updates context w :
  (∀ r row,
     snd (PostgreSQLAdapter.update table id updates context w) = Ret r →
     data r = VObj row →
     ∃ old, old ∈ table_rows w table ∧ owned_by context old
            ∧ obj_get old "id" = Some (VStr id)
            ∧ row = obj_spread old (obj_spread updates [("updated_at", VDate (w_clock w))])
            ∧ row ∈ table_rows (fst (PostgreSQLAdapter.update table id updates context w))
                               table)
  ∧ (∀ r row,
       snd (SupabaseAdapter.update table id updates context w) = Ret r →
       data r = VObj row →
       ∃ old, old ∈ table_rows w table ∧ owned_by context old
              ∧ obj_get old "id" = Some (VStr id)
              ∧ row = obj_spread old
                        (obj_spread updates [("updated_at", VStr (pretty (w_clock w)))])
              ∧ row ∈ table_rows (fst (SupabaseAdapter.update table id updates context w))
                                 table).
Proof.
  split.
  - intros r row. unfold PostgreSQLAdapter.update, try_catch, bind, new_Date.
    destruct (Db.update_where _ _ _ w) as [w1 [[|row0 found]|e]] eqn:Hupd; cbn.
    + done.
    + intros [= <-] [= <-]. by apply (updated_row _ _ _ _ _ _ _ row0 Hupd); left.
    + unfold rethrow_DataError. destruct (instanceof_DataError e); cbn; [done|].
      by intros [= <-].
  - intros r row. unfold SupabaseAdapter.update, SupabaseAdapter.client,
      SupabaseAdapter.single, try_catch, bind, Date_toISOString.
    destruct (Db.update_where _ _ _ w) as [w1 [[|row0 [|row1 found]]|e]] eqn:Hupd; cbn;
      try done.
    intros [= <-] [= <-]. by apply (updated_row _ _ _ _ _ _ _ row0 Hupd); left.
Qed.

Lemma update_overwrites_the_stored_row_witness :
  ∃ r row,
    snd (PostgreSQLAdapter.update "projects" "uuid-0" [("tenant_id", VStr "tenant-b")]
           ctx_A two_projects_world) = Ret r
    ∧ data r = VObj row
    ∧ owned_by ctx_B row
    ∧ ∃ old, old ∈ table_rows two_projects_world "projects" ∧ owned_by ctx_A old
             ∧ row = obj_spread old
                       (obj_spread [("tenant_id", VStr "tenant-b")]
                          [("updated_at", VDate (w_clock two_projects_world))]).
Proof.
  pose proof (update_overwrites_the_stored_row "projects" "uuid-0"
                [("tenant_id", VStr "tenant-b")] ctx_A two_projects_world) as [Hpg _].
  eexists _, _. split; [by vm_compute|]. split; [reflexivity|]. split; [by vm_compute|].
  edestruct Hpg as (old & Hold & Hown & _ & Heq & _); [by vm_compute|reflexivity|].
  exists old. by split_and!.
Defined.

(** *** The multi-row insert of [bulkCreate] *)

Lemma chunks_spec k c (l : list Value) :
  length l = (k * c)%nat →
  concat (chunks k c l) = l
  ∧ Forall (fun ch => length ch = c) (chunks k c l)
  ∧ length (chunks k c l) = k.
Proof.
  revert l. induction k as [|k IH]; intros l Hlen.
  - destruct l; [done|]. simpl in Hlen. lia.
  - simpl. destruct (IH (drop c l)) as (H1 & H2 & H3).
    { rewrite length_drop. simpl in Hlen. lia. }
    split_and!.
    + by rewrite H1, take_drop.
    + constructor; [|done]. rewrite length_take. simpl in Hlen. lia.
    + by rewrite H3.
Qed.

Lemma combine_fst {A B} (l : list A) (k : list B) :
  length l = length k → map fst (combine l k) = l.
Proof.
  revert k. induction l as [|x l IH]; intros [|y k] Hlen; simpl in *; try done.
  f_equal. apply IH. lia.
Qed.

Lemma combine_snd {A B} (l : list A) (k : list B) :
  length l = length k → map snd (combine l k) = k.
Proof.
  revert k. induction l as [|x l IH]; intros [|y k] Hlen; simpl in *; try done.
  f_equal. apply IH. lia.
Qed.

Lemma combine_fst_snd {A B} (r : list (A * B)) : combine (map fst r) (map snd r) = r.
Proof. induction r as [|[a b] r IH]; simpl; [done|]. by rewrite IH. Qed.

Lemma uniform_length (cols : list string) (records : list Obj) :
  Forall (fun record => map fst record = cols) records →
  length (flat_map (map snd) records) = (length records * length cols)%nat.
Proof.
  induction 1 as [|r rs Hr _ IH]; [done|].
  simpl. rewrite length_app, IH, length_map, <- Hr, length_map. done.
Qed.

Lemma uniform_chunks (cols : list string) (records : list Obj) :
  Forall (fun record => map fst record = cols) records →
  chunks (length records) (length cols) (flat_map (map snd) records)
  = map (map snd) records.
Proof.
  induction 1 as [|r rs Hr _ IH]; [done|].
  simpl.
  assert (Hlen : length cols = length (map snd r)) by (by rewrite <- Hr, !length_map).
  rewrite Hlen at 1 3. rewrite take_app_length, drop_app_length. by rewrite IH.
Qed.

Lemma uniform_combine (cols : list string) (records : list Obj) :
  Forall (fun record => map fst record = cols) records →
  map (fun r => combine cols (map snd r)) records = records.
Proof.
  induction 1 as [|r rs Hr _ IH]; [done|]. simpl. rewrite IH. f_equal.
  rewrite <- Hr. apply combine_fst_snd.
Qed.

Lemma positional_rows_spec records w new :
  snd (positional_rows records w) = Ret new →
  new = map (combine (map fst (default [] (head records))))
            (chunks (length records) (length (map fst (default [] (head records))))
                    (flat_map (map snd) records))
  ∧ length (flat_map (map snd) records)
    = (length records * length (map fst (default [] (head records))))%nat.
Proof.
  unfold positional_rows. destruct (bool_decide _) eqn:Hlen; [|done].
  apply bool_decide_eq_true in Hlen. by intros [= <-].
Qed.



(** *** Identifiers *)

Lemma read_escaped q name rest :
  not_starting_with q rest →
  read_delimited q (double_char q name +:+ String q rest) = Some (name, rest).
Proof.
  intros Hrest. induction name as [|c name IH].
  - change (double_char q "" +:+ String q rest) with (String q rest).
    cbn [read_delimited]. rewrite Ascii.eqb_refl. destruct rest as [|d rest]; [done|].
    cbn in Hrest. apply Ascii.eqb_neq in Hrest. by rewrite Hrest.
  - cbn [double_char]. destruct (Ascii.eqb c q) eqn:Hc.
    + apply Ascii.eqb_eq in Hc as ->.
      change (String q (String q (double_char q name)) +:+ String q rest)
        with (String q (String q (double_char q name +:+ String q rest))).
      cbn [read_delimited]. rewrite !Ascii.eqb_refl. by rewrite IH.
    + change (String c (double_char q name) +:+ String q rest)
        with (String c (double_char q name +:+ String q rest)).
      cbn [read_delimited]. rewrite Hc. by rewrite IH.
Qed.

(** X15: an identifier written into a statement through
    [escapeIdentifier] is read back by the SQL lexer as exactly that
    identifier, and the lexer goes on with the text that follows it: a
    quote inside a table or column name cannot end the identifier early.
    This holds for the PostgreSQL adapter (double quotes) and for the MySQL
    adapter (backticks); in particular both escapes are injective. *)
Theorem escaped_identifier_is_read_back name rest :
  name ≠ EmptyString →
  (not_starting_with double_quote rest →
   lex_identifier double_quote (PostgreSQLAdapter.escapeIdentifier name +:+ rest)
   = Some (name, rest))
  ∧ (not_starting_with backtick rest →
     lex_identifier backtick (mysql_quoted name +:+ rest) = Some (name, rest))
  ∧ (∀ other, PostgreSQLAdapter.escapeIdentifier name
              = PostgreSQLAdapter.escapeIdentifier other → name = other)
  ∧ (∀ other, MySQLAdapter.escapeIdentifier name = MySQLAdapter.escapeIdentifier other →
              name = other).
Proof.
  intros Hname.
  assert (Hpg : ∀ n r, not_starting_with double_quote r →
                       read_delimited double_quote
                         (double_char double_quote n +:+ String double_quote "" +:+ r)
                       = Some (n, r)).
  { intros n r Hr. by apply read_escaped. }
  assert (Hmy : ∀ n r, not_starting_with backtick r →
                       read_delimited backtick
                         (double_char backtick n +:+ String backtick "" +:+ r)
                       = Some (n, r)).
  { intros n r Hr. by apply read_escaped. }
  split_and!.
  - intros Hrest. unfold PostgreSQLAdapter.escapeIdentifier.
    rewrite !CacheProofs.app_assoc_str. cbn [String.append lex_identifier].
    change (String double_quote ?a +:+ ?b) with (String double_quote (a +:+ b)).
    cbn [lex_identifier]. rewrite Ascii.eqb_refl, (Hpg name rest Hrest).
    by destruct name.
  - intros Hrest. unfold mysql_quoted, MySQLAdapter.escapeIdentifier.
    rewrite !CacheProofs.app_assoc_str.
    change (String backtick ?a +:+ ?b) with (String backtick (a +:+ b)).
    cbn [lex_identifier]. rewrite Ascii.eqb_refl, (Hmy name rest Hrest).
    by destruct name.
  - intros other Heq. unfold PostgreSQLAdapter.escapeIdentifier in Heq.
    injection Heq as Heq.
    pose proof (Hpg name "" I) as H1. pose proof (Hpg other "" I) as H2.
    change (String double_quote "" +:+ "") with (String double_quote "") in H1, H2.
    rewrite Heq in H1. congruence.
  - intros other Heq. unfold MySQLAdapter.escapeIdentifier in Heq.
    pose proof (Hmy name "" I) as H1. pose proof (Hmy other "" I) as H2.
    rewrite Heq in H1. congruence.
Qed.

Lemma escaped_identifier_is_read_back_witness :
  let name := String "a" (String double_quote "; DROP TABLE users; --") in
  let rest := " WHERE tenant_id = $1" in
  (name ≠ EmptyString ∧ not_starting_with double_quote rest)
  ∧ lex_identifier double_quote (PostgreSQLAdapter.escapeIdentifier name +:+ rest)
    = Some (name, rest).
Proof.
  assert (Hname : String "a" (String double_quote "; DROP TABLE users; --") ≠ EmptyString)
    by discriminate.
  assert (Hrest : not_starting_with double_quote " WHERE tenant_id = $1")
    by (cbn; discriminate).
  split; [by split|].
  by apply (escaped_identifier_is_read_back
              (String "a" (String double_quote "; DROP TABLE users; --"))
              " WHERE tenant_id = $1" Hname).
Defined.

(** *** Reads, by the conditions they send *)

Lemma matches_field conds row k s :
  (k, VStr s) ∈ conds → Db.row_matches conds row = true → obj_get row k = Some (VStr s).
Proof.
  intros Hin Hm. unfold Db.row_matches in Hm. rewrite forallb_forall in Hm.
  specialize (Hm _ (proj1 (list_elem_of_In _ _) Hin)). cbn in Hm.
  destruct (obj_get row k) as [cell|]; [|done].
  by apply AdapterProofs.value_eqb_str in Hm as ->.
Qed.

Lemma selected_rows_match t sel conds ord lim off w w' found item :
  DbQuery.select_query t sel conds ord lim off w = (w', Ret found) →
  In item found →
  ∃ row, row ∈ table_rows w t ∧ Db.row_matches conds row = true ∧ item = shown sel row.
Proof.
  intros Hq Hitem. apply select_query_spec in Hq as (_ & tb & Htb & ->).
  apply in_map_iff in Hitem as (row & <- & Hrow).
  apply In_paginate, In_order_rows, filter_In in Hrow as [Hrow Hm].
  exists row. split_and!; [|done|done].
  unfold table_rows. rewrite Htb. by apply list_elem_of_In.
Qed.

Lemma pg_read_matches table options context w r item :
  snd (PostgreSQLAdapter.read table options context w) = Ret r →
  item ∈ result_items r →
  ∃ row, row ∈ table_rows w table
         ∧ Db.row_matches (tenant_cond context :: filter_entries options) row = true
         ∧ item = VObj (shown (select options) row).
Proof.
  intros Hr Hitem. unfold PostgreSQLAdapter.read in Hr.
  destruct (read_shape _ _ _ _ _ Hr Hitem) as (w' & found & row & Hq & Hrow & ->).
  destruct (selected_rows_match _ _ _ _ _ _ _ _ _ row Hq Hrow) as (stored & ? & ? & ->).
  by exists stored.
Qed.

Lemma mysql_read_matches table options context w r item :
  snd (MySQLAdapter.read table options context w) = Ret r →
  item ∈ result_items r →
  ∃ row, row ∈ table_rows w table
         ∧ Db.row_matches (tenant_cond context :: filter_entries options) row = true
         ∧ item = VObj (shown (select options) row).
Proof.
  intros Hr Hitem. unfold MySQLAdapter.read in Hr.
  destruct (read_shape _ _ _ _ _ Hr Hitem) as (w' & found & row & Hq & Hrow & ->).
  destruct (selected_rows_match _ _ _ _ _ _ _ _ _ row Hq Hrow) as (stored & ? & ? & ->).
  by exists stored.
Qed.

Lemma supabase_read_matches table options context w r item :
  snd (SupabaseAdapter.read table options context w) = Ret r →
  item ∈ result_items r →
  ∃ row, row ∈ table_rows w table
         ∧ Db.row_matches (tenant_cond context :: filter_entries options) row = true
         ∧ item = VObj (shown (select options) row).
Proof.
  unfold SupabaseAdapter.read, SupabaseAdapter.client, try_catch, bind, ret, throw.
  destruct (DbQuery.select_query _ _ _ _ _ _ w) as [w1 [found|e]] eqn:Hq; cbn; [|done].
  intros [= <-] (row & Hrow%In_page & ->)%rows_value_items.
  destruct (selected_rows_match _ _ _ _ _ _ _ _ _ row Hq Hrow) as (stored & ? & ? & ->).
  by exists stored.
Qed.

Lemma select_id_only t id context w tb :
  tables (w_db w) !! t = Some tb →
  Db.known_column tb "id" = true → Db.known_column tb "tenant_id" = true →
  DbQuery.select_query t (Some "id") [tenant_cond context; ("id", VStr id)] None None None w
  = (ticked w,
     Ret (map (Db.project_row ["id"])
              (List.filter (Db.row_matches [tenant_cond context; ("id", VStr id)]) (rows tb)))).
Proof.
  intros Htb Hid Hten. open_db w.
  unfold DbQuery.select_query, bind, Db.tick, Db.get_table, modify. cbn.
  rewrite Htb. repeat (rewrite check_columns_spec; cbn; rewrite ?Hid, ?Hten; cbn).
  reflexivity.
Qed.

Lemma own_row_matches context id row :
  own_row context id row →
  Db.row_matches [tenant_cond context; ("id", VStr id)] row = true.
Proof.
  intros [Hown Hid]. unfold owned_by in Hown. unfold Db.row_matches. cbn.
  rewrite Hown, Hid. cbn. by rewrite !String.eqb_refl.
Qed.

Lemma mongo_read_matches table options context w r item :
  snd (MongoDBAdapter.read table options context w) = Ret r →
  item ∈ result_items r →
  ∃ doc, doc ∈ table_rows w table
         ∧ Db.doc_matches (obj_spread [tenant_cond context] (filter_entries options)) doc
           = true.
Proof.
  unfold MongoDBAdapter.read. intros Hr Hitem.
  destruct (read_shape_map MongoDBAdapter.convert_id _ _ _ _ _ Hr Hitem)
    as (w' & documents & shown_doc & Hq & Hdoc & ->).
  apply aggregate_spec in Hq as (_ & tb & Htb & ->).
  apply in_map_iff in Hdoc as (doc & <- & Hdoc).
  apply In_paginate, In_order_rows, filter_In in Hdoc as [Hdoc Hm].
  exists doc. split; [|done].
  unfold table_rows. rewrite Htb. by apply list_elem_of_In.
Qed.

Lemma catch_return_error_returns (m : M DataResult) w :
  ∃ w' r, try_catch m return_error w = (w', Ret r).
Proof.
  unfold try_catch, return_error, ret. destruct (m w) as [w1 [r|e]]; by eexists _, _.
Qed.

Lemma mongo_create_rows table record context w :
  table_rows (fst (MongoDBAdapter.create table record context w)) table = table_rows w table
  ∨ ∃ id created_at updated_at,
      table_rows (fst (MongoDBAdapter.create table record context w)) table
      = table_rows w table
        ++ [obj_spread (obj_spread [("_id", id)] record)
              [tenant_cond context; ("created_at", created_at); ("updated_at", updated_at)]].
Proof.
  unfold MongoDBAdapter.create, MongoDBAdapter.new_document, try_catch, bind, uuidv4,
    new_Date, ret.
  set (doc := obj_spread (obj_spread _ record) _).
  rewrite insertMany_spec. unfold table_rows at 2 4.
  change (tables (w_db (set_rng (S (w_rng w)) w))) with (tables (w_db w)).
  destruct (tables (w_db w) !! table) as [tb|] eqn:Htb.
  - cbn [Db.insert_ordered]. destruct (Db.key_taken _ _ _); cbn [fst snd].
    + left. unfold rethrow_DataError. cbn. by rewrite table_rows_with_table.
    + right. exists (VStr ("uuid-" +:+ pretty (w_rng w))), (VDate (w_clock w)),
        (VDate (w_clock w)). by rewrite table_rows_with_table.
  - left. unfold rethrow_DataError. cbn. unfold table_rows. cbn. by rewrite Htb.
Qed.

End AdapterLaws.

(** * Further properties of the data access facade *)

Module FacadeLaws.
Import AdapterLaws.

(** *** Access checks *)

Lemma access_answers adapter table id context w :
  ∃ b, snd (DataManagerV2.hasResourceAccess adapter table id context w) = Ret b.
Proof.
  unfold DataManagerV2.hasResourceAccess, try_catch, bind, ret.
  destruct (IDatabaseAdapter.read adapter _ _ _ w) as [w1 [r|e]]; by eexists.
Qed.

Lemma access_granted adapter table id context w :
  snd (DataManagerV2.hasResourceAccess adapter table id context w) = Ret true →
  ∃ r item,
    snd (IDatabaseAdapter.read adapter table
           (mkOptions (Some "id") (Some [("id", VStr id)]) None None None) context w) = Ret r
    ∧ item ∈ result_items r.
Proof.
  unfold DataManagerV2.hasResourceAccess, try_catch, bind, ret.
  destruct (IDatabaseAdapter.read adapter _ _ _ w) as [w1 [r|e]]; cbn; [|done].
  destruct (data r) as [| | | | |[|item items]| |] eqn:Hd; try done.
  intros _. exists r, item. split; [done|]. unfold result_items. rewrite Hd. left.
Qed.

Lemma access_of_items adapter table id context w r item items :
  snd (IDatabaseAdapter.read adapter table
         (mkOptions (Some "id") (Some [("id", VStr id)]) None None None) context w) = Ret r →
  data r = VArr (item :: items) →
  snd (DataManagerV2.hasResourceAccess adapter table id context w) = Ret true.
Proof.
  unfold DataManagerV2.hasResourceAccess, try_catch, bind, ret.
  destruct (IDatabaseAdapter.read adapter _ _ _ w) as [w1 [r1|e]]; cbn; [|done].
  by intros [= ->] ->.
Qed.

Lemma matched_is_own context id row :
  Db.row_matches [tenant_cond context; ("id", VStr id)] row = true → own_row context id row.
Proof.
  intros Hm. split.
  - eapply matches_owned; [|done]. left.
  - eapply matches_field; [|done]. right. left.
Qed.

(** X16: [hasResourceAccess] over the PostgreSQL, MySQL and Supabase
    adapters always answers, and grants access for rows of the context's
    tenant only: a yes means that the table holds a row with that id
    carrying the context's tenant id, and such a row (in a table with the
    columns [id] and [tenant_id]) gets a yes.  A row of another tenant
    with the same id is not enough. *)
Theorem access_is_granted_for_own_rows_only table id context w :
  grants_own_rows_only
    (DataManagerV2.hasResourceAccess PostgreSQLAdapter.adapter table id context)
    table id context w
  ∧ grants_own_rows_only
      (DataManagerV2.hasResourceAccess MySQLAdapter.adapter table id context)
      table id context w
  ∧ grants_own_rows_only
      (DataManagerV2.hasResourceAccess SupabaseAdapter.adapter table id context)
      table id context w.
Proof.
  split_and!; (split; [apply access_answers|split]).
  - intros (r & item & Hr & Hitem)%access_granted.
    destruct (pg_read_matches _ _ _ _ _ _ Hr Hitem) as (row & Hrow & Hm & _).
    exists row. split; [done|]. by apply matched_is_own.
  - intros tb row Htb Hid Hten Hrow Hown.
    pose proof (own_row_matches _ _ _ Hown) as Hm.
    assert (Hin : In row (List.filter (Db.row_matches [tenant_cond context; ("id", VStr id)])
                                      (rows tb)))
      by (apply filter_In; split; [by apply list_elem_of_In|done]).
    destruct (List.filter _ (rows tb)) as [|row0 found] eqn:Hfound; [done|].
    eapply (access_of_items PostgreSQLAdapter.adapter).
    + cbn [IDatabaseAdapter.read PostgreSQLAdapter.adapter].
      unfold PostgreSQLAdapter.read, try_catch, bind.
      change (filter_entries _) with [("id", VStr id)].
      cbn [select order limit offset].
      rewrite (select_id_only table id context w tb Htb Hid Hten), Hfound. reflexivity.
    + reflexivity.
  - intros (r & item & Hr & Hitem)%access_granted.
    destruct (mysql_read_matches _ _ _ _ _ _ Hr Hitem) as (row & Hrow & Hm & _).
    exists row. split; [done|]. by apply matched_is_own.
  - intros tb row Htb Hid Hten Hrow Hown.
    pose proof (own_row_matches _ _ _ Hown) as Hm.
    assert (Hin : In row (List.filter (Db.row_matches [tenant_cond context; ("id", VStr id)])
                                      (rows tb)))
      by (apply filter_In; split; [by apply list_elem_of_In|done]).
    destruct (List.filter _ (rows tb)) as [|row0 found] eqn:Hfound; [done|].
    eapply (access_of_items MySQLAdapter.adapter).
    + cbn [IDatabaseAdapter.read MySQLAdapter.adapter].
      unfold MySQLAdapter.read, try_catch, bind.
      change (filter_entries _) with [("id", VStr id)].
      cbn [select order limit offset].
      rewrite (select_id_only table id context w tb Htb Hid Hten), Hfound. reflexivity.
    + reflexivity.
  - intros (r & item & Hr & Hitem)%access_granted.
    destruct (supabase_read_matches _ _ _ _ _ _ Hr Hitem) as (row & Hrow & Hm & _).
    exists row. split; [done|]. by apply matched_is_own.
  - intros tb row Htb Hid Hten Hrow Hown.
    pose proof (own_row_matches _ _ _ Hown) as Hm.
    assert (Hin : In row (List.filter (Db.row_matches [tenant_cond context; ("id", VStr id)])
                                      (rows tb)))
      by (apply filter_In; split; [by apply list_elem_of_In|done]).
    destruct (List.filter _ (rows tb)) as [|row0 found] eqn:Hfound; [done|].
    eapply (access_of_items SupabaseAdapter.adapter).
    + cbn [IDatabaseAdapter.read SupabaseAdapter.adapter].
      unfold SupabaseAdapter.read, SupabaseAdapter.client, try_catch, bind.
      change (filter_entries _) with [("id", VStr id)].
      cbn [select order limit offset].
      rewrite (select_id_only table id context w tb Htb Hid Hten), Hfound. reflexivity.
    + reflexivity.
Qed.

Lemma access_is_granted_for_own_rows_only_witness :
  snd (DataManagerV2.hasResourceAccess PostgreSQLAdapter.adapter "projects" "uuid-0"
         ctx_B sql_world_B) = Ret true
  ∧ snd (DataManagerV2.hasResourceAccess PostgreSQLAdapter.adapter "projects" "uuid-0"
           ctx_A sql_world_B) = Ret false
  ∧ ∃ row, row ∈ table_rows sql_world_B "projects" ∧ own_row ctx_B "uuid-0" row.
Proof.
  pose proof (access_is_granted_for_own_rows_only "projects" "uuid-0" ctx_B sql_world_B)
    as ((_ & Hsound & _) & _).
  split; [by vm_compute|]. split; [by vm_compute|].
  apply Hsound. by vm_compute.
Defined.

(** *** Documents and the [id] filter *)

Lemma no_id_no_match context id doc :
  obj_get doc "id" = None →
  Db.doc_matches (obj_spread [tenant_cond context] [("id", VStr id)]) doc = false.
Proof.
  intros Hid. unfold Db.doc_matches. cbn. rewrite Hid. cbn. apply andb_false_r.
Qed.

Lemma mongo_read_by_id_empty table id lim context w r :
  no_id_field w table →
  snd (MongoDBAdapter.read table (DataManagerV3.id_filter id lim) context w) = Ret r →
  result_items r = [].
Proof.
  intros Hno Hr. destruct (result_items r) as [|item items] eqn:Hitems; [done|].
  exfalso.
  destruct (mongo_read_matches _ _ _ _ _ item Hr) as (doc & Hdoc & Hm).
  { rewrite Hitems. left. }
  change (filter_entries (DataManagerV3.id_filter id lim)) with [("id", VStr id)] in Hm.
  unfold no_id_field in Hno. rewrite Forall_forall in Hno.
  rewrite (no_id_no_match context id doc) in Hm; [done|].
  by apply Hno.
Qed.

Lemma mongo_access_denied table id context w :
  no_id_field w table →
  snd (DataManagerV2.hasResourceAccess MongoDBAdapter.adapter table id context w)
  = Ret false.
Proof.
  intros Hno. destruct (access_answers MongoDBAdapter.adapter table id context w)
    as [[] Hb]; [|done].
  exfalso. apply access_granted in Hb as (r & item & Hr & Hitem).
  cbn [IDatabaseAdapter.read MongoDBAdapter.adapter] in Hr.
  destruct (mongo_read_matches _ _ _ _ _ item Hr Hitem) as (doc & Hdoc & Hm).
  change (filter_entries _) with [("id", VStr id)] in Hm.
  unfold no_id_field in Hno. rewrite Forall_forall in Hno.
  rewrite (no_id_no_match context id doc) in Hm; [done|].
  by apply Hno.
Qed.

(** X17: the MongoDB adapter stores the identifier of a document as
    [_id], and a filter on [id] does not find it: in a collection whose
    documents have no field [id], which [create] keeps so for payloads
    without one, every [read] filtered by [id] returns no item, so
    [hasResourceAccess] answers false and [getById] (without a cache)
    answers [null] for every id. *)
Theorem documents_are_not_found_by_id table context w :
  no_id_field w table →
  (∀ record, "id" ∉ map fst record →
             no_id_field (fst (MongoDBAdapter.create table record context w)) table)
  ∧ (∀ id lim r,
       snd (MongoDBAdapter.read table (DataManagerV3.id_filter id lim) context w) = Ret r →
       result_items r = [])
  ∧ (∀ id, snd (DataManagerV2.hasResourceAccess MongoDBAdapter.adapter table id context w)
           = Ret false)
  ∧ (∀ id use ttl,
       snd (DataManagerV3.getById MongoDBAdapter.adapter None None table id context use ttl w)
       = Ret (result_data VNull)).
Proof.
  intros Hno. split_and!.
  - intros record Hrecord. unfold no_id_field.
    destruct (mongo_create_rows table record context w) as [->|(i & c & u & ->)]; [done|].
    apply Forall_app. split; [done|]. constructor; [|done].
    rewrite !obj_get_spread. cbn. rewrite obj_get_None; [done|].
    rewrite map_rev. intros Hin%list_elem_of_In%in_rev. by apply Hrecord, list_elem_of_In.
  - intros id lim r. by apply mongo_read_by_id_empty.
  - intros id. by apply mongo_access_denied.
  - intros id use ttl.
    assert (Hret : ∃ w1 r, MongoDBAdapter.read table (DataManagerV3.id_filter id (Some 1))
                             context w = (w1, Ret r))
      by (unfold MongoDBAdapter.read; apply catch_return_error_returns).
    destruct Hret as (w1 & r & Hread).
    pose proof (mongo_read_by_id_empty table id (Some 1) context w r Hno) as Hempty.
    rewrite Hread in Hempty. specialize (Hempty eq_refl).
    unfold DataManagerV3.getById, DataManagerV3.getById_from_database,
      DataManagerV3.with_analytics, try_catch, bind, Date_now, ret.
    cbn [IDatabaseAdapter.read MongoDBAdapter.adapter]. rewrite Hread.
    unfold result_items in Hempty. unfold DataManagerV3.first_item.
    destruct (data r) as [| | | | |[|item items]| |]; cbn; done.
Qed.



Lemma documents_are_not_found_by_id_witness :
  no_id_field mongo_world_B "projects"
  ∧ snd (MongoDBAdapter.create "projects" acme ctx_B mongo_world)
    = Ret (result_data (VObj [("name", VStr "Acme"); ("tenant_id", VStr "tenant-b");
                              ("created_at", VDate 0); ("updated_at", VDate 0);
                              ("id", VStr "uuid-0")]))
  ∧ snd (DataManagerV3.getById MongoDBAdapter.adapter None None "projects" "uuid-0" ctx_B
           None None mongo_world_B)
    = Ret (result_data VNull).
Proof.
  assert (Hno : no_id_field mongo_world_B "projects").
  { unfold no_id_field. vm_compute. by repeat constructor. }
  split; [exact Hno|]. split; [by vm_compute|].
  apply (documents_are_not_found_by_id "projects" ctx_B mongo_world_B Hno).
Defined.

(** *** The facade when Redis is unreachable *)

Lemma redis_get_down cfg key context w :
  redis_up (w_redis w) = false →
  RedisCacheAdapter.get cfg key context w
  = (w, Throw (SDKError "Failed to get cache value" ErrorCodes.DATABASE_ERROR 500)).
Proof.
  intros Hup. unfold RedisCacheAdapter.get, try_catch, bind, RedisCacheAdapter.redis_get,
    RedisCacheAdapter.redis_cmd. by rewrite Hup.
Qed.

Lemma redis_set_down cfg key v context ttl w :
  redis_up (w_redis w) = false →
  RedisCacheAdapter.set cfg key v context ttl w
  = (w, Throw (SDKError "Failed to set cache value" ErrorCodes.DATABASE_ERROR 500)).
Proof.
  intros Hup. unfold RedisCacheAdapter.set, try_catch, bind, RedisCacheAdapter.redis_setex,
    RedisCacheAdapter.redis_cmd. by rewrite Hup.
Qed.

Lemma redis_delete_down cfg key context w :
  redis_up (w_redis w) = false →
  RedisCacheAdapter.delete cfg key context w
  = (w, Throw (SDKError "Failed to delete cache value" ErrorCodes.DATABASE_ERROR 500)).
Proof.
  intros Hup. unfold RedisCacheAdapter.delete, try_catch, bind, RedisCacheAdapter.redis_del,
    RedisCacheAdapter.redis_cmd. by rewrite Hup.
Qed.

(** X23: when Redis is unreachable, a read through the facade that may
    use the cache fails before the database is asked: [read] (without an
    analytics engine) and [getById] answer with the error result
    [Failed to get cache value] and leave everything as it was, whatever
    the database adapter would have answered. *)
Theorem cached_reads_fail_when_redis_is_down adapter analytics cfg table id options context
    cacheOptions ttl w :
  redis_up (w_redis w) = false →
  DataManagerV3.cache_wanted (DataManagerV3.useCache cacheOptions) = true →
  DataManagerV3.read adapter (Some (redis_provider cfg)) None table options context
    cacheOptions w
  = (w, Ret (result_error "Failed to get cache value"))
  ∧ DataManagerV3.getById adapter (Some (redis_provider cfg)) analytics table id context
      (DataManagerV3.useCache cacheOptions) ttl w
    = (w, Ret (result_error "Failed to get cache value")).
Proof.
  intros Hup Hwanted. split.
  - unfold DataManagerV3.read, bind at 1, try_catch. cbn [Date_now]. rewrite Hwanted.
    unfold bind at 1. cbn [ICacheProvider.get redis_provider].
    by rewrite (redis_get_down cfg _ context w Hup).
  - unfold DataManagerV3.getById, bind at 1, try_catch. cbn [Date_now]. rewrite Hwanted.
    unfold bind at 1. cbn [ICacheProvider.get redis_provider].
    by rewrite (redis_get_down cfg _ context w Hup).
Qed.

Lemma cached_reads_fail_when_redis_is_down_witness :
  (redis_up (w_redis (redis_down two_projects_world)) = false
   ∧ DataManagerV3.cache_wanted (DataManagerV3.useCache DataManagerV3.no_cache_options)
     = true)
  ∧ snd (cached_read first_page DataManagerV3.no_cache_options
           (redis_down two_projects_world))
    = Ret (result_error "Failed to get cache value").
Proof.
  split; [by split|].
  destruct (cached_reads_fail_when_redis_is_down PostgreSQLAdapter.adapter None
              (RedisCacheAdapter.mkConfig None None) "projects" "uuid-0" first_page ctx_A
              DataManagerV3.no_cache_options None (redis_down two_projects_world))
    as [Hread _]; [reflexivity..|].
  unfold cached_read, default_redis. by rewrite Hread.
Defined.

(** X24: when Redis is unreachable, a write through the facade (without
    an analytics engine) that the database has carried out is reported as
    failed: once the adapter's [create], [update] or [delete] has
    returned its record, the cache write throws, and the facade answers
    with the error result [Failed to set cache value] (for [delete]:
    [Failed to delete cache value]) in the world the adapter left, with
    the row written, and without an audit log entry or an event. *)
Theorem writes_are_reported_failed_when_redis_is_down adapter events cfg table id d updates
    context w :
  (∀ w1 result options,
     IDatabaseAdapter.create adapter table d context w = (w1, Ret result) →
     truthy (data result) = true →
     DataManagerV3.create_skipCache options = false →
     redis_up (w_redis w1) = false →
     DataManagerV3.create adapter events (Some (redis_provider cfg)) None table d context
       options w
     = (w1, Ret (result_error "Failed to set cache value")))
  ∧ (∀ w1 existing w2 result options,
       IDatabaseAdapter.read adapter table (DataManagerV3.id_filter id None) context w
       = (w1, Ret existing) →
       IDatabaseAdapter.update adapter table id updates context w1 = (w2, Ret result) →
       truthy (data result) = true →
       DataManagerV3.update_skipCache options = false →
       redis_up (w_redis w2) = false →
       DataManagerV3.update adapter events (Some (redis_provider cfg)) None table id updates
         context options w
       = (w2, Ret (result_error "Failed to set cache value")))
  ∧ (∀ w1 existing w2 result options,
       IDatabaseAdapter.read adapter table (DataManagerV3.id_filter id None) context w
       = (w1, Ret existing) →
       IDatabaseAdapter.delete adapter table id context w1 = (w2, Ret result) →
       data result = VUndef →
       redis_up (w_redis w2) = false →
       DataManagerV3.delete adapter events (Some (redis_provider cfg)) None table id context
         options w
       = (w2, Ret (result_error "Failed to delete cache value"))).
Proof.
  split_and!.
  - intros w1 result options Hcreate Hdata Hskip Hup.
    unfold DataManagerV3.create, bind at 1, try_catch. cbn [Date_now].
    unfold bind at 1. rewrite Hcreate, Hdata. unfold bind at 1 2. rewrite Hskip.
    cbn [negb when ICacheProvider.set redis_provider].
    by rewrite (redis_set_down cfg _ _ context _ w1 Hup).
  - intros w1 existing w2 result options Hread Hupdate Hdata Hskip Hup.
    unfold DataManagerV3.update, bind at 1, try_catch. cbn [Date_now].
    unfold bind at 1. rewrite Hread. unfold bind at 1. rewrite Hupdate, Hdata.
    unfold bind at 1 2. rewrite Hskip.
    cbn [negb when ICacheProvider.set redis_provider]. unfold bind at 1.
    by rewrite (redis_set_down cfg _ _ context _ w2 Hup).
  - intros w1 existing w2 result options Hread Hdelete Hdata Hup.
    unfold DataManagerV3.delete, bind at 1, try_catch. cbn [Date_now].
    unfold bind at 1. rewrite Hread. unfold bind at 1. rewrite Hdelete, Hdata.
    unfold bind at 1 2 3. cbn [ICacheProvider.delete redis_provider].
    by rewrite (redis_delete_down cfg _ context w2 Hup).
Qed.

Lemma writes_are_reported_failed_when_redis_is_down_witness :
  let w := redis_down sql_world in
  let w1 := fst (PostgreSQLAdapter.create "projects" acme ctx_A w) in
  (∃ result, IDatabaseAdapter.create PostgreSQLAdapter.adapter "projects" acme ctx_A w
             = (w1, Ret result)
             ∧ truthy (data result) = true)
  ∧ redis_up (w_redis w1) = false
  ∧ length (table_rows w1 "projects") = 1%nat
  ∧ DataManagerV3.create PostgreSQLAdapter.adapter None (Some default_redis) None "projects"
      acme ctx_A DataManagerV3.no_create_options w
    = (w1, Ret (result_error "Failed to set cache value")).
Proof.
  set (w := redis_down sql_world).
  set (w1 := fst (PostgreSQLAdapter.create "projects" acme ctx_A w)).
  assert (Hcreate : ∃ result,
             IDatabaseAdapter.create PostgreSQLAdapter.adapter "projects" acme ctx_A w
             = (w1, Ret result) ∧ truthy (data result) = true)
    by (eexists; split; by vm_compute).
  split; [exact Hcreate|]. split; [by vm_compute|]. split; [by vm_compute|].
  destruct Hcreate as (result & Hcreate & Hdata).
  destruct (writes_are_reported_failed_when_redis_is_down PostgreSQLAdapter.adapter None
              (RedisCacheAdapter.mkConfig None None) "projects" "uuid-0" acme [] ctx_A w)
    as (Hc & _).
  apply (Hc w1 result DataManagerV3.no_create_options Hcreate Hdata); by vm_compute.
Defined.

(** *** Batches of a bulk creation *)

Lemma batches_of_spec size :
  (0 < size)%nat →
  ∀ fuel records,
    (length records ≤ fuel)%nat →
    concat (batches_of fuel size records) = records
    ∧ Forall (fun batch => (0 < length batch ≤ size)%nat) (batches_of fuel size records).
Proof.
  intros Hsize. induction fuel as [|fuel IH]; intros records Hfuel.
  - destruct records; [done|cbn in Hfuel; lia].
  - destruct records as [|r records]; [done|].
    cbn [batches_of concat].
    destruct (IH (drop size (r :: records))) as [Hcat Hall].
    { rewrite length_drop. cbn [length] in *. lia. }
    split.
    + by rewrite Hcat, take_drop.
    + apply Forall_cons. split; [|done].
      rewrite length_take. cbn [length]. lia.
Qed.



(** *** Audit logs *)

Lemma rethrow_items (m : M DataResult) w r item :
  snd (try_catch m rethrow_DataError w) = Ret r →
  item ∈ result_items r →
  snd (m w) = Ret r.
Proof.
  unfold try_catch, rethrow_DataError, throw, ret.
  destruct (m w) as [w1 [r1|e]]; cbn; [done|].
  destruct (instanceof_DataError e); [done|].
  cbn. intros [= <-] H. by apply elem_of_nil in H.
Qed.

(** X26: [getAuditLogs] shows a tenant its own audit trail only: over
    each of the four adapters, every entry of the answer is a row of the
    [audit_logs] table that carries the context's tenant id, whatever
    resource type, resource id, user id, limit and offset are asked
    for. *)
Theorem audit_logs_are_the_tenants_own context resource_type resource_id user_id limit offset
    w :
  (∀ r item,
     snd (DataManagerV2.getAuditLogs PostgreSQLAdapter.adapter context resource_type
            resource_id user_id limit offset w) = Ret r →
     item ∈ result_items r →
     ∃ row, row ∈ table_rows w "audit_logs" ∧ owned_by context row ∧ item = VObj row)
  ∧ (∀ r item,
       snd (DataManagerV2.getAuditLogs MySQLAdapter.adapter context resource_type
              resource_id user_id limit offset w) = Ret r →
       item ∈ result_items r →
       ∃ row, row ∈ table_rows w "audit_logs" ∧ owned_by context row ∧ item = VObj row)
  ∧ (∀ r item,
       snd (DataManagerV2.getAuditLogs SupabaseAdapter.adapter context resource_type
              resource_id user_id limit offset w) = Ret r →
       item ∈ result_items r →
       ∃ row, row ∈ table_rows w "audit_logs" ∧ owned_by context row ∧ item = VObj row)
  ∧ (∀ r item,
       snd (DataManagerV2.getAuditLogs MongoDBAdapter.adapter context resource_type
              resource_id user_id limit offset w) = Ret r →
       item ∈ result_items r →
       ∃ doc, doc ∈ table_rows w "audit_logs" ∧ owned_by context doc
              ∧ item = VObj (MongoDBAdapter.convert_id doc)).
Proof.
  split_and!; intros r item Hr Hitem; unfold DataManagerV2.getAuditLogs in Hr;
    apply (rethrow_items _ _ _ item) in Hr; try done.
  - by apply (pg_read_owned _ _ _ _ _ _ Hr Hitem).
  - by apply (mysql_read_owned _ _ _ _ _ _ Hr Hitem).
  - by apply (supabase_read_owned _ _ _ _ _ _ Hr Hitem).
  - refine (mongo_read_owned _ _ _ _ _ _ _ Hr Hitem).
    cbn [filter_entries filter default from_option id].
    destruct resource_type as [a|], resource_id as [b|], user_id as [c|];
      repeat match goal with
             | |- context [String.eqb ?s ""] => destruct (String.eqb s "")
             end;
      cbn; intros Hin;
      repeat (apply elem_of_cons in Hin as [Hin|Hin]; [discriminate|]);
      by apply elem_of_nil in Hin.
Qed.

Lemma audit_logs_are_the_tenants_own_witness :
  ∃ r item,
    snd (DataManagerV2.getAuditLogs MySQLAdapter.adapter ctx_A (Some "projects") None None
           None None audit_world) = Ret r
    ∧ item ∈ result_items r
    ∧ ∃ row, row ∈ table_rows audit_world "audit_logs" ∧ owned_by ctx_A row
             ∧ item = VObj row.
Proof.
  pose proof (audit_logs_are_the_tenants_own ctx_A (Some "projects") None None None None
                audit_world) as (_ & Hmysql & _).
  eexists _, _. split; [by vm_compute|]. split; [left|].
  eapply Hmysql; [by vm_compute|left].
Defined.

(** *** A created record in the cache *)

Lemma kr_ret {A} (a : A) : keeps_redis (ret a).
Proof. done. Qed.

Lemma kr_throw {A} e : keeps_redis (@throw A e).
Proof. done. Qed.

Lemma kr_bind {A B} (m : M A) (k : A → M B) :
  keeps_redis m → (∀ a, keeps_redis (k a)) → keeps_redis (bind m k).
Proof.
  intros Hm Hk w. unfold bind. specialize (Hm w).
  destruct (m w) as [w1 [a|e]]; cbn in *; [|done]. by rewrite Hk.
Qed.

Lemma kr_catch {A} (m : M A) (h : Exn → M A) :
  keeps_redis m → (∀ e, keeps_redis (h e)) → keeps_redis (try_catch m h).
Proof.
  intros Hm Hh w. unfold try_catch. specialize (Hm w).
  destruct (m w) as [w1 [a|e]]; cbn in *; [done|]. by rewrite Hh.
Qed.

Lemma kr_uuidv4 : keeps_redis uuidv4.
Proof. done. Qed.

Lemma kr_rethrow e : keeps_redis (rethrow_DataError e).
Proof. unfold rethrow_DataError. by destruct (instanceof_DataError e). Qed.

Lemma kr_insert t new : keeps_redis (Db.insert t new).
Proof. intros w. rewrite insert_spec. repeat case_match; by destruct w. Qed.

Lemma kr_select_where t conds : keeps_redis (Db.select_where t conds).
Proof. intros w. rewrite select_where_spec. repeat case_match; by destruct w. Qed.

Lemma kr_insertMany t docs : keeps_redis (Db.insertMany t docs).
Proof. intros w. rewrite insertMany_spec. repeat case_match; by destruct w. Qed.

Ltac kr :=
  repeat first
    [ apply kr_ret | apply kr_throw | apply kr_uuidv4 | apply kr_rethrow
    | apply kr_insert | apply kr_select_where | apply kr_insertMany
    | apply kr_bind; [|intros ?] | apply kr_catch; [|intros ?]
    | case_match ].

Lemma create_keeps_redis adapter t r c :
  adapter ∈ repository_adapters → keeps_redis (IDatabaseAdapter.create adapter t r c).
Proof.
  unfold repository_adapters. rewrite !elem_of_cons, elem_of_nil.
  intros [->|[->|[->|[->|[]]]]]; cbn [IDatabaseAdapter.create PostgreSQLAdapter.adapter
    MySQLAdapter.adapter SupabaseAdapter.adapter MongoDBAdapter.adapter].
  - unfold PostgreSQLAdapter.create. kr; done.
  - unfold MySQLAdapter.create. kr; done.
  - unfold SupabaseAdapter.create, SupabaseAdapter.client, SupabaseAdapter.single,
      SupabaseAdapter.stamp, SupabaseAdapter.with_default_id, Db.fail. kr; done.
  - unfold MongoDBAdapter.create, MongoDBAdapter.new_document. kr; done.
Qed.

Lemma audit_keeps_redis adapter logData :
  adapter ∈ repository_adapters →
  keeps_redis (DataManagerV3.createAuditLog adapter logData).
Proof.
  intros Hin. unfold DataManagerV3.createAuditLog. kr; try done.
  by apply create_keeps_redis.
Qed.

Lemma redis_set_up cfg key v context ttl w :
  redis_up (w_redis w) = true →
  0 < effective_ttl cfg ttl →
  ∃ w1, RedisCacheAdapter.set cfg key v context ttl w = (w1, Ret tt)
        ∧ w_redis w1
          = mkRedis (<[RedisCacheAdapter.getTenantKey cfg key (tenant_id context)
                       := (RedisCacheAdapter.serialize v, effective_ttl cfg ttl)]>
                       (keyspace (w_redis w))) true.
Proof.
  intros Hup Httl. destruct w as [db [ks up] stats locked timers rng clock events].
  cbn in Hup. subst up.
  unfold RedisCacheAdapter.set, try_catch, bind, RedisCacheAdapter.redis_setex,
    RedisCacheAdapter.redis_cmd, RedisCacheAdapter.setex, RedisCacheAdapter.set_totalKeys,
    modify.
  fold (effective_ttl cfg ttl).
  destruct (effective_ttl cfg ttl <=? 0) eqn:Hle; [apply Z.leb_le in Hle; lia|].
  cbn. by eexists.
Qed.

Lemma redis_get_hit cfg key context w v ttl :
  redis_up (w_redis w) = true →
  keyspace (w_redis w) !! RedisCacheAdapter.getTenantKey cfg key (tenant_id context)
  = Some (v, ttl) →
  ∃ w', RedisCacheAdapter.get cfg key context w = (w', Ret v).
Proof.
  intros Hup Hk. destruct w as [db [ks up] stats locked timers rng clock events].
  cbn in Hup, Hk. subst up.
  unfold RedisCacheAdapter.get, try_catch, bind, RedisCacheAdapter.redis_get,
    RedisCacheAdapter.redis_cmd, RedisCacheAdapter.add_hit, modify.
  cbn. rewrite Hk. cbn. by eexists.
Qed.

(** X27: a record created through the facade is served from the cache
    afterwards, in the form JSON gives it.  Over each adapter of the
    repository, with the Redis cache reachable and no analytics engine or
    event provider, a [create] whose adapter call returned a record
    returns that record and leaves its JSON copy in the cache: a [Date]
    among its fields is held as its ISO string.  From then on [getById]
    for its id answers with that copy, not with the record as [create]
    returned it, for as long as Redis holds what it held after the
    [create]: the database is not asked, whatever it holds by then and
    whichever adapter stands behind the facade. *)
Theorem created_record_is_served_from_the_cache adapter cfg table d context options id use
    ttl w w1 result row :
  adapter ∈ repository_adapters →
  IDatabaseAdapter.create adapter table d context w = (w1, Ret result) →
  data result = VObj row →
  js_string (prop (data result) "id") = id →
  DataManagerV3.create_skipCache options = false →
  0 < num_or (DataManagerV3.create_cacheTTL options) 3600 →
  redis_up (w_redis w1) = true →
  DataManagerV3.cache_wanted use = true →
  ∃ w',
    DataManagerV3.create adapter None (Some (redis_provider cfg)) None table d context
      options w = (w', Ret result)
    ∧ cache_entry cfg w' (table +:+ ":" +:+ id) context
      = Some (json_copy (data result), num_or (DataManagerV3.create_cacheTTL options) 3600)
    ∧ ∀ other w2,
        w_redis w2 = w_redis w' →
        snd (DataManagerV3.getById other (Some (redis_provider cfg)) None table id context
               use ttl w2)
        = Ret (result_data (json_copy (data result))).
Proof.
  intros Hin Hcreate Hrow Hid Hskip Httl Hup Hwanted.
  assert (Hdata : truthy (data result) = true) by (by rewrite Hrow).
  assert (Hcopy : truthy (json_copy (data result)) = true) by (by rewrite Hrow).
  set (t := num_or (DataManagerV3.create_cacheTTL options) 3600) in *.
  assert (Heff : effective_ttl cfg (Some t) = t).
  { unfold effective_ttl. cbn [num_or]. destruct (t =? 0) eqn:H0; [|done].
    apply Z.eqb_eq in H0. lia. }
  destruct (redis_set_up cfg (table +:+ ":" +:+ id) (data result) context (Some t) w1 Hup)
    as (ws & Hset & Hws); [lia|]. rewrite Heff in Hws.
  unfold RedisCacheAdapter.serialize in Hws.
  set (logData := [("tenant_id", VStr (tenant_id context));
                   ("user_id", VStr (user_id context));
                   ("action", VStr "CREATE"); ("resource_type", VStr table);
                   ("resource_id", prop (data result) "id"); ("new_values", VObj d)]).
  destruct (FacadeProofs.createAuditLog_never_throws adapter logData ws)
    as (w' & [] & Haudit).
  pose proof (audit_keeps_redis adapter logData Hin ws) as Hkeep.
  rewrite Haudit in Hkeep. cbn [fst] in Hkeep.
  assert (Hentry : cache_entry cfg w' (table +:+ ":" +:+ id) context
                   = Some (json_copy (data result), t)).
  { unfold cache_entry. rewrite Hkeep, Hws. cbn [keyspace]. apply lookup_insert_eq. }
  exists w'. split_and!.
  - unfold DataManagerV3.create, bind at 1, try_catch. cbn [Date_now].
    unfold bind at 1. rewrite Hcreate, Hdata. rewrite Hskip, Hid.
    cbn [negb when ICacheProvider.set redis_provider DataManagerV3.with_analytics
         DataManagerV3.emit_event].
    fold t. fold logData. unfold bind. rewrite Hset. cbn [ret]. by rewrite Haudit.
  - exact Hentry.
  - intros other w2 Hredis.
    unfold DataManagerV3.getById, bind at 1, try_catch. cbn [Date_now]. rewrite Hwanted.
    unfold bind at 1. cbn [ICacheProvider.get redis_provider].
    destruct (redis_get_hit cfg (table +:+ ":" +:+ id) context w2
                (json_copy (data result)) t) as [w3 ->].
    + by rewrite Hredis, Hkeep, Hws.
    + unfold cache_entry in Hentry. by rewrite Hredis.
    + by rewrite Hcopy.
Qed.

Lemma created_record_is_served_from_the_cache_witness :
  let w1 := fst (PostgreSQLAdapter.create "projects" acme ctx_A sql_world) in
  let created := [("id", VStr "uuid-0"); ("tenant_id", VStr "tenant-a");
                  ("name", VStr "Acme");
                  ("created_at", VDate 0); ("updated_at", VDate 0)] in
  let cached := [("id", VStr "uuid-0"); ("tenant_id", VStr "tenant-a");
                 ("name", VStr "Acme");
                 ("created_at", VStr "0"); ("updated_at", VStr "0")] in
  (PostgreSQLAdapter.adapter ∈ repository_adapters
   ∧ IDatabaseAdapter.create PostgreSQLAdapter.adapter "projects" acme ctx_A sql_world
     = (w1, Ret (result_data (VObj created)))
   ∧ js_string (prop (VObj created) "id") = "uuid-0"
   ∧ redis_up (w_redis w1) = true)
  ∧ ∃ w',
      DataManagerV3.create PostgreSQLAdapter.adapter None (Some default_redis) None
        "projects" acme ctx_A DataManagerV3.no_create_options sql_world
      = (w', Ret (result_data (VObj created)))
      ∧ snd (DataManagerV3.getById MongoDBAdapter.adapter (Some default_redis) None
               "projects" "uuid-0" ctx_A None None w')
        = Ret (result_data (VObj cached)).
Proof.
  intros w1 created cached.
  assert (Hin : PostgreSQLAdapter.adapter ∈ repository_adapters) by left.
  assert (Hcreate : IDatabaseAdapter.create PostgreSQLAdapter.adapter "projects" acme ctx_A
                      sql_world = (w1, Ret (result_data (VObj created))))
    by (by vm_compute).
  assert (Hid : js_string (prop (VObj created) "id") = "uuid-0") by reflexivity.
  assert (Hup : redis_up (w_redis w1) = true) by (by vm_compute).
  split; [done|].
  destruct (created_record_is_served_from_the_cache PostgreSQLAdapter.adapter
              (RedisCacheAdapter.mkConfig None None) "projects" acme ctx_A
              DataManagerV3.no_create_options "uuid-0" None None sql_world w1
              (result_data (VObj created)) created Hin Hcreate eq_refl Hid)
    as (w' & Hrun & _ & Hget); [reflexivity|by vm_compute|exact Hup|reflexivity|].
  exists w'. split; [exact Hrun|]. by apply Hget.
Defined.

End FacadeLaws.

(** * Further properties of the migration engine *)

Module MigrationLaws.
Import MigrationManager.

Lemma sql_query_returns sql params w : ∃ w' r, sql_query sql params w = (w', Ret r).
Proof.
  unfold sql_query, try_catch, bind, return_error, ret.
  destruct (MigrationsTable.execute sql params w) as [w1 [found|e]]; by eexists _, _.
Qed.

Lemma pg_query_returns sql params w :
  ∃ w' r, PostgreSQLAdapter.query sql params w = (w', Ret r).
Proof.
  unfold PostgreSQLAdapter.query, try_catch, bind, return_error, ret.
  destruct (has_placeholders sql); [by eexists _, _|].
  destruct (MigrationsTable.execute sql params w) as [w1 [found|e]]; by eexists _, _.
Qed.

Lemma answers_with_results_returns adapter sql params w :
  answers_with_results adapter →
  ∃ w' r, IDatabaseAdapter.query adapter sql params w = (w', Ret r).
Proof. intros [->| ->]; [apply sql_query_returns|apply pg_query_returns]. Qed.

Ltac step_query Hq :=
  match goal with
  | |- context [IDatabaseAdapter.query ?a ?s ?p ?w'] =>
      let w1 := fresh "w" in
      let r := fresh "r" in
      let H := fresh "H" in
      destruct (answers_with_results_returns a s p w' Hq) as (w1 & r & H);
      rewrite H; cbn beta iota
  end.

Lemma runSingle_completes (adapter : IDatabaseAdapter.t) m w :
  answers_with_results adapter →
  ∃ w' r, runSingleMigration adapter m w = (w', Ret r)
          ∧ MigrationResult.status r = COMPLETED ∧ MigrationResult.error r = None.
Proof.
  intros Hq.
  unfold runSingleMigration, recordMigrationStart, recordMigrationCompletion, query,
    try_catch, bind, Date_now, new_Date, ret.
  repeat step_query Hq. by eexists _, _.
Qed.

Lemma rollbackSingle_completes (adapter : IDatabaseAdapter.t) row w :
  answers_with_results adapter →
  ∃ w' r, rollbackSingleMigration adapter row w = (w', Ret r)
          ∧ MigrationResult.status r = ROLLED_BACK ∧ MigrationResult.error r = None.
Proof.
  intros Hq.
  unfold rollbackSingleMigration, query, try_catch, bind, Date_now, ret.
  repeat step_query Hq. by eexists _, _.
Qed.

(** X18: over the PostgreSQL and the MySQL adapter, whose [query] answers
    a failure with an error result instead of throwing, the engine never
    sees a failure: [runSingleMigration] always reports [COMPLETED] and
    [rollbackSingleMigration] always [ROLLED_BACK], without an error
    message, whatever the server made of the statements and of the
    script. *)
Theorem sql_adapters_never_report_failure (m : Migration.t) (row : Value) w :
  (∃ w' r, runSingleMigration PostgreSQLAdapter.adapter m w = (w', Ret r)
           ∧ MigrationResult.status r = COMPLETED ∧ MigrationResult.error r = None)
  ∧ (∃ w' r, runSingleMigration MySQLAdapter.adapter m w = (w', Ret r)
             ∧ MigrationResult.status r = COMPLETED ∧ MigrationResult.error r = None)
  ∧ (∃ w' r, rollbackSingleMigration PostgreSQLAdapter.adapter row w = (w', Ret r)
             ∧ MigrationResult.status r = ROLLED_BACK ∧ MigrationResult.error r = None)
  ∧ (∃ w' r, rollbackSingleMigration MySQLAdapter.adapter row w = (w', Ret r)
             ∧ MigrationResult.status r = ROLLED_BACK ∧ MigrationResult.error r = None).
Proof.
  split_and!;
    first [ apply runSingle_completes; by right
          | apply runSingle_completes; by left
          | apply rollbackSingle_completes; by right
          | apply rollbackSingle_completes; by left ].
Qed.

(** *** Validation *)

Lemma validate_invalid m w :
  valid_migration m = false →
  ∃ msg, validateMigration m w
         = (w, Throw (SDKError msg ErrorCodes.CONFIGURATION_ERROR 400)).
Proof.
  unfold valid_migration, validateMigration.
  destruct (String.eqb (Migration.id m) ""); [by eexists|].
  destruct (String.eqb (Migration.name m) ""); [by eexists|].
  destruct (String.eqb (Migration.up m) ""); [by eexists|].
  destruct (String.eqb (Migration.down m) ""); [by eexists|]. done.
Qed.

Lemma filter_pending_invalid ids migs w :
  Exists (fun m => valid_migration m = false) migs →
  ∃ msg, filter_pending ids migs w
         = (w, Throw (SDKError msg ErrorCodes.CONFIGURATION_ERROR 400)).
Proof.
  induction migs as [|m migs IH]; intros Hex; [by apply Exists_nil in Hex|].
  cbn [filter_pending]. unfold bind.
  destruct (valid_migration m) eqn:Hm.
  - rewrite (MigrationProofs.validate_valid m w Hm).
    apply Exists_cons in Hex as [Hex|Hex]; [congruence|].
    destruct (IH Hex) as [msg ->]. by exists msg.
  - destruct (validate_invalid m w Hm) as [msg ->]. by exists msg.
Qed.

Lemma pg_rejects_placeholders sql params w :
  has_placeholders sql = true →
  PostgreSQLAdapter.query sql params w
  = (ticked w, Ret (result_error "syntax error at end of input")).
Proof.
  intros Hp. unfold PostgreSQLAdapter.query, try_catch, bind. rewrite Hp.
  by destruct w as [[] ? ? ? ? ? ? ?].
Qed.

(** A statement without placeholders reaches the server through each
    relational adapter. *)
Lemma query_relational adapter sql params w :
  relational adapter →
  has_placeholders sql = false →
  fst (query adapter sql params w) = fst (MigrationsTable.execute sql params w)
  ∧ match snd (MigrationsTable.execute sql params w) with
    | Ret found => snd (query adapter sql params w) = Ret (result_data (rows_value found))
    | Throw e => True
    end.
Proof.
  intros [Hq|Hq] Hp.
  - destruct (MigrationProofs.query_sql_backed adapter sql params w Hq) as [Hw Hr].
    split; [exact Hw|]. by destruct (snd (MigrationsTable.execute sql params w)).
  - unfold query. rewrite Hq. unfold PostgreSQLAdapter.query, try_catch, bind. rewrite Hp.
    by destruct (MigrationsTable.execute sql params w) as [w1 [found|e]].
Qed.

(** X19: every migration handed to [runMigrations] is validated before
    anything runs, the completed ones included: over each relational
    adapter, when one of them lacks its id, name, forward or reverse
    script, the run throws an [SDKError] with code [CONFIGURATION_ERROR]
    and status 400, no script has been submitted, the migrations table is
    as it was, and the lock is released. *)
Theorem invalid_migration_aborts_the_run adapter config migs w :
  relational adapter →
  is_Some (migrations (w_db w)) →
  w_isLocked w = false →
  Exists (fun m => valid_migration m = false) migs →
  ∃ w' msg,
    runMigrations adapter config migs w
    = (w', Throw (SDKError msg ErrorCodes.CONFIGURATION_ERROR 400))
    ∧ w_isLocked w' = false
    ∧ migrations (w_db w') = migrations (w_db w)
    ∧ script_log (w_db w') = script_log (w_db w).
Proof.
  intros Hq [rs Hrs] Hlock Hex.
  rewrite (MigrationProofs.run_unlocked adapter config migs w Hlock).
  unfold try_finally, bind. rewrite (MigrationProofs.acquire_unlocked config w Hlock).
  set (wa := set_timers _ (set_isLocked true w)).
  assert (Hrsa : migrations (w_db wa) = Some rs) by done.
  unfold getPendingMigrations, bind. cbn [status_string].
  assert (Hsel : ∃ r1, query adapter SELECT_IDS_BY_STATUS [VStr "completed"] wa
                       = (ticked wa, Ret r1)).
  { destruct Hq as [Hq|Hq].
    - destruct (MigrationProofs.query_sql_backed adapter SELECT_IDS_BY_STATUS
                  [VStr "completed"] wa Hq) as [Hw Hr].
      rewrite (MigrationProofs.exec_select_completed wa rs Hrsa) in Hw, Hr. cbn in Hw, Hr.
      destruct (query adapter SELECT_IDS_BY_STATUS [VStr "completed"] wa) as [w1 r1].
      cbn in Hw, Hr. subst w1 r1. by eexists.
    - unfold query. rewrite Hq, pg_rejects_placeholders by done. by eexists. }
  destruct Hsel as [r1 ->].
  destruct (filter_pending_invalid (ids_of (data r1)) migs (ticked wa) Hex) as [msg ->].
  unfold releaseLock, modify. eexists _, msg. split; [reflexivity|].
  subst wa. by destruct w as [[] ? ? ? ? ? ? ?].
Qed.

Lemma invalid_migration_aborts_the_run_witness :
  let nameless := Migration.mk "20240104_audit" "" "20240104" "CREATE TABLE audit (id INT)"
                               "DROP TABLE audit" None in
  ∃ w' msg,
    runMigrations SupabaseAdapter.adapter default_config [M1; nameless] migration_world
    = (w', Throw (SDKError msg ErrorCodes.CONFIGURATION_ERROR 400))
    ∧ script_log (w_db w') = [].
Proof.
  destruct (invalid_migration_aborts_the_run SupabaseAdapter.adapter default_config
              [M1; Migration.mk "20240104_audit" "" "20240104" "CREATE TABLE audit (id INT)"
                     "DROP TABLE audit" None] migration_world)
    as (w' & msg & Hrun & _ & _ & Hlog).
  - left. by right.
  - by eexists.
  - reflexivity.
  - apply Exists_cons. right. apply Exists_cons. by left.
  - exists w', msg. split; [exact Hrun|]. by rewrite Hlog.
Defined.

(** *** Status counts *)

Lemma exec_select_statuses w rs :
  migrations (w_db w) = Some rs →
  MigrationsTable.execute SELECT_STATUSES [] w
  = (ticked w, Ret (map (fun r => [("status", VStr (row_status r))]) rs)).
Proof. MigrationProofs.open_world w. intros ->. reflexivity. Qed.

Lemma exec_statuses_missing w :
  migrations (w_db w) = None →
  MigrationsTable.execute SELECT_STATUSES [] w
  = (ticked w, Throw (JsError "relation migrations does not exist")).
Proof. MigrationProofs.open_world w. intros ->. reflexivity. Qed.

Lemma count_status_rows rs s :
  count_status (map VObj (map (fun r => [("status", VStr (row_status r))]) rs)) s
  = rows_with_status (status_string s) rs.
Proof.
  unfold count_status, rows_with_status. f_equal.
  induction rs as [|r rs IH]; [done|]. cbn.
  destruct (String.eqb (row_status r) (status_string s)); cbn; by rewrite IH.
Qed.

Lemma status_counts_bounded rs :
  rows_with_status "completed" rs + rows_with_status "pending" rs
  + rows_with_status "failed" rs ≤ Z.of_nat (length rs).
Proof.
  unfold rows_with_status. induction rs as [|r rs IH]; [done|]. cbn [List.filter length].
  destruct (String.eqb (row_status r) "completed") eqn:H1;
    destruct (String.eqb (row_status r) "pending") eqn:H2;
    destruct (String.eqb (row_status r) "failed") eqn:H3;
    rewrite ?String.eqb_eq in *; try congruence; cbn [length]; lia.
Qed.

(** X20: [getMigrationStatus] counts the rows of the migrations table:
    [total] is their number, [executed], [pending] and [failed] the
    numbers of rows recorded as completed, pending and failed, which
    together never exceed [total] (a row left as running is in none of the
    three), over each relational adapter.  Without the table, the
    PostgreSQL and MySQL adapters make it answer with zeros, and the
    Supabase adapter makes it throw its [SDKError]. *)
Theorem getMigrationStatus_counts_rows adapter w :
  (∀ rs, relational adapter → migrations (w_db w) = Some rs →
         snd (getMigrationStatus adapter w)
         = Ret (mkCounts (Z.of_nat (length rs)) (rows_with_status "completed" rs)
                         (rows_with_status "pending" rs) (rows_with_status "failed" rs))
         ∧ rows_with_status "completed" rs + rows_with_status "pending" rs
           + rows_with_status "failed" rs ≤ Z.of_nat (length rs))
  ∧ (answers_with_results adapter → migrations (w_db w) = None →
     snd (getMigrationStatus adapter w) = Ret (mkCounts 0 0 0 0))
  ∧ (IDatabaseAdapter.query adapter = SupabaseAdapter.query → migrations (w_db w) = None →
     snd (getMigrationStatus adapter w)
     = Throw (SDKError "Failed to get migration status" ErrorCodes.DATABASE_ERROR 500)).
Proof.
  split_and!.
  - intros rs Hq Hrs. split; [|apply status_counts_bounded].
    unfold getMigrationStatus, try_catch, bind.
    destruct (query_relational adapter SELECT_STATUSES [] w Hq eq_refl) as [_ Hr].
    rewrite (exec_select_statuses w rs Hrs) in Hr. cbn in Hr.
    destruct (query adapter SELECT_STATUSES [] w) as [w1 r1]. cbn in Hr. subst r1.
    cbn. unfold rows_value. rewrite !count_status_rows, !length_map. reflexivity.
  - intros [Hq|Hq] Hrs; unfold getMigrationStatus, try_catch, bind, query; rewrite Hq;
      unfold sql_query, PostgreSQLAdapter.query, try_catch, bind, return_error;
      cbn [has_placeholders]; by rewrite (exec_statuses_missing w Hrs).
  - intros Hq Hrs. unfold getMigrationStatus, try_catch, bind, query. rewrite Hq.
    unfold SupabaseAdapter.query, SupabaseAdapter.client, try_catch, bind.
    by rewrite (exec_statuses_missing w Hrs).
Qed.

Lemma getMigrationStatus_counts_rows_witness :
  let w := fst (runMigrations SupabaseAdapter.adapter default_config [M1; M2; M3]
                  broken_M2_world) in
  relational SupabaseAdapter.adapter
  ∧ (∃ rs, migrations (w_db w) = Some rs ∧ length rs = 2%nat)
  ∧ snd (getMigrationStatus SupabaseAdapter.adapter w) = Ret (mkCounts 2 1 0 1).
Proof.
  set (w := fst (runMigrations SupabaseAdapter.adapter default_config [M1; M2; M3]
                   broken_M2_world)).
  assert (Hq : relational SupabaseAdapter.adapter) by (left; by right).
  assert (Hrs : ∃ rs, migrations (w_db w) = Some rs ∧ length rs = 2%nat)
    by (eexists; split; by vm_compute).
  split; [exact Hq|]. split; [exact Hrs|].
  destruct Hrs as (rs & Hrs & _).
  destruct (getMigrationStatus_counts_rows SupabaseAdapter.adapter w) as (Hcounts & _).
  destruct (Hcounts rs Hq Hrs) as [-> _].
  assert (Hrs' : Some rs = migrations (w_db w)) by done.
  vm_compute in Hrs'. injection Hrs' as ->. by vm_compute.
Defined.

(** *** Initialisation *)

Lemma exec_create_table w :
  MigrationsTable.execute CREATE_MIGRATIONS_TABLE [] w
  = (with_rows (recorded_rows w) (ticked w), Ret []).
Proof.
  MigrationProofs.open_world w. unfold MigrationsTable.execute, bind, Db.tick, modify.
  cbn. unfold recorded_rows. cbn. by destruct migs.
Qed.

(** X21: [initialize] creates the migrations table once: over each
    relational adapter, with [createMigrationsTable] set, it
    returns and leaves a migrations table holding the rows it held before
    (none when it was missing); with [createMigrationsTable] unset it does
    nothing at all, over any adapter. *)
Theorem initialize_creates_the_table_once adapter config w :
  (createMigrationsTable config = true → relational adapter →
   initialize adapter config w = (with_rows (recorded_rows w) (ticked w), Ret tt))
  ∧ (createMigrationsTable config = false → initialize adapter config w = (w, Ret tt))
  ∧ recorded_rows (with_rows (recorded_rows w) (ticked w)) = recorded_rows w.
Proof.
  split_and!.
  - intros Hc Hq. unfold initialize, try_catch, bind, when. rewrite Hc.
    destruct (query_relational adapter CREATE_MIGRATIONS_TABLE [] w Hq eq_refl)
      as [Hw Hr].
    rewrite exec_create_table in Hw, Hr. cbn in Hw, Hr.
    destruct (query adapter CREATE_MIGRATIONS_TABLE [] w) as [w1 r1].
    cbn in Hw, Hr. by subst w1 r1.
  - intros Hc. unfold initialize, try_catch, when. by rewrite Hc.
  - reflexivity.
Qed.

Lemma initialize_creates_the_table_once_witness :
  (createMigrationsTable default_config = true ∧ relational PostgreSQLAdapter.adapter)
  ∧ initialize PostgreSQLAdapter.adapter default_config empty_world
    = (with_rows [] (ticked empty_world), Ret tt).
Proof.
  assert (Hq : relational PostgreSQLAdapter.adapter) by (by right).
  split; [by split|].
  by apply (initialize_creates_the_table_once PostgreSQLAdapter.adapter default_config
              empty_world).
Defined.

(** *** Rollback *)

Lemma exec_select_to_rollback w rs target :
  migrations (w_db w) = Some rs →
  MigrationsTable.execute SELECT_TO_ROLLBACK [VStr target; VStr "completed"] w
  = (ticked w,
     Ret (map MigrationsTable.row_value
            (foldr MigrationsTable.insert_desc [] (List.filter (above_target target) rs)))).
Proof. MigrationProofs.open_world w. intros ->. reflexivity. Qed.

Lemma exec_delete w rs id :
  migrations (w_db w) = Some rs →
  MigrationsTable.execute DELETE_MIGRATION [VStr id] w
  = (with_rows (List.filter (fun r => negb (String.eqb (row_id r) id)) rs) (ticked w),
     Ret []).
Proof. MigrationProofs.open_world w. intros ->. reflexivity. Qed.

(** A statement the server accepts, through an adapter that reaches it. *)
Lemma query_accepted adapter sql params w w1 found :
  sql_backed adapter →
  MigrationsTable.execute sql params w = (w1, Ret found) →
  query adapter sql params w = (w1, Ret (result_data (rows_value found))).
Proof.
  intros Hq Hex. destruct (MigrationProofs.query_sql_backed adapter sql params w Hq)
    as [Hw Hr].
  rewrite Hex in Hw, Hr. cbn in Hw, Hr.
  destruct (query adapter sql params w) as [w' r']. cbn in Hw, Hr. by subst.
Qed.

Lemma insert_desc_perm r l : MigrationsTable.insert_desc r l ≡ₚ r :: l.
Proof.
  induction l as [|y l IH]; [done|]. cbn.
  destruct (String.leb (row_version y) (row_version r)); [done|].
  rewrite IH. apply Permutation_swap.
Qed.

Lemma sort_desc_perm l : foldr MigrationsTable.insert_desc [] l ≡ₚ l.
Proof.
  induction l as [|r l IH]; [done|]. cbn. by rewrite insert_desc_perm, IH.
Qed.

Lemma insert_desc_descends r l :
  versions_descend l = true → versions_descend (MigrationsTable.insert_desc r l) = true.
Proof.
  unfold versions_descend.
  induction l as [|y l IH]; [done|]. intros Hl. cbn [MigrationsTable.insert_desc].
  destruct (String.leb (row_version y) (row_version r)) eqn:Hyr.
  - cbn [adjacent]. rewrite Hyr. exact Hl.
  - assert (Hry : String.leb (row_version r) (row_version y) = true).
    { destruct (String.leb_total (row_version r) (row_version y)); congruence. }
    destruct l as [|z l].
    + cbn. by rewrite Hry.
    + cbn [adjacent] in Hl. apply andb_prop in Hl as [Hzy Hl].
      specialize (IH Hl). cbn [MigrationsTable.insert_desc] in IH |- *.
      destruct (String.leb (row_version z) (row_version r)) eqn:Hzr.
      * cbn [adjacent]. cbn [adjacent] in IH. by rewrite Hry.
      * cbn [adjacent]. rewrite Hzy. exact IH.
Qed.

Lemma sort_desc_descends l :
  versions_descend (foldr MigrationsTable.insert_desc [] l) = true.
Proof. induction l as [|r l IH]; [done|]. cbn. by apply insert_desc_descends. Qed.

Lemma adjacent_snoc {A} (R : A → A → bool) l x :
  adjacent R (l ++ [x])
  = adjacent R l && match last l with Some y => R y x | None => true end.
Proof.
  induction l as [|a l IH]; [done|].
  destruct l as [|b l]; [cbn; by rewrite andb_true_r|].
  change (adjacent R ((a :: b :: l) ++ [x]))
    with (R a b && adjacent R ((b :: l) ++ [x])).
  rewrite IH. cbn [adjacent]. rewrite andb_assoc. f_equal.
Qed.

Lemma adjacent_rev {A} (R : A → A → bool) l :
  adjacent (fun a b => R b a) (rev l) = adjacent R l.
Proof.
  induction l as [|a l IH]; [done|].
  cbn [rev]. rewrite adjacent_snoc, IH.
  destruct l as [|b l]; [done|].
  cbn [adjacent rev]. rewrite last_snoc. apply andb_comm.
Qed.

Lemma rollback_order_ascends l :
  versions_ascend (rev (foldr MigrationsTable.insert_desc [] l)) = true.
Proof.
  unfold versions_ascend.
  rewrite (adjacent_rev (fun a b => String.leb (row_version b) (row_version a))).
  apply sort_desc_descends.
Qed.

(** One accepted rollback: the script reaches the server, then the row is
    deleted. *)
Lemma rollbackSingle_accepted adapter row w rs :
  sql_backed adapter →
  migrations (w_db w) = Some rs →
  script_fails w (row_rollback_sql row) = false →
  ∃ w' res,
    rollbackSingleMigration adapter (VObj (MigrationsTable.row_value row)) w = (w', Ret res)
    ∧ MigrationResult.id res = row_id row
    ∧ MigrationResult.status res = ROLLED_BACK
    ∧ migrations (w_db w')
      = Some (List.filter (fun r => negb (String.eqb (row_id r) (row_id row))) rs)
    ∧ script_log (w_db w') = script_log (w_db w) ++ [row_rollback_sql row]
    ∧ bad_scripts (w_db w') = bad_scripts (w_db w)
    ∧ w_isLocked w' = w_isLocked w.
Proof.
  intros Hq Hrs Hok.
  unfold rollbackSingleMigration, try_catch, bind, Date_now, ret.
  change (MigrationsTable.str_param (prop (VObj (MigrationsTable.row_value row)) "rollback_sql"))
    with (row_rollback_sql row).
  change (prop (VObj (MigrationsTable.row_value row)) "id") with (VStr (row_id row)).
  assert (Hscript : MigrationsTable.execute (SCRIPT (row_rollback_sql row)) [] w
                    = (logged (row_rollback_sql row) (ticked w), Ret [])).
  { rewrite MigrationProofs.exec_script. unfold script_fails in Hok.
    by destruct (List.find _ (bad_scripts (w_db w))). }
  rewrite (query_accepted adapter _ _ _ _ _ Hq Hscript).
  set (w1 := logged (row_rollback_sql row) (ticked w)).
  assert (Hrs1 : migrations (w_db w1) = Some rs).
  { subst w1. by MigrationProofs.open_world w. }
  rewrite (query_accepted adapter _ _ _ _ _ Hq (exec_delete w1 rs (row_id row) Hrs1)).
  eexists _, _. split; [reflexivity|].
  subst w1. MigrationProofs.open_world w. by cbn.
Qed.

Lemma filter_rolled_back (row : MigRow) order rs :
  List.filter (fun r => negb (has_row order (row_id r)))
    (List.filter (fun r => negb (String.eqb (row_id r) (row_id row))) rs)
  = List.filter (fun r => negb (has_row (row :: order) (row_id r))) rs.
Proof.
  induction rs as [|r rs IH]; [done|]. cbn [List.filter].
  assert (Hhas : has_row (row :: order) (row_id r)
                 = String.eqb (row_id r) (row_id row) || has_row order (row_id r)).
  { unfold has_row. cbn [existsb]. by rewrite String.eqb_sym. }
  rewrite Hhas.
  destruct (String.eqb (row_id r) (row_id row)); cbn [negb orb].
  - exact IH.
  - cbn [List.filter]. destruct (has_row order (row_id r)); cbn [negb]; by rewrite IH.
Qed.

(** The loop of [rollbackTo] over rows whose reverse scripts are
    accepted. *)
Lemma rollback_each adapter order :
  sql_backed adapter →
  ∀ acc w rs,
    migrations (w_db w) = Some rs →
    rollbacks_accepted w order →
    ∃ w' new,
      run_each (rollbackSingleMigration adapter)
        (map VObj (map MigrationsTable.row_value order)) acc w = (w', Ret (acc ++ new))
      ∧ map MigrationResult.id new = map row_id order
      ∧ Forall (fun r => MigrationResult.status r = ROLLED_BACK) new
      ∧ migrations (w_db w')
        = Some (List.filter (fun r => negb (has_row order (row_id r))) rs)
      ∧ script_log (w_db w') = script_log (w_db w) ++ map row_rollback_sql order
      ∧ w_isLocked w' = w_isLocked w.
Proof.
  intros Hq. induction order as [|row order IH]; intros acc w rs Hrs Hok.
  - exists w, []. cbn. rewrite !app_nil_r. split_and!; try done.
    rewrite Hrs. f_equal. clear Hrs.
    induction rs as [|r rs IHrs]; [done|]. cbn. by rewrite <- IHrs.
  - apply Forall_cons in Hok as [Hrow Hok].
    destruct (rollbackSingle_accepted adapter row w rs Hq Hrs Hrow)
      as (w1 & res & Hrun & Hid & Hst & Hrs1 & Hlog1 & Hbad1 & Hlock1).
    assert (Hok1 : rollbacks_accepted w1 order).
    { unfold rollbacks_accepted, script_fails in *. by rewrite Hbad1. }
    destruct (IH (acc ++ [res]) w1 _ Hrs1 Hok1)
      as (w' & new & Hloop & Hids & Hsts & Hrs' & Hlog' & Hlock').
    exists w', (res :: new). cbn [map run_each]. unfold bind. rewrite Hrun.
    destruct (decide (MigrationResult.status res = FAILED)) as [Hf|_];
      [rewrite Hst in Hf; discriminate|].
    rewrite Hloop. split_and!.
    + by rewrite <- app_assoc.
    + cbn. by rewrite Hid, Hids.
    + by apply Forall_cons.
    + by rewrite Hrs', filter_rolled_back.
    + rewrite Hlog', Hlog1. by rewrite <- app_assoc.
    + by rewrite Hlock', Hlock1.
Qed.

(** X22: over the MySQL and the Supabase adapter, [rollbackTo] undoes the
    completed migrations above the target version, the one with the
    lowest version first: the server returns them by descending version
    and the loop runs over the reversed list.  When the server accepts
    their reverse scripts, the call returns one
    [ROLLED_BACK] result per such migration, the scripts have reached the
    server in that order, the rows of these migrations are gone from the
    migrations table while the others stay, and the lock is released. *)
Theorem rollbackTo_runs_in_ascending_order adapter config targetVersion w rs :
  sql_backed adapter →
  migrations (w_db w) = Some rs →
  w_isLocked w = false →
  rollbacks_accepted w (List.filter (above_target targetVersion) rs) →
  ∃ w' results order,
    rollbackTo adapter config targetVersion w = (w', Ret results)
    ∧ order ≡ₚ List.filter (above_target targetVersion) rs
    ∧ versions_ascend order = true
    ∧ map MigrationResult.id results = map row_id order
    ∧ Forall (fun r => MigrationResult.status r = ROLLED_BACK) results
    ∧ script_log (w_db w') = script_log (w_db w) ++ map row_rollback_sql order
    ∧ migrations (w_db w')
      = Some (List.filter (fun r => negb (has_row order (row_id r))) rs)
    ∧ w_isLocked w' = false.
Proof.
  intros Hq Hrs Hlock Hok.
  set (sel := List.filter (above_target targetVersion) rs) in *.
  set (order := rev (foldr MigrationsTable.insert_desc [] sel)).
  assert (Hperm : order ≡ₚ sel).
  { subst order. etrans; [symmetry; apply Permutation_rev|apply sort_desc_perm]. }
  unfold rollbackTo, bind, get_world. rewrite Hlock.
  unfold try_finally, bind. rewrite (MigrationProofs.acquire_unlocked config w Hlock).
  set (wa := set_timers _ (set_isLocked true w)).
  assert (Hrsa : migrations (w_db wa) = Some rs) by done.
  unfold getMigrationsToRollback, bind. cbn [status_string].
  rewrite (query_accepted adapter _ _ _ _ _ Hq
             (exec_select_to_rollback wa rs targetVersion Hrsa)).
  cbn [data result_data rows_value ret]. fold sel.
  rewrite <- !map_rev. fold order.
  assert (Hoka : rollbacks_accepted (ticked wa) order).
  { unfold rollbacks_accepted in *. rewrite Hperm.
    subst wa. by MigrationProofs.open_world w. }
  destruct (rollback_each adapter order Hq [] (ticked wa) rs) as
    (w' & new & Hloop & Hids & Hsts & Hrs' & Hlog' & Hlock'); [done|exact Hoka|].
  rewrite Hloop. cbn [app]. unfold releaseLock, modify.
  exists (set_isLocked false w'), new, order. split_and!; try done.
  apply rollback_order_ascends.
Qed.

Lemma rollbackTo_runs_in_ascending_order_witness :
  let w := fst (runMigrations SupabaseAdapter.adapter default_config [M1; M2; M3]
                  migration_world) in
  ∃ rs, (sql_backed SupabaseAdapter.adapter ∧ migrations (w_db w) = Some rs
         ∧ w_isLocked w = false
         ∧ rollbacks_accepted w (List.filter (above_target "20240101") rs))
        ∧ ∃ w' results,
            rollbackTo SupabaseAdapter.adapter default_config "20240101" w = (w', Ret results)
            ∧ length results = 2%nat
            ∧ length (script_log (w_db w')) = 5%nat
            ∧ w_isLocked w' = false.
Proof.
  set (w := fst (runMigrations SupabaseAdapter.adapter default_config [M1; M2; M3]
                   migration_world)).
  assert (Hq : sql_backed SupabaseAdapter.adapter) by (by right).
  assert (Hrs : ∃ rs, migrations (w_db w) = Some rs
                      ∧ length (List.filter (above_target "20240101") rs) = 2%nat
                      ∧ forallb (fun r => negb (script_fails w (row_rollback_sql r)))
                          (List.filter (above_target "20240101") rs) = true)
    by (eexists; split_and!; by vm_compute).
  destruct Hrs as (rs & Hrs & Hlen & Hacc).
  assert (Hok : rollbacks_accepted w (List.filter (above_target "20240101") rs)).
  { apply Forall_forall. intros r Hin.
    rewrite forallb_forall in Hacc. apply list_elem_of_In in Hin.
    specialize (Hacc r Hin).
    by apply negb_true_iff in Hacc. }
  assert (Hlock : w_isLocked w = false) by (by vm_compute).
  exists rs. split; [done|].
  destruct (rollbackTo_runs_in_ascending_order SupabaseAdapter.adapter default_config
              "20240101" w rs Hq Hrs Hlock Hok)
    as (w' & results & order & Hrun & Hperm & _ & Hids & _ & Hlog & _ & Hunlocked).
  exists w', results. split_and!; [exact Hrun| | |exact Hunlocked].
  - rewrite <- (length_map MigrationResult.id), Hids, length_map.
    by rewrite (Permutation_length Hperm).
  - rewrite Hlog, length_app, length_map, (Permutation_length Hperm), Hlen.
    by vm_compute.
Defined.

(** *** A migration that is already recorded *)

Lemma marked_row rs id (f : MigRow → MigRow) :
  (∀ r, row_id (f r) = row_id r) →
  has_row rs id = true →
  ∃ r, f r ∈ MigrationsTable.set_row id f rs ∧ row_id (f r) = id.
Proof.
  intros Hf. induction rs as [|r rs IH]; [done|]. cbn.
  destruct (String.eqb (row_id r) id) eqn:Hid; cbn.
  - intros _. exists r. split; [left|]. rewrite Hf. by apply String.eqb_eq.
  - intros Hrs. destruct (IH Hrs) as (r' & Hin & Hid'). exists r'. split; [by right|done].
Qed.

(** X29: a migration whose id the migrations table already holds without
    the status completed (it failed, or a run was interrupted) is pending
    again, and what happens then depends on the adapter.  Over the
    Supabase adapter the insert of its start record is refused, so the
    migration is reported [FAILED] with the message of the adapter, its
    forward script does not reach the server, and its row is marked as
    failed: it cannot be run again while the row is there.  Over the
    MySQL adapter the refused insert goes unnoticed, the forward script is
    submitted again and the row is marked as completed.  Over the
    PostgreSQL adapter neither the insert nor the update is accepted: the
    forward script is submitted again, the migration is reported
    [COMPLETED], and the migrations table stays as it was. *)
Theorem recorded_migration_is_pending_again adapter (m : Migration.t) w rs :
  migrations (w_db w) = Some rs →
  has_row rs (Migration.id m) = true →
  completed_id rs (Migration.id m) = false →
  (∀ w1 pending,
     sql_backed adapter →
     getPendingMigrations adapter [m] w = (w1, Ret pending) → pending = [m])
  ∧ (IDatabaseAdapter.query adapter = SupabaseAdapter.query →
     ∃ w' r,
       runSingleMigration adapter m w = (w', Ret r)
       ∧ MigrationResult.status r = FAILED
       ∧ MigrationResult.error r = Some "Query execution failed"
       ∧ script_log (w_db w') = script_log (w_db w)
       ∧ recorded_as w' (Migration.id m) "failed")
  ∧ (IDatabaseAdapter.query adapter = sql_query →
     ∃ w' r,
       runSingleMigration adapter m w = (w', Ret r)
       ∧ MigrationResult.status r = COMPLETED
       ∧ script_log (w_db w') = script_log (w_db w) ++ [Migration.up m]
       ∧ recorded_as w' (Migration.id m) "completed")
  ∧ (IDatabaseAdapter.query adapter = PostgreSQLAdapter.query →
     ∃ w' r,
       runSingleMigration adapter m w = (w', Ret r)
       ∧ MigrationResult.status r = COMPLETED
       ∧ script_log (w_db w') = script_log (w_db w) ++ [Migration.up m]
       ∧ migrations (w_db w') = Some rs).
Proof.
  intros Hrs Hrow Hnot. split_and!.
  - intros w1 pending Hq Hpend.
    rewrite (MigrationProofs.pending_is_not_completed adapter [m] w w1 pending Hq Hpend).
    unfold recorded_rows. rewrite Hrs. cbn [default from_option id List.filter].
    by rewrite Hnot.
  - intros Hq. rewrite (MigrationProofs.runSingle_throwing adapter m w rs Hq Hrs).
    cbv zeta. rewrite Hrow. eexists _, _. split; [reflexivity|].
    split_and!; [done|done|by MigrationProofs.open_world w|].
    destruct (marked_row rs (Migration.id m)
                (mark_failed "Query execution failed"
                   (w_clock w + latency (w_db w) - w_clock w)
                   (Some (w_clock w + latency (w_db w)))))
      as (r & Hin & Hid); [done|done|].
    eexists. split; [exact Hin|]. by split.
  - intros Hq. rewrite (MigrationProofs.runSingle_returning adapter m w rs Hq Hrs).
    eexists _, _. split; [reflexivity|].
    split_and!; [done|by MigrationProofs.open_world w|].
    unfold recorded_as, recorded_rows. rewrite MigrationProofs.after_completed_rows.
    unfold rows_started. rewrite Hrow. cbn [default from_option id].
    destruct (marked_row rs (Migration.id m)
                (mark_completed (w_clock w + latency (w_db w) + latency (w_db w))
                   (w_clock w + latency (w_db w) + latency (w_db w) - w_clock w)
                   (Some (w_clock w + latency (w_db w) + latency (w_db w)))))
      as (r & Hin & Hid); [done|done|].
    eexists. split; [exact Hin|]. by split.
  - intros Hq.
    unfold runSingleMigration, recordMigrationStart, recordMigrationCompletion, query,
      try_catch, bind, Date_now, new_Date, ret.
    rewrite Hq. rewrite !pg_rejects_placeholders by done.
    unfold PostgreSQLAdapter.query, try_catch, bind, return_error, ret.
    cbn [has_placeholders]. rewrite MigrationProofs.exec_script.
    eexists _, _. split; [by destruct (List.find _ _)|].
    MigrationProofs.open_world w. by subst migs.
Qed.

Lemma recorded_migration_is_pending_again_witness :
  let w := fst (runMigrations SupabaseAdapter.adapter default_config [M1; M2; M3]
                  broken_M2_world) in
  ∃ rs,
    (migrations (w_db w) = Some rs ∧ has_row rs (Migration.id M2) = true
     ∧ completed_id rs (Migration.id M2) = false)
    ∧ ∃ w' r,
        runSingleMigration SupabaseAdapter.adapter M2 w = (w', Ret r)
        ∧ MigrationResult.status r = FAILED
        ∧ script_log (w_db w') = script_log (w_db w).
Proof.
  set (w := fst (runMigrations SupabaseAdapter.adapter default_config [M1; M2; M3]
                   broken_M2_world)).
  assert (Hrs : ∃ rs, migrations (w_db w) = Some rs ∧ has_row rs (Migration.id M2) = true
                      ∧ completed_id rs (Migration.id M2) = false)
    by (eexists; split_and!; by vm_compute).
  destruct Hrs as (rs & Hrs & Hrow & Hnot). exists rs. split; [done|].
  destruct (recorded_migration_is_pending_again SupabaseAdapter.adapter M2 w rs Hrs Hrow Hnot)
    as (_ & Hsupabase & _ & _).
  destruct (Hsupabase eq_refl) as (w' & r & Hrun & Hst & _ & Hlog & _).
  by exists w', r.
Defined.

End MigrationLaws.
